(* ===== verification/_CoqProject ===== *)
-Q . S2P
Prelude.v
CStd.v
Boost.v
Os.v
Utils.v
Log.v
CidPool.v
Config.v
Aaf.v
Process.v
Flash.v
Tui.v
TuiView.v
Devices.v
Builder.v
BuilderProps.v
Lifecycle.v
GuestTheorems.v
Listener.v
Helpers.v
Server.v
ServerProps.v
ServerRun.v
StartProtocol.v
ProcProtocol.v
System.v
SystemProps.v
SystemTheorems.v
SystemCids.v
Cli.v
Message.v
Exchange.v
Main.v
