(* ===== verification/Prelude.v ===== *)
(** * A verification library for the CiV VM manager

    The program (src/src/) starts and supervises Android guests under QEMU.
    A server process keeps the registry of guests and answers requests that a
    command line client puts into shared memory; for each guest it builds the
    emulator's command line from an ini file, prepares devices, takes a vsock
    context id, starts the emulator and helper processes, waits until the guest
    reports ready, and gives everything back when the guest stops.

    ** Parts, files and correspondence

    - Prelude.v: outcomes of C++ code (a value, an exception, a call that never
      comes back), the state and exception monad [M], and the rules of the
      three kinds of specification used throughout: [grows] (a relation between
      the state before and after, however the code ends), [hoare] (partial
      correctness with one postcondition for abnormal ends) and [runs] (total
      correctness).  [ExTerminate] is the end of the process ([std::terminate]
      after an exception in a destructor or a thread, or a null pointer); no
      handler sees it.  A null pointer given to [std::string] is the exception
      [ExLogicError].
    - CStd.v: what the code uses of C and of the C++ library: strings,
      [stoi], [stoul], [atoi], formatted extraction, [std::set], [std::map].
      32- and 64-bit values are integers with explicit wrap-around or range
      checks.
    - Boost.v: the Boost functions the code calls (trim, split, property tree,
      ini files, paths, uuid, format) as the class [Boost] with documented
      behaviour as [BoostLaws]; [RefBoost] is an instance that satisfies it.
    - Os.v: the machine as a parameter: a type [oscall] of calls, a class
      [OsEnv] of machines that answer them, the log of the calls that act on
      the machine, and the trace of all calls with their answers.  [calls]
      gives the trace of a run, by which theorems say which calls were made in
      which order and which answers selected a branch; [all_gone] says of a
      trace that every process started in it was waited for, seen to have
      ended or terminated.  [SimOs] is a small machine for concrete examples.
    - Utils.v: utils/utils.{h,cc} and the string helper of utils/log.h: size
      literals, [GetConfigPath] with the ids of the process as state, and
      [Daemonize] with its descriptors, in whichever process [fork] selects.
    - Log.v: the rest of utils/log.h: the attributes, formats and sinks given to
      Boost.Log and the macro [LOG], in a debug and in a release build.
    - CidPool.v: guest/vsock_cid_pool.{h,cc}.  State: the bitset.  Operations:
      [GetCid_any], [GetCid], [ReleaseCid].  [Alloc] is the abstract allocator
      the pool refines, [Clients] the callers that hold ids.
    - Config.v: guest/config_parser.{h,cc}: the known sections and keys, the
      check of a configuration, reading, writing, [GetValue], [SetValue].
    - Aaf.v: guest/aaf.{h,cc}: the properties file shared with the guest.
    - Process.v: guest/vm_process.{h,cc}: plain, RPMB and TPM processes, with
      the monitor thread run inside [Run] up to the creation of the child; the
      destructors stop the process and terminate a child that still runs.
    - ProcProtocol.v: the same file as a step relation: [Run], the monitor
      thread, [Stop] and [Join] on the members and the latch they share, and
      the exception of [permissions] that leaves the thread.
    - Flash.v: guest/vm_flash.{h,cc}: the images on a virtual USB disk, the
      emulator that writes the guest's disk, and its two helper processes.
    - Tui.v: guest/tui.{h,cc}: the contents of the form, the list of PCI
      devices and saving; a session is a sequence of [ui_event]s.
    - TuiView.v: the tree of FTXUI components the form is built from, what is
      drawn and which members a component is bound to; FTXUI is the class
      [Ftxui] with documented behaviour as [FtxuiLaws], [RefFtxui] an instance.
    - Devices.v: the static functions of guest/vm_builder_qemu.cc that work on
      sysfs: huge pages, virtual functions, PCI passthrough and restore.
    - Builder.v: guest/vm_builder.{h,cc} and [VmBuilderQemu] of
      guest/vm_builder_qemu.{h,cc}, one definition per method; the object is
      [VmBuilderQemu], what all guests share is [Glob].
    - BuilderProps.v, Lifecycle.v: the lemmas about building, and about
      starting and stopping; GuestTheorems.v: the theorems about one guest.
    - Listener.v: services/startup_listener_impl.{h,cc} and the ports of
      include/constants/vm_manager.h.
    - Helpers.v: host/app_launcher, guest/vm_powerctl.h and the programs under
      android/, on a network of machines; what becomes of a gRPC call (not
      delivered, handled but not answered, answered) is a parameter.
    - Server.v: services/server.{h,cc}.  The server uses a guest through the
      class [VmBuilder] (the virtual functions of guest/vm_builder.h) and
      relies on [VmBuilderLaws]; ServerProps.v proves the laws for
      [VmBuilderQemu] and the theorems about requests for any guest that
      satisfies them.
    - ServerRun.v: [Server::Start], [Server::Stop], the signal handler, the
      set-up of the listener and the shared memory segment.
    - StartProtocol.v: [Server::VmThread], the end of [Server::StartVm] and the
      listener's callback as a step relation on what they share.
    - System.v: the server as a whole: requests, one thread per started guest
      running [Server::VmThread] on the registry itself, the guests' ready
      calls and signals, in any interleaving ([sys_do] is executable).
      SystemProps.v has its invariant and the simulation that maps each guest
      to StartProtocol.v, SystemTheorems.v the theorems and concrete runs.
      SystemCids.v follows the context ids through the same steps.
    - Cli.v: services/client.{h,cc} and the guest commands of vm_manager.cc,
      with the exchange of a message as one step; a handler that never comes
      back or ends the process leaves the client waiting for good.
    - Message.v: that exchange itself, [Client::Notify] and the loop of
      [Server::Start] on services/message.h, as a step relation over the two
      mutexes, the condition variables and the message.
    - Exchange.v: Message.v with [dispatch] of Server.v behind it.
    - Main.v: the rest of vm_manager.cc: option table, [ParseOptions],
      [StartServer], the start of a server by a client, and [main]; it joins
      Cli.v, ServerRun.v, Flash.v, Tui.v and Utils.v.

    ** What the theorems show

    - Context ids: no id is held twice, the pool is an allocator of a set of
      ids, an automatic request fails only when all automatic ids are held.
    - Configurations: the check accepts exactly the known sections and keys;
      the outcome of reading on every branch; set and get round trip.
    - Files and devices: the rewriting of the properties file line by line, the
      calls of a flush by the answers it gets, which devices are offered to and taken from the vfio driver,
      the conversion of memory sizes at the width of int.
    - One guest: what a finished or failed build leaves, the order and content
      of the mandatory options, that stopping gives the pool back exactly, ends
      the emulator and every helper and carries out every queued end call, that
      starting and waiting come back.
    - The server: unique names and addresses over any sequence of requests,
      the outcome of start, import and information requests, the round trip of
      a state through the report a client parses.
    - The start protocol: what a success answer means, that the latch is always
      released, and the interleavings in which a deleted guest is read.
    - The server with its threads: each started guest follows the protocol, the
      registry stays consistent and a guest is in it until its own thread has
      deleted it, a waiting start request always has a next turn and a bounded
      number of them, and an answer means what it says; without stop requests
      every guest has a context id of its own, and the free ids are exactly the
      others.
    - Processes: [Run] returns only when the child has been tried, waits for
      good for a blank command, and otherwise each step of the monitor thread
      brings its end nearer; and when [Running] is wrong about a living child.
    - The exchange of messages: requests are seen whole and once, a client
      gets the answer to its own request, and the server's state and answers
      are those of the sequential loop, as long as no client runs out of
      retries.
    - The server process: over its whole life the registry is consistent, no
      exception leaves it, and its segment is gone when it ends.
    - From end to end: a start command that reports success has put a new,
      running guest into the registry; a run of the program ends with 0 or -1,
      and one whose command line is refused only asks for the configuration
      directory; a server is started when none can be reached, and the wait for
      it is bounded and finds it at the first chance.
    - Flashing: it comes back and leaves no helper running; which calls make
      the USB disk, in their order, and that the disk holds all images.
    - The form: what it stores is what was typed, over what an earlier attempt
      stored, has only known keys, and is written to the guest's own file and
      only if there was none; exactly the fields that are drawn are stored, and
      a session of keys and clicks that
      the layout can deliver keeps every choice within its list.
    - Utilities and helpers: the configuration directory and the ids of the
      process by the answers on every branch, the ends of the detachment by
      process, the one command the launcher makes a guest run, also when its
      reply is lost.
    - Faults the model shows: an id released twice, so that two running guests
      can share it, a GPU not given back after a failed build, a socket of
      another guest removed, a start reported as failed although the guest
      runs, a callback that outlives its guest, a failed flash and a failed
      launch reported as success, ids that stay lowered when a user has no
      entry, a check for a stopped server that cannot fail, a signal that
      finds no message block or makes the server handle half a message, a
      monitor thread that uses a pointer before it is set, a thread object
      destroyed while another thread waits in it, a cleared field of the form
      that is stored all the same after a failed save.

    ** Bounds

    Loops that the source bounds by a counter have that counter as their fuel
    (200 turns for huge pages and for the ready wait, 2000 for an unbind, 7
    power sockets, the number of virtual functions, 101 sleeps for a server),
    so that running out of fuel is the exit the source has.  The one loop that
    may not end (the read loop of [Aaf::Flush] on a file that does not open) is
    the outcome [Blocked], as are a wait on a latch that nobody releases, a
    server without a request and a form without a key press.  In System.v a
    turn of the ready wait is two steps, which gives the bound of 420 turns of
    a guest's thread until its start request can go on.

    ** What is not modelled

    The text of log messages and how Boost.Log writes them; file modes beyond
    the exception [permissions] may throw; capacity of shared memory segments;
    strings with embedded NUL characters; signed overflow in the huge-page
    count (the sum is taken in the integers); the destruction of a latch while
    its last count is being released.  gRPC and the ini parser are libraries
    and appear as parameters, as are Boost's option parser and FTXUI: which
    component has the focus, the entry marked in the list of chosen devices
    ([pt_pci_menu_selected_], which nothing reads), and the drawing on the
    terminal.  Condition variables do not wake without a notification or a
    timeout.  A directory iteration is the list of entries it shows, chosen by
    the machine when it begins; an error in the middle of one is not modelled.
    In System.v a request handler other than a start, a method of a guest and a
    deletion are one step each: the unlocked accesses to [vmis_] from several
    threads are not split further, and the races inside a process are those of
    ProcProtocol.v, not of the whole system.  The two processes that talk in
    Cli.v and Main.v share one state: what other processes do while one waits
    is a parameter ([meanwhile], [elapse]).  In ServerRun.v a termination
    signal is handled between two requests, in System.v at any step. *)

From stdpp Require Export base tactics list option strings gmap sets.
From Stdlib Require Export ZArith Lia.

(** ** Outcomes of C++ code *)

(** The exception classes the modelled code can meet. *)
Inductive exn : Type :=
| ExInvalidArgument      (** [std::invalid_argument] of [std::stoi], [std::stoul] *)
| ExOutOfRange           (** [std::out_of_range] *)
| ExIniParser            (** [boost::property_tree::ini_parser_error] *)
| ExFilesystem           (** [boost::filesystem::filesystem_error] *)
| ExProcess              (** [boost::process::process_error] *)
| ExLogicError           (** [std::logic_error] of [std::string(nullptr)] *)
| ExInterprocess         (** [boost::interprocess::interprocess_exception] *)
| ExTerminate.           (** the process is gone ([std::terminate] or a crash); no handler runs *)

#[export] Instance exn_eq_dec : EqDecision exn.
Proof. solve_decision. Defined.

(** A call returns, throws, or never comes back. *)
Inductive outcome (A : Type) : Type :=
| Ret (a : A)
| Throw (e : exn)
| Blocked.
Arguments Ret {A} a.
Arguments Throw {A} e.
Arguments Blocked {A}.

(** ** The state and exception monad

    State changes made before a throw persist, as they do in C++. *)
Definition M (S A : Type) : Type := S → outcome A * S.

#[export] Instance M_ret {S} : MRet (M S) := λ A a s, (Ret a, s).
#[export] Instance M_bind {S} : MBind (M S) := λ A B f c s,
  match c s with
  | (Ret a, s') => f a s'
  | (Throw e, s') => (Throw e, s')
  | (Blocked, s') => (Blocked, s')
  end.

#[export] Instance M_fmap {S} : FMap (M S) := λ A B f c, a ← c; mret (f a).

Definition throw {S A} (e : exn) : M S A := λ s, (Throw e, s).
Definition blocked {S A} : M S A := λ s, (Blocked, s).
Definition gets {S A} (f : S → A) : M S A := λ s, (Ret (f s), s).
Definition modify {S} (f : S → S) : M S unit := λ s, (Ret tt, f s).
Definition skip {S} : M S unit := mret tt.

(** [try { c } catch (std::exception &e) { h e }] *)
Definition try_catch {S A} (c : M S A) (h : exn → M S A) : M S A := λ s,
  match c s with
  | (Throw e, s') => if decide (e = ExTerminate) then (Throw e, s') else h e s'
  | r => r
  end.

(** A destructor or the function of a thread: an exception ends the process. *)
Definition noexcept {S A} (c : M S A) : M S A := λ s,
  match c s with
  | (Throw _, s') => (Throw ExTerminate, s')
  | r => r
  end.

(** A scope with objects whose destructors [d] runs: at the end, and when an
    exception passes.  What ends the process runs no destructor. *)
Definition scoped {S A} (c : M S A) (d : M S unit) : M S A := λ s,
  match c s with
  | (Ret a, s') => match d s' with
                   | (Ret _, t) => (Ret a, t)
                   | (Throw e, t) => (Throw e, t)
                   | (Blocked, t) => (Blocked, t)
                   end
  | (Throw e, s') =>
      if decide (e = ExTerminate) then (Throw e, s') else
      match d s' with
      | (Ret _, t) => (Throw e, t)
      | (Throw e', t) => (Throw e', t)
      | (Blocked, t) => (Blocked, t)
      end
  | (Blocked, s') => (Blocked, s')
  end.

(** A component's code run inside a larger state. *)
Definition lift {S T A} (get : S → T) (put : T → S → S) (c : M T A) : M S A := λ s,
  match c (get s) with
  | (r, t) => (r, put t s)
  end.

Fixpoint for_each {S A} (f : A → M S unit) (l : list A) : M S unit :=
  match l with
  | [] => skip
  | a :: l => f a ;; for_each f l
  end.

(** [if (b) c;] *)
Definition when {S} (b : bool) (c : M S unit) : M S unit := if b then c else skip.

(** ** Relations that a computation maintains *)

(** [grows R c]: however [c] ends, the state it leaves is [R]-related to the
    state it found. *)
Definition grows {S A} (R : relation S) (c : M S A) : Prop := ∀ s, R s (c s).2.

(** Partial correctness with a postcondition for returns and one for the rest. *)
Definition hoare {S A} (P : S → Prop) (c : M S A)
    (Q : A → S → Prop) (X : S → Prop) : Prop :=
  ∀ s, P s → match c s with (Ret a, s') => Q a s' | (_, s') => X s' end.

Create HintDb civ.

Section grows_rules.
Context {S : Type} (R : relation S) `{!PreOrder R}.

Lemma grows_ret {A} (a : A) : grows R (mret a : M S A).
Proof. intros s; simpl; reflexivity. Qed.

Lemma grows_throw {A} e : grows R (throw e : M S A).
Proof. intros s; simpl; reflexivity. Qed.

Lemma grows_blocked {A} : grows R (blocked : M S A).
Proof. intros s; simpl; reflexivity. Qed.

Lemma grows_gets {A} (f : S → A) : grows R (gets f).
Proof. intros s; simpl; reflexivity. Qed.

Lemma grows_skip : grows R skip.
Proof. apply grows_ret. Qed.

Lemma grows_bind {A B} (c : M S A) (k : A → M S B) :
  grows R c → (∀ a, grows R (k a)) → grows R (c ≫= k).
Proof.
  intros Hc Hk s. unfold mbind, M_bind. specialize (Hc s).
  destruct (c s) as [[a|e|] s']; simpl in *; [|done..].
  etrans; [exact Hc|apply Hk].
Qed.

Lemma grows_try {A} (c : M S A) h :
  grows R c → (∀ e, grows R (h e)) → grows R (try_catch c h).
Proof.
  intros Hc Hh s. unfold try_catch. specialize (Hc s).
  destruct (c s) as [[a|e|] s']; simpl in *; [done| |done].
  case_decide; [done|]. etrans; [exact Hc|apply Hh].
Qed.

Lemma grows_noexcept {A} (c : M S A) : grows R c → grows R (noexcept c).
Proof. intros Hc s. unfold noexcept. specialize (Hc s). by destruct (c s) as [[]?]. Qed.

Lemma grows_for_each {A} (f : A → M S unit) l :
  (∀ a, grows R (f a)) → grows R (for_each f l).
Proof.
  intros Hf. induction l as [|a l IH]; simpl; [apply grows_skip|].
  apply grows_bind; auto.
Qed.

Lemma grows_if {A} (b : bool) (c d : M S A) :
  grows R c → grows R d → grows R (if b then c else d).
Proof. by destruct b. Qed.

Lemma grows_when (b : bool) (c : M S unit) : (b = true → grows R c) → grows R (when b c).
Proof. destruct b; intros; [auto|apply grows_skip]. Qed.

Lemma grows_modify f : (∀ s, R s (f s)) → grows R (modify f).
Proof. intros Hf s; apply Hf. Qed.
End grows_rules.

#[export] Hint Resolve grows_ret grows_throw grows_blocked grows_gets grows_skip
  grows_bind grows_try grows_for_each grows_if grows_when : civ.

(** Take a computation apart down to the calls [leaf] knows. *)
Ltac grows_go leaf :=
  repeat first
    [ leaf
    | match goal with
      | |- grows _ (_ ≫= _) => apply grows_bind; [exact _| |intros ?]
      | |- grows _ (gets _) => apply grows_gets; exact _
      | |- grows _ (mret _) => apply grows_ret; exact _
      | |- grows _ skip => apply grows_skip; exact _
      | |- grows _ (throw _) => apply grows_throw; exact _
      | |- grows _ blocked => apply grows_blocked; exact _
      | |- grows _ (noexcept _) => apply grows_noexcept
      end
    | case_match ].

Lemma grows_mono {S A} (R Q : relation S) (c : M S A) :
  (∀ s s', R s s' → Q s s') → grows R c → grows Q c.
Proof. intros HRQ Hc s. apply HRQ, Hc. Qed.

Lemma grows_lift {S T A} (get : S → T) put (R : relation S) (Q : relation T) (c : M T A) :
  grows Q c → (∀ s t, Q (get s) t → R s (put t s)) → grows R (lift get put c).
Proof.
  intros Hc HR s. unfold lift. specialize (Hc (get s)).
  destruct (c (get s)) as [r t]; simpl in *. by apply HR.
Qed.

Section hoare_rules.
Context {S : Type}.

(** What is [R]-above a fixed state stays so. *)
Lemma hoare_grows {A} (R : relation S) `{!Transitive R} s0 (c : M S A) :
  grows R c → hoare (R s0) c (λ _, R s0) (R s0).
Proof. intros Hc s Hs. specialize (Hc s). destruct (c s) as [[]?]; simpl in *; by etrans. Qed.

Lemma hoare_ret {A} (a : A) (Q : A → S → Prop) X : hoare (Q a) (mret a) Q X.
Proof. by intros s. Qed.

Lemma hoare_ret_imp {A} (a : A) (P : S → Prop) (Q : A → S → Prop) X :
  (∀ s, P s → Q a s) → hoare P (mret a) Q X.
Proof. intros HPQ s Hs. by apply HPQ. Qed.

Lemma hoare_bind {A B} P (c : M S A) (k : A → M S B) Q' Q X :
  hoare P c Q' X → (∀ a, hoare (Q' a) (k a) Q X) → hoare P (c ≫= k) Q X.
Proof.
  intros Hc Hk s Hs. unfold mbind, M_bind. specialize (Hc s Hs).
  destruct (c s) as [[a|e|] s']; [|done..]. by apply Hk.
Qed.

Lemma hoare_gets {A B} P (f : S → A) (k : A → M S B) Q X :
  (∀ a, hoare (λ s, P s ∧ f s = a) (k a) Q X) → hoare P (gets f ≫= k) Q X.
Proof. intros Hk s Hs. by apply (Hk (f s)). Qed.

Lemma hoare_pre {A} (P P' : S → Prop) (c : M S A) Q X :
  (∀ s, P s → P' s) → hoare P' c Q X → hoare P c Q X.
Proof. intros HP Hc s Hs. by apply Hc, HP. Qed.

Lemma hoare_conseq {A} (P P' : S → Prop) (c : M S A) (Q Q' : A → S → Prop)
    (X X' : S → Prop) :
  hoare P' c Q' X' → (∀ s, P s → P' s) → (∀ a s, Q' a s → Q a s) →
  (∀ s, X' s → X s) → hoare P c Q X.
Proof.
  intros Hc HP HQ HX s Hs. specialize (Hc s (HP _ Hs)).
  destruct (c s) as [[]?]; auto.
Qed.

Lemma hoare_exists {A T} (P : T → S → Prop) (c : M S A) Q X :
  (∀ t, hoare (P t) c Q X) → hoare (λ s, ∃ t, P t s) c Q X.
Proof. intros H s [t Ht]. by apply (H t). Qed.

Lemma hoare_if {A} (b : bool) P (c d : M S A) Q X :
  (b = true → hoare P c Q X) → (b = false → hoare P d Q X) →
  hoare P (if b then c else d) Q X.
Proof. destruct b; auto. Qed.
End hoare_rules.

(** Total correctness: [c] comes back, with a return or an exception. *)
Definition runs {S A} (P : S → Prop) (c : M S A)
    (Q : A → S → Prop) (X : exn → S → Prop) : Prop :=
  ∀ s, P s → match c s with
             | (Ret a, s') => Q a s'
             | (Throw e, s') => X e s'
             | (Blocked, _) => False
             end.

Section runs_rules.
Context {S : Type}.

Lemma runs_ret {A} (a : A) (P : S → Prop) (Q : A → S → Prop) X :
  (∀ s, P s → Q a s) → runs P (mret a) Q X.
Proof. intros HPQ s Hs. by apply HPQ. Qed.

Lemma runs_bind {A B} P (c : M S A) (k : A → M S B) Q' Q X :
  runs P c Q' X → (∀ a, runs (Q' a) (k a) Q X) → runs P (c ≫= k) Q X.
Proof.
  intros Hc Hk s Hs. unfold mbind, M_bind. specialize (Hc s Hs).
  destruct (c s) as [[a|e|] s']; [|done..]. by apply Hk.
Qed.

Lemma runs_gets {A B} P (f : S → A) (k : A → M S B) Q X :
  (∀ a, runs (λ s, P s ∧ f s = a) (k a) Q X) → runs P (gets f ≫= k) Q X.
Proof. intros Hk s Hs. by apply (Hk (f s)). Qed.

Lemma runs_conseq {A} (P P' : S → Prop) (c : M S A) (Q Q' : A → S → Prop)
    (X X' : exn → S → Prop) :
  runs P' c Q' X' → (∀ s, P s → P' s) → (∀ a s, Q' a s → Q a s) →
  (∀ e s, X' e s → X e s) → runs P c Q X.
Proof.
  intros Hc HP HQ HX s Hs. specialize (Hc s (HP _ Hs)).
  destruct (c s) as [[]?]; auto.
Qed.

Lemma runs_pre {A} (P P' : S → Prop) (c : M S A) Q X :
  (∀ s, P s → P' s) → runs P' c Q X → runs P c Q X.
Proof. intros HP Hc s Hs. by apply Hc, HP. Qed.

Lemma runs_exists {A T} (P : T → S → Prop) (c : M S A) Q X :
  (∀ t, runs (P t) c Q X) → runs (λ s, ∃ t, P t s) c Q X.
Proof. intros H s [t Ht]. by apply (H t). Qed.

(** A fact that does not speak of the state. *)
Lemma runs_pure {A} (P : S → Prop) (φ : Prop) (c : M S A) Q X :
  (φ → runs P c Q X) → runs (λ s, P s ∧ φ) c Q X.
Proof. intros Hc s [Hs Hφ]. by apply Hc. Qed.

Lemma runs_pure_l {A} (P : S → Prop) (φ : Prop) (c : M S A) Q X :
  (φ → runs P c Q X) → runs (λ s, φ ∧ P s) c Q X.
Proof. intros Hc s [Hφ Hs]. by apply Hc. Qed.

Lemma runs_for_each {A} (I : S → Prop) (f : A → M S unit) l X :
  (∀ a, a ∈ l → runs I (f a) (λ _, I) X) → runs I (for_each f l) (λ _, I) X.
Proof.
  induction l as [|a l IH]; intros Hf; simpl; [by apply runs_ret|].
  eapply runs_bind; [apply Hf; left|]. simpl. intros ?. apply IH. intros b Hb. apply Hf. by right.
Qed.

(** Scopes keep the specification of their body when the destructors do. *)
Lemma runs_scoped {A} P (c : M S A) (d : M S unit) Q Q' X :
  runs P c Q' X → (∀ a, runs (Q' a) d (λ _, Q a) X) →
  (∀ e, e ≠ ExTerminate → runs (X e) d (λ _, X e) X) → runs P (scoped c d) Q X.
Proof.
  intros Hc Hd Hx s Hs. unfold scoped. specialize (Hc s Hs).
  destruct (c s) as [[a|e|] s']; [|case_decide; [done|]|done].
  - specialize (Hd a s' Hc). by destruct (d s') as [[]?].
  - specialize (Hx e ltac:(done) s' Hc). by destruct (d s') as [[]?].
Qed.

Lemma runs_modify P (f : S → S) Q X :
  (∀ s, P s → Q tt (f s)) → runs P (modify f) Q X.
Proof. intros H s Hs. by apply H. Qed.
End runs_rules.

(** Equation of [bind] on a computation whose result is known. *)
Lemma bind_run {S A B} (c : M S A) (k : A → M S B) s a s' :
  c s = (Ret a, s') → (c ≫= k) s = k a s'.
Proof. intros H. unfold mbind, M_bind. by rewrite H. Qed.

(** Step over the first computation of a [bind] whose result is known. *)
Ltac bstep H := rewrite (bind_run _ _ _ _ _ H).

Lemma bind_run_throw {S A B} (c : M S A) (k : A → M S B) s e s' :
  c s = (Throw e, s') → (c ≫= k) s = (Throw e, s').
Proof. intros H. unfold mbind, M_bind. by rewrite H. Qed.

Lemma bind_ret_inv {S A B} (c : M S A) (k : A → M S B) s b s' :
  (c ≫= k) s = (Ret b, s') → ∃ a s1, c s = (Ret a, s1) ∧ k a s1 = (Ret b, s').
Proof.
  unfold mbind, M_bind. destruct (c s) as [[a|e|] s1]; naive_solver.
Qed.

(** An invariant of a step relation holds wherever the relation leads. *)
Lemma rtc_invariant {A} (R : relation A) (P : A → Prop) x y :
  (∀ a b, R a b → P a → P b) → P x → rtc R x y → P y.
Proof. intros Hstep Hx Hr. induction Hr; eauto. Qed.
