(* ===== verification/CStd.v ===== *)
(** * C and C++ standard library facilities used by the program

    Machine integers with their widths, [std::string] operations, number
    parsing ([std::stoi], [std::stoul], formatted extraction from a stream),
    [std::to_string], [std::getline] loops and the iteration order of
    [std::set].  Strings are [string]; a position is a [nat] and
    [std::string::npos] is [None]. *)

From S2P Require Import Prelude.
From stdpp Require Export pretty.
From Stdlib Require Import Ascii.

Local Open Scope Z_scope.

(** ** Machine integers *)

Definition INT32_MAX : Z := 2147483647.
Definition INT32_MIN : Z := -2147483648.
Definition ULONG_MAX : Z := 18446744073709551615.

(** Conversion to [uint32_t] and to [size_t] wraps around. *)
Definition u32 (z : Z) : Z := z `mod` 4294967296.
(** Conversion of a [long] to [int]. *)
Definition to_int (z : Z) : Z := (z + 2147483648) `mod` 4294967296 - 2147483648.
Definition u64 (z : Z) : Z := z `mod` 18446744073709551616.

(** Conversion of a [long] value to [int] range, as extraction clamps it. *)
Definition clamp_int (z : Z) : Z := Z.max INT32_MIN (Z.min INT32_MAX z).

(** ** Characters *)

Definition isspace (c : ascii) : bool :=
  match c with
  | "009" | "010" | "011" | "012" | "013" | " " => true
  | _ => false
  end%char.

Definition char_code (c : ascii) : Z := Z.of_N (N_of_ascii c).

Definition between (lo hi c : ascii) : bool :=
  (char_code lo <=? char_code c) && (char_code c <=? char_code hi).

Definition toupper (c : ascii) : ascii :=
  if between "a" "z" c then ascii_of_N (N_of_ascii c - 32) else c.
Definition tolower (c : ascii) : ascii :=
  if between "A" "Z" c then ascii_of_N (N_of_ascii c + 32) else c.

(** Value of a digit character in bases up to 36. *)
Definition digit_val (c : ascii) : option Z :=
  if between "0" "9" c then Some (char_code c - 48)
  else if between "a" "z" c then Some (char_code c - 87)
  else if between "A" "Z" c then Some (char_code c - 55)
  else None.

Definition is_digit_in (base : Z) (c : ascii) : option Z :=
  match digit_val c with
  | Some d => if d <? base then Some d else None
  | None => None
  end.

(** ** Strings *)

Definition str_empty (s : string) : bool :=
  match s with EmptyString => true | _ => false end.

Definition chars (s : string) : list ascii := String.list_ascii_of_string s.
Definition of_chars (l : list ascii) : string := String.string_of_list_ascii l.

(** [s.find(c)] *)
Fixpoint str_find (c : ascii) (s : string) : option nat :=
  match s with
  | EmptyString => None
  | String a s => if decide (a = c) then Some 0%nat else Nat.succ <$> str_find c s
  end.

(** [s.find_first_not_of(c)] *)
Fixpoint find_first_not_of (c : ascii) (s : string) : option nat :=
  match s with
  | EmptyString => None
  | String a s => if decide (a = c) then Nat.succ <$> find_first_not_of c s else Some 0%nat
  end.

(** [s.substr(pos)] for a position inside the string, and [s.substr(0, n)]. *)
Fixpoint str_drop (n : nat) (s : string) : string :=
  match n, s with
  | O, _ => s
  | S n, String _ s => str_drop n s
  | S _, EmptyString => EmptyString
  end.
Fixpoint str_take (n : nat) (s : string) : string :=
  match n, s with
  | S n, String a s => String a (str_take n s)
  | _, _ => EmptyString
  end.

(** [s.substr(0, s.find(c))]: all of [s] when [c] does not occur. *)
Definition before_char (c : ascii) (s : string) : string :=
  match str_find c s with Some n => str_take n s | None => s end.
(** [s.substr(s.find(c) + 1)]: [npos + 1] wraps to 0, so all of [s] when [c]
    does not occur. *)
Definition after_char (c : ascii) (s : string) : string :=
  match str_find c s with Some n => str_drop (S n) s | None => s end.

(** [s.insert(pos, t)] *)
Definition str_insert (pos : nat) (t s : string) : string :=
  str_take pos s +:+ t +:+ str_drop pos s.

Fixpoint str_last (s : string) : option ascii :=
  match s with
  | EmptyString => None
  | String a EmptyString => Some a
  | String _ s => str_last s
  end.

(** [basename]: the part after the last slash. *)
Fixpoint basename (s : string) : string :=
  match s with
  | EmptyString => EmptyString
  | String a s' => if bool_decide ("/"%char ∈ chars s') then basename s'
                   else if decide (a = "/"%char) then s' else s
  end.

(** [std::to_string] *)
Definition to_string (z : Z) : string := pretty z.

(** The lines a [while (!in.eof()) getline(in, tmp)] loop delivers: the text
    between newlines, the piece after the last newline included. *)
Fixpoint split_char (c : ascii) (s : string) : list string :=
  match s with
  | EmptyString => [EmptyString]
  | String a s =>
      if decide (a = c) then EmptyString :: split_char c s
      else match split_char c s with
           | l :: ls => String a l :: ls
           | [] => [String a EmptyString]
           end
  end.

Definition newline : ascii := "010".
Definition getline_all (content : string) : list string := split_char newline content.

(** Inverse of [split_char]. *)
Fixpoint join_char (c : ascii) (l : list string) : string :=
  match l with
  | [] => EmptyString
  | [s] => s
  | s :: l => s +:+ String c (join_char c l)
  end.

(** ** Number parsing *)

Fixpoint skip_space (s : string) : nat * string :=
  match s with
  | String a s' => if isspace a then let '(n, r) := skip_space s' in (S n, r) else (0%nat, s)
  | EmptyString => (0%nat, s)
  end.

(** Optional sign: negative?, characters used, rest. *)
Definition scan_sign (s : string) : bool * nat * string :=
  match s with
  | String "-" s' => (true, 1%nat, s')
  | String "+" s' => (false, 1%nat, s')
  | _ => (false, 0%nat, s)
  end%char.

(** Longest run of digits: value and number of characters. *)
Fixpoint scan_digits (base : Z) (s : string) (acc : Z) : Z * nat :=
  match s with
  | String a s' =>
      match is_digit_in base a with
      | Some d => let '(v, n) := scan_digits base s' (acc * base + d) in (v, S n)
      | None => (acc, 0%nat)
      end
  | EmptyString => (acc, 0%nat)
  end.

Definition hex_prefixed (s : string) : bool :=
  match s with
  | String "0" (String x (String d _)) =>
      bool_decide (x = "x" ∨ x = "X")%char && bool_decide (is_Some (is_digit_in 16 d))
  | _ => false
  end%char.

(** Base and prefix length [strtol] settles on for the requested base. *)
Definition scan_base (base : Z) (s : string) : Z * nat :=
  if ((base =? 0) || (base =? 16)) && hex_prefixed s then (16, 2%nat)
  else if base =? 0 then
    match s with String "0" _ => (8, 0%nat) | _ => (10, 0%nat) end%char
  else (base, 0%nat).

(** [strtol]-style conversion: sign, magnitude and position after the number;
    [None] when no digits are found. *)
Definition scan_number (base : Z) (s : string) : option (bool * Z * nat) :=
  let '(n0, s0) := skip_space s in
  let '(neg, n1, s1) := scan_sign s0 in
  let '(b, n2) := scan_base base s1 in
  let '(v, n3) := scan_digits b (str_drop n2 s1) 0 in
  match n3 with
  | O => None
  | S _ => Some (neg, v, (n0 + n1 + n2 + n3)%nat)
  end.

(** [std::stoi(s, &pos, base)]: the number and [pos]. *)
Definition stoi {St} (base : Z) (s : string) : M St (Z * nat) :=
  match scan_number base s with
  | None => throw ExInvalidArgument
  | Some (neg, v, pos) =>
      let z := if neg then - v else v in
      if (z <? INT32_MIN) || (INT32_MAX <? z) then throw ExOutOfRange
      else mret (z, pos)
  end.

(** [std::stoul(s)]: a minus sign negates in [unsigned long]. *)
Definition stoul {St} (s : string) : M St Z :=
  match scan_number 10 s with
  | None => throw ExInvalidArgument
  | Some (neg, v, _) =>
      if ULONG_MAX <? v then throw ExOutOfRange
      else mret (if neg then u64 (- v) else v)
  end.

(** [atoi]: 0 when there is no number. *)
Definition atoi (s : string) : Z :=
  match scan_number 10 s with
  | None => 0
  | Some (neg, v, _) => if neg then - v else v
  end.

(** [ifs >> ret] for an [int] on an open stream: 0 when no number is found,
    the nearest [int] when it does not fit. *)
Definition extract_int (base : Z) (content : string) : Z :=
  match scan_number base content with
  | None => 0
  | Some (neg, v, _) => clamp_int (if neg then - v else v)
  end.

(** ** [std::set<std::string>]: the elements in iteration order *)
Fixpoint set_insert (x : string) (l : list string) : list string :=
  match l with
  | [] => [x]
  | y :: l' =>
      match String.compare x y with
      | Lt => x :: l
      | Eq => l
      | Gt => y :: set_insert x l'
      end
  end.

(** ** [std::map<std::string, T>]: the entries in key order *)

(** [m.find(k)] *)
Fixpoint map_find {A} (k : string) (m : list (string * A)) : option A :=
  match m with
  | [] => None
  | (k', v) :: m => if decide (k' = k) then Some v else map_find k m
  end.

(** [m.insert(pair(k, v))]: an entry that is there stays. *)
Fixpoint map_insert {A} (k : string) (v : A) (m : list (string * A)) : list (string * A) :=
  match m with
  | [] => [(k, v)]
  | (k', v') :: m' =>
      match String.compare k k' with
      | Lt => (k, v) :: m
      | Eq => m
      | Gt => (k', v') :: map_insert k v m'
      end
  end.

(** [it->second = v] for the entry of [k], when there is one. *)
Fixpoint map_assign {A} (k : string) (v : A) (m : list (string * A)) : list (string * A) :=
  match m with
  | [] => []
  | (k', v') :: m => if decide (k' = k) then (k', v) :: m else (k', v') :: map_assign k v m
  end.

Example stoi_hex : scan_number 0 "0x10M" = Some (false, 16, 4%nat).
Proof. reflexivity. Qed.
Example stoi_oct : scan_number 0 "010" = Some (false, 8, 3%nat).
Proof. reflexivity. Qed.
Example stoul_neg : scan_number 10 " -12x" = Some (true, 12, 4%nat).
Proof. reflexivity. Qed.
Example split_ex : split_char "," "a,,b" = ["a"; EmptyString; "b"].
Proof. reflexivity. Qed.

(** ** Lemmas on strings *)

Lemma str_app_assoc (a b c : string) : (a +:+ b) +:+ c = a +:+ (b +:+ c).
Proof. induction a as [|x a IH]; [done|]. change (String x ((a +:+ b) +:+ c) = String x (a +:+ b +:+ c)). by f_equal. Qed.

Lemma str_app_nil_r (a : string) : a +:+ EmptyString = a.
Proof. induction a as [|x a IH]; [done|]. change (String x (a +:+ EmptyString) = String x a). by f_equal. Qed.

Lemma str_app_nil_l (a : string) : EmptyString +:+ a = a.
Proof. done. Qed.

Lemma str_app_cons x (a b : string) : String x a +:+ b = String x (a +:+ b).
Proof. done. Qed.

Lemma chars_app (a b : string) : chars (a +:+ b) = chars a ++ chars b.
Proof. induction a as [|x a IH]; [done|]. rewrite str_app_cons. unfold chars in *; simpl. by f_equal. Qed.

Lemma str_take_drop n s : str_take n s +:+ str_drop n s = s.
Proof.
  revert s; induction n as [|n IH]; intros [|x s]; simpl; try done.
  rewrite str_app_cons. by f_equal.
Qed.

Lemma str_empty_true s : str_empty s = true ↔ s = EmptyString.
Proof. by destruct s. Qed.
Lemma str_empty_false s : str_empty s = false ↔ s ≠ EmptyString.
Proof. by destruct s. Qed.

Lemma str_find_None c s : str_find c s = None ↔ c ∉ chars s.
Proof.
  unfold chars. induction s as [|a s IH]; simpl; [set_solver|].
  case_decide as Ha; [set_solver|].
  rewrite fmap_None, IH, not_elem_of_cons. naive_solver.
Qed.

(** [find] locates the first occurrence: the string splits around it. *)
Lemma before_after c s n :
  str_find c s = Some n →
  s = before_char c s +:+ String c (after_char c s) ∧ c ∉ chars (before_char c s).
Proof.
  unfold before_char, after_char. revert n.
  induction s as [|a s IH]; intros n; simpl; [done|].
  case_decide as Ha; intros Hf; simplify_eq/=; [set_solver|].
  destruct (str_find c s) as [m|] eqn:Hs; [|done]. simpl.
  destruct (IH m eq_refl) as [Heq Hnot]; simplify_eq/=.
  split; [by rewrite str_app_cons, <-Heq|].
  unfold chars in *; simpl. set_solver.
Qed.

Lemma before_char_nosep c s : c ∉ chars s → before_char c s = s.
Proof. intros H%str_find_None. unfold before_char. by rewrite H. Qed.

Lemma before_char_app c a b : c ∉ chars a → before_char c (a +:+ String c b) = a.
Proof.
  unfold before_char. induction a as [|x a IH]; intros Hn.
  - rewrite str_app_nil_l; simpl. by case_decide.
  - unfold chars in *; simpl in *. rewrite str_app_cons; simpl.
    case_decide; [set_solver|].
    destruct (str_find c (a +:+ String c b)) eqn:E; simpl in *.
    + f_equal. apply IH. set_solver.
    + apply str_find_None in E. unfold chars in E.
      pose proof (chars_app a (String c b)) as Hc. unfold chars in Hc.
      rewrite Hc in E. simpl in E. set_solver.
Qed.

Lemma split_char_cons c s : ∃ l ls, split_char c s = l :: ls.
Proof. destruct s; simpl; [eauto|]. case_decide; [eauto|]. case_match; eauto. Qed.

Lemma join_char_cons2 c a b l :
  join_char c (a :: b :: l) = a +:+ String c (join_char c (b :: l)).
Proof. done. Qed.

Lemma join_split c s : join_char c (split_char c s) = s.
Proof.
  induction s as [|a s IH]; simpl; [done|].
  destruct (split_char_cons c s) as (l & ls & E). rewrite E in *.
  case_decide as Ha.
  - subst a. rewrite join_char_cons2, IH. done.
  - destruct ls; [by cbn in *; f_equal|].
    rewrite join_char_cons2 in *. by rewrite str_app_cons, IH.
Qed.

Lemma split_char_nosep c s : Forall (λ p, c ∉ chars p) (split_char c s).
Proof.
  induction s as [|a s IH]; simpl.
  - constructor; [|done]. unfold chars; simpl. set_solver.
  - case_decide; subst; [constructor; [unfold chars; simpl; set_solver|done]|].
    destruct (split_char_cons c s) as (l & ls & E). rewrite E in *.
    inversion IH; subst. constructor; [|done]. unfold chars in *; simpl. set_solver.
Qed.

Lemma split_char_single c s : c ∉ chars s → split_char c s = [s].
Proof.
  unfold chars. induction s as [|a s IH]; simpl; [done|]. intros Hn.
  case_decide; [set_solver|]. rewrite IH; set_solver.
Qed.

Lemma split_char_app c a b :
  c ∉ chars a → split_char c (a +:+ String c b) = a :: split_char c b.
Proof.
  unfold chars. induction a as [|x a IH]; intros Hn.
  - rewrite str_app_nil_l; simpl. by case_decide.
  - simpl in Hn. rewrite str_app_cons; simpl. case_decide; [set_solver|].
    rewrite IH; [done|set_solver].
Qed.

Lemma split_char_two c x y : ∃ a b l, split_char c (x +:+ String c y) = a :: b :: l.
Proof.
  induction x as [|d x (a & b & l & IH)]; simpl.
  - rewrite decide_True by done. destruct (split_char_cons c y) as (l & ls & ->). eauto.
  - rewrite IH. case_decide; eauto.
Qed.

Lemma split_join c l :
  l ≠ [] → Forall (λ p, c ∉ chars p) l → split_char c (join_char c l) = l.
Proof.
  intros Hl Hn. induction Hn as [|a l Ha Hn IH]; [done|].
  destruct l as [|b l]; [by apply split_char_single|].
  rewrite join_char_cons2, split_char_app by done. by rewrite IH.
Qed.

(** ** Lemmas on numbers *)

Lemma u32_small z : 0 ≤ z < 4294967296 → u32 z = z.
Proof. intros. by apply Z.mod_small. Qed.

Lemma u32_range z : 0 ≤ u32 z < 4294967296.
Proof. by apply Z.mod_pos_bound. Qed.

Lemma pretty_N_char_digit n :
  (n < 10)%N → is_digit_in 10 (pretty_N_char n) = Some (Z.of_N n).
Proof.
  intros Hn.
  assert (n = 0 ∨ n = 1 ∨ n = 2 ∨ n = 3 ∨ n = 4 ∨ n = 5 ∨ n = 6 ∨ n = 7 ∨ n = 8 ∨ n = 9)%N
    as Hc by lia.
  destruct_or! Hc; subst; reflexivity.
Qed.

(** Scanning printed digits yields the number that was printed. *)
Lemma scan_pretty_go x s acc :
  ∃ k, scan_digits 10 (pretty_N_go x s) acc
       = (let '(v, m) := scan_digits 10 s (acc * 10 ^ Z.of_nat k + Z.of_N x) in (v, (k + m)%nat))
     ∧ ((0 < x)%N → (0 < k)%nat).
Proof.
  revert s acc. induction (N.lt_wf_0 x) as [x _ IH]; intros s acc.
  assert (x = 0 ∨ 0 < x)%N as [->|Hx] by lia.
  { exists 0%nat. rewrite pretty_N_go_0. split; [|lia].
    change (Z.of_nat 0) with 0. change (Z.of_N 0) with 0.
    replace (acc * 10 ^ 0 + 0) with acc by lia. by destruct (scan_digits _ _ _). }
  rewrite pretty_N_go_step by done.
  edestruct (IH (x `div` 10)%N) as (k & Hk & _); [by apply N.div_lt|].
  exists (S k). rewrite Hk. split; [|lia]. cbn [scan_digits].
  rewrite pretty_N_char_digit by (by apply N.mod_lt).
  replace ((acc * 10 ^ Z.of_nat k + Z.of_N (x `div` 10)) * 10 + Z.of_N (x `mod` 10))
    with (acc * 10 ^ Z.of_nat (S k) + Z.of_N x).
  2:{ assert (Z.of_N x = 10 * Z.of_N (x `div` 10) + Z.of_N (x `mod` 10)) as ->.
      { rewrite (N.div_mod' x 10) at 1. by rewrite N2Z.inj_add, N2Z.inj_mul. }
      rewrite Nat2Z.inj_succ, Z.pow_succ_r by lia. ring. }
  destruct (scan_digits 10 s _) as [v m]. f_equal. lia.
Qed.

(** A printed positive number starts with a digit other than 0. *)
Lemma pretty_go_head x s :
  (0 < x)%N → ∃ d r, (0 < d < 10)%N ∧ pretty_N_go x s = String (pretty_N_char d) r.
Proof.
  revert s. induction (N.lt_wf_0 x) as [x _ IH]; intros s Hx.
  rewrite pretty_N_go_step by done.
  destruct (decide (x `div` 10 = 0)%N) as [Hd|].
  - rewrite Hd, pretty_N_go_0. eexists _, _. split; [|done].
    apply N.div_small_iff in Hd; [|done]. by rewrite N.mod_small.
  - apply IH; [by apply N.div_lt|by apply N.neq_0_lt_0].
Qed.

Lemma pretty_go_app x s t : pretty_N_go x s +:+ t = pretty_N_go x (s +:+ t).
Proof.
  revert s. induction (N.lt_wf_0 x) as [x _ IH]; intros s.
  assert (x = 0 ∨ 0 < x)%N as [->|Hx] by lia; [done|].
  rewrite (pretty_N_go_step x s), (pretty_N_go_step x (s +:+ t)) by done.
  by rewrite IH by (by apply N.div_lt).
Qed.

Lemma digit_head_scan d r :
  (d < 10)%N → skip_space (String (pretty_N_char d) r) = (0%nat, String (pretty_N_char d) r)
   ∧ scan_sign (String (pretty_N_char d) r) = (false, 0%nat, String (pretty_N_char d) r).
Proof.
  intros Hd.
  assert (d = 0 ∨ d = 1 ∨ d = 2 ∨ d = 3 ∨ d = 4 ∨ d = 5 ∨ d = 6 ∨ d = 7 ∨ d = 8 ∨ d = 9)%N
    as Hc by lia.
  destruct_or! Hc; subst; done.
Qed.

Lemma scan_number_to_string z :
  0 ≤ z → ∃ k, scan_number 10 (to_string z) = Some (false, z, S k).
Proof.
  intros Hz. destruct z as [|p|p]; [by exists 0%nat| |lia].
  change (to_string (Z.pos p)) with (pretty_N (N.pos p)). unfold pretty_N.
  rewrite decide_False by done.
  destruct (pretty_go_head (N.pos p) EmptyString) as (d & r & Hd & Hr); [done|].
  destruct (scan_pretty_go (N.pos p) EmptyString 0) as (k & Hk & Hpos).
  destruct (digit_head_scan d r) as [Hsp Hsg]; [lia|].
  rewrite Hr in *. unfold scan_number. rewrite Hsp, Hsg.
  change (scan_base 10 (String (pretty_N_char d) r)) with (10, 0%nat).
  cbn [str_drop]. rewrite Hk. cbn [scan_digits].
  replace (0 * 10 ^ Z.of_nat k + Z.of_N (N.pos p)) with (Z.pos p) by lia.
  specialize (Hpos eq_refl). destruct k as [|k]; [lia|].
  exists k. repeat f_equal. lia.
Qed.

Lemma stoul_to_string {St} (s : St) z :
  0 ≤ z ≤ ULONG_MAX → stoul (to_string z) s = (Ret z, s).
Proof.
  intros [Hz Hm]. unfold stoul. destruct (scan_number_to_string z Hz) as [k ->].
  destruct (Z.ltb_spec ULONG_MAX z); [lia|done].
Qed.

(** A positive number followed by a letter that is no decimal digit. *)
Lemma scan_number_unit base n c t :
  base = 0 ∨ base = 10 → 0 < n → is_digit_in 10 c = None →
  ∃ k, scan_number base (to_string n +:+ String c t) = Some (false, n, S k).
Proof.
  intros Hbase Hn Hc. destruct n as [|p|p]; [lia| |lia].
  change (to_string (Z.pos p)) with (pretty_N (N.pos p)). unfold pretty_N.
  rewrite decide_False by done. rewrite pretty_go_app. set (s0 := EmptyString +:+ String c t).
  destruct (pretty_go_head (N.pos p) s0) as (d & r & Hd & Hr); [done|].
  destruct (scan_pretty_go (N.pos p) s0 0) as (k & Hk & Hpos).
  destruct (digit_head_scan d r) as [Hsp Hsg]; [lia|].
  rewrite Hr in *. unfold scan_number. rewrite Hsp, Hsg.
  assert (scan_base base (String (pretty_N_char d) r) = (10, 0%nat)) as ->.
  { destruct Hbase as [-> | ->]; [|done]. assert (d = 1 ∨ d = 2 ∨ d = 3 ∨ d = 4 ∨ d = 5 ∨ d = 6 ∨ d = 7 ∨ d = 8 ∨ d = 9)%N
      as Hc' by lia. destruct_or! Hc'; subst; done. }
  cbn [str_drop]. rewrite Hk. unfold s0; rewrite str_app_nil_l. cbn [scan_digits]. rewrite Hc.
  replace (0 * 10 ^ Z.of_nat k + Z.of_N (N.pos p)) with (Z.pos p) by lia.
  specialize (Hpos eq_refl). destruct k as [|k]; [lia|].
  exists k. repeat f_equal. lia.
Qed.

Lemma clamp_int_range z : INT32_MIN ≤ clamp_int z ≤ INT32_MAX.
Proof. unfold clamp_int, INT32_MIN, INT32_MAX. lia. Qed.

Lemma extract_int_range base s : INT32_MIN ≤ extract_int base s ≤ INT32_MAX.
Proof.
  unfold extract_int. repeat case_match; try apply clamp_int_range.
  unfold INT32_MIN, INT32_MAX; lia.
Qed.

Lemma stoi_range {St} base s (st : St) z pos st' :
  stoi base s st = (Ret (z, pos), st') → INT32_MIN ≤ z ≤ INT32_MAX ∧ st' = st.
Proof.
  unfold stoi. destruct (scan_number base s) as [[[neg v] p]|]; [|done].
  destruct ((_ <? _) || _) eqn:E; [done|]. unfold mret, M_ret. intros; simplify_eq.
  apply orb_false_iff in E as [?%Z.ltb_ge ?%Z.ltb_ge]. split; [lia|done].
Qed.

(** ** Lemmas on ordered sets *)

Lemma elem_of_set_insert x y l : y ∈ set_insert x l ↔ y = x ∨ y ∈ l.
Proof.
  induction l as [|z l IH]; simpl; [set_solver|].
  destruct (String.compare x z) eqn:E; [|set_solver|set_solver].
  apply String.compare_eq_iff in E as ->. set_solver.
Qed.

Lemma set_insert_nonempty x l : set_insert x l ≠ [].
Proof. destruct l; simpl; [done|]. by case_match. Qed.

(** ** Lemmas on maps *)

Lemma map_find_elem {A} k (m : list (string * A)) v : map_find k m = Some v → (k, v) ∈ m.
Proof.
  induction m as [|[k' v'] m IH]; simpl; [done|]. case_decide; intros; simplify_eq; set_solver.
Qed.

Lemma map_find_None {A} k (m : list (string * A)) : map_find k m = None → ∀ v, (k, v) ∉ m.
Proof.
  induction m as [|[k' v'] m IH]; simpl; [set_solver|]. case_decide; [done|].
  intros Hn v Hin. apply elem_of_cons in Hin as [?|?]; [congruence|]. by eapply IH.
Qed.

(** Keys of a table without duplicates are found with their values. *)
Lemma map_find_nodup {A} k (m : list (string * A)) v :
  NoDup m.*1 → (k, v) ∈ m → map_find k m = Some v.
Proof.
  induction m as [|[k' v'] m IH]; simpl; [set_solver|].
  intros [Hni Hnd]%NoDup_cons Hin. apply elem_of_cons in Hin as [?|Hin]; simplify_eq.
  - by rewrite decide_True.
  - rewrite decide_False; [by apply IH|]. intros ->. apply Hni.
    apply list_elem_of_fmap. by exists (k, v).
Qed.

Lemma map_assign_keys {A} k (v : A) m : (map_assign k v m).*1 = m.*1.
Proof. induction m as [|[k' v'] m IH]; simpl; [done|]. case_decide; simpl; by f_equal. Qed.

Lemma map_find_assign_eq {A} k (v : A) m :
  map_find k (map_assign k v m) = (λ _, v) <$> map_find k m.
Proof.
  induction m as [|[k' v'] m IH]; simpl; [done|].
  case_decide; simpl; [by rewrite decide_True|by rewrite decide_False].
Qed.

Lemma map_find_assign_ne {A} k k' (v : A) m :
  k ≠ k' → map_find k' (map_assign k v m) = map_find k' m.
Proof.
  intros Hne. induction m as [|[k2 v2] m IH]; simpl; [done|].
  repeat (case_decide; simplify_eq/=); auto.
Qed.

Lemma before_char_clean c s : c ∉ chars (before_char c s).
Proof.
  destruct (str_find c s) eqn:Hf; [by eapply before_after|].
  apply str_find_None in Hf. by rewrite before_char_nosep.
Qed.
