(* ===== verification/Boost.v ===== *)
(** * Boost facilities, as parameters of the model

    Boost is not part of the repository.  What the program calls of it is the
    class [Boost] of operations; the documented behaviour the program relies
    on is the class [BoostLaws].  Every definition of the model that needs
    Boost takes a [Boost] argument, and every theorem that needs to know what
    Boost does takes [BoostLaws].  [RefBoost] is one implementation that
    satisfies the laws; the concrete examples run on it. *)

From S2P Require Import Prelude.
From S2P Require Import CStd.
From Stdlib Require Import Ascii.

Local Open Scope Z_scope.

(** ** [boost::property_tree::ptree]

    The documentation describes a tree as a data string and an ordered list
    of named children. *)
Inductive ptree : Type :=
| PTree (data : string) (children : list (string * ptree)).

Definition pt_data (t : ptree) : string := let '(PTree d _) := t in d.
Definition pt_children (t : ptree) : list (string * ptree) := let '(PTree _ c) := t in c.

(** A tree with neither data nor children: what [clear] leaves. *)
Definition pt_nil : ptree := PTree EmptyString [].
(** [empty()]: there are no direct children. *)
Definition pt_is_empty (t : ptree) : bool :=
  match pt_children t with [] => true | _ => false end.

(** First child with a given name. *)
Fixpoint find_child (k : string) (l : list (string * ptree)) : option ptree :=
  match l with
  | [] => None
  | (k', t) :: l => if decide (k' = k) then Some t else find_child k l
  end.

(** Change the first child with a given name; append one made from the empty
    tree when there is none. *)
Fixpoint upd_child (k : string) (f : ptree → ptree) (l : list (string * ptree)) :
    list (string * ptree) :=
  match l with
  | [] => [(k, f pt_nil)]
  | (k', t) :: l => if decide (k' = k) then (k', f t) :: l else (k', t) :: upd_child k f l
  end.

(** Value at the two-level path [g.k]. *)
Definition get2 (g k : string) (t : ptree) : option string :=
  match find_child g (pt_children t) with
  | Some s => pt_data <$> find_child k (pt_children s)
  | None => None
  end.

(** Store at the two-level path [g.k], creating the missing nodes. *)
Definition put2 (g k v : string) (t : ptree) : ptree :=
  PTree (pt_data t)
    (upd_child g (λ s, PTree (pt_data s)
       (upd_child k (λ u, PTree v (pt_children u)) (pt_children s))) (pt_children t)).

(** ** Operations *)

Class Boost : Type := {
  (** [boost::trim] *)
  trim : string → string;
  (** [boost::split(_, s, is_any_of(seps), token_compress_on/off)] *)
  split_any : string → bool → string → list string;
  (** [(boost::format("%x") % n).str()] *)
  format_x : Z → string;
  (** [string_generator()(s).size()]; [None] when the generator throws *)
  uuid_size : string → option Z;
  (** lexical path operations of [boost::filesystem::path] *)
  path_filename : string → string;
  path_extension : string → string;
  path_stem : string → string;
  path_append : string → string → string;
  (** [get<std::string>(path)]; [None] when it throws *)
  pt_get : string → ptree → option string;
  (** [put<std::string>(path, v)]; [None] when it throws *)
  pt_put : string → string → ptree → option ptree;
  (** text of an INI file to tree; [None] when [read_ini] throws *)
  read_ini : string → option ptree;
  (** tree to the text [write_ini] produces; [None] when it throws *)
  write_ini : ptree → option string;
}.

(** ** Laws *)

(** Runs of separators reduced to their first character. *)
Fixpoint squeeze (seps : list ascii) (prev : bool) (s : string) : string :=
  match s with
  | EmptyString => EmptyString
  | String a s =>
      if decide (a ∈ seps)
      then if prev then squeeze seps true s else String a (squeeze seps true s)
      else String a (squeeze seps false s)
  end.

Definition all_space (s : string) : Prop := Forall (λ c, isspace c = true) (chars s).
Definition head_space (s : string) : bool :=
  match s with String c _ => isspace c | EmptyString => false end.
Definition last_space (s : string) : bool :=
  match str_last s with Some c => isspace c | None => false end.
Definition trimmed (s : string) : Prop := head_space s = false ∧ last_space s = false.

(** A path segment: not empty, no separator in it. *)
Definition segment (s : string) : Prop := s ≠ EmptyString ∧ "."%char ∉ chars s.

Class BoostLaws (B : Boost) : Prop := {
  (** [trim] removes spaces at both ends and nothing else. *)
  trim_spec : ∀ s, trimmed (trim s) ∧
    ∃ l r, all_space l ∧ all_space r ∧ s = l +:+ trim s +:+ r;
  (** Every separator delimits a token. *)
  split_nonempty : ∀ c s, split_any (String c EmptyString) false s ≠ [];
  split_tokens : ∀ c s,
    Forall (λ p, c ∉ chars p) (split_any (String c EmptyString) false s);
  split_joins : ∀ c s, join_char c (split_any (String c EmptyString) false s) = s;
  (** Token compression merges adjacent separators. *)
  split_compress : ∀ c s,
    split_any (String c EmptyString) true s
    = split_any (String c EmptyString) false (squeeze [c] false s);
  (** A dotted path walks from child to child, taking the first match. *)
  pt_get_path : ∀ g k t, segment g → segment k → pt_get (g +:+ "." +:+ k) t = get2 g k t;
  (** [put] replaces the value or creates the node and its parents. *)
  pt_put_path : ∀ g k v t, segment g → segment k →
    pt_put (g +:+ "." +:+ k) v t = Some (put2 g k v t);
}.

(** ** Consequences of the laws *)

Section laws.
Context {B : Boost} {L : BoostLaws B}.

Lemma split_any_char c s : split_any (String c EmptyString) false s = split_char c s.
Proof.
  rewrite <-(split_joins c s) at 2.
  symmetry. apply split_join; [apply split_nonempty|apply split_tokens].
Qed.

Lemma split_any_head c s :
  ∃ tl, split_any (String c EmptyString) false s = before_char c s :: tl.
Proof.
  rewrite split_any_char. destruct (str_find c s) as [n|] eqn:Hf.
  - destruct (before_after c s n Hf) as [Heq Hn].
    exists (split_char c (after_char c s)).
    rewrite <-split_char_app by done. by rewrite <-Heq.
  - apply str_find_None in Hf. rewrite split_char_single, before_char_nosep by done. eauto.
Qed.

Lemma str_last_app s a : str_last (s +:+ String a EmptyString) = Some a.
Proof.
  induction s as [|x s IH]; [done|]. rewrite str_app_cons. simpl. rewrite IH.
  by destruct s.
Qed.

Lemma str_last_app_cons s c r : str_last (s +:+ String c r) = str_last (String c r).
Proof.
  induction s as [|x s IH]; [done|]. rewrite str_app_cons.
  change (str_last (String x (s +:+ String c r)) = str_last (String c r)).
  rewrite <-IH. cbn. by destruct (s +:+ String c r) eqn:E; [destruct s|].
Qed.

(** A string with no space at its ends is left alone. *)
Lemma trim_trimmed s : trimmed s → trim s = s.
Proof.
  intros [Hh Hl]. destruct (trim_spec s) as [[Hth Htl] (l & r & Hls & Hrs & Heq)].
  destruct l as [|c l]; [|rewrite Heq in Hh; inversion Hls; subst; simpl in *; congruence].
  rewrite str_app_nil_l in Heq. destruct r as [|c r]; [by rewrite str_app_nil_r in Heq|].
  exfalso. rewrite Heq in Hl. unfold last_space in Hl. rewrite str_last_app_cons in Hl.
  clear Heq. revert c Hrs Hl. induction r as [|d r IH]; intros c Hrs Hl; simpl in *.
  - inversion Hrs; subst. congruence.
  - inversion Hrs; subst. by apply (IH d).
Qed.

Lemma trim_idemp s : trim (trim s) = trim s.
Proof. apply trim_trimmed, trim_spec. Qed.

(** Trimming gives the empty string exactly on blank strings. *)
Lemma trim_nonblank s : trim s ≠ EmptyString → ∃ c, c ∈ chars (trim s) ∧ isspace c = false.
Proof.
  destruct (trim_spec s) as [[Hh _] _]. destruct (trim s) as [|c r]; [done|].
  intros _. exists c. split; [|done]. unfold chars; simpl. set_solver.
Qed.
End laws.

Lemma find_upd_child_eq k f l :
  find_child k (upd_child k f l) = Some (f (default pt_nil (find_child k l))).
Proof.
  induction l as [|[k' t] l IH]; simpl; [by rewrite decide_True|].
  case_decide; simpl; [by rewrite decide_True|by rewrite decide_False].
Qed.

Lemma find_upd_child_ne k k' f l :
  k ≠ k' → find_child k' (upd_child k f l) = find_child k' l.
Proof.
  intros Hne. induction l as [|[k2 t] l IH]; simpl; [by rewrite decide_False|].
  repeat (case_decide; simplify_eq/=); auto.
Qed.

Lemma get2_put2_eq g k v t : get2 g k (put2 g k v t) = Some v.
Proof. unfold get2, put2; simpl. rewrite find_upd_child_eq. simpl. by rewrite find_upd_child_eq. Qed.

Lemma get2_put2_ne g k v g' k' t :
  (g, k) ≠ (g', k') → get2 g' k' (put2 g k v t) = get2 g' k' t.
Proof.
  intros Hne. unfold get2, put2; simpl. destruct (decide (g = g')) as [<-|Hg].
  - rewrite find_upd_child_eq; simpl. rewrite find_upd_child_ne by congruence.
    by destruct (find_child g (pt_children t)).
  - by rewrite find_upd_child_ne.
Qed.

(** ** A reference implementation *)

Module RefBoost.

Fixpoint trim_left (s : string) : string :=
  match s with
  | String c s' => if isspace c then trim_left s' else s
  | EmptyString => EmptyString
  end.
Fixpoint trim_right (s : string) : string :=
  match s with
  | EmptyString => EmptyString
  | String c s' =>
      match trim_right s' with
      | EmptyString => if isspace c then EmptyString else String c EmptyString
      | r => String c r
      end
  end.

Fixpoint walk (p : list string) (t : ptree) : option ptree :=
  match p with
  | [] => Some t
  | k :: p => match find_child k (pt_children t) with Some u => walk p u | None => None end
  end.
Fixpoint store (p : list string) (v : string) (t : ptree) : ptree :=
  match p with
  | [] => PTree v (pt_children t)
  | k :: p => PTree (pt_data t) (upd_child k (store p v) (pt_children t))
  end.

Definition hex_digit (z : Z) : ascii :=
  ascii_of_N (Z.to_N (if z <? 10 then z + 48 else z + 87)).
Fixpoint hex_go (fuel : nat) (z : Z) (s : string) : string :=
  match fuel with
  | O => s
  | S fuel => let s' := String (hex_digit (z `mod` 16)) s in
              if z `div` 16 =? 0 then s' else hex_go fuel (z `div` 16) s'
  end.

Definition extension (f : string) : string :=
  match str_find "." f with Some n => str_drop n f | None => EmptyString end.

(** Lines to tree: [\[section\]] headers and [key=value] entries. *)
Definition ini_line (acc : option (string * ptree)) (line : string) :
    option (string * ptree) :=
  match acc with
  | None => None
  | Some (sec, t) =>
      let l := trim_left (trim_right line) in
      match l with
      | EmptyString => Some (sec, t)
      | String "#" _ | String ";" _ => Some (sec, t)
      | String "[" r => let name := before_char "]" r in
          Some (name, PTree (pt_data t) (upd_child name (λ x, x) (pt_children t)))
      | _ => match str_find "=" l with
             | None => None
             | Some _ =>
                 let k := trim_left (trim_right (before_char "=" l)) in
                 let v := trim_left (trim_right (after_char "=" l)) in
                 Some (sec, if str_empty sec then store [k] v t else store [sec; k] v t)
             end
      end
  end%char.

Definition ini_entries (l : list (string * ptree)) : string :=
  foldr (λ '(k, t) s, k +:+ "=" +:+ pt_data t +:+ String newline s) EmptyString l.

#[local] Instance ref_boost : Boost := {|
  trim s := trim_left (trim_right s);
  split_any seps compress s :=
    match seps with
    | String c EmptyString => split_char c (if compress then squeeze [c] false s else s)
    | _ => [s]
    end;
  format_x z := hex_go 8 (u32 z) EmptyString;
  uuid_size s := if decide (String.length s = 36%nat) then Some 16 else None;
  path_filename s := basename s;
  path_extension s := extension (basename s);
  path_stem s := before_char "." (basename s);
  path_append p q :=
    if bool_decide (str_last p = Some "/"%char) then p +:+ q else
    match q with
    | String "/" _ => p +:+ q
    | _ => p +:+ "/" +:+ q
    end;
  pt_get p t := pt_data <$> walk (split_char "." p) t;
  pt_put p v t := Some (store (split_char "." p) v t);
  read_ini s := match foldl ini_line (Some (EmptyString, pt_nil)) (getline_all s) with
                | Some (_, t) => Some t | None => None end;
  write_ini t := Some (foldr (λ '(g, u) s,
     "[" +:+ g +:+ "]" +:+ String newline (ini_entries (pt_children u) +:+ s))
     EmptyString (pt_children t));
|}.

Lemma trim_left_spec s :
  head_space (trim_left s) = false ∧ ∃ l, all_space l ∧ s = l +:+ trim_left s.
Proof.
  induction s as [|c s [IH (l & Hl & Heq)]]; simpl.
  - split; [done|]. exists EmptyString. split; [constructor|done].
  - destruct (isspace c) eqn:Hc.
    + split; [done|]. exists (String c l). split; [by constructor|].
      rewrite str_app_cons. by f_equal.
    + split; [done|]. exists EmptyString. split; [constructor|done].
Qed.

Lemma trim_right_spec s :
  last_space (trim_right s) = false ∧ ∃ r, all_space r ∧ s = trim_right s +:+ r.
Proof.
  unfold last_space. induction s as [|c s [IH (r & Hr & Heq)]]; simpl.
  - split; [done|]. exists EmptyString. split; [constructor|done].
  - destruct (trim_right s) as [|d u] eqn:E.
    + destruct (isspace c) eqn:Hc.
      * split; [done|]. exists (String c s). split; [constructor; [done|]|done].
        rewrite str_app_nil_l in Heq. by subst.
      * split; [simpl; by rewrite Hc|]. exists r. split; [done|].
        rewrite str_app_cons. by f_equal.
    + split; [exact IH|]. exists r. split; [done|]. rewrite str_app_cons. by f_equal.
Qed.

Lemma last_space_trim_left s : last_space s = false → last_space (trim_left s) = false.
Proof.
  unfold last_space. induction s as [|c s IH]; [done|]. intros H. simpl.
  destruct (isspace c) eqn:Hc; [|done]. apply IH.
  destruct s; [done|exact H].
Qed.

Lemma walk_store g k v t :
  store [g; k] v t = put2 g k v t.
Proof. done. Qed.

Lemma segment_split g k : segment g → segment k →
  split_char "." (g +:+ "." +:+ k) = [g; k].
Proof.
  intros [_ Hg] [_ Hk]. change ("." +:+ k) with (String "." k).
  rewrite split_char_app by done. by rewrite split_char_single.
Qed.

Lemma ref_laws : BoostLaws ref_boost.
Proof.
  split.
  - intros s. cbn. destruct (trim_right_spec s) as [Hr (r & Hrs & Hs)].
    destruct (trim_left_spec (trim_right s)) as [Hl (l & Hls & Hs')].
    split; [split; [done|by apply last_space_trim_left]|].
    exists l, r. split_and!; [done..|]. by rewrite <-str_app_assoc, <-Hs'.
  - intros c s. cbn. by destruct (split_char_cons c s) as (? & ? & ->).
  - intros c s. apply split_char_nosep.
  - intros c s. apply join_split.
  - done.
  - intros g k t Hg Hk. cbn. rewrite segment_split by done. unfold get2; simpl.
    by destruct (find_child g (pt_children t)); simpl; [case_match|].
  - intros g k v t Hg Hk. cbn. by rewrite segment_split.
Qed.
End RefBoost.
