(* ===== verification/Os.v ===== *)
(** * The operating system, as a parameter of the model

    File system, processes, environment variables and the clock are outside
    the repository.  A call the program makes on them is a value of the
    indexed type [oscall]; an [OsEnv] is any machine that answers such calls
    and moves to a new world with each of them, so that two equal calls may
    be answered differently and time may pass in between.  Next to the world
    the model keeps a log of the calls that act on the machine ([event]) and
    a trace of all calls with their answers ([answered]); the theorems about
    effects speak of these.  [SimOs] is a small machine for the concrete
    examples. *)

From S2P Require Import Prelude.
From S2P Require Import CStd.
From S2P Require Import Boost.
From Stdlib Require Import Ascii.

Local Open Scope Z_scope.

Inductive oscall : Type → Type :=
(** [boost::filesystem] queries with an [error_code] *)
| FsExists (p : string) : oscall bool
| FsIsRegular (p : string) : oscall bool
| FsIsDirectory (p : string) : oscall bool
| FsIsSymlink (p : string) : oscall bool
| FsReadSymlink (p : string) : oscall string
| FsAbsolute (p : string) : oscall string
| FsFileSize (p : string) : oscall Z
(** entries of a directory in iteration order; [None]: the iterator throws *)
| FsDirEntries (p : string) : oscall (option (list string))
(** [boost::filesystem] changes *)
| FsCreateDirs (p : string) : oscall bool
| FsRemove (p : string) : oscall bool
| FsRename (p q : string) : oscall unit
(** without an [error_code]: [None] and [false] mean it throws *)
| FsRemoveX (p : string) : oscall (option bool)
| FsPermissions (p : string) : oscall bool
(** whole text of a file through [std::ifstream]; [None]: it does not open *)
| FileRead (p : string) : oscall (option string)
(** text sent to a truncating [std::ofstream] *)
| FileWrite (p s : string) : oscall unit
| FileAppend (p s : string) : oscall unit
(** [boost::process::system]: exit code; [None]: it throws *)
| ProcSystem (cmd : string) : oscall (option Z)
(** [boost::process::system(exe, args(args))]: the arguments are not split *)
| ProcSystemArgs (exe : string) (args : list string) : oscall (option Z)
(** C's [system(cmd)] *)
| CSystem (cmd : string) : oscall Z
(** what a child started with [std_out > pipe] prints; [None]: it throws *)
| ProcOutput (cmd : string) : oscall (option string)
| ProcSearchPath (name : string) : oscall string
(** [boost::process::child]: start, id; poll; wait; [kill] with [SIGTERM] *)
| ProcSpawn (cmd : string) (env : list (string * string)) : oscall Z
(** a child started without an [error_code]; [None]: the constructor throws *)
| ProcChild (cmd : string) : oscall (option Z)
| ProcRunning (pid : Z) : oscall bool
| ProcWait (pid : Z) : oscall unit
| ProcKill (pid : Z) : oscall unit
(** [child::terminate()]: [SIGKILL] and the wait for the end *)
| ProcTerminate (pid : Z) : oscall unit
(** [access(p, F_OK) == 0] *)
| Access (p : string) : oscall bool
| Usleep (us : Z) : oscall unit
(** [strftime] of the local time *)
| Strftime (fmt : string) : oscall string
| Getenv (name : string) : oscall (option string)
| Getuid : oscall Z
(** [pw_dir] of the entry [getpwuid_r] finds; [None]: an error or no entry *)
| GetpwuidDir (uid : Z) : oscall (option string)
(** [fork()], [sysconf(_SC_OPEN_MAX)] *)
| Fork : oscall Z
| SysconfOpenMax : oscall Z
(** whether [open(p, O_RDWR)] and [dup2] succeed *)
| OpenOk (p : string) : oscall bool
| Dup2Ok : oscall bool
(** [std::getline(std::cin, str)] *)
| ReadLine : oscall string
(** the gRPC call [CivPowerCtl.Shutdown] to an address: [status.ok()] *)
| GrpcShutdown (addr : string) : oscall bool
(** [BuildAndStart()] of a gRPC server on an address gives a server *)
| GrpcListen (addr : string) : oscall bool
(** a shared memory segment of this name can be created *)
| ShmCreate (name : string) : oscall bool
(** how the id of a newly started thread prints *)
| ThreadId : oscall string
(** the value an uninitialised [int] happens to have *)
| IndetInt : oscall Z.

Class OsEnv : Type := {
  os_world : Type;
  os_handle : ∀ A : Type, oscall A → os_world → A * os_world;
}.
Arguments os_handle {_} {A} _ _.

(** Calls that act on the machine. *)
Inductive event : Type :=
| EvWrite (p s : string)
| EvAppend (p s : string)
| EvSystem (cmd : string)
| EvSystemArgs (exe : string) (args : list string)
| EvSpawn (cmd : string)
| EvKill (pid : Z)
| EvTerminate (pid : Z)
| EvRemove (p : string)
| EvRename (p q : string)
| EvMkdir (p : string)
| EvShutdown (addr : string).

#[export] Instance event_eq_dec : EqDecision event.
Proof. solve_decision. Defined.

Definition event_of {A} (c : oscall A) : list event :=
  match c with
  | FileWrite p s => [EvWrite p s]
  | ProcSystem cmd => [EvSystem cmd]
  | ProcSystemArgs exe args => [EvSystemArgs exe args]
  | CSystem cmd => [EvSystem cmd]
  | ProcOutput cmd => [EvSpawn cmd]
  | FileAppend p s => [EvAppend p s]
  | ProcSpawn cmd _ => [EvSpawn cmd]
  | ProcChild cmd => [EvSpawn cmd]
  | FsRemoveX p => [EvRemove p]
  | ProcKill pid => [EvKill pid]
  | ProcTerminate pid => [EvTerminate pid]
  | FsRemove p => [EvRemove p]
  | FsRename p q => [EvRename p q]
  | FsCreateDirs p => [EvMkdir p]
  | GrpcShutdown a => [EvShutdown a]
  | _ => []
  end.

(** A call with the answer it got. *)
Inductive answered : Type :=
| Asked {A : Type} (c : oscall A) (a : A).

Record OsSt `{OsEnv} : Type := mkOsSt {
  os_w : os_world;
  os_log : list event;
  os_trace : list answered;     (** every call so far, with its answer *)
}.

Section os.
Context {E : OsEnv}.

Definition os {A} (c : oscall A) : M OsSt A := λ s,
  let '(a, w) := os_handle c (os_w s) in (Ret a, mkOsSt _ w (os_log s ++ event_of c) (os_trace s ++ [Asked c a])).

(** [boost::process::system(cmd)] with its throw. *)
Definition proc_system (cmd : string) : M OsSt Z :=
  r ← os (ProcSystem cmd);
  match r with
  | Some rc => mret rc
  | None => throw ExProcess
  end.

(** The same on an executable and its arguments. *)
Definition proc_system_args (exe : string) (args : list string) : M OsSt Z :=
  r ← os (ProcSystemArgs exe args);
  match r with
  | Some rc => mret rc
  | None => throw ExProcess
  end.

(** [directory_iterator(p)] with its throw.  The list is what the iteration
    shows, entries made meanwhile included. *)
Definition dir_entries (p : string) : M OsSt (list string) :=
  r ← os (FsDirEntries p);
  match r with
  | Some l => mret l
  | None => throw ExFilesystem
  end.

(** The log only grows. *)
Definition log_grows (s s' : OsSt) : Prop := os_log s `prefix_of` os_log s'.

#[export] Instance log_grows_preorder : PreOrder log_grows.
Proof. split; [intros ?; unfold log_grows; reflexivity|intros ???; unfold log_grows; apply transitivity]. Qed.

Lemma os_run {A} (c : oscall A) s :
  ∃ a w, os_handle c (os_w s) = (a, w) ∧ os c s = (Ret a, mkOsSt _ w (os_log s ++ event_of c) (os_trace s ++ [Asked c a])).

Proof. unfold os. destruct (os_handle c (os_w s)) as [a w]; eauto. Qed.

Lemma os_log_grows {A} (c : oscall A) : grows log_grows (os c).
Proof.
  intros s. destruct (os_run c s) as (a & w & _ & ->). unfold log_grows; simpl.
  by apply prefix_app_r.
Qed.
End os.

(** Computations whose calls all leave the world's log alone or act only in
    ways allowed by a predicate on events. *)
Definition emits `{OsEnv} {A} (P : event → Prop) (c : M OsSt A) : Prop :=
  ∀ s, ∃ evs, os_log (c s).2 = os_log s ++ evs ∧ Forall P evs.

Section emits.
Context {E : OsEnv} (P : event → Prop).

(** [emits] is [grows] for the relation that bounds the new events. *)
Definition emit_rel (s s' : OsSt) : Prop := ∃ evs, os_log s' = os_log s ++ evs ∧ Forall P evs.

#[export] Instance emit_rel_preorder : PreOrder emit_rel.
Proof.
  split.
  - intros s. exists []. split; [by rewrite app_nil_r|constructor].
  - intros s1 s2 s3 (e1 & H1 & P1) (e2 & H2 & P2). exists (e1 ++ e2).
    rewrite H2, H1, <-app_assoc. split; [done|by apply Forall_app].
Qed.

Lemma emits_grows {A} (c : M OsSt A) : emits P c ↔ grows emit_rel c.
Proof. done. Qed.

Lemma emits_os {A} (c : oscall A) : Forall P (event_of c) → grows emit_rel (os c).
Proof.
  intros HP s. destruct (os_run c s) as (a & w & _ & ->). eexists. split; [done|done].
Qed.
End emits.

(** *** Specifications by the trace *)

Section does.
Context {E : OsEnv}.

(** Every call made in between satisfies [P]. *)
Definition does (P : answered → Prop) (s s' : OsSt) : Prop :=
  ∃ t, os_trace s' = os_trace s ++ t ∧ Forall P t.

#[export] Instance does_preorder P : PreOrder (does P).
Proof.
  split.
  - intros s. exists []. split; [by rewrite app_nil_r|constructor].
  - intros s1 s2 s3 (t1 & H1 & P1) (t2 & H2 & P2). exists (t1 ++ t2).
    rewrite H2, H1, <-app_assoc. split; [done|by apply Forall_app].
Qed.

Lemma does_os {A} (c : oscall A) P : (∀ a, P (Asked c a)) → grows (does P) (os c).
Proof. intros HP s. destruct (os_run c s) as (a & w & _ & ->). exists [Asked c a]. by repeat constructor. Qed.

(** The calls made in between. *)
Definition calls (s s' : OsSt) (t : list answered) : Prop := os_trace s' = os_trace s ++ t.

Lemma calls_does P s s' : does P s s' ↔ ∃ t, calls s s' t ∧ Forall P t.
Proof. done. Qed.
Lemma calls_refl s : calls s s [].
Proof. unfold calls. by rewrite app_nil_r. Qed.
Lemma calls_trans s1 s2 s3 t1 t2 : calls s1 s2 t1 → calls s2 s3 t2 → calls s1 s3 (t1 ++ t2).
Proof. unfold calls. intros H1 H2. by rewrite H2, H1, app_assoc. Qed.
Lemma calls_inj s s' t t' : calls s s' t → calls s s' t' → t = t'.
Proof. unfold calls. intros H1 H2. rewrite H1 in H2. by apply app_inv_head in H2. Qed.
End does.

(** The process a call has started. *)
Definition spawned (x : answered) : option Z :=
  match x with
  | Asked c a => match c in oscall A return A → option Z with
                 | ProcSpawn _ _ => Some
                 | ProcChild _ => id
                 | _ => λ _, None
                 end a
  end.

(** A process was seen to have ended, or waited for, or ended with certainty. *)
Definition gone (pid : Z) (t : list answered) : Prop :=
  Asked (ProcRunning pid) false ∈ t ∨ Asked (ProcWait pid) tt ∈ t ∨ Asked (ProcTerminate pid) tt ∈ t.
(** It was seen to have ended, or was asked to. *)
Definition told (pid : Z) (t : list answered) : Prop :=
  Asked (ProcRunning pid) false ∈ t ∨ Asked (ProcKill pid) tt ∈ t.

(** Every process that was started is gone afterwards or is still held. *)
Fixpoint settled (held : Z → Prop) (t : list answered) : Prop :=
  match t with
  | [] => True
  | x :: t => (∀ pid, spawned x = Some pid → gone pid t ∨ held pid) ∧ settled held t
  end.
(** Every process that was started is gone afterwards. *)
Definition all_gone (t : list answered) : Prop := settled (λ _, False) t.

Definition unspawned (x : answered) : Prop := spawned x = None.

Lemma gone_app pid t t' : gone pid t ∨ gone pid t' → gone pid (t ++ t').
Proof. unfold gone. set_solver. Qed.
Lemma told_app pid t t' : told pid t ∨ told pid t' → told pid (t ++ t').
Proof. unfold told. set_solver. Qed.

Lemma settled_app (h h' : Z → Prop) t t' :
  settled h t → (∀ pid, h pid → gone pid t' ∨ h' pid) → settled h' t' → settled h' (t ++ t').
Proof.
  intros Ht Hh Ht'. induction t as [|x t IH]; [done|]. destruct Ht as [Hx Ht].
  split; [|by apply IH]. intros pid Hp. destruct (Hx pid Hp) as [Hg|Hg].
  - left. apply gone_app. by left.
  - destruct (Hh pid Hg); [left; apply gone_app; by right|by right].
Qed.

Lemma settled_unspawned h t : Forall unspawned t → settled h t.
Proof. induction 1 as [|x t Hx Ht IH]; [done|]. split; [|done]. intros pid. rewrite Hx. done. Qed.

Lemma settled_mono (h h' : Z → Prop) t : (∀ pid, h pid → h' pid) → settled h t → settled h' t.
Proof.
  intros Hh Ht. rewrite <-(app_nil_r t). apply (settled_app h); [done|by auto|done].
Qed.

(** *** Specifications by events

    [ends X Q c]: [c] comes back; when it returns [a], it has added events
    that satisfy [Q a]; when it throws, the exception satisfies [X]. *)
Definition ends `{OsEnv} {A} (X : exn → Prop) (Q : A → list event → Prop) (c : M OsSt A) : Prop :=
  ∀ s, match c s with
       | (Ret a, s') => ∃ evs, os_log s' = os_log s ++ evs ∧ Q a evs
       | (Throw e, _) => X e
       | (Blocked, _) => False
       end.

Section ends.
Context {E : OsEnv} (X : exn → Prop).

Lemma ends_ret {A} (a : A) (Q : A → list event → Prop) : Q a [] → ends X Q (mret a).
Proof. intros HQ s. exists []. by rewrite app_nil_r. Qed.

Lemma ends_os {A} (c : oscall A) (Q : A → list event → Prop) :
  (∀ a, Q a (event_of c)) → ends X Q (os c).
Proof. intros HQ s. destruct (os_run c s) as (a & w & _ & ->). by eexists. Qed.

Lemma ends_throw {A} e (Q : A → list event → Prop) : X e → ends X Q (throw e).
Proof. by intros HX s. Qed.

Lemma ends_bind {A A'} (c : M OsSt A) (k : A → M OsSt A') P Q :
  ends X P c → (∀ a e1, P a e1 → ends X (λ b e2, Q b (e1 ++ e2)) (k a)) →
  ends X Q (c ≫= k).
Proof.
  intros Hc Hk s. specialize (Hc s). unfold mbind, M_bind.
  destruct (c s) as [[a|e|] s1]; [|done..]. destruct Hc as (e1 & L1 & HP).
  specialize (Hk a e1 HP s1). destruct (k a s1) as [[b|e|] s2]; [|done..].
  destruct Hk as (e2 & L2 & HQ). exists (e1 ++ e2). by rewrite L2, L1, app_assoc.
Qed.

Lemma ends_mono {A} (c : M OsSt A) (P Q : A → list event → Prop) :
  ends X P c → (∀ a e, P a e → Q a e) → ends X Q c.
Proof. intros Hc HPQ s. specialize (Hc s). destruct (c s) as [[]?]; naive_solver. Qed.

(** Without an interest in the result. *)
Lemma ends_any {A A'} (c : M OsSt A) (k : A → M OsSt A') Q :
  ends X (λ _ _, True) c → (∀ a e1, ends X (λ b e2, Q b (e1 ++ e2)) (k a)) → ends X Q (c ≫= k).
Proof. intros Hc Hk. eapply ends_bind; [exact Hc|auto]. Qed.
End ends.

(** Symbolic execution: unfold the monad, then run one call at a time. *)
Ltac sx_unfold :=
  unfold skip, when in *;
  unfold mbind, M_bind, mret, M_ret, fmap, M_fmap, gets, modify, throw, blocked, lift, os in *.
Ltac sx_call :=
  match goal with
  | |- context [os_handle ?c ?w] =>
      let a := fresh "a" in let w' := fresh "w" in
      destruct (os_handle c w) as [a w'] eqn:?; cbn; rewrite ?app_nil_r
  end.

(** Run all calls, splitting on their answers. *)
Ltac sx_all :=
  repeat first
    [ sx_call
    | match goal with
      | |- context [negb ?b] => is_var b; destruct b; cbn
      | |- context [match ?b with _ => _ end] => is_var b; destruct b; cbn
      end ].

(** ** A small machine for examples *)
Module SimOs.

Record sim : Type := mkSim {
  files : gmap string string;
  dirs : gmap string (list string);
  links : gmap string string;
  next_pid : Z;
  live : gset Z;
}.

Definition sim_exists (p : string) (w : sim) : bool :=
  bool_decide (is_Some (files w !! p) ∨ is_Some (dirs w !! p) ∨ is_Some (links w !! p)).

Definition sim_handle (A : Type) (c : oscall A) (w : sim) : A * sim :=
  match c in oscall A return A * sim with
  | FsExists p => (sim_exists p w, w)
  | FsIsRegular p => (bool_decide (is_Some (files w !! p)), w)
  | FsIsDirectory p => (bool_decide (is_Some (dirs w !! p)), w)
  | FsIsSymlink p => (bool_decide (is_Some (links w !! p)), w)
  | FsReadSymlink p => (default EmptyString (links w !! p), w)
  | FsAbsolute p => (p, w)
  | FsFileSize p => (Z.of_nat (String.length (default EmptyString (files w !! p))), w)
  | FsDirEntries p => (dirs w !! p, w)
  | FsCreateDirs p => (true, mkSim (files w) (<[p := []]> (dirs w)) (links w) (next_pid w) (live w))
  | FsRemove p => (sim_exists p w,
      mkSim (delete p (files w)) (dirs w) (delete p (links w)) (next_pid w) (live w))
  | FsRename p q => (tt,
      match files w !! p with
      | Some c => mkSim (<[q := c]> (delete p (files w))) (dirs w) (links w) (next_pid w) (live w)
      | None => w
      end)
  | FsRemoveX p => (Some (sim_exists p w),
      mkSim (delete p (files w)) (dirs w) (delete p (links w)) (next_pid w) (live w))
  | FsPermissions _ => (true, w)
  | FileRead p => (files w !! p, w)
  | FileWrite p s => (tt, mkSim (<[p := s]> (files w)) (dirs w) (links w) (next_pid w) (live w))
  | FileAppend p s => (tt,
      mkSim (<[p := default EmptyString (files w !! p) +:+ s]> (files w)) (dirs w) (links w)
        (next_pid w) (live w))
  | ProcSystem _ => (Some 0, w)
  | ProcSystemArgs _ _ => (Some 0, w)
  | CSystem _ => (0, w)
  | ProcOutput _ => (Some EmptyString, w)
  | ProcChild _ => (Some (next_pid w), w)
  | ProcSearchPath n => ("/usr/bin/" +:+ n, w)
  | ProcSpawn _ _ => (next_pid w,
      mkSim (files w) (dirs w) (links w) (next_pid w + 1) ({[next_pid w]} ∪ live w))
  | ProcRunning p => (bool_decide (p ∈ live w), w)
  | ProcWait _ => (tt, w)
  | ProcTerminate p => (tt, mkSim (files w) (dirs w) (links w) (next_pid w) (live w ∖ {[p]}))
  | ProcKill p => (tt, mkSim (files w) (dirs w) (links w) (next_pid w) (live w ∖ {[p]}))
  | Access p => (sim_exists p w, w)
  | Usleep _ => (tt, w)
  | Strftime _ => ("2022-01-01_00:00:00", w)
  | Getenv _ => (None, w)
  | Getuid => (1000, w)
  | GetpwuidDir _ => (Some "/home/civ", w)
  | Fork => (0, w)
  | SysconfOpenMax => (1024, w)
  | OpenOk _ => (true, w)
  | Dup2Ok => (true, w)
  | ReadLine => (EmptyString, w)
  | GrpcShutdown _ => (false, w)
  | GrpcListen _ => (true, w)
  | ShmCreate _ => (true, w)
  | ThreadId => ("7f00", w)
  | IndetInt => (0, w)
  end.

Definition sim_os : OsEnv := {| os_world := sim; os_handle := sim_handle |}.

(** A machine with the given files and directories. *)
Definition boot (fs : list (string * string)) (ds : list (string * list string))
    (ls : list (string * string)) : @OsSt sim_os :=
  @mkOsSt sim_os (mkSim (list_to_map fs) (list_to_map ds) (list_to_map ls) 100 ∅) [] [].
End SimOs.
