(* ===== verification/Utils.v ===== *)
(** * Utilities

    utils/utils.{h,cc} and the string helper of utils/log.h: the size
    literals, the directory of the guests' configuration files with the
    temporary change of the process's user and group, and the detachment of
    the server process from its terminal. *)

From S2P Require Import Prelude.
From S2P Require Import CStd.
From S2P Require Import Os.
From Stdlib Require Import Ascii.

Local Open Scope Z_scope.

Definition MAX_PATH : Z := 2048.

(** [operator""_KB] and its fellows: [size_t] from [unsigned long long]. *)
Definition _KB (v : Z) : Z := u64 (1024 * v).
Definition _MB (v : Z) : Z := u64 (1024 * 1024 * v).
Definition _GB (v : Z) : Z := u64 (1024 * 1024 * 1024 * v).

(** [path.find_last_of(set)], the number of characters up to and with the
    last one of the set; 0 when there is none ([npos + 1]). *)
Fixpoint after_last_of (set : list ascii) (s : string) : nat :=
  match s with
  | EmptyString => 0
  | String c s =>
      match after_last_of set s with
      | O => if decide (c ∈ set) then 1 else 0
      | n => S n
      end
  end.

(** [std::string logger::path_to_filename(std::string path)] *)
Definition path_to_filename (path : string) : string :=
  str_drop (after_last_of ["/"%char; "\"%char] path) path.

Lemma after_last_of_clean set s :
  Forall (λ c, c ∉ set) (chars (str_drop (after_last_of set s) s)).
Proof.
  unfold chars. induction s as [|c s IH]; [constructor|]. cbn [after_last_of].
  destruct (after_last_of set s) as [|n]; [|exact IH].
  assert (str_drop 0 s = s) as Hd by (by destruct s). rewrite Hd in IH.
  case_decide; cbn; [done|]. by constructor.
Qed.

(** ** User and group of a process *)

Record Ids : Type := mkIds { real : Z; effective : Z; saved : Z }.
Record Creds : Type := mkCreds { uids : Ids; gids : Ids }.

(** [(uid_t)-1]: leave this id as it is. *)
Definition id_keep : Z := 4294967295.
Definition id_pick (v old : Z) : Z := if decide (v = id_keep) then old else v.
(** A process without the capability may only use the ids it has. *)
Definition id_allowed (i : Ids) (v : Z) : bool :=
  bool_decide (v = id_keep ∨ v = real i ∨ v = effective i ∨ v = saved i).

(** [setresuid], [setresgid]; the program does not look at the result. *)
Definition setres (cap : bool) (r e s : Z) (i : Ids) : Ids :=
  if cap || (id_allowed i r && id_allowed i e && id_allowed i s)
  then mkIds (id_pick r (real i)) (id_pick e (effective i)) (id_pick s (saved i))
  else i.

Section config_path.
Context {E : OsEnv}.
(** Whether a process with these ids may change to any other. *)
Context (capable : Creds → bool).

Record UtilSt : Type := mkUtil {
  civ_config_path : option string;
  creds : Creds;
  u_os : OsSt;
}.

Definition set_path (p : option string) (s : UtilSt) : UtilSt := mkUtil p (creds s) (u_os s).
Definition set_creds (c : Creds) (s : UtilSt) : UtilSt := mkUtil (civ_config_path s) c (u_os s).
Definition util_os {A} (c : M OsSt A) : M UtilSt A :=
  lift u_os (λ o s, mkUtil (civ_config_path s) (creds s) o) c.

Definition setresuid (r e s : Z) : M UtilSt unit :=
  modify (λ t, set_creds
    (mkCreds (setres (capable (creds t)) r e s (uids (creds t))) (gids (creds t))) t).
Definition setresgid (r e s : Z) : M UtilSt unit :=
  modify (λ t, set_creds
    (mkCreds (uids (creds t)) (setres (capable (creds t)) r e s (gids (creds t)))) t).

(** [snprintf(civ_config_path, MAX_PATH, "%s%s", pwd.pw_dir, "/.intel/.civ")] *)
Definition config_dir (pw_dir : string) : string :=
  str_take (Z.to_nat (MAX_PATH - 1)) (pw_dir +:+ "/.intel/.civ").

(** [const char *GetConfigPath(void)]; [None] is [NULL]. *)
Definition GetConfigPath : M UtilSt (option string) :=
  cached ← gets civ_config_path;
  match cached with
  | Some p => mret (Some p)
  | None =>
      c ← gets creds;
      let ruid := real (uids c) in
      let suid := effective (uids c) in
      let rgid := real (gids c) in
      let sgid := effective (gids c) in
      sudo_uid ← util_os (os (Getenv "SUDO_UID"));
      sudo_gid ← util_os (os (Getenv "SUDO_GID"));
      let egid := match sudo_gid with Some v => u32 (atoi v) | None => effective (gids c) end in
      when (bool_decide (is_Some sudo_gid)) (setresgid rgid egid sgid) ;;
      let euid := match sudo_uid with Some v => u32 (atoi v) | None => effective (uids c) end in
      when (bool_decide (is_Some sudo_uid)) (setresuid ruid euid suid) ;;
      modify (set_path (Some EmptyString)) ;;
      pwd ← util_os (os (GetpwuidDir euid));
      match pwd with
      | None => mret None
      | Some pw_dir =>
          modify (set_path (Some (config_dir pw_dir))) ;;
          ex ← util_os (os (FsExists (config_dir pw_dir)));
          (if negb ex then
             made ← util_os (os (FsCreateDirs (config_dir pw_dir)));
             if negb made then modify (set_path None) else skip
           else skip) ;;
          when (bool_decide (is_Some sudo_gid)) (setresgid rgid sgid egid) ;;
          when (bool_decide (is_Some sudo_uid)) (setresuid ruid suid euid) ;;
          gets civ_config_path
      end
  end.
End config_path.

(** ** Detaching from the terminal *)

(** How a function ends in one of the processes that [fork] makes. *)
Inductive ended (A : Type) : Type :=
| Returned (ret : A)
| Exited (status : Z).
Arguments Returned {A} ret.
Arguments Exited {A} status.

(** The lowest descriptor that is not in use, which POSIX has [open] return. *)
Fixpoint lowest_from (fuel : nat) (i : Z) (fds : gmap Z string) : Z :=
  match fuel with
  | O => i
  | S fuel => match fds !! i with Some _ => lowest_from fuel (i + 1) fds | None => i end
  end.
Definition lowest_free (fds : gmap Z string) : Z := lowest_from (S (size fds)) 0 fds.

(** [for (int t = n; t >= 0; t--) close(t);] *)
Fixpoint close_down (n : nat) (fds : gmap Z string) : gmap Z string :=
  match n with
  | O => delete 0 fds
  | S k => close_down k (delete (Z.of_nat n) fds)
  end.
Definition close_all (n : Z) (fds : gmap Z string) : gmap Z string :=
  if n <? 0 then fds else close_down (Z.to_nat n) fds.

Definition kDevNull : string := "/dev/null".

Section daemonize.
Context {E : OsEnv}.

(** What a process has of its own. *)
Record ProcEnv : Type := mkProcEnv {
  fds : gmap Z string;          (** open descriptors and what they refer to *)
  own_session : bool;           (** after [setsid] *)
  ignored : list string;        (** signals with [SIG_IGN] *)
  cwd : string;
  umask : option Z;             (** [None]: as inherited *)
}.

Definition set_fds (f : gmap Z string → gmap Z string) (s : ProcEnv) : ProcEnv :=
  mkProcEnv (f (fds s)) (own_session s) (ignored s) (cwd s) (umask s).
Definition set_umask (s : ProcEnv) : ProcEnv :=
  mkProcEnv (fds s) (own_session s) (ignored s) (cwd s) (Some 0).
Definition leave_session (s : ProcEnv) : ProcEnv :=
  mkProcEnv (fds s) true (ignored s ++ ["SIGCHLD"; "SIGHUP"]) "/" (umask s).

Definition DaemonSt : Type := ProcEnv * OsSt.
Definition d_call {A} (c : M OsSt A) : M DaemonSt A := lift snd (λ o s, (s.1, o)) c.
Definition d_upd (f : ProcEnv → ProcEnv) : M DaemonSt unit := modify (λ s, (f s.1, s.2)).

(** [int Daemonize(void)], in the process that the answers of [fork] select *)
Definition Daemonize : M DaemonSt (ended Z) :=
  pid ← d_call (os Fork);
  if 0 <? pid then mret (Exited 0)
  else if pid <? 0 then mret (Returned (-1)) else
  d_upd leave_session ;;
  pid ← d_call (os Fork);
  if 0 <? pid then mret (Returned pid)
  else if pid <? 0 then mret (Exited (-1)) else
  d_upd set_umask ;;
  n ← d_call (os SysconfOpenMax);
  d_upd (set_fds (close_all (to_int n))) ;;
  d_upd (set_fds (λ m, delete 2 (delete 1 (delete 0 m)))) ;;
  ok ← d_call (os (OpenOk kDevNull));
  if negb ok then mret (Returned (-1)) else
  fd ← gets (λ s : DaemonSt, lowest_free (fds s.1));
  d_upd (set_fds (<[fd := kDevNull]>)) ;;
  if negb (fd =? 0) then d_upd (set_fds (delete fd)) ;; mret (Returned (-1)) else
  out ← d_call (os Dup2Ok);
  if negb out then mret (Returned (-1)) else
  d_upd (set_fds (<[1 := kDevNull]>)) ;;
  err ← d_call (os Dup2Ok);
  if negb err then mret (Returned (-1)) else
  d_upd (set_fds (<[2 := kDevNull]>)) ;;
  mret (Returned 0).
End daemonize.

(** ** Properties of the configuration directory *)

(** Real and effective ids are the same. *)
Definition same_ids (c d : Creds) : Prop :=
  real (uids d) = real (uids c) ∧ effective (uids d) = effective (uids c)
  ∧ real (gids d) = real (gids c) ∧ effective (gids d) = effective (gids c).

(** No process runs under the id that means "leave as it is". *)
Definition valid_creds (c : Creds) : Prop :=
  effective (uids c) ≠ id_keep ∧ effective (gids c) ≠ id_keep.

(** Taking an effective id and putting the old one back, each with any
    privilege, restores the real and the effective id. *)
Lemma setres_back cap cap' x i :
  effective i ≠ id_keep →
  let j := setres cap' (real i) (effective i) x (setres cap (real i) x (effective i) i) in
  real j = real i ∧ effective j = effective i.
Proof.
  destruct i as [r e s]; simpl. intros He. unfold setres; simpl.
  destruct (cap || _) eqn:Hc; simpl.
  - assert (id_allowed (mkIds (id_pick r r) (id_pick x e) (id_pick e s)) r
      && id_allowed (mkIds (id_pick r r) (id_pick x e) (id_pick e s)) e
      && id_allowed (mkIds (id_pick r r) (id_pick x e) (id_pick e s)) x = true) as Hok.
    { unfold id_allowed, id_pick; simpl. rewrite !andb_true_iff, !bool_decide_eq_true.
      repeat case_decide; naive_solver. }
    rewrite Hok, orb_true_r; simpl. unfold id_pick; repeat case_decide; naive_solver.
  - unfold id_pick. by destruct (cap' || _); simpl; repeat case_decide.
Qed.

Lemma str_take_length n s : (String.length (str_take n s) <= n)%nat.
Proof. revert s. induction n as [|n IH]; intros [|c s]; simpl; try lia. specialize (IH s); lia. Qed.

Section config_path_properties.
Context {E : OsEnv} (capable : Creds → bool).

(** A path that is known is given without looking at the machine. *)
Lemma GetConfigPath_cached p s :
  civ_config_path s = Some p → GetConfigPath capable s = (Ret (Some p), s).
Proof. intros Hp. unfold GetConfigPath. sx_unfold. by rewrite Hp. Qed.

(** A request always comes back. *)
Lemma GetConfigPath_back s :
  ∃ r s', GetConfigPath capable s = (Ret r, s')
    ∧ os_log (u_os s) `prefix_of` os_log (u_os s') ∧ does unspawned (u_os s) (u_os s').
Proof.
  destruct s as [[p|] c [w log tr]]; [eexists _, _; split_and!; [done..|]; reflexivity|].
  unfold GetConfigPath, setresgid, setresuid, util_os. sx_unfold. cbn. sx_call. sx_call.
  destruct a as [vu|], a0 as [vg|]; cbn; sx_call; case_match; cbn; sx_all;
    eexists _, _; (split; [done|]); cbn; (split; [done || by apply prefix_app_r|]);
    eexists; (split; [cbn; by rewrite <-!app_assoc|by repeat constructor]).
Qed.

(** The user and group whose directory is asked for: those [sudo] was called
    by, or the process's own. *)
Definition sudo_id (v : option string) (own : Z) : Z :=
  match v with Some v => u32 (atoi v) | None => own end.

(** C29: the first request for the configuration directory, by the answers it
    gets.  It asks for the home directory of the user [sudo] was called by, or
    of the effective user.  With a home directory the path is the one below it,
    of less than [MAX_PATH] characters, and the process has its real and
    effective ids back; the path is given, and kept for later requests, exactly
    when it exists or was just made, and nothing is given or kept when it could
    not be made.  Without an entry for the user nothing is given, an empty path
    is kept, which later requests are given, and nothing is made. *)
Theorem config_path_outcome s :
  civ_config_path s = None → valid_creds (creds s) →
  ∃ r s' sudo_uid sudo_gid home made, GetConfigPath capable s = (Ret r, s')
    ∧ calls (u_os s) (u_os s')
        ([Asked (Getenv "SUDO_UID") sudo_uid; Asked (Getenv "SUDO_GID") sudo_gid;
          Asked (GetpwuidDir (sudo_id sudo_uid (effective (uids (creds s))))) home] ++ made)
    ∧ match home with
      | None => r = None ∧ made = [] ∧ GetConfigPath capable s' = (Ret (Some EmptyString), s')
      | Some pw_dir =>
          let p := config_dir pw_dir in
          same_ids (creds s) (creds s') ∧ Z.of_nat (String.length p) < MAX_PATH
          ∧ (((made = [Asked (FsExists p) true]
               ∨ made = [Asked (FsExists p) false; Asked (FsCreateDirs p) true])
              ∧ r = Some p ∧ GetConfigPath capable s' = (Ret (Some p), s'))
             ∨ (made = [Asked (FsExists p) false; Asked (FsCreateDirs p) false]
                ∧ r = None ∧ civ_config_path s' = None))
      end.
Proof.
  destruct s as [p c [w log tr]]. simpl. intros -> [Hu Hg].
  unfold GetConfigPath at 1, setresgid, setresuid, util_os. sx_unfold. cbn.
  sx_call. sx_call.
  assert (∀ pw, Z.of_nat (String.length (config_dir pw)) < MAX_PATH) as Hlen.
  { intros pw. unfold config_dir. pose proof (str_take_length (Z.to_nat (MAX_PATH - 1)) (pw +:+ "/.intel/.civ")).
    unfold MAX_PATH in *. lia. }
  set (su := a) in *. set (sg := a0) in *.
  destruct a as [vu|], a0 as [vg|]; cbn; sx_call; (case_match; [|
    eexists _, _, su, sg, None, []; split; [done|]; split; [unfold calls; cbn; by rewrite <-!app_assoc|];
    split_and!; [done|done|by apply GetConfigPath_cached]]); cbn; sx_all;
    (eexists _, _, su, sg, (Some _), _; split; [done|]; split; [unfold calls; cbn; by rewrite <-!app_assoc|]);
    cbn; (split; [unfold same_ids; cbn; split_and!; try done; apply setres_back; done|]);
    (split; [apply Hlen|]).
  all: first [right; by split_and! | left; (split; [by auto|]); split; [done|by apply GetConfigPath_cached]].
Qed.
End config_path_properties.

(** ** Properties of the detachment *)

Lemma close_down_lookup n m fd :
  close_down n m !! fd = if decide (0 ≤ fd ≤ Z.of_nat n) then None else m !! fd.
Proof.
  revert m. induction n as [|n IH]; intros m; cbn [close_down].
  - destruct (decide (fd = 0)) as [->|Hne]; [by rewrite lookup_delete_eq|].
    rewrite lookup_delete_ne by done. by case_decide; [lia|].
  - rewrite IH. destruct (decide (fd = Z.of_nat (S n))) as [->|Hne].
    + rewrite lookup_delete_eq. repeat case_decide; done || lia.
    + rewrite lookup_delete_ne by done. repeat case_decide; done || lia.
Qed.

Lemma close_all_lookup n m fd :
  close_all n m !! fd = if decide (0 ≤ fd ≤ n) then None else m !! fd.
Proof.
  unfold close_all. destruct (Z.ltb_spec n 0); [by case_decide; [lia|]|].
  by rewrite close_down_lookup, Z2Nat.id.
Qed.

(** With standard input closed, [open] gives descriptor 0. *)
Lemma lowest_free_zero m : m !! 0 = None → lowest_free m = 0.
Proof. intros H. unfold lowest_free. cbn [lowest_from]. by rewrite H. Qed.

#[local] Arguments lowest_free : simpl never.
#[local] Arguments close_all : simpl never.

Section daemonize_properties.
Context {E : OsEnv}.

Lemma Daemonize_cases (s : DaemonSt) :
  ∃ r e' o' t, Daemonize s = (Ret r, (e', o')) ∧ calls s.2 o' t ∧ let e := s.1 in
  match r with
  | Exited st =>
      (st = 0 ∧ e' = e ∧ ∃ pid, 0 < pid ∧ t = [Asked Fork pid])
      ∨ (st = -1 ∧ own_session e' = true ∧ ∃ pid, pid < 0 ∧ t = [Asked Fork 0; Asked Fork pid])
  | Returned ret =>
      (0 < ret ∧ own_session e' = true ∧ fds e' = fds e ∧ t = [Asked Fork 0; Asked Fork ret])
      ∨ (ret = -1 ∧ e' = e ∧ ∃ pid, pid < 0 ∧ t = [Asked Fork pid])
      ∨ (own_session e' = true ∧ cwd e' = "/" ∧ umask e' = Some 0
         ∧ ignored e' = ignored e ++ ["SIGCHLD"; "SIGHUP"]
         ∧ ∃ open_max rest, t = [Asked Fork 0; Asked Fork 0; Asked SysconfOpenMax open_max] ++ rest
         ∧ (∀ fd p, fds e' !! fd = Some p →
              0 ≤ fd ≤ 2 ∨ (¬ 0 ≤ fd ≤ to_int open_max ∧ fds e !! fd = Some p))
         ∧ ((ret = 0 ∧ ∀ fd, 0 ≤ fd ≤ 2 → fds e' !! fd = Some kDevNull)
            ∨ (ret = -1 ∧ (Asked (OpenOk kDevNull) false ∈ rest ∨ Asked Dup2Ok false ∈ rest)
               ∧ ∃ fd, 0 ≤ fd ≤ 2 ∧ fds e' !! fd = None)))
  end.
Proof.
  destruct s as [[m own ign d um] [w log tr]]. unfold Daemonize, d_call, d_upd, calls. sx_unfold. cbn.
  sx_call. destruct (Z.ltb_spec 0 a); cbn.
  { eexists _, _, _, [_]. do 2 (split; [done|]). left. eauto. }
  destruct (Z.ltb_spec a 0); cbn.
  { eexists _, _, _, [_]. do 2 (split; [done|]). right; left. eauto. }
  replace a with 0 by lia.
  sx_call. destruct (Z.ltb_spec 0 a0); cbn.
  { eexists _, _, _, [_; _]. split; [done|]. split; [by rewrite <-app_assoc|]. by left. }
  destruct (Z.ltb_spec a0 0); cbn.
  { eexists _, _, _, [_; _]. split; [done|]. split; [by rewrite <-app_assoc|]. right. eauto. }
  replace a0 with 0 by lia. sx_call. sx_call.
  set (m0 := delete 2 (delete 1 (delete 0 (close_all (to_int a1) m)))).
  assert (∀ fd p, m0 !! fd = Some p → ¬ 0 ≤ fd ≤ to_int a1 ∧ m !! fd = Some p) as Hm0.
  { intros fd p. subst m0. rewrite !lookup_delete_Some, close_all_lookup. by case_decide; intros (_ & _ & _ & ?). }
  assert (∀ fd, 0 ≤ fd ≤ 2 → m0 !! fd = None) as Hstd.
  { intros fd Hfd. subst m0. rewrite !lookup_delete_None.
    destruct (decide (fd = 0)), (decide (fd = 1)), (decide (fd = 2)); naive_solver lia. }
  destruct a2; cbn; [rewrite lowest_free_zero by (apply Hstd; lia); cbn; sx_all|];
    (eexists _, _, _, _; split; [done|]; split; [by rewrite <-!app_assoc|]); right; right;
    (split_and!; [done..|]); eexists a1, _; cbn; (split; [done|]); (split;
    [intros fd p; rewrite ?lookup_insert_Some; naive_solver lia|]).
  - left. split; [done|]. intros fd Hfd.
    destruct (decide (fd = 0)), (decide (fd = 1)), (decide (fd = 2)); simplify_map_eq; lia || done.
  - right. split; [done|]. split; [set_solver|]. exists 2. split; [lia|]. by rewrite ?lookup_insert_ne, Hstd by lia.
  - right. split; [done|]. split; [set_solver|]. exists 1. split; [lia|]. by rewrite ?lookup_insert_ne, Hstd by lia.
  - right. split; [done|]. split; [set_solver|]. exists 0. split; [lia|]. apply Hstd; lia.
Qed.

(** The parents of the daemon exit with 0 or -1. *)
Lemma Daemonize_status d :
  match Daemonize d with
  | (Ret (Exited st), _) => st = 0 ∨ st = -1
  | (Ret (Returned _), _) => True
  | _ => False
  end.
Proof.
  destruct (Daemonize_cases d) as (r & e' & o' & t & -> & _ & H). destruct r; [done|]. naive_solver.
Qed.

(** C36: the ends of [Daemonize], by process, with the answers that select
    them.  The caller exits with 0 after a fork (or is told of a failed fork);
    the process in between returns the daemon's id, greater than 0, or exits
    with -1 when the second fork fails; the daemon returns 0 or -1.  The daemon
    has left the session and its directory, has an open file mode mask, and any
    descriptor it still has beside the three standard ones was inherited from
    above the limit of open files that [sysconf] gave, as an [int].  When it
    returns 0, its three standard streams are the null device; a -1 comes from
    an [open] or [dup2] that failed, so the test for a null device on another
    descriptor than 0 never fires. *)
Theorem daemonize_outcome (s : DaemonSt) :
  ∃ r e' o' t, Daemonize s = (Ret r, (e', o')) ∧ calls s.2 o' t ∧ let e := s.1 in
  match r with
  | Exited st =>
      (st = 0 ∧ e' = e ∧ ∃ pid, 0 < pid ∧ t = [Asked Fork pid])
      ∨ (st = -1 ∧ own_session e' = true ∧ ∃ pid, pid < 0 ∧ t = [Asked Fork 0; Asked Fork pid])
  | Returned ret =>
      (0 < ret ∧ own_session e' = true ∧ fds e' = fds e ∧ t = [Asked Fork 0; Asked Fork ret])
      ∨ (ret = -1 ∧ e' = e ∧ ∃ pid, pid < 0 ∧ t = [Asked Fork pid])
      ∨ (own_session e' = true ∧ cwd e' = "/" ∧ umask e' = Some 0
         ∧ ignored e' = ignored e ++ ["SIGCHLD"; "SIGHUP"]
         ∧ ∃ open_max rest, t = [Asked Fork 0; Asked Fork 0; Asked SysconfOpenMax open_max] ++ rest
         ∧ (∀ fd p, fds e' !! fd = Some p →
              0 ≤ fd ≤ 2 ∨ (¬ 0 ≤ fd ≤ to_int open_max ∧ fds e !! fd = Some p))
         ∧ ((ret = 0 ∧ ∀ fd, 0 ≤ fd ≤ 2 → fds e' !! fd = Some kDevNull)
            ∨ (ret = -1 ∧ (Asked (OpenOk kDevNull) false ∈ rest ∨ Asked Dup2Ok false ∈ rest)
               ∧ ∃ fd, 0 ≤ fd ≤ 2 ∧ fds e' !! fd = None)))
  end.
Proof. apply Daemonize_cases. Qed.
End daemonize_properties.

(** ** Examples *)

Module UtilsDemo.

(** A machine with an environment and a passwd entry. *)
Definition login_os (env : list (string * string)) (home : option string) : OsEnv := {|
  os_world := SimOs.sim;
  os_handle A c w :=
    match c in oscall A return A * SimOs.sim with
    | Getenv n => (map_find n env, w)
    | GetpwuidDir _ => (home, w)
    | c => SimOs.sim_handle _ c w
    end |}.

Definition sudo_env : list (string * string) := [("SUDO_UID", "1000"); ("SUDO_GID", "1000")].
Definition root : Creds := mkCreds (mkIds 0 0 0) (mkIds 0 0 0).
(** The kernel's default rule. *)
Definition root_only (c : Creds) : bool := bool_decide (effective (uids c) = 0).

Definition start (home : option string) : @UtilSt (login_os sudo_env home) :=
  @mkUtil (login_os sudo_env home) None root
    (@mkOsSt (login_os sudo_env home) (os_w (SimOs.boot [] [] [])) [] []).

Lemma config_path_outcome_witness :
  ∃ s', @GetConfigPath (login_os sudo_env (Some "/home/u")) root_only (start (Some "/home/u"))
        = (Ret (Some "/home/u/.intel/.civ"), s')
      ∧ same_ids root (creds s').
Proof.
  destruct (@config_path_outcome (login_os sudo_env (Some "/home/u")) root_only (start (Some "/home/u")))
    as (r & s' & su & sg & home & made & Hr & Ht & Hm); [reflexivity|split; discriminate|].
  assert ((@GetConfigPath (login_os sudo_env (Some "/home/u")) root_only (start (Some "/home/u"))).1
          = Ret (Some "/home/u/.intel/.civ")) as H1 by (vm_compute; reflexivity).
  rewrite Hr in H1. injection H1 as ->. exists s'. split; [exact Hr|].
  destruct home; [apply Hm|destruct Hm; discriminate].
Defined.

(** Without an entry for the user the first request gives no path and leaves
    the process under the user's ids; the second gives an empty path. *)
Example config_path_left_lowered :
  let '(r1, s1) := @GetConfigPath (login_os sudo_env None) root_only (start None) in
  let '(r2, s2) := @GetConfigPath (login_os sudo_env None) root_only s1 in
  r1 = Ret None ∧ effective (uids (creds s1)) = 1000 ∧ effective (gids (creds s1)) = 1000
  ∧ r2 = Ret (Some EmptyString).
Proof. vm_compute. auto. Qed.

Example path_to_filename_ex : path_to_filename "src/guest/tui.cc" = "tui.cc".
Proof. reflexivity. Qed.
Example path_to_filename_bare : path_to_filename "tui.cc" = "tui.cc".
Proof. reflexivity. Qed.
End UtilsDemo.
