(* ===== verification/Log.v ===== *)
(** * Logging set-up

    utils/log.h: the attributes and sinks the program gives to Boost.Log, and
    what the macro [LOG] records.  Boost.Log itself is a library: a format is
    the list of what is streamed into it, a sink is what was registered, and a
    record is handed to every sink. *)

From S2P Require Import Prelude.
From S2P Require Import CStd.
From S2P Require Import Utils.
From Stdlib Require Import Ascii.

Local Open Scope Z_scope.

(** Attribute values: [mutable_constant] of two types, and
    [current_process_name]. *)
Inductive AttrVal : Type := AStr (x : string) | AInt (n : Z) | AProcessName.

(** What is streamed into [expr::stream]. *)
Inductive Fmt : Type :=
| FDateTime (attr pattern : string)
| FLit (x : string)
| FStr (attr : string)
| FInt (attr : string)
| FSetw (n : Z)
| FSeverity
| FMessage.

Inductive Target : Type := ToConsole | ToFile (path : string).
Record Sink : Type := mkSink { target : Target; format : list Fmt; app : bool; auto_flush : bool }.

Inductive Severity : Type := trace | debug | info | warning | error | fatal.
Record LogRecord : Type := mkRecord { severity : Severity; attrs : gmap string AttrVal; message : string }.

Record Logging : Type := mkLogging {
  attributes : gmap string AttrVal;        (** of [gLogger] *)
  sinks : list Sink;
  common_attributes : bool;
  exceptions_suppressed : bool;
  delivered : list (Target * LogRecord);   (** what the sinks have received *)
}.

Definition new_logging : Logging := mkLogging ∅ [] false false [].

Definition set_attrs (m : gmap string AttrVal) (s : Logging) : Logging :=
  mkLogging m (sinks s) (common_attributes s) (exceptions_suppressed s) (delivered s).
Definition add_sink (k : Sink) (s : Logging) : Logging :=
  mkLogging (attributes s) (sinks s ++ [k]) (common_attributes s) (exceptions_suppressed s) (delivered s).
Definition set_common (s : Logging) : Logging :=
  mkLogging (attributes s) (sinks s) true (exceptions_suppressed s) (delivered s).
Definition set_suppressed (s : Logging) : Logging :=
  mkLogging (attributes s) (sinks s) (common_attributes s) true (delivered s).
Definition deliver (r : LogRecord) (s : Logging) : Logging :=
  mkLogging (attributes s) (sinks s) (common_attributes s) (exceptions_suppressed s)
    (delivered s ++ ((λ k, (target k, r)) <$> sinks s)).

Section log.
Context (DEBUG : bool).       (** the preprocessor symbol *)

(** [gLogger.add_attribute(name, v)]: an attribute that is there stays. *)
Definition add_attribute (name : string) (v : AttrVal) : M Logging unit :=
  modify (λ s, match attributes s !! name with
               | Some _ => s
               | None => set_attrs (<[name := v]> (attributes s)) s
               end).

(** [attribute_cast<mutable_constant<T>>(get_attributes()[name]).set(v)]; the
    cast of an attribute that is missing or of another type is empty. *)
Definition set_attribute (name : string) (v : AttrVal) : M Logging unit :=
  m ← gets attributes;
  match m !! name, v with
  | Some (AStr _), AStr _ | Some (AInt _), AInt _ => modify (set_attrs (<[name := v]> m))
  | _, _ => throw ExTerminate
  end.

(** [set_get_attrib(name, value)] *)
Definition set_get_attrib (name : string) (v : AttrVal) : M Logging AttrVal :=
  set_attribute name v ;; mret v.

(** The format of the console and of the file. *)
Definition line_format : list Fmt :=
  [FDateTime "TimeStamp" "%Y-%m-%d_%H:%M:%S.%f";
   FLit " ["; FStr "ProcName"; FLit "]"; FLit " ["; FSetw 8; FSeverity; FLit "] "]
  ++ (if DEBUG then
        [FLit "["; FStr "File"; FLit ":"; FInt "Line"; FLit EmptyString; FLit ":"; FStr "Func"; FLit "()]:  "]
      else [])
  ++ [FMessage].

(** [void init(void)] *)
Definition log_init : M Logging unit :=
  (if DEBUG then
     add_attribute "File" (AStr EmptyString) ;;
     add_attribute "Line" (AInt 0) ;;
     add_attribute "Func" (AStr EmptyString)
   else skip) ;;
  add_attribute "ProcName" AProcessName ;;
  modify (add_sink (mkSink ToConsole line_format false false)) ;;
  modify set_common ;;
  modify set_suppressed.

(** [void log2file(const char *file)] *)
Definition log2file (file : option string) : M Logging unit :=
  match file with
  | Some path => modify (add_sink (mkSink (ToFile path) line_format true true))
  | None => skip
  end.

(** [LOG(sev) << msg] at a place of the source *)
Definition LOG (sev : Severity) (file : string) (line : Z) (func : string) (msg : string) : M Logging unit :=
  (if DEBUG then
     set_attribute "File" (AStr (path_to_filename file)) ;;
     set_attribute "Line" (AInt line) ;;
     set_attribute "Func" (AStr func)
   else skip) ;;
  m ← gets attributes;
  modify (deliver (mkRecord sev m msg)).

(** ** Properties *)

(** The attributes that name a place of the source. *)
Definition place (file : string) (line : Z) (func : string) : gmap string AttrVal :=
  if DEBUG then <["Func" := AStr func]> (<["Line" := AInt line]> (<["File" := AStr file]> {["ProcName" := AProcessName]}))
  else {["ProcName" := AProcessName]}.

Lemma log_init_run :
  ∃ s, log_init new_logging = (Ret tt, s) ∧ attributes s = place EmptyString 0 EmptyString
    ∧ sinks s = [mkSink ToConsole line_format false false] ∧ delivered s = []
    ∧ common_attributes s = true ∧ exceptions_suppressed s = true.
Proof.
  exists (log_init new_logging).2. unfold log_init, line_format, place.
  destruct DEBUG; vm_compute; split_and!; reflexivity.
Qed.

(** Once logging is set up, [LOG] never fails, changes no sink, and every sink
    gets the record; in a debug build it names the place it was made at. *)
Lemma LOG_run s file line func f0 l0 fn0 sev msg :
  attributes s = place f0 l0 fn0 →
  ∃ s', LOG sev file line func msg s = (Ret tt, s')
    ∧ attributes s' = place (path_to_filename file) line func
    ∧ sinks s' = sinks s
    ∧ delivered s' = delivered s ++ ((λ k, (target k, mkRecord sev (attributes s') msg)) <$> sinks s).
Proof.
  destruct s as [m k c e d]. cbn. intros ->. exists (LOG sev file line func msg (mkLogging (place f0 l0 fn0) k c e d)).2.
  unfold LOG, place. generalize (path_to_filename file). intros x.
  destruct DEBUG; vm_compute; split_and!; reflexivity.
Qed.

(** A program that sets logging up, names a log file or none, and logs from one
    place: console and file get the same record, in the same format; the file
    is appended to; and in a debug build the record carries the name of the
    source file without its directories, the line and the function. *)
Theorem logging_outcome file sev src line func msg :
  ∃ s, (log_init ;; log2file file ;; LOG sev src line func msg) new_logging = (Ret tt, s)
    ∧ delivered s = (λ k, (k, mkRecord sev (place (path_to_filename src) line func) msg)) <$>
        ToConsole :: (match file with Some p => [ToFile p] | None => [] end)
    ∧ Forall (λ k, format k = line_format ∧ (∀ p, target k = ToFile p → app k = true ∧ auto_flush k = true)) (sinks s).
Proof.
  destruct log_init_run as (s1 & H1 & Ha & Hs & Hd & _). 
  assert (∃ s2, log2file file s1 = (Ret tt, s2) ∧ attributes s2 = attributes s1 ∧ delivered s2 = []
    ∧ sinks s2 = sinks s1 ++ (match file with Some p => [mkSink (ToFile p) line_format true true] | None => [] end))
    as (s2 & H2 & Ha2 & Hd2 & Hs2).
  { destruct file as [p|]; eexists; (split; [reflexivity|]); cbn; rewrite ?app_nil_r; auto. }
  rewrite Ha in Ha2. destruct (LOG_run s2 src line func _ _ _ sev msg Ha2) as (s3 & H3 & Ha3 & Hs3 & Hd3).
  exists s3. split; [bstep H1; by bstep H2|]. rewrite Hd3, Hd2, Ha3, Hs3, Hs2, Hs. split.
  - by destruct file.
  - destruct file; repeat constructor; cbn; naive_solver.
Qed.
End log.

(** In a debug build, [LOG] before the set-up uses an attribute that is not
    there. *)
Example LOG_before_init : (LOG true info "a/b.cc" 1 "f" "x" new_logging).1 = Throw ExTerminate.
Proof. reflexivity. Qed.
