(* ===== verification/CidPool.v ===== *)
(** * The vsock context-id pool

    [VsockCidPool] of guest/vsock_cid_pool.{h,cc}: a process-wide bitset with
    one bit per context id, set when the id is free.  Every method holds the
    pool's mutex for its whole body (the argument check of [ReleaseCid]
    apart, which reads no shared state), so calls from different threads are
    sequences of the atomic operations below.

    [Alloc] is the abstract allocator the pool implements, [Clients] the
    behaviour of callers that give back only what they hold. *)

From S2P Require Import Prelude.
From S2P Require Import CStd.

Local Open Scope Z_scope.

Definition kCivMaxCidNum : Z := 10000.
Definition kCiVCidStart : Z := 1000.

Record VsockCidPool : Type := mkPool { bs_ : list bool }.

(** [std::bitset<kCivMaxCidNum>{}.set()] *)
Definition new_pool : VsockCidPool := mkPool (replicate (Z.to_nat kCivMaxCidNum) true).

(** [bs_\[c\]], [bs_.set(c)] and [bs_.reset(c)] *)
Definition bit (p : VsockCidPool) (c : Z) : bool := default false (bs_ p !! Z.to_nat c).
Definition set_bit (c : Z) (p : VsockCidPool) : VsockCidPool :=
  mkPool (<[Z.to_nat c := true]> (bs_ p)).
Definition reset_bit (c : Z) (p : VsockCidPool) : VsockCidPool :=
  mkPool (<[Z.to_nat c := false]> (bs_ p)).

(** Offset of the first set bit, the length when there is none. *)
Fixpoint find_set (l : list bool) : nat :=
  match l with
  | [] => 0
  | true :: _ => 0
  | false :: l => S (find_set l)
  end%nat.

(** [bs_._Find_next(prev)]: first set bit after [prev], the size when none. *)
Definition find_next (prev : Z) (p : VsockCidPool) : Z :=
  if Z.of_nat (length (bs_ p)) <=? prev + 1 then Z.of_nat (length (bs_ p))
  else prev + 1 + Z.of_nat (find_set (drop (Z.to_nat (prev + 1)) (bs_ p))).

(** [uint32_t VsockCidPool::GetCid()] *)
Definition GetCid_any : M VsockCidPool Z :=
  pos ← gets (find_next (kCiVCidStart - 1));
  size ← gets (λ p, Z.of_nat (length (bs_ p)));
  if pos =? size then mret 0
  else modify (reset_bit pos) ;; mret (u32 pos).

(** [uint32_t VsockCidPool::GetCid(uint32_t cid)] *)
Definition GetCid (cid : Z) : M VsockCidPool Z :=
  if (cid <? 3) || (kCivMaxCidNum <=? cid) then mret 0
  else
    free ← gets (λ p, bit p cid);
    if negb free then mret 0
    else modify (reset_bit cid) ;; mret cid.

(** [bool VsockCidPool::ReleaseCid(uint32_t cid)] *)
Definition ReleaseCid (cid : Z) : M VsockCidPool bool :=
  if (cid <? 3) || (kCivMaxCidNum <=? cid) then mret false
  else modify (set_bit cid) ;; mret true.

(** ** Well-formed pools *)

Definition pool_wf (p : VsockCidPool) : Prop := length (bs_ p) = Z.to_nat kCivMaxCidNum.

Lemma new_pool_wf : pool_wf new_pool.
Proof. apply length_replicate. Qed.

Lemma set_bit_wf c p : pool_wf p → pool_wf (set_bit c p).
Proof. unfold pool_wf, set_bit; simpl. by rewrite length_insert. Qed.
Lemma reset_bit_wf c p : pool_wf p → pool_wf (reset_bit c p).
Proof. unfold pool_wf, reset_bit; simpl. by rewrite length_insert. Qed.

#[export] Hint Resolve new_pool_wf set_bit_wf reset_bit_wf : civ.

Lemma bit_set_bit p c d :
  pool_wf p → 0 ≤ c < kCivMaxCidNum → 0 ≤ d →
  bit (set_bit c p) d = if decide (c = d) then true else bit p d.
Proof.
  unfold pool_wf, bit, set_bit, kCivMaxCidNum; simpl. intros Hp Hc Hd. case_decide.
  - subst. rewrite list_lookup_insert_eq; [done|lia].
  - rewrite list_lookup_insert_ne; [done|lia].
Qed.

Lemma bit_reset_bit p c d :
  0 ≤ c → 0 ≤ d →
  bit (reset_bit c p) d = if decide (c = d) then false else bit p d.
Proof.
  unfold bit, reset_bit; simpl. intros Hc Hd. case_decide.
  - subst. destruct (decide (Z.to_nat d < length (bs_ p))%nat).
    + by rewrite list_lookup_insert_eq.
    + rewrite list_insert_ge by lia. by rewrite lookup_ge_None_2 by lia.
  - rewrite list_lookup_insert_ne; [done|lia].
Qed.

Lemma bit_bound p c : pool_wf p → 0 ≤ c → bit p c = true → c < kCivMaxCidNum.
Proof.
  unfold pool_wf, bit. intros Hp Hc. destruct (bs_ p !! Z.to_nat c) eqn:E; [|done].
  apply lookup_lt_Some in E. lia.
Qed.

Lemma find_set_le l : (find_set l ≤ length l)%nat.
Proof. induction l as [|[] l IH]; simpl; lia. Qed.

Lemma find_set_spec l :
  (∀ j, (j < find_set l)%nat → l !! j = Some false)
  ∧ ((find_set l < length l)%nat → l !! find_set l = Some true).
Proof.
  induction l as [|[] l [IH1 IH2]]; simpl; split; try (intros; lia); intros; try done.
  - destruct j as [|j]; [done|]. apply IH1. lia.
  - apply IH2. lia.
Qed.

(** What [_Find_next] returns on a well-formed pool. *)
Lemma find_next_spec p start :
  pool_wf p → 0 ≤ start < kCivMaxCidNum →
  let pos := find_next (start - 1) p in
  start ≤ pos ≤ kCivMaxCidNum
  ∧ (∀ j, start ≤ j < pos → bit p j = false)
  ∧ (pos < kCivMaxCidNum → bit p pos = true).
Proof.
  unfold pool_wf, find_next. intros Hp Hs. replace (start - 1 + 1) with start by lia.
  rewrite Hp. destruct (Z.leb_spec (Z.of_nat (Z.to_nat kCivMaxCidNum)) start);
    [unfold kCivMaxCidNum in *; lia|].
  set (l := drop (Z.to_nat start) (bs_ p)).
  assert (length l = Z.to_nat kCivMaxCidNum - Z.to_nat start)%nat as Hl
    by (unfold l; rewrite length_drop; lia).
  assert (∀ k, l !! k = bs_ p !! (Z.to_nat start + k)%nat) as Hlk
    by (intros; apply lookup_drop).
  pose proof (find_set_le l). destruct (find_set_spec l) as [H1 H2].
  split_and!; [lia|unfold kCivMaxCidNum in *; lia| |].
  - intros j Hj. unfold bit.
    specialize (H1 (Z.to_nat j - Z.to_nat start)%nat). rewrite Hlk in H1.
    replace (Z.to_nat start + _)%nat with (Z.to_nat j) in H1 by lia.
    rewrite H1 by lia. done.
  - intros Hlt. unfold bit. rewrite Hlk in H2.
    replace (Z.to_nat start + find_set l)%nat
      with (Z.to_nat (start + Z.of_nat (find_set l))) in H2 by lia.
    rewrite H2 by lia. done.
Qed.

(** ** The abstract allocator *)
Module Alloc.

Inductive op : Type := OpAny | OpGet (c : Z) | OpRelease (c : Z).
Inductive res : Type := RCid (c : Z) | RBool (b : bool).

Definition usable (c : Z) : Prop := 3 ≤ c < kCivMaxCidNum.
Definition automatic (c : Z) : Prop := kCiVCidStart ≤ c < kCivMaxCidNum.

(** A set of taken ids; an automatic request takes the least free automatic
    id, failures change nothing. *)
Inductive step : gset Z → op → res → gset Z → Prop :=
| step_any t c : automatic c → c ∉ t → (∀ j, kCiVCidStart ≤ j < c → j ∈ t) →
    step t OpAny (RCid c) ({[c]} ∪ t)
| step_any_full t : (∀ j, automatic j → j ∈ t) → step t OpAny (RCid 0) t
| step_get t c : usable c → c ∉ t → step t (OpGet c) (RCid c) ({[c]} ∪ t)
| step_get_taken t c : usable c → c ∈ t → step t (OpGet c) (RCid 0) t
| step_get_bad t c : ¬ usable c → step t (OpGet c) (RCid 0) t
| step_release t c : usable c → step t (OpRelease c) (RBool true) (t ∖ {[c]})
| step_release_bad t c : ¬ usable c → step t (OpRelease c) (RBool false) t.

Inductive steps : gset Z → list (op * res) → gset Z → Prop :=
| steps_nil t : steps t [] t
| steps_cons t o r t' l t'' : step t o r t' → steps t' l t'' → steps t ((o, r) :: l) t''.

(** The pool's own execution of a list of calls. *)
Definition run_op (o : op) : M VsockCidPool res :=
  match o with
  | OpAny => RCid <$> GetCid_any
  | OpGet c => RCid <$> GetCid c
  | OpRelease c => RBool <$> ReleaseCid c
  end.

Fixpoint run_ops (l : list op) (p : VsockCidPool) : list (op * res) * VsockCidPool :=
  match l with
  | [] => ([], p)
  | o :: l =>
      match run_op o p with
      | (Ret r, p') => let '(rs, p'') := run_ops l p' in ((o, r) :: rs, p'')
      | (_, p') => ([], p')
      end
  end.
End Alloc.

(** [repr p t]: the clear bits of [p] are the taken ids [t]. *)
Definition repr (p : VsockCidPool) (t : gset Z) : Prop :=
  pool_wf p ∧ ∀ c, 0 ≤ c < kCivMaxCidNum → (c ∈ t ↔ bit p c = false).

Lemma repr_new : repr new_pool ∅.
Proof.
  split; [apply new_pool_wf|]. intros c Hc. unfold bit, new_pool; cbn [bs_].
  rewrite lookup_replicate_2 by (unfold kCivMaxCidNum in *; lia). set_solver.
Qed.

Lemma repr_take p t c : repr p t → 0 ≤ c < kCivMaxCidNum → repr (reset_bit c p) ({[c]} ∪ t).
Proof.
  intros [Hw Hr] Hc. split; [by apply reset_bit_wf|]. intros d Hd.
  rewrite bit_reset_bit, elem_of_union, elem_of_singleton, Hr by lia.
  case_decide; naive_solver.
Qed.

Lemma repr_give p t c : repr p t → 0 ≤ c < kCivMaxCidNum → repr (set_bit c p) (t ∖ {[c]}).
Proof.
  intros [Hw Hr] Hc. split; [by apply set_bit_wf|]. intros d Hd.
  rewrite bit_set_bit, elem_of_difference, elem_of_singleton, Hr by (done || lia).
  case_decide; naive_solver.
Qed.

Lemma cid_guard c :
  ((c <? 3) || (kCivMaxCidNum <=? c)) = true ∧ ¬ Alloc.usable c
  ∨ ((c <? 3) || (kCivMaxCidNum <=? c)) = false ∧ Alloc.usable c.
Proof. unfold Alloc.usable. destruct (_ || _) eqn:E; [left|right]; split; try done; lia. Qed.

(** *** Each call on its branches *)

Lemma GetCid_any_cases p :
  pool_wf p →
  (GetCid_any p = (Ret 0, p) ∧ ∀ j, Alloc.automatic j → bit p j = false)
  ∨ ∃ c, GetCid_any p = (Ret c, reset_bit c p) ∧ Alloc.automatic c ∧ bit p c = true
      ∧ ∀ j, kCiVCidStart ≤ j < c → bit p j = false.
Proof.
  intros Hw. destruct (find_next_spec p kCiVCidStart Hw) as (Hb & Hlo & Hhi);
    [unfold kCiVCidStart, kCivMaxCidNum; lia|].
  unfold GetCid_any, mbind, M_bind, gets. cbv beta iota.
  set (pos := find_next (kCiVCidStart - 1) p) in *.
  assert (Z.of_nat (length (bs_ p)) = kCivMaxCidNum) as ->
    by (unfold pool_wf in Hw; rewrite Hw; unfold kCivMaxCidNum; lia).
  destruct (Z.eqb_spec pos kCivMaxCidNum) as [Heq|Hne].
  - left. split; [done|]. intros j Hj. apply Hlo. unfold Alloc.automatic in Hj. lia.
  - right. exists pos. unfold Alloc.automatic, kCiVCidStart, kCivMaxCidNum in *.
    split_and!; [|lia..|apply Hhi; lia|done].
    unfold modify, mret, M_ret. rewrite u32_small by lia. done.
Qed.

Lemma GetCid_cases c p :
  (GetCid c p = (Ret 0, p) ∧ (¬ Alloc.usable c ∨ bit p c = false))
  ∨ (GetCid c p = (Ret c, reset_bit c p) ∧ Alloc.usable c ∧ bit p c = true).
Proof.
  unfold GetCid. destruct (cid_guard c) as [[-> Hu]|[-> Hu]]; [by left; auto|].
  unfold mbind, M_bind, gets; simpl. destruct (bit p c) eqn:Hb; simpl; auto.
Qed.

Lemma ReleaseCid_cases c p :
  (ReleaseCid c p = (Ret false, p) ∧ ¬ Alloc.usable c)
  ∨ (ReleaseCid c p = (Ret true, set_bit c p) ∧ Alloc.usable c).
Proof. unfold ReleaseCid. destruct (cid_guard c) as [[-> Hu]|[-> Hu]]; auto. Qed.

Lemma usable_range c : Alloc.usable c → 0 ≤ c < kCivMaxCidNum.
Proof. unfold Alloc.usable; lia. Qed.
Lemma automatic_usable c : Alloc.automatic c → Alloc.usable c.
Proof. unfold Alloc.automatic, Alloc.usable, kCiVCidStart; lia. Qed.
#[export] Hint Resolve usable_range automatic_usable repr_take repr_give : civ.

(** One call of the pool is one step of the abstract allocator. *)
Lemma run_op_sim o p t :
  repr p t → ∃ r p' t', Alloc.run_op o p = (Ret r, p') ∧ Alloc.step t o r t' ∧ repr p' t'.
Proof.
  intros Hr. pose proof Hr as [Hw Hb]. destruct o as [|c|c]; simpl;
    unfold fmap, M_fmap, mbind, M_bind.
  - destruct (GetCid_any_cases p Hw) as [[-> Hall]|(c & -> & Ha & Hc & Hlow)].
    + eexists _, _, t. split_and!; [done| |done]. constructor. intros j Hj.
      apply Hb; eauto with civ.
    + eexists _, _, _. split_and!; [done| |eauto with civ]. constructor; [done| |].
      * intros Hin. apply Hb in Hin; [congruence|eauto with civ].
      * intros j Hj. apply Hb; [unfold Alloc.automatic, kCiVCidStart in *; lia|by apply Hlow].
  - destruct (GetCid_cases c p) as [[-> Hno]|(-> & Hu & Hc)].
    + eexists _, _, t. split_and!; [done| |done].
      destruct (cid_guard c) as [[_ Hu]|[_ Hu]]; [by constructor|].
      apply Alloc.step_get_taken; [done|]. apply Hb; [eauto with civ|naive_solver].
    + eexists _, _, _. split_and!; [done| |eauto with civ]. constructor; [done|].
      intros Hin. apply Hb in Hin; [congruence|eauto with civ].
  - destruct (ReleaseCid_cases c p) as [[-> Hu]|[-> Hu]];
      eexists _, _, _; (split_and!; [done|by constructor|eauto with civ]).
Qed.

Lemma run_ops_sim l p t :
  repr p t → (Alloc.run_ops l p).1.*1 = l
    ∧ ∃ t', Alloc.steps t (Alloc.run_ops l p).1 t' ∧ repr (Alloc.run_ops l p).2 t'.
Proof.
  revert p t. induction l as [|o l IH]; intros p t Hr; simpl.
  { split; [done|]. exists t. split; [constructor|done]. }
  destruct (run_op_sim o p t Hr) as (r & p' & t' & -> & Hs & Hr').
  destruct (IH p' t' Hr') as [Hl (t'' & Hss & Hr'')].
  destruct (Alloc.run_ops l p') as [rs p'']; simpl in *.
  split; [by f_equal|]. exists t''. split; [by econstructor|done].
Qed.

(** ** Callers *)
Module Clients.

(** The pool and the ids its callers hold at the moment. *)
Record sys : Type := mkSys { pool : VsockCidPool; held : list Z }.

(** A caller asks for an id and keeps it unless the answer is 0; a caller
    gives back an id it holds, once. *)
Inductive step : sys → sys → Prop :=
| st_any p p' h c : GetCid_any p = (Ret c, p') →
    step (mkSys p h) (mkSys p' (if c =? 0 then h else c :: h))
| st_get p p' h c r : GetCid c p = (Ret r, p') →
    step (mkSys p h) (mkSys p' (if r =? 0 then h else r :: h))
| st_release p p' h1 h2 c : ReleaseCid c p = (Ret true, p') →
    step (mkSys p (h1 ++ c :: h2)) (mkSys p' (h1 ++ h2)).

Definition init : sys := mkSys new_pool [].
Definition reachable : sys → Prop := rtc step init.
End Clients.

(** Ids held are distinct and are exactly the taken ones. *)
Definition clients_inv (s : Clients.sys) : Prop :=
  pool_wf (Clients.pool s) ∧ NoDup (Clients.held s)
  ∧ Forall Alloc.usable (Clients.held s)
  ∧ ∀ c, 0 ≤ c < kCivMaxCidNum → (c ∈ Clients.held s ↔ bit (Clients.pool s) c = false).

Lemma clients_inv_init : clients_inv Clients.init.
Proof.
  destruct repr_new as [Hw Hb]. split_and!; [done|constructor|constructor|].
  intros c Hc. rewrite <-Hb by done. simpl. set_solver.
Qed.

Lemma clients_inv_take p h c :
  clients_inv (Clients.mkSys p h) → Alloc.usable c → bit p c = true →
  clients_inv (Clients.mkSys (reset_bit c p) (if c =? 0 then h else c :: h)).
Proof.
  intros (Hw & Hnd & Hu & Hb) Hc Hbit; simpl in *.
  assert ((c =? 0) = false) as -> by (unfold Alloc.usable in Hc; lia).
  split_and!; simpl; [by apply reset_bit_wf| |by constructor|].
  - constructor; [|done]. intros Hin. apply Hb in Hin; [congruence|eauto with civ].
  - intros d Hd. rewrite bit_reset_bit by (unfold Alloc.usable in Hc; lia).
    rewrite elem_of_cons, Hb by done. case_decide; naive_solver.
Qed.

Lemma clients_inv_step s s' : Clients.step s s' → clients_inv s → clients_inv s'.
Proof.
  intros Hs Hinv. pose proof Hinv as (Hw & Hnd & Hu & Hb).
  destruct Hs as [p p' h c H|p p' h c r H|p p' h1 h2 c H]; simpl in *.
  - destruct (GetCid_any_cases p Hw) as [[Heq _]|(c' & Heq & Ha & Hc & _)];
      rewrite Heq in H; simplify_eq; [done|].
    apply clients_inv_take; eauto with civ.
  - destruct (GetCid_cases c p) as [[Heq _]|(Heq & Hc & Hbit)];
      rewrite Heq in H; simplify_eq; [done|by apply clients_inv_take].
  - destruct (ReleaseCid_cases c p) as [[Heq _]|[Heq Hc]]; rewrite Heq in H; simplify_eq.
    assert (Permutation (h1 ++ c :: h2) (c :: h1 ++ h2)) as Hp by (symmetry; apply Permutation_middle).
    rewrite Hp in Hnd. apply NoDup_cons in Hnd as [Hnin Hnd].
    split_and!; simpl; [by apply set_bit_wf|done| |].
    + rewrite Hp in Hu. by inversion Hu.
    + intros d Hd. rewrite bit_set_bit by (eauto with civ || lia).
      specialize (Hb d Hd). rewrite Hp, elem_of_cons in Hb. case_decide; naive_solver.
Qed.

Lemma clients_inv_reachable s : Clients.reachable s → clients_inv s.
Proof.
  apply rtc_invariant; [apply clients_inv_step|apply clients_inv_init].
Qed.

(** ** Properties *)

(** C11: callers that give back only what they hold never share a context id:
    in every reachable state the ids held are pairwise distinct and usable,
    and the pool's clear bits are exactly the ids held. *)
Theorem cid_exclusive s :
  Clients.reachable s →
  NoDup (Clients.held s) ∧ Forall Alloc.usable (Clients.held s)
  ∧ ∀ c, 0 ≤ c < kCivMaxCidNum → (c ∈ Clients.held s ↔ bit (Clients.pool s) c = false).
Proof. intros Hr%clients_inv_reachable. apply Hr. Qed.

Definition two_held : Clients.sys :=
  Clients.mkSys (reset_bit 1001 (reset_bit 1000 new_pool)) [1001; 1000].

Lemma two_held_reachable : Clients.reachable two_held.
Proof.
  eapply rtc_l with (Clients.mkSys (reset_bit 1000 new_pool) [1000]).
  { apply (Clients.st_any _ _ [] 1000). vm_compute; reflexivity. }
  apply rtc_once. apply (Clients.st_any _ _ [1000] 1001). vm_compute; reflexivity.
Qed.

Lemma cid_exclusive_witness : NoDup (Clients.held two_held).
Proof. apply (cid_exclusive two_held two_held_reachable). Defined.

(** C15: the pool refines the abstract allocator: any sequence of calls on the
    initial pool runs to the end, and its answers are those of a run of the
    allocator whose taken ids the final pool represents. *)
Theorem pool_refines_alloc ops :
  (Alloc.run_ops ops new_pool).1.*1 = ops
  ∧ ∃ t, Alloc.steps ∅ (Alloc.run_ops ops new_pool).1 t
       ∧ repr (Alloc.run_ops ops new_pool).2 t.
Proof. apply run_ops_sim, repr_new. Qed.

(** While fewer than 9000 ids are held, an automatic request succeeds: it
    answers the least automatic id nobody holds. *)
Theorem cid_available s :
  Clients.reachable s → Z.of_nat (length (Clients.held s)) < 9000 →
  ∃ c p', GetCid_any (Clients.pool s) = (Ret c, p') ∧ Alloc.automatic c
    ∧ c ∉ Clients.held s ∧ ∀ j, kCiVCidStart ≤ j < c → j ∈ Clients.held s.
Proof.
  intros Hr%clients_inv_reachable Hlen. destruct Hr as (Hw & Hnd & Hu & Hb).
  destruct (GetCid_any_cases _ Hw) as [[_ Hall]|(c & Hc & Ha & Hbit & Hlow)].
  - exfalso. assert (seqZ 1000 9000 ⊆+ Clients.held s) as Hsub.
    { apply NoDup_submseteq; [apply NoDup_seqZ|]. intros j Hj%elem_of_seqZ.
      apply Hb; [unfold kCivMaxCidNum; lia|]. apply Hall.
      unfold Alloc.automatic, kCiVCidStart, kCivMaxCidNum; lia. }
    apply submseteq_length in Hsub. rewrite length_seqZ in Hsub. lia.
  - exists c, (reset_bit c (Clients.pool s)). split_and!; [done|done| |].
    + rewrite Hb by eauto with civ. congruence.
    + intros j Hj. apply Hb; [|by apply Hlow].
      unfold Alloc.automatic, kCiVCidStart in *; lia.
Qed.

Lemma cid_available_witness :
  ∃ c p', GetCid_any (Clients.pool two_held) = (Ret c, p') ∧ Alloc.automatic c
    ∧ c ∉ Clients.held two_held ∧ ∀ j, kCiVCidStart ≤ j < c → j ∈ Clients.held two_held.
Proof. apply (cid_available two_held two_held_reachable). simpl; lia. Defined.
