(* ===== verification/Config.v ===== *)
(** * Guest configuration

    [CivConfig] of guest/config_parser.{h,cc}: the groups and keys of a guest's
    INI file, the table [kConfigMap] of those the program accepts, reading,
    checking, writing, and access to single values.  The tree itself is Boost's
    ([ptree], see Boost.v). *)

From S2P Require Import Prelude.
From S2P Require Import CStd.
From S2P Require Import Boost.
From S2P Require Import Os.
From Stdlib Require Import Ascii.

(** ** Groups, keys and options *)

Definition kGroupGlob : string := "global".
Definition kGroupEmul : string := "emulator".
Definition kGroupMem : string := "memory".
Definition kGroupVcpu : string := "vcpu".
Definition kGroupFirm : string := "firmware".
Definition kGroupDisk : string := "disk".
Definition kGroupVgpu : string := "graphics".
Definition kGroupDisplay : string := "display".
Definition kGroupNet : string := "net".
Definition kGroupVtpm : string := "vtpm".
Definition kGroupRpmb : string := "rpmb".
Definition kGroupAaf : string := "aaf".
Definition kGroupPciPt : string := "passthrough".
Definition kGroupbluetooth : string := "bluetooth".
Definition kGroupAudio : string := "audio".
Definition kGroupMed : string := "mediation".
Definition kGroupService : string := "guest_control".
Definition kGroupExtra : string := "extra".
Definition kGlobName : string := "name".
Definition kGlobFlashfiles : string := "flashfiles".
Definition kGlobCid : string := "vsock_cid".
Definition kGlobWaitReady : string := "wait_ready".
Definition kEmulType : string := "type".
Definition kEmulPath : string := "path".
Definition kMemSize : string := "size".
Definition kVcpuNum : string := "num".
Definition kFirmType : string := "type".
Definition kFirmPath : string := "path".
Definition kFirmCode : string := "code".
Definition kFirmVars : string := "vars".
Definition kDiskSize : string := "size".
Definition kDiskPath : string := "path".
Definition kVgpuType : string := "type".
Definition kVgpuGvtgVer : string := "gvtg_version".
Definition kVgpuUuid : string := "vgpu_uuid".
Definition kVgpuMonId : string := "monitor".
Definition kVgpuOutputs : string := "outputs".
Definition kDispOptions : string := "options".
Definition kNetModel : string := "model".
Definition kNetAdbPort : string := "adb_port".
Definition kNetFastbootPort : string := "fastboot_port".
Definition kVtpmBinPath : string := "bin_path".
Definition kVtpmDataDir : string := "data_dir".
Definition kRpmbBinPath : string := "bin_path".
Definition kRpmbDataDir : string := "data_dir".
Definition kAafPath : string := "path".
Definition kAafSuspend : string := "support_suspend".
Definition kAafAudioType : string := "audio_type".
Definition kPciPtDev : string := "passthrough_pci".
Definition kHciDown : string := "hci_down".
Definition kDisableEmul : string := "disable_emulation".
Definition kMedBattery : string := "battery_med".
Definition kMedThermal : string := "thermal_med".
Definition kMedCamera : string := "camera_med".
Definition kServTimeKeep : string := "time_keep".
Definition kServPmCtrl : string := "pm_control".
Definition kServVinput : string := "vinput".
Definition kExtraCmd : string := "cmd".
Definition kExtraService : string := "service".
Definition kExtraPwrCtrlMultiOS : string := "pwr_ctrl_multios".
Definition kEmulTypeQemu : string := "QEMU".
Definition kFirmUnified : string := "unified".
Definition kFirmSplited : string := "splited".
Definition kVgpuNone : string := "headless".
Definition kVgpuVirtio : string := "virtio".
Definition kVgpuVirtio2D : string := "virtio2d".
Definition kVgpuRamfb : string := "ramfb".
Definition kVgpuGvtG : string := "GVT-g".
Definition kVgpuGvtD : string := "GVT-d".
Definition kVgpuSriov : string := "SRIOV".
Definition kGvtgV51 : string := "i915-GVTg_V5_1".
Definition kGvtgV52 : string := "i915-GVTg_V5_2".
Definition kGvtgV54 : string := "i915-GVTg_V5_4".
Definition kGvtgV58 : string := "i915-GVTg_V5_8".
Definition kSuspendEnable : string := "enable".
Definition kSuspendDisable : string := "disable".

(** ** Accepted groups and their keys *)
Definition kConfigMap : list (string * list string) :=
  [ (kGroupGlob, [kGlobName; kGlobFlashfiles; kGlobCid; kGlobWaitReady]);
    (kGroupEmul, [kEmulType; kEmulPath]);
    (kGroupMem, [kMemSize]);
    (kGroupVcpu, [kVcpuNum]);
    (kGroupFirm, [kFirmType; kFirmPath; kFirmCode; kFirmVars]);
    (kGroupDisk, [kDiskSize; kDiskPath]);
    (kGroupVgpu, [kVgpuType; kVgpuGvtgVer; kVgpuUuid; kVgpuMonId; kVgpuOutputs]);
    (kGroupDisplay, [kDispOptions]);
    (kGroupNet, [kNetModel; kNetAdbPort; kNetFastbootPort]);
    (kGroupVtpm, [kVtpmBinPath; kVtpmDataDir]);
    (kGroupRpmb, [kRpmbBinPath; kRpmbDataDir]);
    (kGroupAaf, [kAafPath; kAafSuspend; kAafAudioType]);
    (kGroupPciPt, [kPciPtDev]);
    (kGroupbluetooth, [kHciDown]);
    (kGroupAudio, [kDisableEmul]);
    (kGroupMed, [kMedBattery; kMedThermal; kMedCamera]);
    (kGroupService, [kServTimeKeep; kServPmCtrl; kServVinput]);
    (kGroupExtra, [kExtraCmd; kExtraService; kExtraPwrCtrlMultiOS]) ].

(** [std::find] over the keys of a group found an element. *)
Fixpoint vec_has (k : string) (l : list string) : bool :=
  match l with
  | [] => false
  | x :: l => if decide (x = k) then true else vec_has k l
  end.

Record CivConfig : Type := mkConfig { cfg_data_ : ptree }.

Definition empty_config : CivConfig := mkConfig pt_nil.

(** The inner loop of [SanitizeOpts] over the keys of one section. *)
Fixpoint sanitize_keys (keys : list string) (l : list (string * ptree)) : bool :=
  match l with
  | [] => true
  | (k, _) :: l => if vec_has k keys then sanitize_keys keys l else false
  end.

(** The outer loop over the sections. *)
Fixpoint sanitize_sections (l : list (string * ptree)) : bool :=
  match l with
  | [] => true
  | (g, sec) :: l =>
      match map_find g kConfigMap with
      | Some keys =>
          if sanitize_keys keys (pt_children sec) then sanitize_sections l else false
      | None => false
      end
  end.

(** [bool CivConfig::SanitizeOpts(void)] *)
Definition SanitizeOpts (c : CivConfig) : bool := sanitize_sections (pt_children (cfg_data_ c)).

Section config.
Context {B : Boost} {E : OsEnv}.

(** [std::string CivConfig::GetValue(std::string group, std::string key)] *)
Definition GetValue (group key : string) (c : CivConfig) : string :=
  match pt_get (group +:+ "." +:+ key) (cfg_data_ c) with
  | Some val => trim val
  | None => EmptyString
  end.

(** [bool CivConfig::SetValue(group, key, value)] *)
Definition SetValue (group key value : string) (c : CivConfig) : bool * CivConfig :=
  if str_empty value then (true, c)
  else match pt_put (group +:+ "." +:+ key) value (cfg_data_ c) with
       | Some t => (true, mkConfig t)
       | None => (false, c)
       end.

(** Methods that touch the machine run on the object and the machine. *)
Definition CfgSt : Type := CivConfig * OsSt.
Definition on_os {A} (c : M OsSt A) : M CfgSt A := lift snd (λ t s, (s.1, t)) c.
Definition put_cfg (c : CivConfig) : M CfgSt unit := modify (λ s, (c, s.2)).

(** [bool CivConfig::ReadConfigFile(std::string path)] *)
Definition ReadConfigFile (path : string) : M CfgSt bool :=
  ex ← on_os (os (FsExists path));
  if negb ex then mret false else
  reg ← on_os (os (FsIsRegular path));
  if negb reg then mret false else
  put_cfg empty_config ;;
  txt ← on_os (os (FileRead path));
  match (t ← txt; read_ini t) with
  | None => throw ExIniParser
  | Some t =>
      put_cfg (mkConfig t) ;;
      ok ← gets (λ s, SanitizeOpts s.1);
      if negb ok then put_cfg empty_config ;; mret false
      else mret true
  end.

(** [bool CivConfig::WriteConfigFile(std::string path)] *)
Definition WriteConfigFile (path : string) : M CfgSt bool :=
  ex ← on_os (os (FsExists path));
  if negb ex then mret false else
  reg ← on_os (os (FsIsRegular path));
  if negb reg then mret false else
  empty ← gets (λ s : CfgSt, pt_is_empty (cfg_data_ s.1));
  if (empty : bool) then mret true else
  ok ← gets (λ s : CfgSt, SanitizeOpts s.1);
  if negb ok then mret false else
  t ← gets (λ s : CfgSt, cfg_data_ s.1);
  match write_ini t with
  | None => throw ExIniParser
  | Some txt => on_os (os (FileWrite path txt)) ;; mret true
  end.
End config.

(** ** What the check means *)

(** Group [g] with key [k] appears in the table. *)
Definition accepted (g k : string) : Prop :=
  ∃ keys, (g, keys) ∈ kConfigMap ∧ k ∈ keys.

(** Every group of the tree is in the table, with only its own keys. *)
Definition well_formed (t : ptree) : Prop :=
  ∀ g sec, (g, sec) ∈ pt_children t →
    ∃ keys, (g, keys) ∈ kConfigMap ∧ ∀ k u, (k, u) ∈ pt_children sec → k ∈ keys.

Lemma kConfigMap_nodup : NoDup kConfigMap.*1.
Proof. apply (bool_decide_unpack _). vm_compute. exact I. Qed.

Lemma map_find_config g keys : map_find g kConfigMap = Some keys ↔ (g, keys) ∈ kConfigMap.
Proof. split; [apply map_find_elem|apply map_find_nodup, kConfigMap_nodup]. Qed.

Lemma vec_has_elem k l : vec_has k l = true ↔ k ∈ l.
Proof. induction l as [|x l IH]; simpl; [set_solver|]. case_decide; set_solver. Qed.

Lemma sanitize_keys_spec keys l :
  sanitize_keys keys l = true ↔ ∀ k u, (k, u) ∈ l → k ∈ keys.
Proof.
  induction l as [|[k u] l IH]; simpl; [set_solver|].
  destruct (vec_has k keys) eqn:Hk.
  - apply vec_has_elem in Hk. rewrite IH. set_solver.
  - split; [done|]. intros H. assert (k ∈ keys) as Hin by set_solver.
    apply vec_has_elem in Hin. congruence.
Qed.

Lemma sanitize_sections_spec l :
  sanitize_sections l = true ↔ ∀ g sec, (g, sec) ∈ l →
    ∃ keys, (g, keys) ∈ kConfigMap ∧ ∀ k u, (k, u) ∈ pt_children sec → k ∈ keys.
Proof.
  induction l as [|[g sec] l IH]; cbn [sanitize_sections]; [set_solver|].
  destruct (map_find g kConfigMap) as [keys|] eqn:Hg.
  - apply map_find_config in Hg. destruct (sanitize_keys keys (pt_children sec)) eqn:Hk.
    + rewrite sanitize_keys_spec in Hk. etrans; [exact IH|]. split.
      * intros H g' sec' [?|?]%elem_of_cons; simplify_eq; eauto.
      * intros H g' sec' Hin. apply H. set_solver.
    + split; [done|]. intros H.
      destruct (H g sec) as (keys' & Hg' & Hk'); [set_solver|].
      apply map_find_config in Hg, Hg'. simplify_eq.
      apply sanitize_keys_spec in Hk'. congruence.
  - split; [done|]. intros H. destruct (H g sec) as (keys & Hin & _); [set_solver|].
    by eapply map_find_None in Hin.
Qed.

Lemma find_child_elem k l t : find_child k l = Some t → (k, t) ∈ l.
Proof.
  induction l as [|[k' u] l IH]; simpl; [done|]. case_decide; intros; simplify_eq; set_solver.
Qed.

Lemma elem_of_upd_child k f l k' t :
  (k', t) ∈ upd_child k f l →
  (k' = k ∧ t = f (default pt_nil (find_child k l))) ∨ (k', t) ∈ l.
Proof.
  induction l as [|[k2 u] l IH]; simpl.
  - intros ?%list_elem_of_singleton. naive_solver.
  - case_decide; simpl; intros [?|?]%elem_of_cons; simplify_eq; set_solver.
Qed.

(** Storing at an accepted key keeps a tree well formed. *)
Lemma put2_well_formed g k v t : accepted g k → well_formed t → well_formed (put2 g k v t).
Proof.
  intros (keys & Hg & Hk) Hwf g' sec Hin. unfold put2 in Hin; simpl in Hin.
  apply elem_of_upd_child in Hin as [[-> ->]|Hin]; [|by apply Hwf].
  exists keys. split; [done|]. simpl. intros k' u Hin.
  apply elem_of_upd_child in Hin as [[-> _]|Hin]; [done|].
  destruct (find_child g (pt_children t)) as [s|] eqn:Hs; simpl in Hin; [|set_solver].
  apply find_child_elem in Hs. destruct (Hwf g s Hs) as (keys' & Hg' & Hk').
  apply map_find_config in Hg, Hg'. simplify_eq. eauto.
Qed.

(** Group and key names are single path segments. *)
Definition segments_ok : bool :=
  forallb (λ '(g, keys), negb (str_empty g) && bool_decide ("."%char ∉ chars g)
     && forallb (λ k, negb (str_empty k) && bool_decide ("."%char ∉ chars k)) keys) kConfigMap.

Lemma accepted_segment g k : accepted g k → segment g ∧ segment k.
Proof.
  intros (keys & Hg & Hk). assert (segments_ok = true) as Hok by (vm_compute; reflexivity).
  unfold segments_ok in Hok. rewrite forallb_forall in Hok.
  apply list_elem_of_In, Hok in Hg.
  apply andb_prop in Hg as [[Hg1 Hg2]%andb_prop Hks]. rewrite forallb_forall in Hks.
  apply list_elem_of_In, Hks, andb_prop in Hk as [Hk1 Hk2].
  apply bool_decide_eq_true in Hg2, Hk2.
  split; split; try done; intros ->; done.
Qed.

(** A way to show that a key is accepted by evaluation. *)
Lemma accepted_has g k : vec_has k (default [] (map_find g kConfigMap)) = true → accepted g k.
Proof.
  destruct (map_find g kConfigMap) as [keys|] eqn:Hg; [|done]. cbn.
  intros ?%vec_has_elem. exists keys. split; [by apply map_find_config|done].
Qed.

(** ** Properties *)

(** C24: the check accepts a configuration exactly when every section is a
    group of the table and every entry of a section is one of that group's
    keys. *)
Theorem sanitize_iff c : SanitizeOpts c = true ↔ well_formed (cfg_data_ c).
Proof. apply sanitize_sections_spec. Qed.

Section properties.
Context {B : Boost} {E : OsEnv}.

(** C25: outcomes of reading a configuration file.  A missing path or one that
    is not a regular file fails and leaves the object as it was; text that is
    not INI throws and leaves it empty; a tree outside the table fails and
    leaves it empty; only a well-formed tree is kept, with success. *)
Theorem read_config_outcome path c w log tr :
  let '(r, s') := ReadConfigFile path (c, mkOsSt _ w log tr) in
  let '(ex, w1) := os_handle (FsExists path) w in
  let '(reg, w2) := os_handle (FsIsRegular path) w1 in
  let '(txt, w3) := os_handle (FileRead path) w2 in
  let t1 := tr ++ [Asked (FsExists path) ex] in
  let t2 := t1 ++ [Asked (FsIsRegular path) reg] in
  let t3 := t2 ++ [Asked (FileRead path) txt] in
  if negb ex then r = Ret false ∧ s' = (c, mkOsSt _ w1 log t1)
  else if negb reg then r = Ret false ∧ s' = (c, mkOsSt _ w2 log t2)
  else match txt with
       | None => r = Throw ExIniParser ∧ s' = (empty_config, mkOsSt _ w3 log t3)
       | Some text =>
           match read_ini text with
           | None => r = Throw ExIniParser ∧ s' = (empty_config, mkOsSt _ w3 log t3)
           | Some t =>
               (well_formed t ∧ r = Ret true ∧ s' = (mkConfig t, mkOsSt _ w3 log t3))
               ∨ (¬ well_formed t ∧ r = Ret false ∧ s' = (empty_config, mkOsSt _ w3 log t3))
           end
       end.
Proof.
  destruct (ReadConfigFile path (c, mkOsSt _ w log tr)) as [r s'] eqn:Hrun. revert Hrun.
  unfold ReadConfigFile, mbind, M_bind, on_os, lift, os, put_cfg, modify, gets; simpl.
  destruct (os_handle (FsExists path) w) as [ex w1]; simpl. rewrite !app_nil_r.
  destruct ex; simpl; repeat (case_match; simplify_eq/=); rewrite ?app_nil_r;
    unfold mret, M_ret, throw; intros; simplify_eq; try done.
  all: pose proof (sanitize_iff (mkConfig p)) as Hs; simpl in Hs.
  all: match goal with H : negb (SanitizeOpts _) = ?b |- _ =>
         destruct (SanitizeOpts _); simplify_eq/= end; naive_solver.
Qed.

(** Reading comes back and does not act on the machine. *)
Lemma read_config_cases path c w log tr :
  match ReadConfigFile path (c, mkOsSt _ w log tr) with
  | (Ret _, s') | (Throw _, s') => os_log s'.2 = log ∧ does unspawned (mkOsSt _ w log tr) s'.2
  | (Blocked, _) => False
  end.
Proof.
  unfold ReadConfigFile, on_os, put_cfg. sx_unfold. cbn. sx_all; try done.
  all: repeat case_match; simplify_eq/=; try done.
  all: split; [done|]; eexists; (split; [cbn; by rewrite <-?app_assoc|by repeat constructor]).
Qed.

Lemma SetValue_sanitized {L : BoostLaws B} g k v c :
  accepted g k → SanitizeOpts c = true → SanitizeOpts (SetValue g k v c).2 = true.
Proof.
  unfold SanitizeOpts. rewrite !sanitize_sections_spec. intros Ha Hw.
  destruct (accepted_segment g k Ha) as [Hg Hk].
  unfold SetValue. destruct (str_empty v); [done|].
  rewrite pt_put_path by done. by apply put2_well_formed.
Qed.

(** What is read after a store. *)
Lemma GetValue_SetValue {L : BoostLaws B} g k v c g' k' :
  accepted g k → accepted g' k' →
  GetValue g' k' (SetValue g k v c).2
  = if decide ((g, k) = (g', k') ∧ v ≠ EmptyString) then trim v else GetValue g' k' c.
Proof.
  intros [Hg Hk]%accepted_segment [Hg' Hk']%accepted_segment. unfold SetValue.
  destruct (str_empty v) eqn:Hv.
  { apply str_empty_true in Hv. by case_decide as H; [destruct H|]. }
  apply str_empty_false in Hv. rewrite pt_put_path by done. unfold GetValue; simpl.
  case_decide as H.
  - destruct H as [[= <- <-] _]. by rewrite pt_get_path, get2_put2_eq by done.
  - rewrite !pt_get_path by done. rewrite get2_put2_ne; [done|]. intros Heq. by apply H.
Qed.

(** A value stored under an accepted key is read back, and no other
    entry changes. *)
Theorem set_get_value {L : BoostLaws B} g k v c :
  accepted g k → v ≠ EmptyString → trimmed v →
  let '(ok, c') := SetValue g k v c in
  ok = true ∧ GetValue g k c' = v
  ∧ ∀ g' k', segment g' → segment k' → (g, k) ≠ (g', k') → GetValue g' k' c' = GetValue g' k' c.
Proof.
  intros Ha Hv Ht. destruct (accepted_segment g k Ha) as [Hg Hk].
  unfold SetValue. apply str_empty_false in Hv. rewrite Hv, pt_put_path by done.
  unfold GetValue; simpl. split_and!; [done| |].
  - rewrite pt_get_path, get2_put2_eq by done. by apply trim_trimmed.
  - intros g' k' Hg' Hk' Hne. rewrite !pt_get_path by done. by rewrite get2_put2_ne.
Qed.

(** Storing values only under accepted keys never makes a configuration
    the check, and so a later write, would refuse. *)
Theorem set_value_sanitized {L : BoostLaws B} g k v c :
  accepted g k → SanitizeOpts c = true → SanitizeOpts (SetValue g k v c).2 = true.
Proof. apply SetValue_sanitized. Qed.
End properties.

Lemma set_get_value_witness :
  accepted kGroupNet kNetAdbPort
  ∧ @GetValue RefBoost.ref_boost kGroupNet kNetAdbPort
      (@SetValue RefBoost.ref_boost kGroupNet kNetAdbPort "5555" empty_config).2 = "5555".
Proof.
  assert (accepted kGroupNet kNetAdbPort) as Ha.
  { exists [kNetModel; kNetAdbPort; kNetFastbootPort]. split; set_solver. }
  split; [done|].
  apply (@set_get_value RefBoost.ref_boost RefBoost.ref_laws kGroupNet kNetAdbPort "5555"
           empty_config Ha); done.
Defined.

Lemma set_value_sanitized_witness :
  SanitizeOpts (@SetValue RefBoost.ref_boost kGroupMem kMemSize "4G" empty_config).2 = true.
Proof.
  apply (@set_value_sanitized RefBoost.ref_boost RefBoost.ref_laws); [|done].
  exists [kMemSize]. split; set_solver.
Defined.
