(* ===== verification/Aaf.v ===== *)
(** * The AAF property file

    [Aaf] of guest/aaf.{h,cc}: three properties a guest reads from
    [mixins.spec] in a shared folder.  [Set] records a value, [Flush] rewrites
    the file: the first line of a recorded property takes the recorded value,
    other lines with a name stay, properties the file did not have are
    appended. *)

From S2P Require Import Prelude.
From S2P Require Import CStd.
From S2P Require Import Boost.
From S2P Require Import Os.
From Stdlib Require Import Ascii.

Definition kAafKeyGpuType : string := "gpu-type".
Definition kAafKeySuspend : string := "suspend".
Definition kAafKeyAudioType : string := "audio-type".

Record Aaf : Type := mkAaf { path_ : string; data_ : list (string * string) }.

(** [Aaf::Aaf(const char *path)] *)
Definition new_Aaf (path : string) : Aaf :=
  mkAaf path
    (map_insert kAafKeyAudioType EmptyString
      (map_insert kAafKeySuspend EmptyString
        (map_insert kAafKeyGpuType EmptyString []))).

(** [void Aaf::Set(std::string k, std::string v)] *)
Definition Aaf_Set (k v : string) (a : Aaf) : Aaf :=
  match map_find k (data_ a) with
  | Some _ => mkAaf (path_ a) (map_assign k v (data_ a))
  | None => a
  end.

(** The line [key:value] *)
Definition spec_line (k v : string) : string := k +:+ String ":" v.

(** The loop over the lines of the old file: lines written, data left. *)
Fixpoint flush_lines (lines : list string) (data : list (string * string)) :
    list string * list (string * string) :=
  match lines with
  | [] => ([], data)
  | tmp :: lines =>
      if str_empty tmp then flush_lines lines data
      else
        let key := before_char ":" tmp in
        if str_empty key then flush_lines lines data
        else match map_find key data with
             | Some v =>
                 if negb (str_empty v) then
                   let '(out, d) := flush_lines lines (map_assign key EmptyString data) in
                   (spec_line key v :: out, d)
                 else let '(out, d) := flush_lines lines data in (tmp :: out, d)
             | None => let '(out, d) := flush_lines lines data in (tmp :: out, d)
             end
  end.

(** The final loop over the properties: lines written, data left. *)
Fixpoint flush_rest (data : list (string * string)) :
    list string * list (string * string) :=
  match data with
  | [] => ([], [])
  | (k, v) :: data =>
      let '(out, d) := flush_rest data in
      if negb (str_empty v) then (spec_line k v :: out, (k, EmptyString) :: d)
      else (out, (k, v) :: d)
  end.

(** Text of a list of lines, each ended by a newline. *)
Fixpoint unlines (l : list string) : string :=
  match l with
  | [] => EmptyString
  | s :: l => s +:+ String newline (unlines l)
  end.

Section aaf.
Context {E : OsEnv}.

Definition AafSt : Type := Aaf * OsSt.
Definition aaf_os {A} (c : M OsSt A) : M AafSt A := lift snd (λ t s, (s.1, t)) c.
Definition put_data (d : list (string * string)) : M AafSt unit :=
  modify (λ s, (mkAaf (path_ s.1) d, s.2)).

(** [void Aaf::Flush(void)].  Opening the output truncates it; its text is
    there when it is closed.  When the renamed file does not open, the read
    loop never sees the end of the file and does not end. *)
Definition Aaf_Flush : M AafSt unit :=
  path ← gets (λ s : AafSt, path_ s.1);
  if str_empty path then skip else
  ex ← aaf_os (os (FsExists path));
  if negb ex then skip else
  dir ← aaf_os (os (FsIsDirectory path));
  if negb dir then skip else
  let target_file := path +:+ "/" +:+ "mixins.spec" in
  old ← aaf_os (os (FsExists target_file));
  kept ← (if (old : bool) then
    let hidden_file := path +:+ "/" +:+ ".mixins.spec~" in
    aaf_os (os (FsRename target_file hidden_file)) ;;
    content ← aaf_os (os (FileRead hidden_file));
    aaf_os (os (FileWrite target_file EmptyString)) ;;
    match content with
    | None => blocked
    | Some text =>
        data ← gets (λ s : AafSt, data_ s.1);
        let '(out, d) := flush_lines (getline_all text) data in
        put_data d ;;
        aaf_os (os (FsRemove hidden_file)) ;;
        mret out
    end
  else aaf_os (os (FileWrite target_file EmptyString)) ;; mret []);
  data ← gets (λ s : AafSt, data_ s.1);
  let '(more, d) := flush_rest data in
  put_data d ;;
  aaf_os (os (FileWrite target_file (unlines (kept ++ more)))).
End aaf.

(** ** Reading the file the way the guest does *)

(** The first line that speaks of property [k]. *)
Fixpoint spec_find (k : string) (lines : list string) : option string :=
  match lines with
  | [] => None
  | l :: lines =>
      if str_empty l then spec_find k lines
      else if decide (before_char ":" l = k) then Some l
      else spec_find k lines
  end.

(** Property names as the object has them: distinct, not empty, no colon. *)
Definition keys_ok (data : list (string * string)) : Prop :=
  NoDup data.*1 ∧ Forall (λ k, k ≠ EmptyString ∧ ":"%char ∉ chars k) data.*1.

Definition aaf_keys : list string := [kAafKeyAudioType; kAafKeyGpuType; kAafKeySuspend].

Lemma aaf_keys_ok data : data.*1 = aaf_keys → keys_ok data.
Proof.
  unfold keys_ok. intros ->.
  split; [apply (bool_decide_unpack _); vm_compute; exact I|].
  repeat constructor; try done; apply (bool_decide_unpack _); vm_compute; exact I.
Qed.

Lemma spec_line_find k v :
  ":"%char ∉ chars k → before_char ":" (spec_line k v) = k ∧ str_empty (spec_line k v) = false.
Proof.
  intros Hk. split; [by apply before_char_app|]. unfold spec_line. by destruct k.
Qed.

Lemma keys_ok_assign k v data : keys_ok data → keys_ok (map_assign k v data).
Proof. unfold keys_ok. by rewrite map_assign_keys. Qed.

Lemma spec_find_cons_line k v l :
  ":"%char ∉ chars k → spec_find k (spec_line k v :: l) = Some (spec_line k v).
Proof.
  intros Hk. destruct (spec_line_find k v Hk) as [Hb He]. cbn [spec_find].
  by rewrite He, Hb, decide_True.
Qed.

Lemma spec_find_cons_other k k' v l :
  ":"%char ∉ chars k → k ≠ k' → spec_find k' (spec_line k v :: l) = spec_find k' l.
Proof.
  intros Hk Hne. destruct (spec_line_find k v Hk) as [Hb He]. cbn [spec_find].
  by rewrite He, Hb, decide_False.
Qed.

(** What the loop over the old lines does for one property [k]: a recorded
    value replaces the first line of [k], if any, and is then spent. *)
Definition flushed (k : string) (data : list (string * string)) (lines out : list string)
    (d : list (string * string)) : Prop :=
  match map_find k data with
  | Some v =>
      if str_empty v then spec_find k out = spec_find k lines ∧ map_find k d = Some v
      else match spec_find k lines with
           | Some _ => spec_find k out = Some (spec_line k v) ∧ map_find k d = Some EmptyString
           | None => spec_find k out = None ∧ map_find k d = Some v
           end
  | None => spec_find k out = spec_find k lines ∧ map_find k d = None
  end.

(** A line that is copied. *)
Lemma flushed_keep k data l lines out d :
  str_empty l = false →
  map_find (before_char ":" l) data = None ∨ map_find (before_char ":" l) data = Some EmptyString →
  flushed k data lines out d → flushed k data (l :: lines) (l :: out) d.
Proof.
  unfold flushed. intros Hl Hnone IH. cbn [spec_find]. rewrite Hl.
  destruct (decide (before_char ":" l = k)) as [<-|Hne]; [|done].
  destruct Hnone as [Hn|Hn]; rewrite Hn in *; simpl in *; split; done || apply IH.
Qed.

(** A line that takes the recorded value. *)
Lemma flushed_replace k data l v lines out d :
  str_empty l = false → map_find (before_char ":" l) data = Some v → str_empty v = false →
  flushed k (map_assign (before_char ":" l) EmptyString data) lines out d →
  flushed k data (l :: lines) (spec_line (before_char ":" l) v :: out) d.
Proof.
  unfold flushed. intros Hl Hf Hv IH. pose proof (before_char_clean ":" l) as Hc.
  destruct (decide (before_char ":" l = k)) as [<-|Hne].
  - rewrite map_find_assign_eq, Hf in IH. rewrite Hf, Hv. simpl in IH.
    rewrite spec_find_cons_line by done. cbn [spec_find]. rewrite Hl, decide_True by done.
    split; [done|apply IH].
  - rewrite map_find_assign_ne in IH by done.
    rewrite spec_find_cons_other by done. cbn [spec_find]. rewrite Hl.
    rewrite decide_False by done. exact IH.
Qed.

Lemma flush_lines_spec lines data k :
  k ≠ EmptyString →
  (flush_lines lines data).2.*1 = data.*1
  ∧ flushed k data lines (flush_lines lines data).1 (flush_lines lines data).2.
Proof.
  intros Hk. revert data. induction lines as [|l lines IH]; intros data; cbn [flush_lines].
  { split; [done|]. unfold flushed; simpl. repeat case_match; done. }
  destruct (str_empty l) eqn:Hl.
  { destruct (IH data) as [Hd IHf]. split; [done|].
    revert IHf. unfold flushed. cbn [spec_find]. by rewrite Hl. }
  destruct (str_empty (before_char ":" l)) eqn:Hb.
  { destruct (IH data) as [Hd IHf]. split; [done|].
    revert IHf. unfold flushed. cbn [spec_find]. rewrite Hl.
    rewrite decide_False; [done|]. apply str_empty_true in Hb. congruence. }
  pose proof (IH data) as IHd.
  destruct (map_find (before_char ":" l) data) as [v|] eqn:Hf.
  2:{ destruct (flush_lines lines data). destruct IHd. split; [done|].
      apply flushed_keep; auto. }
  destruct (str_empty v) eqn:Hv; cbn [negb].
  { apply str_empty_true in Hv as ->. destruct (flush_lines lines data).
    destruct IHd. split; [done|]. apply flushed_keep; auto. }
  specialize (IH (map_assign (before_char ":" l) EmptyString data)).
  rewrite map_assign_keys in IH. destruct (flush_lines lines _) as [out d].
  destruct IH as [Hd IHf]. split; [done|]. by eapply flushed_replace.
Qed.

(** The final loop writes exactly the unspent values. *)
Lemma flush_rest_spec data k :
  keys_ok data → k ≠ EmptyString →
  (flush_rest data).2 = (λ '(k, _), (k, EmptyString)) <$> data
  ∧ spec_find k (flush_rest data).1
    = match map_find k data with
      | Some v => if str_empty v then None else Some (spec_line k v)
      | None => None
      end.
Proof.
  intros [Hnd Hall] Hk. induction data as [|[k' v] data IH]; simpl; [done|].
  apply NoDup_cons in Hnd as [Hni Hnd]. apply Forall_cons in Hall as [[Hk' Hc] Hall].
  destruct (IH Hnd Hall) as [Hd IHf]. destruct (flush_rest data) as [out d]; simpl in *.
  destruct (str_empty v) eqn:Hv; cbn [negb fst snd].
  - apply str_empty_true in Hv as ->. split; [by f_equal|].
    case_decide; [|done]. subst. rewrite IHf.
    destruct (map_find k data) eqn:Hf; [|done]. destruct Hni.
    apply map_find_elem in Hf. apply list_elem_of_fmap. by exists (k, s).
  - split; [by f_equal|]. case_decide as Heq.
    + subst. by rewrite spec_find_cons_line, Hv.
    + by rewrite spec_find_cons_other.
Qed.

Lemma spec_find_app k l1 l2 :
  spec_find k (l1 ++ l2) = match spec_find k l1 with Some l => Some l | None => spec_find k l2 end.
Proof. induction l1 as [|l l1 IH]; simpl; [done|]. repeat case_match; done. Qed.

Lemma getline_unlines l :
  Forall (λ s, newline ∉ chars s) l → getline_all (unlines l) = l ++ [EmptyString].
Proof.
  unfold getline_all. induction 1 as [|s l Hs Hl IH]; [done|].
  cbn [unlines]. rewrite split_char_app by done. by rewrite IH.
Qed.

(** Lines of the new file, from the lines of the old one and the recorded
    values. *)
Definition new_lines (lines : list string) (data : list (string * string)) : list string :=
  (flush_lines lines data).1 ++ (flush_rest (flush_lines lines data).2).1.

(** ** The new file, line by line *)

Definition line_key (l : string) : string := before_char ":" l.

(** A line after lines of the properties [seen]: the first line of a recorded
    property takes the value. *)
Definition new_line (data : list (string * string)) (seen : list string) (l : string) : string :=
  match map_find (line_key l) data with
  | Some v => if decide (v = EmptyString ∨ line_key l ∈ seen) then l else spec_line (line_key l) v
  | None => l
  end.

(** The values that are left after lines of the properties [seen]. *)
Definition spent (seen : list string) (data : list (string * string)) : list (string * string) :=
  (λ e : string * string, (e.1, if decide (e.1 ∈ seen) then EmptyString else e.2)) <$> data.

Lemma spent_assign k seen data :
  NoDup data.*1 → spent seen (map_assign k EmptyString data) = spent (k :: seen) data.
Proof.
  unfold spent. induction data as [|[k' v] data IH]; intros Hnd; [done|]. cbn [fmap list_fmap fst] in Hnd.
  apply NoDup_cons in Hnd as [Hn Hnd]. cbn [map_assign]. destruct (decide (k' = k)) as [->|Hne]; cbn.
  - rewrite (decide_True (P := k ∈ k :: seen)) by set_solver. f_equal; [by case_decide|].
    apply list_fmap_ext. intros i [k2 v2] Hi. cbn. assert (k2 ≠ k) as Hk2.
    { intros ->. apply Hn. apply list_elem_of_fmap. exists (k, v2). split; [done|]. by eapply list_elem_of_lookup_2. }
    by repeat case_decide; set_solver.
  - rewrite IH by done. f_equal. repeat case_decide; set_solver.
Qed.

(** A property without a recorded value is spent already. *)
Lemma spent_none k seen data :
  NoDup data.*1 → map_find k data = None ∨ map_find k data = Some EmptyString →
  spent seen data = spent (k :: seen) data.
Proof.
  intros Hnd Hk. unfold spent. apply list_fmap_ext. intros i [k' v] Hi. cbn.
  assert ((k', v) ∈ data) as Hin by (by eapply list_elem_of_lookup_2). apply (map_find_nodup _ _ _ Hnd) in Hin.
  destruct (decide (k' = k)) as [->|Hne]; [|by repeat case_decide; set_solver].
  destruct Hk as [Hk|Hk]; rewrite Hk in Hin; simplify_eq. by repeat case_decide.
Qed.

Lemma new_line_seen data data' seen k l :
  (line_key l = k → new_line data seen l = l) →
  (line_key l ≠ k → map_find (line_key l) data = map_find (line_key l) data') →
  new_line data seen l = new_line data' (k :: seen) l.
Proof.
  intros Heq Hne. destruct (decide (line_key l = k)) as [Hk|Hk].
  - rewrite Heq by done. unfold new_line. case_match; [|done]. rewrite decide_True; [done|]. right. set_solver.
  - unfold new_line. rewrite Hne by done. case_match; [|done]. repeat case_decide; set_solver.
Qed.

Lemma flush_lines_exact lines data :
  NoDup data.*1 →
  let kept := filter (λ l, line_key l ≠ EmptyString) lines in
  flush_lines lines data
  = (imap (λ i l, new_line data (line_key <$> take i kept) l) kept, spent (line_key <$> kept) data).
Proof.
  cbv zeta. revert data. induction lines as [|l lines IH]; intros data Hnd.
  { cbn. f_equal. unfold spent. rewrite <-(list_fmap_id data) at 1. apply list_fmap_ext. by intros i []. }
  cbn [flush_lines]. fold (line_key l). destruct (str_empty l) eqn:Hl.
  { apply str_empty_true in Hl as ->. rewrite filter_cons_False by (by intros H). by apply IH. }
  destruct (str_empty (line_key l)) eqn:Hk.
  { apply str_empty_true in Hk. rewrite filter_cons_False by (by intros H). by apply IH. }
  assert (line_key l ≠ EmptyString) as Hkne by (intros H; by rewrite H in Hk).
  rewrite filter_cons_True by done. cbn [imap take fmap list_fmap].
  assert (map_find (line_key l) data = None ∨ map_find (line_key l) data = Some EmptyString →
    (let '(out, d) := flush_lines lines data in (l :: out, d))
    = (new_line data [] l :: imap ((λ i l0, new_line data (line_key <$> take i (l :: filter (λ l1, line_key l1 ≠ EmptyString) lines)) l0) ∘ S)
        (filter (λ l1, line_key l1 ≠ EmptyString) lines),
       spent (line_key l :: (line_key <$> filter (λ l1, line_key l1 ≠ EmptyString) lines)) data)) as Hkeep.
  { intros Hno. rewrite IH by done. f_equal; [f_equal|by apply spent_none].
    - unfold new_line. destruct Hno as [-> | ->]; [done|]. by rewrite decide_True by (by left).
    - apply imap_ext. intros i x Hx. cbn. apply new_line_seen; [|done].
      intros Hxl. unfold new_line. rewrite Hxl. destruct Hno as [-> | ->]; [done|]. by rewrite decide_True by (by left). }
  destruct (map_find (line_key l) data) as [v|] eqn:Hf; [|by apply Hkeep; left].
  destruct (str_empty v) eqn:Hv; cbn [negb]; [apply str_empty_true in Hv as ->; by apply Hkeep; right|].
  clear Hkeep. assert (v ≠ EmptyString) as Hvne by (by intros ->).
  rewrite IH by (by rewrite map_assign_keys). rewrite spent_assign by done. f_equal. f_equal.
  - unfold new_line. rewrite Hf, decide_False; [done|]. set_solver.
  - apply imap_ext. intros i x Hx. cbn. apply new_line_seen.
    + intros Hxl. unfold new_line. rewrite Hxl, map_find_assign_eq, Hf. cbn. by rewrite decide_True by (by left).
    + intros Hxl. by rewrite map_find_assign_ne.
Qed.

Lemma flush_rest_exact data :
  (flush_rest data).1 = (λ e, spec_line e.1 e.2) <$> filter (λ e : string * string, e.2 ≠ EmptyString) data.
Proof.
  induction data as [|[k v] data IH]; [done|]. cbn [flush_rest]. destruct (flush_rest data) as [out d]. cbn in IH.
  destruct (str_empty v) eqn:Hv; cbn [negb].
  - apply str_empty_true in Hv as ->. by rewrite filter_cons_False by (by intros []).
  - rewrite filter_cons_True by (cbn; intros ->; done). cbn. by rewrite IH.
Qed.

(** The unspent values, as entries of the table. *)
Lemma spent_filter seen data :
  filter (λ e : string * string, e.2 ≠ EmptyString) (spent seen data)
  = filter (λ e : string * string, e.2 ≠ EmptyString ∧ e.1 ∉ seen) data.
Proof.
  induction data as [|[k v] data IH]; [done|]. unfold spent. rewrite fmap_cons. fold (spent seen data).
  destruct (decide (v ≠ EmptyString ∧ k ∉ seen)) as [[Hv Hk]|Hn].
  - rewrite (filter_cons_True _ _ data) by done. rewrite filter_cons_True by (cbn; by rewrite decide_False). cbn.
    rewrite decide_False by done. by f_equal.
  - rewrite (filter_cons_False _ _ data) by done. rewrite filter_cons_False; [done|]. cbn.
    case_decide; [by intros []|]. intros ?. by apply Hn.
Qed.

(** Reading the new file back. *)
Lemma new_lines_find lines data k :
  keys_ok data → k ≠ EmptyString →
  spec_find k (new_lines lines data)
  = match map_find k data with
    | Some v => if str_empty v then spec_find k lines else Some (spec_line k v)
    | None => spec_find k lines
    end
  ∧ (flush_rest (flush_lines lines data).2).2 = (λ '(k, _), (k, EmptyString)) <$> data.
Proof.
  intros Hok Hk. destruct (flush_lines_spec lines data k Hk) as [Hd Hfl].
  unfold new_lines. destruct (flush_lines lines data) as [out d]; simpl in *.
  assert (keys_ok d) as Hokd by (unfold keys_ok in *; by rewrite Hd).
  destruct (flush_rest_spec d k Hokd Hk) as [Hempty Hrest].
  split.
  - rewrite spec_find_app, Hrest. unfold flushed in Hfl.
    repeat case_match; destruct_and?; simplify_eq/=; congruence.
  - rewrite Hempty.
    enough (∀ l : list (string * string),
      (λ '(k, _), (k, EmptyString)) <$> l = (λ k, (k, EmptyString)) <$> l.*1) as Hgen
      by (by rewrite !Hgen, Hd).
    intros l. rewrite <-list_fmap_compose. apply list_fmap_ext. by intros ? [].
Qed.

(** ** Properties *)

(** C32: the new file, line by line.  Blank lines and lines with an empty name
    are dropped; all others keep their places and their texts, but for the
    first line of each property that has a recorded value, which becomes that
    value's line; the recorded values of properties that no line speaks of
    follow at the end, in the order of their names.  No recorded value is left
    afterwards.  Hence a property with a recorded value reads back as that
    value, and every other property as before. *)
Theorem aaf_rewrite lines data :
  keys_ok data →
  let kept := filter (λ l, line_key l ≠ EmptyString) lines in
  new_lines lines data
    = imap (λ i l, new_line data (line_key <$> take i kept) l) kept
      ++ ((λ e, spec_line e.1 e.2) <$>
            filter (λ e : string * string, e.2 ≠ EmptyString ∧ e.1 ∉ line_key <$> kept) data)
  ∧ (flush_rest (flush_lines lines data).2).2 = (λ '(k, _), (k, EmptyString)) <$> data
  ∧ ∀ k, k ≠ EmptyString →
      spec_find k (new_lines lines data)
      = match map_find k data with
        | Some v => if str_empty v then spec_find k lines else Some (spec_line k v)
        | None => spec_find k lines
        end.
Proof.
  intros Hok kept. split_and!.
  - unfold new_lines. rewrite (flush_lines_exact lines data) by apply Hok. cbn [fst snd]. f_equal.
    by rewrite flush_rest_exact, spent_filter.
  - by apply (new_lines_find lines data "x").
  - intros k Hk. by apply new_lines_find.
Qed.

Lemma aaf_rewrite_witness :
  new_lines ["gpu-type:virtio"; EmptyString; "x"; "gpu-type:old"; ":y"]
    [("audio-type", EmptyString); ("gpu-type", "gvtd"); ("suspend", "true")]
  = ["gpu-type:gvtd"; "x"; "gpu-type:old"; "suspend:true"].
Proof.
  destruct (aaf_rewrite ["gpu-type:virtio"; EmptyString; "x"; "gpu-type:old"; ":y"]
    [("audio-type", EmptyString); ("gpu-type", "gvtd"); ("suspend", "true")]) as [Hl _];
    [by apply aaf_keys_ok|]. rewrite Hl. vm_compute. reflexivity.
Defined.

Section flush.
Context {E : OsEnv}.

Definition target_of (a : Aaf) : string := path_ a +:+ "/" +:+ "mixins.spec".
Definition hidden_of (a : Aaf) : string := path_ a +:+ "/" +:+ ".mixins.spec~".

(** C33: what a flush does, by the answers it gets.  Without a path, or when
    the path is not there or no directory, nothing is changed.  With a folder
    that has no old file, the file is made and gets the recorded values.  With
    an old file, that file is moved aside, read and removed, and the last call
    writes the new lines.  The flush never throws, but it does not return, with
    the old file moved and the new one truncated, exactly when the moved file
    does not open. *)
Theorem aaf_flush_effects a s :
  let '(r, (a', s')) := Aaf_Flush (a, s) in
  let folder := [Asked (FsExists (path_ a)) true; Asked (FsIsDirectory (path_ a)) true] in
  let moved content := folder ++ [Asked (FsExists (target_of a)) true;
    Asked (FsRename (target_of a) (hidden_of a)) tt; Asked (FileRead (hidden_of a)) content;
    Asked (FileWrite (target_of a) EmptyString) tt] in
  ∃ t, calls s s' t ∧
  match r with
  | Ret _ =>
      (a' = a ∧ (path_ a = EmptyString ∧ t = []
                 ∨ path_ a ≠ EmptyString ∧ (t = [Asked (FsExists (path_ a)) false]
                     ∨ t = [Asked (FsExists (path_ a)) true; Asked (FsIsDirectory (path_ a)) false])))
      ∨ (path_ a ≠ EmptyString ∧ a' = mkAaf (path_ a) (flush_rest (data_ a)).2
         ∧ t = folder ++ [Asked (FsExists (target_of a)) false;
                 Asked (FileWrite (target_of a) EmptyString) tt;
                 Asked (FileWrite (target_of a) (unlines (new_lines [] (data_ a)))) tt])
      ∨ (path_ a ≠ EmptyString ∧ ∃ text removed,
           a' = mkAaf (path_ a) (flush_rest (flush_lines (getline_all text) (data_ a)).2).2
           ∧ t = moved (Some text) ++ [Asked (FsRemove (hidden_of a)) removed;
                 Asked (FileWrite (target_of a) (unlines (new_lines (getline_all text) (data_ a)))) tt])
  | Blocked => path_ a ≠ EmptyString ∧ a' = a ∧ t = moved None
  | Throw _ => False
  end.
Proof.
  destruct s as [w log tr]. unfold Aaf_Flush, calls, mbind, M_bind, gets, aaf_os, lift, os, put_data,
    modify, skip, mret, M_ret, blocked, new_lines, target_of, hidden_of.
  cbn. destruct (str_empty (path_ a)) eqn:Hp; cbn.
  { apply str_empty_true in Hp. exists []. rewrite app_nil_r. split; [done|]. left. auto. }
  assert (path_ a ≠ EmptyString) as Hne by (intros H; by rewrite H in Hp).
  destruct (os_handle (FsExists (path_ a)) w) as [ex w1]; cbn.
  destruct ex; cbn; [|eexists; split; [done|]; left; auto].
  destruct (os_handle (FsIsDirectory (path_ a)) w1) as [dir w2]; cbn.
  destruct dir; cbn; [|eexists; split; [by rewrite <-app_assoc|]; left; auto].
  destruct (os_handle (FsExists _) w2) as [old w3]; cbn.
  destruct old; cbn.
  - destruct (os_handle (FsRename _ _) w3) as [[] w4]; cbn.
    destruct (os_handle (FileRead _) w4) as [content w5]; cbn.
    destruct (os_handle (FileWrite _ EmptyString) w5) as [[] w6]; cbn.
    destruct content as [text|]; cbn; [|eexists; split; [by rewrite <-!app_assoc|done]].
    destruct (flush_lines (getline_all text) (data_ a)) as [out d] eqn:Hfl; cbn.
    destruct (os_handle (FsRemove _) w6) as [rm w7]; cbn.
    destruct (flush_rest d) as [more d2] eqn:Hfr; cbn.
    destruct (os_handle (FileWrite _ _) w7) as [[] w8]; cbn.
    eexists. split; [by rewrite <-!app_assoc|]. right; right. split; [done|]. exists text, rm.
    rewrite Hfl; cbn. by rewrite Hfr.
  - destruct (os_handle (FileWrite _ EmptyString) w3) as [[] w4]; cbn.
    destruct (flush_rest (data_ a)) as [more d2] eqn:Hfr; cbn.
    destruct (os_handle (FileWrite _ _) w4) as [[] w5]; cbn.
    eexists. split; [by rewrite <-!app_assoc|]. right; left. done.
Qed.
End flush.
