(* ===== verification/Process.v ===== *)
(** * Processes of a guest

    [VmProcSimple], [VmCoProcRpmb] and [VmCoProcVtpm] of
    guest/vm_process.{h,cc}: a command line run as a child by a monitor
    thread.  [Run] starts the thread and waits on a latch that the thread
    releases when the child has been created; the model of a running process
    is the state once the thread has stored the child. *)

From S2P Require Import Prelude.
From S2P Require Import CStd.
From S2P Require Import Boost.
From S2P Require Import Os.
From Stdlib Require Import Ascii.

Definition kRpmbData : string := "RPMB_DATA".
Definition kRpmbSockPrefix : string := "/tmp/rpmb_sock_".
Definition kVtpmSock : string := "swtpm-sock".

(** The dynamic class of a [VmProcess]. *)
Inductive ProcKind : Type :=
| VmProcSimple
| VmCoProcRpmb (bin_ data_dir_ sock_file_ : string)
| VmCoProcVtpm (bin_ data_dir_ : string).

Record VmProc : Type := mkProc {
  kind : ProcKind;
  cmd_ : string;
  env_data_ : list string;
  log_dir_ : string;
  mon_ : bool;             (** a monitor thread is there *)
  c_ : option Z;           (** the child's id *)
}.

(** Constructors *)
Definition new_VmProcSimple (cmd : string) : VmProc :=
  mkProc VmProcSimple cmd [] "/tmp/" false None.
Definition new_VmCoProcRpmb (bin data_dir sock_file : string) : VmProc :=
  mkProc (VmCoProcRpmb bin data_dir sock_file) EmptyString [] "/tmp/" false None.
Definition new_VmCoProcVtpm (bin data_dir : string) : VmProc :=
  mkProc (VmCoProcVtpm bin data_dir) EmptyString [] "/tmp/" false None.

Definition set_cmd (s : string) (p : VmProc) : VmProc :=
  mkProc (kind p) s (env_data_ p) (log_dir_ p) (mon_ p) (c_ p).
Definition set_mon (b : bool) (p : VmProc) : VmProc :=
  mkProc (kind p) (cmd_ p) (env_data_ p) (log_dir_ p) b (c_ p).
Definition set_child (c : Z) (p : VmProc) : VmProc :=
  mkProc (kind p) (cmd_ p) (env_data_ p) (log_dir_ p) (mon_ p) (Some c).

(** [void VmProcSimple::SetEnv(std::vector<std::string> env)] *)
Definition SetEnv (env : list string) (p : VmProc) : VmProc :=
  mkProc (kind p) (cmd_ p) env (log_dir_ p) (mon_ p) (c_ p).

(** The environment a child gets: [NAME=value] entries, empty ones dropped. *)
Fixpoint env_pairs (env : list string) : list (string * string) :=
  match env with
  | [] => []
  | s :: env =>
      if str_empty s then env_pairs env
      else (before_char "=" s, after_char "=" s) :: env_pairs env
  end.

(** The executable: first word of the command; [None] for a blank command. *)
Definition exe_of (cmd : string) : option string :=
  match find_first_not_of " " cmd with
  | None => None
  | Some b => Some (before_char " " (str_drop b cmd))
  end.

Section process.
Context {E : OsEnv}.

Definition ProcSt : Type := VmProc * OsSt.
Definition proc_os {A} (c : M OsSt A) : M ProcSt A := lift snd (λ t s, (s.1, t)) c.
Definition upd (f : VmProc → VmProc) : M ProcSt unit := modify (λ s, (f s.1, s.2)).
Definition self {A} (f : VmProc → A) : M ProcSt A := gets (λ s, f s.1).

(** [void VmProcSimple::ThreadMon(void)] up to the creation of the child:
    [true] once the latch has been released, with the log file's name.  An
    exception here leaves the function of a thread. *)
Definition ThreadMon_start (tid : string) : M ProcSt (bool * string) :=
  t_buf ← proc_os (os (Strftime "%Y-%m-%d_%T"));
  env ← self (λ p, env_pairs (env_data_ p));
  cmd ← self cmd_;
  match exe_of cmd with
  | None => mret (false, EmptyString)
  | Some exe =>
      dir ← self log_dir_;
      let f_out := dir +:+ basename exe +:+ "_" +:+ t_buf +:+ "_" +:+ tid +:+ "_out.log" in
      proc_os (os (FileWrite f_out EmptyString)) ;;
      ok ← proc_os (os (FsPermissions f_out));
      if negb ok then throw ExTerminate else
      pid ← proc_os (os (ProcSpawn cmd env));
      upd (set_child pid) ;;
      mret (true, f_out)
  end.

(** The rest of [ThreadMon]: wait for the child, note the command. *)
Definition ThreadMon_finish (f_out : string) : M ProcSt unit :=
  c ← self c_;
  match c with
  | None => skip
  | Some pid =>
      proc_os (os (ProcWait pid)) ;;
      cmd ← self cmd_;
      proc_os (os (FileAppend f_out (String newline (String newline ("CMD: " +:+ cmd)))))
  end.

(** [void VmProcSimple::Run(void)]: the wait on the latch does not end when
    the thread left without releasing it. *)
Definition Simple_Run (tid : string) : M ProcSt unit :=
  upd (set_mon true) ;;
  r ← ThreadMon_start tid;
  if (r : bool * string).1 then skip else blocked.

(** [void VmCoProcRpmb::Run(void)] *)
Definition Rpmb_Run (bin data_dir sock_file tid : string) : M ProcSt unit :=
  ex ← proc_os (os (FsExists (data_dir +:+ "/" +:+ kRpmbData)));
  (if negb ex then
     child ← proc_os (os (ProcChild
       (bin +:+ " --dev " +:+ data_dir +:+ "/" +:+ kRpmbData +:+ " --init --size 2048")));
     match child with
     | None => throw ExProcess
     | Some pid => proc_os (os (ProcWait pid))
     end
   else skip) ;;
  upd (set_cmd (bin +:+ " --dev " +:+ data_dir +:+ "/" +:+ kRpmbData +:+ " --sock " +:+ sock_file)) ;;
  Simple_Run tid.

(** [void VmCoProcVtpm::Run(void)] *)
Definition Vtpm_Run (bin data_dir tid : string) : M ProcSt unit :=
  ex ← proc_os (os (FsExists data_dir));
  if negb ex then skip else
  upd (set_cmd (bin +:+ " socket --tpmstate dir=" +:+ data_dir +:+
                " --tpm2 --ctrl type=unixio,path=" +:+ data_dir +:+ "/" +:+ kVtpmSock)) ;;
  Simple_Run tid.

(** [p->Run()]; the name the thread id prints as is the thread's own. *)
Definition Proc_Run (tid : string) : M ProcSt unit :=
  k ← self kind;
  match k with
  | VmProcSimple => Simple_Run tid
  | VmCoProcRpmb bin data_dir sock_file => Rpmb_Run bin data_dir sock_file tid
  | VmCoProcVtpm bin data_dir => Vtpm_Run bin data_dir tid
  end.

(** [bool VmProcSimple::Running(void)] *)
Definition Running : M ProcSt bool :=
  c ← self c_;
  match c with
  | Some pid => proc_os (os (ProcRunning pid))
  | None => mret false
  end.

(** [void VmProcSimple::Stop(void)]: the ten-second join is the passing of
    time on the machine. *)
Definition Simple_Stop : M ProcSt unit :=
  m ← self mon_;
  c ← self c_;
  match m, c with
  | true, Some pid =>
      run ← proc_os (os (ProcRunning pid));
      if negb run then skip else
      proc_os (os (ProcKill pid)) ;;
      proc_os (os (Usleep 10000000)) ;;
      upd (set_mon false)
  | _, _ => skip
  end.

(** [void VmCoProcRpmb::Stop(void)] *)
Definition Rpmb_Stop (sock_file : string) : M ProcSt unit :=
  Simple_Stop ;;
  ex ← proc_os (os (FsExists sock_file));
  if (ex : bool) then
    r ← proc_os (os (FsRemoveX sock_file));
    match r with Some _ => skip | None => throw ExFilesystem end
  else skip.

(** [p->Stop()]; [VmCoProcVtpm::Stop] only calls its base. *)
Definition Proc_Stop : M ProcSt unit :=
  k ← self kind;
  match k with
  | VmProcSimple => Simple_Stop
  | VmCoProcRpmb _ _ sock_file => Rpmb_Stop sock_file
  | VmCoProcVtpm _ _ => Simple_Stop
  end.

(** The end of the member [c_]: the destructor of [boost::process::child]
    terminates a child that is still attached and runs. *)
Definition delete_child : M ProcSt unit :=
  c ← self c_;
  match c with
  | None => skip
  | Some pid =>
      run ← proc_os (os (ProcRunning pid));
      if (run : bool) then proc_os (os (ProcTerminate pid)) else skip
  end.

(** The bodies of the destructors: each class stops the process once more,
    then its base does. *)
Definition delete_stops (k : ProcKind) : M ProcSt unit :=
  match k with
  | VmProcSimple => Simple_Stop
  | VmCoProcRpmb _ _ sock_file => noexcept (Rpmb_Stop sock_file) ;; Simple_Stop
  | VmCoProcVtpm _ _ => Simple_Stop ;; Simple_Stop
  end.

(** The destructors; the members end last. *)
Definition Proc_Delete : M ProcSt unit :=
  k ← self kind;
  delete_stops k ;;
  delete_child.

(** [void VmProcSimple::Join(void)] *)
Definition Join : M ProcSt unit :=
  m ← self mon_;
  c ← self c_;
  match m, c with
  | true, Some pid => proc_os (os (ProcWait pid))
  | _, _ => skip
  end.

(** [void VmProcSimple::SetLogDir(const char *path)] *)
Definition SetLogDir (path : string) : M ProcSt unit :=
  ex ← proc_os (os (FsExists path));
  ok ← (if (ex : bool) then proc_os (os (FsIsDirectory path))
        else proc_os (os (FsCreateDirs path)));
  if negb ok then skip else
  abs ← proc_os (os (FsAbsolute path));
  upd (λ p, mkProc (kind p) (cmd_ p) (env_data_ p) (abs +:+ "/") (mon_ p) (c_ p)).
End process.

(** ** Lemmas *)

(** A command is blank when it has nothing but spaces. *)
Definition blank (s : string) : Prop := Forall (λ c, c = " "%char) (chars s).

Lemma find_first_not_of_None c s : find_first_not_of c s = None ↔ Forall (λ a, a = c) (chars s).
Proof.
  unfold chars. induction s as [|a s IH]; simpl; [split; [constructor|done]|].
  case_decide as Ha.
  - rewrite fmap_None, IH. split; [by constructor|by inversion 1].
  - split; [done|by inversion 1].
Qed.

Lemma exe_of_None cmd : exe_of cmd = None ↔ blank cmd.
Proof.
  unfold exe_of, blank. rewrite <-find_first_not_of_None. by destruct (find_first_not_of _ _).
Qed.

Lemma blank_app a b : blank (a +:+ b) ↔ blank a ∧ blank b.
Proof. unfold blank. by rewrite chars_app, Forall_app. Qed.

Lemma not_blank_app_l a b : ¬ blank a → ¬ blank (a +:+ b).
Proof. rewrite blank_app. tauto. Qed.
Lemma not_blank_app_r a b : ¬ blank b → ¬ blank (a +:+ b).
Proof. rewrite blank_app. tauto. Qed.

Lemma blank_cons c s : blank (String c s) ↔ c = " "%char ∧ blank s.
Proof. unfold blank, chars; simpl. by rewrite Forall_cons. Qed.

Section process_lemmas.
Context {E : OsEnv}.

Lemma proc_os_run {A} (c : oscall A) (p : VmProc) s :
  ∃ a w, proc_os (os c) (p, s) = (Ret a, (p, mkOsSt _ w (os_log s ++ event_of c) (os_trace s ++ [Asked c a]))).
Proof. destruct (os_run c s) as (a & w & _ & H). exists a, w. unfold proc_os, lift; simpl. by rewrite H. Qed.

(** Outcomes of the monitor thread's start. *)
Lemma ThreadMon_start_cases tid p s :
  (exe_of (cmd_ p) = None
   ∧ ∃ s', ThreadMon_start tid (p, s) = (Ret (false, EmptyString), (p, s')) ∧ os_log s' = os_log s)
  ∨ ∃ exe f_out, exe_of (cmd_ p) = Some exe ∧
   ((∃ s', ThreadMon_start tid (p, s) = (Throw ExTerminate, (p, s'))
       ∧ os_log s' = os_log s ++ [EvWrite f_out EmptyString])
    ∨ ∃ pid s', ThreadMon_start tid (p, s) = (Ret (true, f_out), (set_child pid p, s'))
       ∧ os_log s' = os_log s ++ [EvWrite f_out EmptyString; EvSpawn (cmd_ p)]).
Proof.
  destruct s as [w log]. unfold ThreadMon_start, proc_os, self, upd. sx_unfold. cbn.
  sx_call. destruct (exe_of (cmd_ p)) as [exe|]; cbn; [right|left; split; [done|by eexists]].
  set (f_out := _ +:+ _). exists exe, f_out. split; [done|].
  sx_call. sx_call. destruct a1; cbn; [right|left; by eexists].
  sx_call. eexists _, _. split; [done|]. cbn. by rewrite <-app_assoc.
Qed.

(** A plain process never comes back from [Run] exactly when its command is
    blank. *)
Lemma Simple_Run_cases tid p s :
  (blank (cmd_ p) ∧ ∃ s', Simple_Run tid (p, s) = (Blocked, (set_mon true p, s'))
     ∧ os_log s' = os_log s)
  ∨ (¬ blank (cmd_ p) ∧ ∃ f_out,
     (∃ s', Simple_Run tid (p, s) = (Throw ExTerminate, (set_mon true p, s'))
        ∧ os_log s' = os_log s ++ [EvWrite f_out EmptyString])
     ∨ ∃ pid s', Simple_Run tid (p, s) = (Ret tt, (set_child pid (set_mon true p), s'))
        ∧ os_log s' = os_log s ++ [EvWrite f_out EmptyString; EvSpawn (cmd_ p)]).
Proof.
  change (Simple_Run tid (p, s)) with
    ((r ← ThreadMon_start tid; if (r : bool * string).1 then skip else blocked : M ProcSt unit)
       (set_mon true p, s)).
  destruct (ThreadMon_start_cases tid (set_mon true p) s)
    as [[Hn (s' & Hr & Hl)]|(exe & f & He & [(s' & Hr & Hl)|(pid & s' & Hr & Hl)])];
    cbn [cmd_ set_mon] in *.
  - left. apply exe_of_None in Hn. split; [done|]. exists s'. split; [|done].
    by rewrite (bind_run _ _ _ _ _ Hr).
  - right. split; [rewrite <-exe_of_None; congruence|]. exists f. left. exists s'.
    split; [|done]. by rewrite (bind_run_throw _ _ _ _ _ Hr).
  - right. split; [rewrite <-exe_of_None; congruence|]. exists f. right. exists pid, s'.
    split; [|done]. by rewrite (bind_run _ _ _ _ _ Hr).
Qed.
End process_lemmas.

(** The methods keep a process's class, and a plain process's command. *)
Definition same_proc (p p' : VmProc) : Prop :=
  kind p' = kind p ∧ (kind p = VmProcSimple → cmd_ p' = cmd_ p).

#[export] Instance same_proc_preorder : PreOrder same_proc.
Proof.
  split; [by intros p|]. intros p q r [Hk Hc] [Hk' Hc']. split; [by rewrite Hk', Hk|].
  intros Hs. rewrite Hc', Hc; [done|done|by rewrite Hk].
Qed.

Definition is_rpmb (p : VmProc) : Prop :=
  match kind p with VmCoProcRpmb _ _ _ => True | _ => False end.

Section process_frame.
Context {E : OsEnv}.

(** [Stop] comes back, except when an RPMB helper's socket cannot be removed. *)
Lemma Proc_Stop_runs p s :
  match Proc_Stop (p, s) with
  | (Ret _, (p', _)) => same_proc p p'
  | (Throw e, (p', _)) => same_proc p p' ∧ e = ExFilesystem ∧ is_rpmb p
  | (Blocked, _) => False
  end.
Proof.
  destruct s as [w log]. unfold Proc_Stop, Rpmb_Stop, Simple_Stop, self, proc_os, upd, is_rpmb.
  sx_unfold. cbn.
  destruct (kind p) eqn:Hk; cbn; destruct (mon_ p), (c_ p) as [pid|]; cbn;
    sx_all; rewrite ?Hk; done.
Qed.

(** The destructors come back unless the socket of an RPMB helper stays. *)
Lemma Simple_Stop_same p s : ∃ p' s', Simple_Stop (p, s) = (Ret tt, (p', s')) ∧ same_proc p p'.
Proof.
  destruct s as [w log]. unfold Simple_Stop, self, proc_os, upd. sx_unfold. cbn.
  destruct (mon_ p), (c_ p) as [pid|]; cbn; sx_all; by eexists _, _.
Qed.

Lemma delete_child_run p s : ∃ s', delete_child (p, s) = (Ret tt, (p, s')).
Proof.
  destruct s as [w log tr]. unfold delete_child, self, proc_os. sx_unfold. cbn.
  destruct (c_ p); cbn; sx_all; repeat match goal with u : () |- _ => destruct u end; by eexists.
Qed.

Lemma Proc_Delete_runs p s :
  match Proc_Delete (p, s) with
  | (Ret _, (p', _)) => same_proc p p'
  | (Throw e, (p', _)) => same_proc p p' ∧ e = ExTerminate ∧ is_rpmb p
  | (Blocked, _) => False
  end.
Proof.
  unfold Proc_Delete, delete_stops. pose proof (Proc_Stop_runs p s) as Hs. revert Hs.
  unfold Proc_Stop, self, is_rpmb, noexcept. sx_unfold. cbn.
  destruct (kind p); cbn.
  - intros _. destruct (Simple_Stop_same p s) as (p2 & s2 & -> & H2).
    by destruct (delete_child_run p2 s2) as (s3 & ->).
  - destruct (Rpmb_Stop _ (p, s)) as [[u|e|] [p1 s1]]; [|naive_solver..]. intros H1.
    destruct (Simple_Stop_same p1 s1) as (p2 & s2 & -> & H2).
    destruct (delete_child_run p2 s2) as (s3 & ->). by etrans.
  - destruct (Simple_Stop (p, s)) as [[u|e|] [p1 s1]]; [|naive_solver..]. intros H1.
    destruct (Simple_Stop_same p1 s1) as (p2 & s2 & -> & H2).
    destruct (delete_child_run p2 s2) as (s3 & ->). by etrans.
Qed.

Lemma SetLogDir_runs path p s :
  match SetLogDir path (p, s) with
  | (Ret _, (p', _)) => same_proc p p'
  | _ => False
  end.
Proof.
  destruct s as [w log]. unfold SetLogDir, self, proc_os, upd. sx_unfold. cbn.
  sx_all; done.
Qed.

Lemma Running_runs p s : ∃ b s', Running (p, s) = (Ret b, (p, s')).
Proof.
  destruct s as [w log]. unfold Running, self, proc_os. sx_unfold. cbn.
  destruct (c_ p); cbn; [sx_call|]; eauto.
Qed.

Lemma Simple_Run_same tid p q s :
  kind p ≠ VmProcSimple ∧ kind q = kind p ∨ q = p →
  match Simple_Run tid (q, s) with (_, (p', _)) => same_proc p p' end.
Proof.
  intros Hq. destruct (Simple_Run_cases tid q s)
    as [(_ & ? & -> & _)|(_ & f & [(? & -> & _)|(? & ? & -> & _)])];
    destruct Hq as [[Hk Hq]| ->]; by split; cbn.
Qed.

Lemma Proc_Run_same tid p s : match Proc_Run tid (p, s) with (_, (p', _)) => same_proc p p' end.
Proof.
  unfold Proc_Run, self. sx_unfold. cbn. destruct s as [w log].
  destruct (kind p) as [|bin d k|bin d] eqn:Hk.
  - by apply Simple_Run_same; right.
  - unfold Rpmb_Run, upd, proc_os. sx_unfold. cbn.
    sx_all; try done; (apply Simple_Run_same; left; by rewrite Hk).
  - unfold Vtpm_Run, upd, proc_os. sx_unfold. cbn. sx_call. destruct a; cbn; [|done].
    apply Simple_Run_same; left; by rewrite Hk.
Qed.
(** When a process never comes back from [Run]. *)
Lemma Proc_Run_blocks tid p s :
  (Proc_Run tid (p, s)).1 = Blocked ↔ kind p = VmProcSimple ∧ blank (cmd_ p).
Proof.
  change (Proc_Run tid (p, s)) with
    (match kind p with
     | VmProcSimple => Simple_Run tid
     | VmCoProcRpmb b d k => Rpmb_Run b d k tid
     | VmCoProcVtpm b d => Vtpm_Run b d tid
     end (p, s)).
  assert (∀ q t, ¬ blank (cmd_ q) → (Simple_Run tid (q, t)).1 ≠ Blocked) as Hrun.
  { intros q t Hnb. destruct (Simple_Run_cases tid q t)
      as [[? _]|(_ & f & [(? & -> & _)|(? & ? & -> & _)])]; done. }
  destruct (kind p) as [|bin d k|bin d] eqn:Hk.
  - split; [|intros [_ Hb]].
    + intros Hbl. split; [done|]. destruct (Simple_Run_cases tid p s)
        as [[? _]|(_ & f & [(? & Hr & _)|(? & ? & Hr & _)])]; [done|by rewrite Hr in Hbl..].
    + by destruct (Simple_Run_cases tid p s) as [[_ (? & -> & _)]|[? _]].
  - split; [|naive_solver]. intros Hbl. exfalso. revert Hbl.
    unfold Rpmb_Run, proc_os, upd. destruct s as [w log]. sx_unfold. cbn.
    sx_call. destruct a; cbn; [|sx_call; destruct a; cbn; [sx_call|done]];
      (apply Hrun; cbn; rewrite !blank_app; intros [_ [Hd _]];
       by repeat (apply blank_cons in Hd as [? Hd])).
  - split; [|naive_solver]. intros Hbl. exfalso. revert Hbl.
    unfold Vtpm_Run, proc_os, upd. destruct s as [w log]. sx_unfold. cbn.
    sx_call. destruct a; cbn; [|done].
    apply Hrun; cbn; rewrite !blank_app; intros [_ [Hd _]].
    by repeat (apply blank_cons in Hd as [? Hd]).
Qed.
End process_frame.

(** ** What the methods do to the machine *)

Section process_trace.
Context {E : OsEnv}.

Lemma grows_proc_os {A} (R : relation OsSt) (c : oscall A) :
  grows R (os c) → grows (λ s s' : ProcSt, R s.2 s'.2) (proc_os (os c)).
Proof. intros Hc. eapply grows_lift; [exact Hc|done]. Qed.

#[export] Instance snd_preorder {A} (R : relation OsSt) `{!PreOrder R} :
  PreOrder (λ s s' : A * OsSt, R s.2 s'.2).
Proof. split; [intros s; reflexivity|intros s1 s2 s3 ??; by etrans]. Qed.

Lemma proc_os_does {A} (P : answered → Prop) (c : oscall A) :
  (∀ a, P (Asked c a)) → grows (λ s s' : ProcSt, does P s.2 s'.2) (proc_os (os c)).
Proof. intros Hc. by apply grows_proc_os, does_os. Qed.

(** Stopping and deleting start no process and keep the child's id. *)
Definition only_ends (s s' : ProcSt) : Prop := does unspawned s.2 s'.2 ∧ c_ s'.1 = c_ s.1.
#[export] Instance only_ends_preorder : PreOrder only_ends.
Proof.
  split; [intros s; split; [reflexivity|done]|].
  intros s1 s2 s3 [H1 E1] [H2 E2]. split; [by etrans|congruence].
Qed.
Lemma only_ends_os {A} (c : oscall A) : (∀ a, unspawned (Asked c a)) → grows only_ends (proc_os (os c)).
Proof. intros Hc s. split; [by apply proc_os_does|]. unfold proc_os, lift. by destruct (os c s.2). Qed.

Lemma Simple_Stop_ends : grows only_ends Simple_Stop.
Proof.
  unfold Simple_Stop, self, upd. grows_go ltac:(first [by apply only_ends_os |
    apply grows_modify; intros s; split; [exists []; by rewrite app_nil_r|done]]).
Qed.
Lemma Rpmb_Stop_ends sock : grows only_ends (Rpmb_Stop sock).
Proof.
  unfold Rpmb_Stop. grows_go ltac:(first [apply Simple_Stop_ends | by apply only_ends_os]).
Qed.
Lemma delete_child_ends : grows only_ends delete_child.
Proof. unfold delete_child, self. grows_go ltac:(by apply only_ends_os). Qed.
Lemma Proc_Stop_ends : grows only_ends Proc_Stop.
Proof. unfold Proc_Stop, self. grows_go ltac:(first [apply Rpmb_Stop_ends | apply Simple_Stop_ends]). Qed.
Lemma Proc_Delete_ends : grows only_ends Proc_Delete.
Proof.
  unfold Proc_Delete, delete_stops, self.
  grows_go ltac:(first [apply Rpmb_Stop_ends | apply Simple_Stop_ends | apply delete_child_ends]).
Qed.

(** Once a process object is deleted, its child is gone. *)
Lemma Proc_Delete_gone p s pid :
  c_ p = Some pid →
  match Proc_Delete (p, s) with
  | (Ret _, (_, s')) => ∃ t, calls s s' t ∧ Forall unspawned t ∧ gone pid t
  | _ => True
  end.
Proof.
  intros Hc. unfold Proc_Delete. assert (grows only_ends (delete_stops (kind p))) as Hs.
  { unfold delete_stops. grows_go ltac:(first [apply Rpmb_Stop_ends | apply Simple_Stop_ends]). }
  unfold self, gets. sx_unfold. cbn. specialize (Hs (p, s)).
  destruct (delete_stops (kind p) (p, s)) as [[u|e|] [p1 s1]]; [|done..].
  destruct Hs as [(t1 & H1 & U1) E1]. cbn in *. destruct s1 as [w log tr]. cbn in H1.
  unfold delete_child, self, proc_os. sx_unfold. cbn. rewrite E1, Hc. cbn.
  sx_call. destruct a; cbn; [sx_call|].
  - eexists (t1 ++ [_; _]). split_and!; [unfold calls; cbn; by rewrite H1, <-!app_assoc| |].
    + apply Forall_app; by repeat constructor.
    + destruct a. right; right. set_solver.
  - eexists (t1 ++ [_]). split_and!; [unfold calls; cbn; by rewrite H1, <-!app_assoc| |].
    + apply Forall_app; by repeat constructor.
    + left. set_solver.
Qed.

(** [Stop] tells a monitored child to end, unless it has. *)
Lemma Simple_Stop_told p s pid :
  mon_ p = true → c_ p = Some pid →
  ∃ t, calls s (Simple_Stop (p, s)).2.2 t ∧ told pid t.
Proof.
  intros Hm Hc. destruct s as [w log tr]. unfold Simple_Stop, self, proc_os, upd. sx_unfold. cbn.
  rewrite Hm, Hc. cbn. sx_call. destruct a; cbn; [sx_call; sx_call|].
  - eexists [_; _; _]. split; [unfold calls; cbn; by rewrite <-!app_assoc|]. destruct a. right. set_solver.
  - eexists [_]. split; [done|]. left. set_solver.
Qed.

(** What [Run] starts ends up as the child of the object, or is waited for. *)
Lemma Simple_Run_settled tid p s :
  c_ p = None →
  match Simple_Run tid (p, s) with
  | (_, (p', s')) => ∃ t, calls s s' t ∧ settled (λ pid, c_ p' = Some pid) t
  end.
Proof.
  intros Hc. destruct s as [w log tr]. unfold Simple_Run, ThreadMon_start, proc_os, self, upd. sx_unfold. cbn.
  sx_call. destruct (exe_of (cmd_ p)) as [exe|]; cbn; [|eexists [_]; by split].
  sx_call. sx_call. destruct a1; cbn; [sx_call|].
  - eexists [_; _; _; _]. split; [unfold calls; cbn; by rewrite <-!app_assoc|].
    repeat (split; [by intros ? [= ?]; subst; auto|]). done.
  - eexists [_; _; _]. split; [unfold calls; cbn; by rewrite <-!app_assoc|].
    repeat (split; [done|]). done.
Qed.

Lemma settled_then h s s1 s' t1 :
  (∃ t, calls s1 s' t ∧ settled h t) → calls s s1 t1 → settled (λ _, False) t1 →
  ∃ t, calls s s' t ∧ settled h t.
Proof.
  intros (t & Ht & Hs) H1 Ht1. exists (t1 ++ t). split; [by eapply calls_trans|].
  by eapply settled_app.
Qed.

Lemma Proc_Run_settled tid p s :
  c_ p = None →
  match Proc_Run tid (p, s) with
  | (_, (p', s')) => ∃ t, calls s s' t ∧ settled (λ pid, c_ p' = Some pid) t
  end.
Proof.
  intros Hc. unfold Proc_Run, self. sx_unfold. cbn. destruct s as [w log tr].
  destruct (kind p) as [|bin d k|bin d]; [by apply Simple_Run_settled| |].
  - unfold Rpmb_Run, upd, proc_os. sx_unfold. cbn. sx_call. destruct a; cbn.
    + pose proof (Simple_Run_settled tid (set_cmd (bin +:+ " --dev " +:+ d +:+ "/" +:+ kRpmbData +:+ " --sock " +:+ k) p)
        (mkOsSt _ w0 log (tr ++ [Asked (FsExists (d +:+ "/" +:+ kRpmbData)) true])) Hc) as H.
      destruct (Simple_Run tid _) as [r [p' s']]. eapply (settled_then _ _ _ _ [_] H); [done|]. by apply settled_unspawned; repeat constructor.
    + sx_call. destruct a as [pid|]; cbn; [sx_call|].
      * match goal with |- context [Simple_Run tid (?q, ?o)] =>
          pose proof (Simple_Run_settled tid q o Hc) as H; destruct (Simple_Run tid (q, o)) as [r [p' s']] end.
        eapply (settled_then _ _ _ _ [_; _; _] H); [unfold calls; cbn; by rewrite <-!app_assoc|].
        split; [done|]. split; [|by apply settled_unspawned; repeat constructor]. intros ? [= <-]. left. destruct a. right; left. set_solver.
      * eexists [_; _]. split; [unfold calls; cbn; by rewrite <-!app_assoc|]. by apply settled_unspawned; repeat constructor.
  - unfold Vtpm_Run, upd, proc_os. sx_unfold. cbn. sx_call. destruct a; cbn; [|eexists [_]; split; [done|by apply settled_unspawned; repeat constructor]].
    match goal with |- context [Simple_Run tid (?q, ?o)] =>
      pose proof (Simple_Run_settled tid q o Hc) as H; destruct (Simple_Run tid (q, o)) as [r [p' s']] end.
    eapply (settled_then _ _ _ _ [_] H); [done|]. by apply settled_unspawned; repeat constructor.
Qed.
End process_trace.

(** ** Properties *)

Section properties.
Context {E : OsEnv}.

(** Starting a process fails to come back exactly for a plain process
    whose command is blank: the monitor thread then leaves without releasing
    the latch [Run] waits on.  The RPMB and TPM helpers, whose commands are
    built by [Run], always come back. *)
Theorem run_blocks_iff tid p s :
  (Proc_Run tid (p, s)).1 = Blocked ↔ kind p = VmProcSimple ∧ blank (cmd_ p).
Proof. apply Proc_Run_blocks. Qed.

(** Stopping a process acts at most once: either nothing happens, or the
    child is sent one termination signal and the monitor is dropped, after
    which a second stop does nothing at all. *)
Theorem stop_once p s :
  ∃ p' s', Simple_Stop (p, s) = (Ret tt, (p', s')) ∧
  ((p' = p ∧ os_log s' = os_log s)
   ∨ ∃ pid, mon_ p = true ∧ c_ p = Some pid ∧ p' = set_mon false p
       ∧ os_log s' = os_log s ++ [EvKill pid]
       ∧ ∀ s2, Simple_Stop (p', s2) = (Ret tt, (p', s2))).
Proof.
  destruct s as [w log]. unfold Simple_Stop, self, proc_os, upd. sx_unfold. cbn.
  destruct (mon_ p) eqn:Hm; [|naive_solver]. destruct (c_ p) as [pid|] eqn:Hc; [|naive_solver].
  cbn. sx_call. destruct a; cbn; [|naive_solver]. sx_call. sx_call.
  eexists _, _. split; [done|]. right. exists pid. cbn. split_and!; done.
Qed.
End properties.

(** The environment handed to the child is the list of name and value
    pairs of the [NAME=value] strings, a value keeping any later equal
    signs. *)
Theorem env_pairs_entries (l : list (string * string)) :
  Forall (λ '(k, _), "="%char ∉ chars k) l →
  env_pairs ((λ '(k, v), k +:+ String "=" v) <$> l) = l.
Proof.
  induction 1 as [|[k v] l Hk Hl IH]; [done|]. rewrite fmap_cons. cbn [env_pairs].
  assert (str_empty (k +:+ String "=" v) = false) as -> by (by destruct k).
  rewrite before_char_app, IH by done. do 2 f_equal.
  destruct (str_find "=" (k +:+ String "=" v)) as [n|] eqn:Hf.
  - destruct (before_after _ _ _ Hf) as [Heq _]. rewrite before_char_app in Heq by done.
    apply (inj (String.app k)) in Heq. by simplify_eq.
  - apply str_find_None in Hf. rewrite chars_app in Hf. unfold chars in Hf; simpl in Hf. set_solver.
Qed.

Lemma env_pairs_entries_witness :
  env_pairs ["PATH=/bin"; "OPTS=a=b"] = [("PATH", "/bin"); ("OPTS", "a=b")].
Proof.
  apply (env_pairs_entries [("PATH", "/bin"); ("OPTS", "a=b")]).
  repeat constructor; apply (bool_decide_unpack _); vm_compute; exact I.
Defined.
