(* ===== verification/Flash.v ===== *)
(** * Flashing a guest's disk

    [VmFlasher] of guest/vm_flash.{h,cc}: the images of a zip file are put on
    a virtual USB disk, an empty virtual disk is made, and an emulator that
    boots from the USB disk writes the guest's disk.  The object and the two
    helper processes, which are local variables of [FlashWithQemu], are in
    [FlashSt]. *)

From S2P Require Import Prelude.
From S2P Require Import CStd.
From S2P Require Import Boost.
From S2P Require Import Os.
From S2P Require Import Utils.
From S2P Require Import Config.
From S2P Require Import Process.
From Stdlib Require Import Ascii.

Local Open Scope Z_scope.

Definition kVirtualUsbDiskPath : string := "/tmp/flash.vfat".
Definition kDdBs : Z := _MB 63.
Definition k4GB : Z := _GB 4.

(** The [count] operand of [dd]: the images and a gigabyte, in whole blocks. *)
Definition dd_count (total_image_size : Z) : Z :=
  u64 (u64 (u64 (total_image_size + _GB 1) + kDdBs) - 1) / kDdBs.

(** The [args] that cut a file of four gigabytes or more into parts. *)
Definition split_args (p : string) : list string :=
  ["--bytes=" +:+ to_string (u64 (k4GB - 1)); "--numeric-suffixes"; p; p +:+ ".part"].

Definition dd_cmd (total_image_size : Z) : string :=
  "dd if=/dev/zero of=" +:+ kVirtualUsbDiskPath +:+ " bs=" +:+ to_string kDdBs +:+
  " count=" +:+ to_string (dd_count total_image_size).
Definition mkfs_cmd : string := "mkfs.vfat " +:+ kVirtualUsbDiskPath.
Definition mcopy_cmd (p : string) : string :=
  "mcopy -o -n -i " +:+ kVirtualUsbDiskPath +:+ " " +:+ p +:+ " ::".

Record VmFlasher : Type := mkFlasher {
  total_image_size_ : Z;
  virtual_disk_ : string;
  flash_cfg_ : CivConfig;
}.
Definition new_VmFlasher : VmFlasher := mkFlasher 0 EmptyString empty_config.

Section flash.
Context {B : Boost} {E : OsEnv} (capable : Creds → bool).

Record FlashSt : Type := mkFlashSt {
  flasher : VmFlasher;
  rpmb_proc : option VmProc;
  vtpm_proc : option VmProc;
  f_util : UtilSt;
}.

Definition f_os (s : FlashSt) : OsSt := u_os (f_util s).
Definition set_f_os (o : OsSt) (s : FlashSt) : FlashSt :=
  mkFlashSt (flasher s) (rpmb_proc s) (vtpm_proc s)
    (mkUtil (civ_config_path (f_util s)) (creds (f_util s)) o).
Definition set_flasher (f : VmFlasher → VmFlasher) (s : FlashSt) : FlashSt :=
  mkFlashSt (f (flasher s)) (rpmb_proc s) (vtpm_proc s) (f_util s).
Definition set_rpmb (p : option VmProc) (s : FlashSt) : FlashSt :=
  mkFlashSt (flasher s) p (vtpm_proc s) (f_util s).
Definition set_vtpm (p : option VmProc) (s : FlashSt) : FlashSt :=
  mkFlashSt (flasher s) (rpmb_proc s) p (f_util s).

Definition fl_os {A} (c : M OsSt A) : M FlashSt A := lift f_os set_f_os c.
Definition sys (cmd : string) : M FlashSt Z := fl_os (proc_system cmd).
Definition cfg_value (g k : string) : M FlashSt string :=
  gets (λ s, GetValue g k (flash_cfg_ (flasher s))).
Definition set_disk (d : string) : M FlashSt unit :=
  modify (set_flasher (λ f, mkFlasher (total_image_size_ f) d (flash_cfg_ f))).
Definition add_size (n : Z) : M FlashSt unit :=
  modify (set_flasher (λ f,
    mkFlasher (u64 (total_image_size_ f + n)) (virtual_disk_ f) (flash_cfg_ f))).

(** The body of the loop of [CheckImages]; [false] leaves the function. *)
Definition check_image (e p : string) : M FlashSt bool :=
  reg ← fl_os (os (FsIsRegular p));
  if negb reg then mret true else
  size ← fl_os (os (FsFileSize p));
  add_size (u64 size) ;;
  size ← fl_os (os (FsFileSize p));
  if k4GB <=? u64 size then
    rc ← fl_os (proc_system_args e (split_args p));
    if negb (rc =? 0) then mret false else
    _ ← fl_os (os (FsRemove p));
    mret true
  else mret true.
Fixpoint check_images (e : string) (l : list string) : M FlashSt bool :=
  match l with
  | [] => mret true
  | p :: l => ok ← check_image e p; if negb ok then mret false else check_images e l
  end.

(** [bool VmFlasher::CheckImages(boost::filesystem::path o_dir)] *)
Definition CheckImages (o_dir : string) : M FlashSt bool :=
  e ← fl_os (os (ProcSearchPath "split"));
  if str_empty e then mret false else
  l ← fl_os (dir_entries o_dir);
  check_images e l.

(** The loop that copies the images to the USB disk. *)
Fixpoint copy_images (l : list string) : M FlashSt bool :=
  match l with
  | [] => mret true
  | p :: l =>
      reg ← fl_os (os (FsIsRegular p));
      if negb reg then copy_images l else
      rc ← sys (mcopy_cmd p);
      if negb (rc =? 0) then mret false else copy_images l
  end.

(** The images in [o_dir] go onto a new file system. *)
Definition make_usb_disk (o_dir : string) : M FlashSt bool :=
  ok ← CheckImages o_dir;
  if negb ok then mret false else
  total ← gets (λ s, total_image_size_ (flasher s));
  rc ← sys (dd_cmd total);
  if negb (rc =? 0) then mret false else
  rc ← sys mkfs_cmd;
  if negb (rc =? 0) then mret false else
  l ← fl_os (os (FsDirEntries o_dir));
  ok ← copy_images (default [] l);
  if negb ok then mret false else
  _ ← sys ("rm -r " +:+ o_dir);
  set_disk kVirtualUsbDiskPath ;;
  mret true.

(** [bool VmFlasher::QemuCreateVirtUsbDisk(void)] *)
Definition QemuCreateVirtUsbDisk : M FlashSt bool :=
  file ← cfg_value kGroupGlob kGlobFlashfiles;
  ex ← fl_os (os (FsExists file));
  if negb ex then mret false else
  reg ← fl_os (os (FsIsRegular file));
  if negb reg then mret false else
  if negb (bool_decide (path_extension file = ".zip")) then set_disk file ;; mret true else
  let o_dir := "/tmp/" +:+ path_stem file in
  ex ← fl_os (os (FsExists o_dir));
  rc ← (if (ex : bool) then sys ("rm -rf " +:+ o_dir) else mret 0);
  if negb (rc =? 0) then mret false else
  rc ← sys ("unzip -o " +:+ file +:+ " -d " +:+ o_dir);
  if negb (rc =? 0) then mret false else
  boot ← fl_os (os (FsExists (o_dir +:+ "/boot.img")));
  if (boot : bool) then make_usb_disk o_dir else
  l ← fl_os (os (FsDirEntries o_dir));
  match default [] l with
  | [_] => set_disk (o_dir +:+ "/" +:+ path_stem file) ;; mret true
  | _ => mret false
  end.

(** [bool VmFlasher::QemuCreateVirtualDisk(void)] *)
Definition QemuCreateVirtualDisk : M FlashSt bool :=
  path ← cfg_value kGroupDisk kDiskPath;
  size ← cfg_value kGroupDisk kDiskSize;
  rc ← sys ("qemu-img create -f qcow2 " +:+ path +:+ " " +:+ size);
  mret (rc =? 0).

(** A method of a helper process, when there is one. *)
Definition on_local (get : FlashSt → option VmProc) (put : option VmProc → FlashSt → FlashSt)
    (c : M ProcSt unit) : M FlashSt unit := λ s,
  match get s with
  | None => (Ret tt, s)
  | Some p => let '(r, (p', o)) := c (p, f_os s) in (r, put (Some p') (set_f_os o s))
  end.

(** [p->Run()] on the new thread whose id prints as the machine says. *)
Definition run_local get put : M FlashSt unit :=
  tid ← fl_os (os ThreadId); on_local get put (Proc_Run tid).

(** The end of a [std::unique_ptr]. *)
Definition end_local get put : M FlashSt unit :=
  on_local get put Proc_Delete ;; modify (put None).

Definition rpmb_args (rpmb_sock : string) : string :=
  " -device virtio-serial,addr=1" +:+
  " -device virtserialport,chardev=rpmb0,name=rpmb0,nr=1" +:+
  " -chardev socket,id=rpmb0,path=" +:+ rpmb_sock.
Definition vtpm_args (vtpm_data_dir : string) : string :=
  " -chardev socket,id=chrtpm,path=" +:+ vtpm_data_dir +:+ "/" +:+ kVtpmSock +:+
  " -tpmdev emulator,id=tpm0,chardev=chrtpm -device tpm-crb,tpmdev=tpm0".
Definition firm_args (c : CivConfig) : option string :=
  let firm_type := GetValue kGroupFirm kFirmType c in
  if bool_decide (firm_type = kFirmUnified) then
    Some (" -drive if=pflash,format=raw,file=" +:+ GetValue kGroupFirm kFirmPath c)
  else if bool_decide (firm_type = kFirmSplited) then
    Some (" -drive if=pflash,format=raw,readonly,file=" +:+ GetValue kGroupFirm kFirmCode c +:+
          " -drive if=pflash,format=raw,file=" +:+ GetValue kGroupFirm kFirmVars c)
  else None.
Definition disk_args (c : CivConfig) : string :=
  " -device virtio-scsi-pci,id=scsi0,addr=0x8" +:+
  " -drive if=none,format=qcow2,id=scsidisk1,file=" +:+ GetValue kGroupDisk kDiskPath c +:+
  " -device scsi-hd,drive=scsidisk1,bus=scsi0.0".
Definition machine_args (virtual_disk : string) : string :=
  " -name civ_flashing" +:+
  " -M q35" +:+
  " -m 2048M" +:+
  " -smp 1" +:+
  " -enable-kvm" +:+
  " -k en-us" +:+
  " -device qemu-xhci,id=xhci,addr=0x5" +:+
  " -no-reboot" +:+
  " -nographic -display none -serial mon:stdio" +:+
  " -boot menu=on,splash-time=5000,strict=on " +:+
  " -drive id=udisk1,format=raw,if=none,file=" +:+ virtual_disk +:+
  " -device usb-storage,drive=udisk1,bus=xhci.0" +:+
  " -nodefaults".

(** The part of [FlashWithQemu] about RPMB: the text to append, or [None] to
    give up. *)
Definition setup_rpmb : M FlashSt (option string) :=
  rpmb_bin ← cfg_value kGroupRpmb kRpmbBinPath;
  rpmb_data_dir ← cfg_value kGroupRpmb kRpmbDataDir;
  let rpmb_data_file := rpmb_data_dir +:+ "/" +:+ kRpmbData in
  t_buf ← fl_os (os (Strftime "%Y-%m-%d_%T"));
  let rpmb_sock := kRpmbSockPrefix +:+ t_buf in
  if str_empty rpmb_bin || str_empty rpmb_data_dir then mret (Some EmptyString) else
  ex ← fl_os (os (FsExists rpmb_data_file));
  ok ← (if (ex : bool) then fl_os (os (FsRemove rpmb_data_file)) else mret true);
  if negb ok then mret None else
  modify (set_rpmb (Some (new_VmCoProcRpmb rpmb_bin rpmb_data_dir rpmb_sock))) ;;
  mret (Some (rpmb_args rpmb_sock)).

(** The part about the TPM. *)
Definition setup_vtpm : M FlashSt string :=
  vtpm_bin ← cfg_value kGroupVtpm kVtpmBinPath;
  vtpm_data_dir ← cfg_value kGroupVtpm kVtpmDataDir;
  if str_empty vtpm_bin || str_empty vtpm_data_dir then mret EmptyString else
  modify (set_vtpm (Some (new_VmCoProcVtpm vtpm_bin vtpm_data_dir))) ;;
  mret (vtpm_args vtpm_data_dir).

(** [FlashWithQemu] from the declaration of the helpers on; they are
    destroyed in the reverse order of their declaration. *)
Definition flash_body (emul_path : string) : M FlashSt bool :=
  rpmb ← setup_rpmb;
  match rpmb with
  | None => mret false
  | Some rpmb =>
      vtpm ← setup_vtpm;
      c ← gets (λ s, flash_cfg_ (flasher s));
      match firm_args c with
      | None => mret false
      | Some firm =>
          virtual_disk ← gets (λ s, virtual_disk_ (flasher s));
          let qemu_args := emul_path +:+ rpmb +:+ vtpm +:+ firm +:+ disk_args c +:+
                           machine_args virtual_disk in
          run_local rpmb_proc set_rpmb ;;
          run_local vtpm_proc set_vtpm ;;
          _ ← sys qemu_args;
          mret true
      end
  end.
Definition end_helpers : M FlashSt unit :=
  end_local vtpm_proc set_vtpm ;; end_local rpmb_proc set_rpmb.

(** [bool VmFlasher::FlashWithQemu(void)] *)
Definition FlashWithQemu : M FlashSt bool :=
  emul_path ← cfg_value kGroupEmul kEmulPath;
  if str_empty emul_path then mret false else
  usb ← QemuCreateVirtUsbDisk;
  if negb usb then mret false else
  disk ← QemuCreateVirtualDisk;
  if negb disk then mret false else
  scoped (flash_body emul_path) end_helpers.

(** [cfg_.ReadConfigFile(p)] *)
Definition read_flash_cfg (p : string) : M FlashSt bool :=
  lift (λ s, (flash_cfg_ (flasher s), f_os s))
    (λ t s, set_f_os t.2 (set_flasher (λ f,
       mkFlasher (total_image_size_ f) (virtual_disk_ f) t.1) s))
    (ReadConfigFile p).

(** [exists(p, ec) && is_regular_file(p, ec)] *)
Definition is_file (path : string) : M FlashSt bool :=
  ex ← fl_os (os (FsExists path));
  if (ex : bool) then fl_os (os (FsIsRegular path)) else mret false.

(** The configuration file a name stands for; a missing configuration
    directory is a null pointer. *)
Definition flash_file (path : string) : M FlashSt (option string) :=
  reg ← is_file path;
  if (reg : bool) then mret (Some path) else
  dir ← lift f_util (λ u s, mkFlashSt (flasher s) (rpmb_proc s) (vtpm_proc s) u) (GetConfigPath capable);
  match dir with
  | None => throw ExTerminate
  | Some dir =>
      let p := dir +:+ "/" +:+ path +:+ ".ini" in
      ex ← fl_os (os (FsExists p));
      mret (if (ex : bool) then Some p else None)
  end.

(** [bool VmFlasher::FlashGuest(std::string path)] *)
Definition FlashGuest (path : string) : M FlashSt bool :=
  p ← flash_file path;
  match p with
  | None => mret false
  | Some p =>
      ok ← read_flash_cfg p;
      if negb ok then mret false else
      emul_type ← cfg_value kGroupEmul kEmulType;
      if bool_decide (emul_type = kEmulTypeQemu) || str_empty emul_type
      then FlashWithQemu else mret false
  end.
End flash.

(** ** The size of the USB disk *)

Lemma kDdBs_val : kDdBs = 66060288.
Proof. reflexivity. Qed.

Lemma u64_small z : 0 ≤ z < 2 ^ 64 → u64 z = z.
Proof. intros. unfold u64. by apply Z.mod_small. Qed.

Lemma u64_range z : 0 ≤ u64 z < 2 ^ 64.
Proof. unfold u64. by apply Z.mod_pos_bound. Qed.

Lemma dd_count_bounds total :
  0 ≤ total → total + _GB 1 + kDdBs < 2 ^ 64 →
  total + _GB 1 ≤ dd_count total * kDdBs < total + _GB 1 + kDdBs.
Proof.
  intros H0 Hlt. assert (_GB 1 = 1073741824) as Hgb by reflexivity. rewrite Hgb in *.
  rewrite kDdBs_val in *. unfold dd_count. rewrite Hgb, kDdBs_val.
  rewrite (u64_small (total + _)), (u64_small (_ + 66060288)), u64_small by lia.
  pose proof (Z.div_mod (total + 1073741824 + 66060288 - 1) 66060288).
  pose proof (Z.mod_pos_bound (total + 1073741824 + 66060288 - 1) 66060288). lia.
Qed.

(** ** Specifications by the calls of a run *)

Section flash_rules.
Context {B : Boost} {E : OsEnv} (t0 : list answered).

(** The object is [f] and the calls since [t0] are [t]. *)
Definition at_ (f : VmFlasher) (t : list answered) (s : FlashSt) : Prop :=
  os_trace (f_os s) = t0 ++ t ∧ flasher s = f.

Lemma runs_call {A} (c : oscall A) f t X :
  runs (at_ f t) (fl_os (os c)) (λ a, at_ f (t ++ [Asked c a])) X.
Proof.
  intros s [Hl Hf]. unfold fl_os, lift. destruct (os_run c (f_os s)) as (a & w & Hw & ->).
  split; [|done]. simpl. by rewrite Hl, app_assoc.
Qed.

Lemma runs_sys cmd f t (X : exn → FlashSt → Prop) :
  (∀ s, X ExProcess s) →
  runs (at_ f t) (sys cmd) (λ rc, at_ f (t ++ [Asked (ProcSystem cmd) (Some rc)])) X.
Proof.
  intros HX s [Hl Hf]. unfold sys, fl_os, lift, proc_system.
  destruct (os_run (ProcSystem cmd) (f_os s)) as (a & w & Hw & Hr). bstep Hr.
  destruct a; cbn; [|done]. split; [|done]. simpl. by rewrite Hl, app_assoc.
Qed.

Lemma runs_sys_args exe args f t (X : exn → FlashSt → Prop) :
  (∀ s, X ExProcess s) →
  runs (at_ f t) (fl_os (proc_system_args exe args))
    (λ rc, at_ f (t ++ [Asked (ProcSystemArgs exe args) (Some rc)])) X.
Proof.
  intros HX s [Hl Hf]. unfold fl_os, lift, proc_system_args.
  destruct (os_run (ProcSystemArgs exe args) (f_os s)) as (a & w & Hw & Hr). bstep Hr.
  destruct a; cbn; [|done]. split; [|done]. simpl. by rewrite Hl, app_assoc.
Qed.

Lemma runs_dir p f t (X : exn → FlashSt → Prop) :
  (∀ s, X ExFilesystem s) →
  runs (at_ f t) (fl_os (dir_entries p)) (λ l, at_ f (t ++ [Asked (FsDirEntries p) (Some l)])) X.
Proof.
  intros HX s [Hl Hf]. unfold fl_os, lift, dir_entries.
  destruct (os_run (FsDirEntries p) (f_os s)) as (a & w & Hw & Hr). bstep Hr.
  destruct a; cbn; [|done]. split; [|done]. simpl. by rewrite Hl, app_assoc.
Qed.

(** Reading a member of the object. *)
Lemma runs_member {A A'} (g : VmFlasher → A) (k : A → M FlashSt A') f t Q X :
  runs (at_ f t) (k (g f)) Q X → runs (at_ f t) (gets (λ s, g (flasher s)) ≫= k) Q X.
Proof.
  intros Hk s Hs. rewrite (bind_run _ _ s (g f) s); [by apply Hk|]. unfold gets. by destruct Hs as [_ ->].
Qed.
End flash_rules.

(** One step of a [runs] proof over a call. *)
Ltac fl_query a := eapply runs_bind; [apply runs_call|]; intros a.
Ltac fl_act rc :=
  eapply runs_bind; [first [apply runs_sys | apply runs_sys_args]; intros; by left|]; intros rc.
(** An entry of the directory that was looked at: what it adds to the total,
    and the calls, with the answers they got.  A file of four gigabytes or
    more has been cut into parts with success and removed. *)
Inductive image_checked (e p : string) : Z → list answered → Prop :=
| image_other : image_checked e p 0 [Asked (FsIsRegular p) false]
| image_small n m : u64 m < k4GB →
    image_checked e p (u64 n)
      [Asked (FsIsRegular p) true; Asked (FsFileSize p) n; Asked (FsFileSize p) m]
| image_large n m r : k4GB ≤ u64 m →
    image_checked e p (u64 n)
      [Asked (FsIsRegular p) true; Asked (FsFileSize p) n; Asked (FsFileSize p) m;
       Asked (ProcSystemArgs e (split_args p)) (Some 0); Asked (FsRemove p) r].

(** All entries, in their order, with the total of their sizes. *)
Inductive images_checked (e : string) : list string → Z → list answered → Prop :=
| images_checked_nil : images_checked e [] 0 []
| images_checked_cons p l n m t t' : image_checked e p n t → images_checked e l m t' →
    images_checked e (p :: l) (n + m) (t ++ t').

(** The entries that are files were copied with success, in their order. *)
Inductive images_copied : list string → list answered → Prop :=
| images_copied_nil : images_copied [] []
| images_copied_other p l t : images_copied l t →
    images_copied (p :: l) (Asked (FsIsRegular p) false :: t)
| images_copied_file p l t : images_copied l t →
    images_copied (p :: l)
      (Asked (FsIsRegular p) true :: Asked (ProcSystem (mcopy_cmd p)) (Some 0) :: t).

(** What has happened when the images of a directory are on the USB disk; [n]
    is the total from before.  An error of the second listing is an empty
    listing. *)
Definition disk_made (o_dir : string) (n : Z) (t : list answered) : Prop :=
  ∃ e l l' total t1 t2 rc,
    e ≠ EmptyString ∧ images_checked e l total t1 ∧ images_copied (default [] l') t2
    ∧ t = [Asked (ProcSearchPath "split") e; Asked (FsDirEntries o_dir) (Some l)] ++ t1
          ++ [Asked (ProcSystem (dd_cmd (u64 (n + total)))) (Some 0);
              Asked (ProcSystem mkfs_cmd) (Some 0); Asked (FsDirEntries o_dir) l'] ++ t2
          ++ [Asked (ProcSystem ("rm -r " +:+ o_dir)) (Some rc)].

(** How the USB disk came about: the file itself, the only file of the
    archive, or a new disk image. *)
Definition usb_disk_made `{Boost} (f : VmFlasher) (t : list answered) (disk : string) : Prop :=
  let file := GetValue kGroupGlob kGlobFlashfiles (flash_cfg_ f) in
  let o_dir := "/tmp/" +:+ path_stem file in
  let boot := o_dir +:+ "/boot.img" in
  ∃ t', t = [Asked (FsExists file) true; Asked (FsIsRegular file) true] ++ t'
  ∧ ((path_extension file ≠ ".zip" ∧ t' = [] ∧ disk = file)
     ∨ (path_extension file = ".zip" ∧ ∃ clean rest,
          t' = clean ++ [Asked (ProcSystem ("unzip -o " +:+ file +:+ " -d " +:+ o_dir)) (Some 0)] ++ rest
          ∧ (clean = [Asked (FsExists o_dir) false]
             ∨ clean = [Asked (FsExists o_dir) true; Asked (ProcSystem ("rm -rf " +:+ o_dir)) (Some 0)])
          ∧ ((∃ x, rest = [Asked (FsExists boot) false; Asked (FsDirEntries o_dir) (Some [x])]
                ∧ disk = o_dir +:+ "/" +:+ path_stem file)
             ∨ (∃ made, rest = Asked (FsExists boot) true :: made
                ∧ disk_made o_dir (total_image_size_ f) made ∧ disk = kVirtualUsbDiskPath)))).

Section usb_disk.
Context {B : Boost} {E : OsEnv}.

Definition with_total (f : VmFlasher) (n : Z) : VmFlasher :=
  mkFlasher (u64 n) (virtual_disk_ f) (flash_cfg_ f).

Definition may_throw (e : exn) (s : FlashSt) : Prop := e = ExProcess ∨ e = ExFilesystem.

(** The disk that was set before is still the one. *)
Definition gave_up (d0 : string) (s : FlashSt) : Prop := virtual_disk_ (flasher s) = d0.

Lemma runs_give_up t0 f t d0 Q X :
  virtual_disk_ f = d0 → (∀ s, gave_up d0 s → Q false s) →
  runs (at_ t0 f t) (mret false : M FlashSt bool) Q X.
Proof. intros Hd HQ. apply runs_ret. intros s [_ Hf]. apply HQ. unfold gave_up. by rewrite Hf. Qed.

(** After the test of an exit code: it was 0, or the function gives up. *)
Ltac fl_zero rc :=
  destruct (Z.eqb_spec rc 0) as [->|?]; cbn [negb]; [|by eapply runs_give_up].

Lemma with_total_sum f a b : with_total (with_total f a) (u64 a + b) = with_total f (a + b).
Proof. unfold with_total; simpl. f_equal. unfold u64. by rewrite Z.add_mod_idemp_l. Qed.

Lemma with_total_same f : 0 ≤ total_image_size_ f < 2 ^ 64 → with_total f (total_image_size_ f) = f.
Proof. destruct f; cbn. intros. unfold with_total; cbn. by rewrite u64_small. Qed.

Section runs.
Context (t0 : list answered).
Local Notation at_ := (at_ t0).

Lemma check_image_runs e p f t n d0 :
  virtual_disk_ f = d0 →
  runs (at_ (with_total f n) t) (check_image e p)
    (λ ok s, if ok : bool
       then ∃ m t', image_checked e p m t' ∧ at_ (with_total f (n + m)) (t ++ t') s
       else gave_up d0 s) may_throw.
Proof.
  intros Hd. unfold check_image. fl_query r. destruct r; cbn [negb].
  - fl_query n1.
    eapply runs_bind; [apply (runs_modify _ _ (λ _, at_ (with_total f (n + u64 n1))
      ((t ++ [Asked (FsIsRegular p) true]) ++ [Asked (FsFileSize p) n1])))|intros ?].
    { intros s [Hl Hf]. split; [done|]. cbn. rewrite Hf. cbn. apply with_total_sum. }
    fl_query n2. destruct (Z.leb_spec k4GB (u64 n2)) as [H4|H4].
    + fl_act rc. fl_zero rc. fl_query rm. apply runs_ret. intros s Hs.
      eexists _, _. split; [by apply (image_large _ _ n1 n2 rm)|]. by rewrite <-!app_assoc in Hs.
    + apply runs_ret. intros s Hs.
      eexists _, _. split; [by apply (image_small _ _ n1 n2)|]. by rewrite <-!app_assoc in Hs.
  - apply runs_ret. intros s Hs. eexists _, _. split; [constructor|]. by rewrite Z.add_0_r.
Qed.

Lemma check_images_runs e l f t n d0 :
  virtual_disk_ f = d0 →
  runs (at_ (with_total f n) t) (check_images e l)
    (λ ok s, if ok : bool
       then ∃ m t', images_checked e l m t' ∧ at_ (with_total f (n + m)) (t ++ t') s
       else gave_up d0 s) may_throw.
Proof.
  intros Hd. revert t n. induction l as [|p l IH]; intros t n.
  - apply runs_ret. intros s Hs. eexists _, _. split; [constructor|]. by rewrite app_nil_r, Z.add_0_r.
  - cbn [check_images]. eapply runs_bind; [by apply check_image_runs with (d0 := d0)|].
    intros [|]; cbn [negb]; [|by apply runs_ret].
    apply runs_exists; intros m. apply runs_exists; intros t1. apply runs_pure_l; intros Hp.
    eapply runs_conseq; [apply IH|done| |done]. intros [|] s; [|done].
    intros (m' & t2 & Hl & Hs). exists (m + m'), (t1 ++ t2). split; [by constructor|].
    by rewrite app_assoc, Z.add_assoc.
Qed.

Lemma copy_images_runs l f t d0 :
  virtual_disk_ f = d0 →
  runs (at_ f t) (copy_images l)
    (λ ok s, if ok : bool then ∃ t', images_copied l t' ∧ at_ f (t ++ t') s else gave_up d0 s) may_throw.
Proof.
  intros Hd. revert t. induction l as [|p l IH]; intros t; cbn [copy_images].
  - apply runs_ret. intros s Hs. exists []. split; [constructor|by rewrite app_nil_r].
  - fl_query r. destruct r; cbn [negb].
    + fl_act rc. fl_zero rc. eapply runs_conseq; [apply IH|done| |done].
      intros [|] s; [|done]. intros (t' & Hc & Hs). eexists. split; [by apply images_copied_file|].
      by rewrite <-!app_assoc in Hs.
    + eapply runs_conseq; [apply IH|done| |done].
      intros [|] s; [|done]. intros (t' & Hc & Hs). eexists. split; [by apply images_copied_other|].
      by rewrite <-!app_assoc in Hs.
Qed.

(** The disk is set and the calls end like this. *)
Definition disk_set (disk : string) (t : list answered) (s : FlashSt) : Prop :=
  virtual_disk_ (flasher s) = disk ∧ os_trace (f_os s) = t0 ++ t.

Lemma runs_set_disk f t d :
  runs (at_ f t) (set_disk d ;; mret true) (λ ok s, ok = true ∧ disk_set d t s) may_throw.
Proof. intros s [Hl Hf]. by split_and!. Qed.

Lemma make_usb_disk_runs o_dir f t n d0 :
  virtual_disk_ f = d0 →
  runs (at_ (with_total f n) t) (make_usb_disk o_dir)
    (λ ok s, if ok : bool
       then ∃ made, disk_made o_dir n made ∧ disk_set kVirtualUsbDiskPath (t ++ made) s
       else gave_up d0 s) may_throw.
Proof.
  intros Hd. unfold make_usb_disk, CheckImages.
  apply runs_bind with (Q' := λ ok s, if ok : bool then ∃ e l m t', e ≠ EmptyString
      ∧ images_checked e l m t' ∧ at_ (with_total f (n + m))
        (t ++ [Asked (ProcSearchPath "split") e; Asked (FsDirEntries o_dir) (Some l)] ++ t') s
    else gave_up d0 s).
  { fl_query e. destruct (str_empty e) eqn:He; [by eapply runs_give_up|].
    eapply runs_bind; [apply runs_dir; by right|]. intros l.
    eapply runs_conseq; [by apply check_images_runs with (d0 := d0)|done| |done].
    intros [|] s; [|done]. intros (m & t' & Hc & Hs). exists e, l, m, t'. split; [by intros ->|].
    split; [done|]. by rewrite <-!app_assoc in Hs. }
  intros [|]; [|by apply runs_ret]. cbn [negb].
  apply runs_exists; intros e. apply runs_exists; intros l. apply runs_exists; intros m.
  apply runs_exists; intros t1. apply runs_pure_l; intros He. apply runs_pure_l; intros H1.
  apply (runs_member _ total_image_size_).
  fl_act rc. fl_zero rc. fl_act rc1. fl_zero rc1. fl_query l'.
  eapply runs_bind; [by apply copy_images_runs with (d0 := d0)|]. intros [|]; [|by apply runs_ret].
  cbn [negb]. apply runs_exists; intros t2. apply runs_pure_l; intros H2. fl_act rc2.
  eapply runs_conseq; [apply runs_set_disk|done| |done]. intros ok s [-> [Hv Hl]].
  eexists. split; [exists e, l, l', m, t1, t2, rc2; by split_and!|]. split; [done|].
  rewrite Hl. by rewrite <-!app_assoc.
Qed.

Lemma usb_disk_runs f :
  0 ≤ total_image_size_ f < 2 ^ 64 →
  runs (at_ f []) QemuCreateVirtUsbDisk
    (λ ok s, if ok : bool
       then ∃ t, os_trace (f_os s) = t0 ++ t ∧ usb_disk_made f t (virtual_disk_ (flasher s))
       else gave_up (virtual_disk_ f) s) may_throw.
Proof.
  intros Hf. unfold QemuCreateVirtUsbDisk. apply (runs_member _ (λ f, GetValue _ _ (flash_cfg_ f))).
  unfold usb_disk_made. set (file := GetValue _ _ _). set (o_dir := "/tmp/" +:+ _).
  fl_query ef. destruct ef; cbn [negb]; [|by eapply runs_give_up].
  fl_query rg. destruct rg; cbn [negb]; [|by eapply runs_give_up].
  case_bool_decide as Hzip; cbn [negb].
  2:{ eapply runs_conseq; [apply runs_set_disk|done| |done]. intros ok s [-> [Hv Hl]].
      eexists. split; [exact Hl|]. exists []. split; [done|]. by left. }
  fl_query eo.
  apply runs_bind with (Q' := λ rc s, ∃ clean, (clean = [Asked (FsExists o_dir) false] ∧ rc = 0
      ∨ clean = [Asked (FsExists o_dir) true; Asked (ProcSystem ("rm -rf " +:+ o_dir)) (Some rc)])
      ∧ at_ f ([Asked (FsExists file) true; Asked (FsIsRegular file) true] ++ clean) s).
  { destruct eo; [|apply runs_ret; intros s Hs; eexists; split; [by left|exact Hs]].
    eapply runs_conseq; [by apply runs_sys with (X := may_throw); left|done| |done].
    intros rc s Hs. eexists; split; [by right|exact Hs]. }
  intros rc. apply runs_exists; intros clean. apply runs_pure_l; intros Hclean. fl_zero rc.
  assert (clean = [Asked (FsExists o_dir) false]
      ∨ clean = [Asked (FsExists o_dir) true; Asked (ProcSystem ("rm -rf " +:+ o_dir)) (Some 0)])
    as Hcl by naive_solver.
  fl_act rc1. fl_zero rc1. fl_query boot. destruct boot.
  - eapply runs_conseq; [eapply (make_usb_disk_runs o_dir f)
      with (n := total_image_size_ f); reflexivity| | |done]; cbn beta.
    + rewrite with_total_same by done. intros s Hs. exact Hs.
    + intros [|] s; [|done]. intros (made & Hm & Hv & Hl). eexists. split; [exact Hl|].
      eexists. split; [by rewrite <-!app_assoc|]. right. split; [done|].
      eexists clean, _. split; [done|]. split; [done|]. right. by exists made.
  - fl_query l. destruct l as [[|x [|y l]]|]; cbn [default from_option]; try by eapply runs_give_up.
    eapply runs_conseq; [apply runs_set_disk|done| |done]. intros ok s [-> [Hv Hl]].
    eexists. split; [exact Hl|]. eexists. split; [by rewrite <-!app_assoc|]. right. split; [done|].
    eexists clean, _. split; [done|]. split; [done|]. left. by exists x.
Qed.
End runs.

End usb_disk.

(** C38: the size of the disk image holds the images and a gigabyte more, and
    no smaller number of blocks does, as long as the sum fits into [size_t]. *)
Theorem disk_size_fits total :
  0 ≤ total → total + _GB 1 + kDdBs < 2 ^ 64 →
  total + _GB 1 ≤ dd_count total * kDdBs
  ∧ ∀ n, total + _GB 1 ≤ n * kDdBs → dd_count total ≤ n.
Proof.
  intros H0 Hlt. destruct (dd_count_bounds total H0 Hlt) as [Hlo Hhi]. split; [done|].
  intros n Hn. rewrite kDdBs_val in *. nia.
Qed.

Lemma disk_size_fits_witness :
  dd_count (_GB 5) = 98 ∧ ∀ n, _GB 5 + _GB 1 ≤ n * kDdBs → 98 ≤ n.
Proof.
  assert (dd_count (_GB 5) = 98) as H by reflexivity. split; [exact H|].
  intros n Hn. rewrite <-H. apply (disk_size_fits (_GB 5)); [vm_compute; discriminate|reflexivity|exact Hn].
Defined.

(** ** The whole of flashing *)

(** The files and processes a helper touches when it ends. *)
Definition tidy (ev : event) : Prop :=
  match ev with EvKill _ | EvTerminate _ | EvRemove _ => True | _ => False end.

Section helpers.
Context {E : OsEnv}.

Lemma Proc_Run_log tid : grows (λ s s', log_grows s.2 s'.2) (Proc_Run tid).
Proof.
  assert (∀ A (c : oscall A), grows (λ s s' : ProcSt, log_grows s.2 s'.2) (proc_os (os c))) as Hos.
  { intros A c. apply grows_proc_os, os_log_grows. }
  assert (∀ f, grows (λ s s' : ProcSt, log_grows s.2 s'.2) (upd f)) as Hupd.
  { intros f. apply grows_modify. intros s. reflexivity. }
  unfold Proc_Run, Rpmb_Run, Vtpm_Run, Simple_Run, ThreadMon_start, self.
  grows_go ltac:(first [apply Hos | apply Hupd]).
Qed.

Lemma Proc_Delete_tidy : grows (λ s s', emit_rel tidy s.2 s'.2) Proc_Delete.
Proof.
  assert (∀ A (c : oscall A), Forall tidy (event_of c) →
    grows (λ s s' : ProcSt, emit_rel tidy s.2 s'.2) (proc_os (os c))) as Hos.
  { intros A c Hc. by apply grows_proc_os, emits_os. }
  assert (∀ f, grows (λ s s' : ProcSt, emit_rel tidy s.2 s'.2) (upd f)) as Hupd.
  { intros f. apply grows_modify. intros s. reflexivity. }
  unfold Proc_Delete, delete_stops, delete_child, Rpmb_Stop, Simple_Stop, self.
  grows_go ltac:(first [apply Hos; by repeat constructor | apply Hupd]).
Qed.
End helpers.

Section flash_guest.
Context {B : Boost} {E : OsEnv} (capable : Creds → bool).

(** The local helpers are not there. *)
Definition no_helpers (s : FlashSt) : Prop := rpmb_proc s = None ∧ vtpm_proc s = None.
(** They are RPMB and TPM helpers, which always come back from [Run]. *)
Definition helpers_ok (s : FlashSt) : Prop :=
  ∀ p, rpmb_proc s = Some p ∨ vtpm_proc s = Some p → kind p ≠ VmProcSimple.

(** The command that flashes the disk a configuration names from a USB disk. *)
Definition flash_command (c : CivConfig) (disk cmd : string) : Prop :=
  ∃ sock firm, firm_args c = Some firm ∧
  let rpmb := if str_empty (GetValue kGroupRpmb kRpmbBinPath c)
                 || str_empty (GetValue kGroupRpmb kRpmbDataDir c) then EmptyString else rpmb_args sock in
  let vtpm := if str_empty (GetValue kGroupVtpm kVtpmBinPath c)
                 || str_empty (GetValue kGroupVtpm kVtpmDataDir c)
              then EmptyString else vtpm_args (GetValue kGroupVtpm kVtpmDataDir c) in
  cmd = GetValue kGroupEmul kEmulPath c +:+ rpmb +:+ vtpm +:+ firm +:+ disk_args c +:+ machine_args disk.

(** The child of a helper. *)
Definition child_of (s : FlashSt) (pid : Z) : Prop :=
  ∃ p, (rpmb_proc s = Some p ∨ vtpm_proc s = Some p) ∧ c_ p = Some pid.
(** Every process started since [t0] is gone or the child of a helper. *)
Definition accounted (t0 : list answered) (s : FlashSt) : Prop :=
  ∃ t, os_trace (f_os s) = t0 ++ t ∧ settled (child_of s) t.

(** A helper that has not been started. *)
Definition idle (p : option VmProc) : Prop := ∀ q, p = Some q → c_ q = None.

(** Log and calls go on from [log0] and [t0], object and helpers are as said. *)
Definition mid (log0 : list event) (t0 : list answered) (f : VmFlasher) (H : FlashSt → Prop)
    (s : FlashSt) : Prop :=
  log0 `prefix_of` os_log (f_os s) ∧ flasher s = f ∧ accounted t0 s ∧ H s.

(** A predicate that depends on the helpers only. *)
Definition of_helpers (H : FlashSt → Prop) : Prop :=
  ∀ s s', rpmb_proc s' = rpmb_proc s → vtpm_proc s' = vtpm_proc s → H s → H s'.

Lemma of_no_helpers : of_helpers no_helpers.
Proof. intros s s' Hr Ht [??]. split; congruence. Qed.
Lemma of_helpers_ok : of_helpers helpers_ok.
Proof. intros s s' Hr Ht H p. rewrite Hr, Ht. apply H. Qed.

(** Calls that start nothing keep the account. *)
Lemma accounted_does t0 s s' :
  does unspawned (f_os s) (f_os s') → (∀ pid, child_of s pid → child_of s' pid) →
  accounted t0 s → accounted t0 s'.
Proof.
  intros (t1 & Ht1 & Hu) Hc (t & Ht & Hs). exists (t ++ t1). split; [by rewrite Ht1, Ht, app_assoc|].
  eapply settled_app; [exact Hs|by auto|by apply settled_unspawned].
Qed.
Lemma accounted_same t0 s s' :
  does unspawned (f_os s) (f_os s') → rpmb_proc s' = rpmb_proc s → vtpm_proc s' = vtpm_proc s →
  accounted t0 s → accounted t0 s'.
Proof. intros Hd Hr Hv. apply accounted_does; [done|]. intros pid (p & Hp & Hc). exists p. by rewrite Hr, Hv. Qed.

Lemma accounted_none t0 s : os_trace (f_os s) = t0 → accounted t0 s.
Proof. intros <-. exists []. by rewrite app_nil_r. Qed.

Lemma mid_call {A} (c : oscall A) log0 t0 f H X :
  (∀ a, unspawned (Asked c a)) → of_helpers H →
  runs (mid log0 t0 f H) (fl_os (os c)) (λ _, mid log0 t0 f H) X.
Proof.
  intros Hu HH s (Hl & Hf & Ha & Hs). unfold fl_os, lift.
  pose proof (does_os c unspawned Hu (f_os s)) as Hd.
  destruct (os_run c (f_os s)) as (a & w & _ & Hr). rewrite Hr in *.
  split_and!; [simpl; by apply prefix_app_r|done| |by apply (HH s)]. by apply (accounted_same t0 s).
Qed.

Lemma mid_member {A A'} (g : VmFlasher → A) (k : A → M FlashSt A') log0 t0 f H Q X :
  runs (mid log0 t0 f H) (k (g f)) Q X → runs (mid log0 t0 f H) (gets (λ s, g (flasher s)) ≫= k) Q X.
Proof.
  intros Hk s Hs. rewrite (bind_run _ _ s (g f) s); [by apply Hk|].
  unfold gets. by destruct Hs as (_ & -> & _).
Qed.

(** Helpers before any of them, before the second, and before the emulator. *)
Definition with_rpmb (s : FlashSt) : Prop := helpers_ok s ∧ idle (rpmb_proc s) ∧ vtpm_proc s = None.
Definition with_both (s : FlashSt) : Prop := helpers_ok s ∧ idle (rpmb_proc s) ∧ idle (vtpm_proc s).

Lemma no_helpers_with s : no_helpers s → with_rpmb s.
Proof.
  intros [Hr Ht]. split; [intros p; rewrite Hr, Ht; naive_solver|]. rewrite Hr. by split.
Qed.

Lemma setup_rpmb_runs log0 t0 f X :
  let c := flash_cfg_ f in
  runs (mid log0 t0 f no_helpers) setup_rpmb
    (λ r s, match r with
       | None => mid log0 t0 f with_rpmb s
       | Some a => mid log0 t0 f with_rpmb s
           ∧ ∃ sock, a = if str_empty (GetValue kGroupRpmb kRpmbBinPath c)
                 || str_empty (GetValue kGroupRpmb kRpmbDataDir c) then EmptyString else rpmb_args sock
       end) X.
Proof.
  intros c. unfold setup_rpmb. apply (mid_member (λ f, GetValue _ _ (flash_cfg_ f))).
  apply (mid_member (λ f, GetValue _ _ (flash_cfg_ f))).
  set (bin := GetValue _ _ _). set (dir := GetValue _ _ _). fold c in bin, dir.
  assert (∀ s, mid log0 t0 f no_helpers s → mid log0 t0 f with_rpmb s) as Hno.
  { intros s (? & ? & ? & ?). split_and!; [done..|]. by apply no_helpers_with. }
  eapply runs_bind; [by apply mid_call, of_no_helpers|intros t].
  destruct (str_empty bin || str_empty dir).
  { apply runs_ret. intros s Hs. split; [by apply Hno|]. by exists EmptyString. }
  eapply runs_bind; [by apply mid_call, of_no_helpers|intros ef].
  apply runs_bind with (Q' := λ _, mid log0 t0 f no_helpers).
  { destruct ef; [by apply mid_call, of_no_helpers|by apply runs_ret]. }
  intros [|]; cbn [negb]; [|by apply runs_ret].
  eapply runs_bind; [apply (runs_modify _ _ (λ _, mid log0 t0 f with_rpmb))|].
  - intros s (Hl & Hf & Ha & Hr & Ht). split_and!; [done|done| |unfold with_rpmb; split_and!; [| |done]].
    + revert Ha. apply accounted_does; [reflexivity|]. intros pid (p & [Hp|Hp] & _); congruence.
    + intros p. cbn. rewrite Ht. intros [[= <-]|?]; done.
    + by intros q [= <-].
  - intros ?. apply runs_ret. intros s Hs. split; [done|]. by eexists.
Qed.

Lemma setup_vtpm_runs log0 t0 f X :
  let c := flash_cfg_ f in
  runs (mid log0 t0 f with_rpmb) setup_vtpm
    (λ a s, mid log0 t0 f with_both s
       ∧ a = if str_empty (GetValue kGroupVtpm kVtpmBinPath c)
               || str_empty (GetValue kGroupVtpm kVtpmDataDir c)
             then EmptyString else vtpm_args (GetValue kGroupVtpm kVtpmDataDir c)) X.
Proof.
  intros c. unfold setup_vtpm. apply (mid_member (λ f, GetValue _ _ (flash_cfg_ f))).
  apply (mid_member (λ f, GetValue _ _ (flash_cfg_ f))). fold c.
  destruct (str_empty _ || str_empty _).
  { apply runs_ret. intros s (Hl & Hf & Ha & Hs & Hi & Ht). split; [|done]. split_and!; [done..|]. split; [done|]. split; [done|]. by rewrite Ht. }
  eapply runs_bind; [apply (runs_modify _ _ (λ _, mid log0 t0 f with_both))|].
  - intros s (Hl & Hf & Ha & Hs & Hi & Ht). split_and!; [done|done| |unfold with_both; split_and!; [|done|]].
    + revert Ha. apply accounted_does; [reflexivity|].
      intros pid (p & [Hp|Hp] & Hc); [|congruence]. exists p. cbn. auto.
    + intros p. cbn. intros [Hp|[= <-]]; [by apply Hs; left|done].
    + by intros q [= <-].
  - intros ?. by apply runs_ret.
Qed.

(** The two local variables. *)
Definition lens (get : FlashSt → option VmProc) (put : option VmProc → FlashSt → FlashSt) : Prop :=
  (get = rpmb_proc ∧ put = set_rpmb) ∨ (get = vtpm_proc ∧ put = set_vtpm).

(** The other one. *)
Definition other_of (get : FlashSt → option VmProc) (s s' : FlashSt) : Prop :=
  get = rpmb_proc ∧ vtpm_proc s' = vtpm_proc s ∨ get = vtpm_proc ∧ rpmb_proc s' = rpmb_proc s.

(** A method of an idle helper that starts a process keeps the account. *)
Lemma accounted_run get put t0 s p p' o :
  lens get put → get s = Some p → c_ p = None →
  (∃ t, calls (f_os s) o t ∧ settled (λ pid, c_ p' = Some pid) t) →
  accounted t0 s → accounted t0 (put (Some p') (set_f_os o s)).
Proof.
  intros Hlens Hp Hc (t1 & Ht1 & Hs1) (t & Ht & Hs). exists (t ++ t1). split.
  { destruct Hlens as [[-> ->]|[-> ->]]; cbn; by rewrite Ht1, Ht, app_assoc. }
  eapply settled_app; [exact Hs| |].
  - intros pid (q & Hq & Hcq). right. exists q. split; [|done].
    destruct Hlens as [[-> ->]|[-> ->]]; cbn; destruct Hq; auto; congruence.
  - eapply settled_mono; [|exact Hs1]. intros pid Hpid. exists p'.
    split; [|done]. destruct Hlens as [[-> ->]|[-> ->]]; cbn; auto.
Qed.

Lemma run_local_runs get put log0 t0 f (H : FlashSt → Prop) :
  lens get put → of_helpers H → (∀ s, H s → helpers_ok s ∧ idle (get s)) →
  runs (mid log0 t0 f H) (run_local get put)
    (λ _ s', accounted t0 s' ∧ log0 `prefix_of` os_log (f_os s') ∧ flasher s' = f ∧ helpers_ok s'
       ∧ ∃ s, H s ∧ other_of get s s')
    (λ _ s', accounted t0 s').
Proof.
  intros Hlens HH HHs. eapply runs_bind; [by apply mid_call|intros tid].
  intros s (Hl & Hf & Ha & Hs). destruct (HHs s Hs) as [Hok Hidle]. unfold on_local.
  assert (∀ s', rpmb_proc s' = rpmb_proc s → vtpm_proc s' = vtpm_proc s → other_of get s s') as Hoth.
  { intros s' ??. destruct Hlens as [[-> _]|[-> _]]; [by left|by right]. }
  destruct (get s) as [p|] eqn:Hp.
  2:{ split_and!; [done..|]. exists s. split; [done|]. by apply Hoth. }
  pose proof (Proc_Run_log tid (p, f_os s)) as Hlog. pose proof (Proc_Run_same tid p (f_os s)) as Hsame.
  assert (kind p ≠ VmProcSimple) as Hk by (apply Hok; destruct Hlens as [[-> _]|[-> _]]; auto).
  pose proof (Proc_Run_blocks tid p (f_os s)) as Hb.
  pose proof (Proc_Run_settled tid p (f_os s) (Hidle p eq_refl)) as Hset.
  destruct (Proc_Run tid (p, f_os s)) as [[u|e|] [p' o]]; cbn in Hlog, Hsame, Hb, Hset;
    [|by eapply accounted_run; eauto|naive_solver].
  split; [by eapply accounted_run; eauto|]. destruct Hsame as [Hk' _].
  destruct Hlens as [[-> ->]|[-> ->]]; (split_and!; [by etrans|done| |
    exists s; split; [done|]; first [by left | by right]]);
    intros q; cbn; intros [Hq|Hq]; simplify_eq; rewrite ?Hk'; try done; apply Hok; auto.
Qed.

(** The destructors: the helper and its child are gone, nothing else was done. *)
Lemma end_local_spec get put t0 s :
  lens get put → accounted t0 s →
  match end_local get put s with
  | (Ret _, s') => emit_rel tidy (f_os s) (f_os s') ∧ flasher s' = flasher s ∧ get s' = None
      ∧ (vtpm_proc s = None → vtpm_proc s' = None) ∧ accounted t0 s'
  | (Throw e, _) => e = ExTerminate
  | (Blocked, _) => False
  end.
Proof.
  intros Hlens Ha. unfold end_local, on_local. sx_unfold. destruct (get s) as [p|] eqn:Hp.
  - pose proof (Proc_Delete_tidy (p, f_os s)) as Hl'.
    pose proof (Proc_Delete_runs p (f_os s)) as Hr.
    pose proof (Proc_Delete_ends (p, f_os s)) as [Hd _].
    pose proof (λ pid, Proc_Delete_gone p (f_os s) pid) as Hg.
    destruct (Proc_Delete (p, f_os s)) as [[u|e|] [p' o]]; cbn in Hl', Hr, Hd, Hg; [|naive_solver..].
    assert (accounted t0 (put None (put (Some p') (set_f_os o s)))) as Ha'.
    { destruct Ha as (t & Ht & Hs), Hd as (t1 & Ht1 & Hu1). exists (t ++ t1). split.
      { destruct Hlens as [[-> ->]|[-> ->]]; cbn; by rewrite Ht1, Ht, app_assoc. }
      eapply settled_app; [exact Hs| |by apply settled_unspawned].
      intros pid (q & Hq & Hcq). destruct (decide (c_ p = Some pid)) as [Hcp|Hcp].
      - left. destruct (Hg pid Hcp) as (t2 & Ht2 & _ & Hgone). by rewrite (calls_inj _ _ _ _ Ht1 Ht2).
      - right. exists q. split; [|done]. destruct Hlens as [[-> ->]|[-> ->]]; cbn; destruct Hq; auto; congruence. }
    destruct Hlens as [[-> ->]|[-> ->]]; by split_and!.
  - assert (accounted t0 (put None s)) as Ha'.
    { revert Ha. apply accounted_does; [by destruct Hlens as [[-> ->]|[-> ->]]; reflexivity|].
      intros pid (q & Hq & Hcq). exists q. split; [|done].
      destruct Hlens as [[-> ->]|[-> ->]]; cbn; destruct Hq; auto; congruence. }
    destruct Hlens as [[-> ->]|[-> ->]]; (split_and!; [cbn; reflexivity|done..]).
Qed.

Lemma accounted_all_gone t0 s :
  no_helpers s → accounted t0 s → ∃ t, os_trace (f_os s) = t0 ++ t ∧ all_gone t.
Proof.
  intros [Hr Hv] (t & Ht & Hs). exists t. split; [done|]. eapply settled_mono; [|exact Hs].
  intros pid (p & [Hp|Hp] & _); congruence.
Qed.

Lemma end_helpers_spec t0 s :
  accounted t0 s →
  match end_helpers s with
  | (Ret _, s') => emit_rel tidy (f_os s) (f_os s') ∧ flasher s' = flasher s ∧ no_helpers s' ∧ accounted t0 s'
  | (Throw e, _) => e = ExTerminate
  | (Blocked, _) => False
  end.
Proof.
  intros Ha. unfold end_helpers.
  pose proof (end_local_spec vtpm_proc set_vtpm t0 s (or_intror (conj eq_refl eq_refl)) Ha) as H1.
  unfold mbind, M_bind. destruct (end_local vtpm_proc set_vtpm s) as [[u|e|] s1]; [|done..].
  destruct H1 as (E1 & F1 & V1 & _ & A1).
  pose proof (end_local_spec rpmb_proc set_rpmb t0 s1 (or_introl (conj eq_refl eq_refl)) A1) as H2.
  destruct (end_local rpmb_proc set_rpmb s1) as [[v|e|] s2]; [|done..].
  destruct H2 as (E2 & F2 & R2 & V2 & A2).
  split_and!; [by etrans|congruence| |done]. split; auto.
Qed.

(** Parts that leave the helpers and the configuration alone, start no
    process in the background and come back. *)
Definition calm (s s' : FlashSt) : Prop :=
  os_log (f_os s) `prefix_of` os_log (f_os s') ∧ flash_cfg_ (flasher s') = flash_cfg_ (flasher s)
  ∧ rpmb_proc s' = rpmb_proc s ∧ vtpm_proc s' = vtpm_proc s ∧ does unspawned (f_os s) (f_os s').
#[export] Instance calm_preorder : PreOrder calm.
Proof.
  split; [intros s; split_and!; [done..|reflexivity]|]. intros s1 s2 s3 (?&?&?&?&?) (?&?&?&?&?).
  split_and!; [by etrans|congruence..|by etrans].
Qed.

Definition tame {A} (c : M FlashSt A) : Prop :=
  ∀ s, match c s with (Ret _, s') | (Throw _, s') => calm s s' | (Blocked, _) => False end.

Lemma tame_ret {A} (a : A) : tame (mret a).
Proof. intros s. cbn. reflexivity. Qed.
Lemma tame_throw {A} e : tame (throw e : M FlashSt A).
Proof. intros s. cbn. reflexivity. Qed.
Lemma tame_bind {A A'} (c : M FlashSt A) (k : A → M FlashSt A') :
  tame c → (∀ a, tame (k a)) → tame (c ≫= k).
Proof.
  intros Hc Hk s. specialize (Hc s). unfold mbind, M_bind. destruct (c s) as [[a|e|] s1]; [|done..].
  specialize (Hk a s1). destruct (k a s1) as [[b|e|] s2]; [by etrans..|done].
Qed.
Lemma tame_os {A} (c : oscall A) : (∀ a, unspawned (Asked c a)) → tame (fl_os (os c)).
Proof.
  intros Hu s. unfold fl_os, lift. destruct (os_run c (f_os s)) as (a & w & _ & ->).
  split_and!; [|done..|]; cbn; [by apply prefix_app_r|]. exists [Asked c a]. by repeat constructor.
Qed.
(** A computation on the machine alone, made of one call. *)
Lemma tame_fl_os {A A'} (c : oscall A) (k : A → M OsSt A') :
  (∀ a, unspawned (Asked c a)) → (∀ a, (∃ b, k a = mret b) ∨ ∃ e, k a = throw e) →
  tame (fl_os (os c ≫= k)).
Proof.
  intros Hu Hk s. unfold fl_os, lift. destruct (os_run c (f_os s)) as (a & w & _ & Hr). bstep Hr.
  assert (calm s (set_f_os (mkOsSt _ w (os_log (f_os s) ++ event_of c) (os_trace (f_os s) ++ [Asked c a])) s)).
  { split_and!; [|done..|]; cbn; [by apply prefix_app_r|]. exists [Asked c a]. by repeat constructor. }
  by destruct (Hk a) as [[b ->]|[e ->]].
Qed.
Lemma tame_gets {A} (g : FlashSt → A) : tame (gets g).
Proof. intros s. cbn. reflexivity. Qed.
Lemma tame_sys cmd : tame (sys cmd).
Proof. apply tame_fl_os; [done|]. intros [rc|]; eauto. Qed.
Lemma tame_sys_args exe args : tame (fl_os (proc_system_args exe args)).
Proof. apply tame_fl_os; [done|]. intros [rc|]; eauto. Qed.
Lemma tame_dir p : tame (fl_os (dir_entries p)).
Proof. apply tame_fl_os; [done|]. intros [rc|]; eauto. Qed.
Lemma tame_set_disk d : tame (set_disk d).
Proof. intros s. split_and!; [done..|reflexivity]. Qed.
Lemma tame_add_size n : tame (add_size n).
Proof. intros s. split_and!; [done..|reflexivity]. Qed.
Hint Resolve tame_ret tame_throw tame_gets tame_sys tame_sys_args tame_dir tame_set_disk tame_add_size : civ.
Ltac tame_go := repeat first
  [progress cbv zeta | solve [auto with civ] | by apply tame_os | apply tame_bind; [|intros ?] | case_match].

Lemma tame_images e l : tame (check_images e l).
Proof. induction l; cbn [check_images]; [auto with civ|]. unfold check_image. tame_go. Qed.
Lemma tame_copy l : tame (copy_images l).
Proof. induction l; cbn [copy_images]; [auto with civ|]. tame_go. Qed.
Hint Resolve tame_images tame_copy : civ.
Lemma tame_usb : tame QemuCreateVirtUsbDisk.
Proof. unfold QemuCreateVirtUsbDisk, cfg_value, make_usb_disk, CheckImages. tame_go. Qed.
Lemma tame_disk : tame QemuCreateVirtualDisk.
Proof. unfold QemuCreateVirtualDisk, cfg_value. tame_go. Qed.

(** The emulator has been run on the disk of the object [f]. *)
Definition flashed (log0 : list event) (f : VmFlasher) (log : list event) : Prop :=
  ∃ evs cmd, log = log0 ++ evs ++ [EvSystem cmd]
    ∧ flash_command (flash_cfg_ f) (virtual_disk_ f) cmd.

(** No helper is left: the pointers are null, and every process started in
    the background since [s0] was waited for, seen to have ended or ended. *)
Definition helpers_gone (s0 s : FlashSt) : Prop :=
  no_helpers s ∧ ∃ t, calls (f_os s0) (f_os s) t ∧ all_gone t.

(** A flash comes to an end: with a success the last command was the emulator,
    after which the helpers were ended; the helpers are gone either way,
    unless the process itself ends. *)
Definition flash_ends (s0 : FlashSt) (r : outcome bool * FlashSt) : Prop :=
  match r with
  | (Ret ok, s) => helpers_gone s0 s ∧ (ok = true →
      ∃ log1 evs, os_log (f_os s) = log1 ++ evs ∧ Forall tidy evs
        ∧ flashed (os_log (f_os s0)) (flasher s) log1)
  | (Throw e, s) => e = ExTerminate ∨ helpers_gone s0 s
  | (Blocked, _) => False
  end.

(** What the body leaves; the destructors follow. *)
Definition body_post (log0 : list event) (t0 : list answered) (f : VmFlasher) (ok : bool) (s : FlashSt) : Prop :=
  accounted t0 s ∧ flasher s = f ∧ (ok = true → flashed log0 f (os_log (f_os s))).

Lemma flash_body_runs log0 t0 f :
  runs (mid log0 t0 f no_helpers) (flash_body (GetValue kGroupEmul kEmulPath (flash_cfg_ f)))
    (body_post log0 t0 f) (λ _, accounted t0).
Proof.
  unfold flash_body. eapply runs_bind; [apply setup_rpmb_runs|]. intros [rpmb|].
  2:{ apply runs_ret. intros s (_ & Hf & Ha & _). by split_and!. }
  apply runs_pure; intros [sock Hrpmb].
  eapply runs_bind; [apply setup_vtpm_runs|]. intros vtpm. apply runs_pure; intros Hvtpm.
  apply (mid_member flash_cfg_). destruct (firm_args (flash_cfg_ f)) as [firm|] eqn:Hfirm.
  2:{ apply runs_ret. intros s (_ & Hf & Ha & _). by split_and!. }
  apply (mid_member virtual_disk_).
  eapply runs_bind; [apply run_local_runs; [by left| |]|intros ?].
  { intros s s' Hr Hv (Hok & Hi & Hi'). split; [by apply (of_helpers_ok s)|]. by rewrite Hr, Hv. }
  { intros s (? & ? & ?). done. }
  eapply runs_bind; [eapply runs_pre; [|apply (run_local_runs _ _ log0 t0 f
      (λ s, helpers_ok s ∧ idle (vtpm_proc s))); [by right| |done]]|intros ?].
  { intros s (Ha & Hl & Hf & Hok & s0 & (_ & _ & Hi) & [[_ Hv]|[Hv _]]); split_and!; try done.
    - by rewrite Hv.
    - apply (f_equal (λ g, g (mkFlashSt (flasher s) (Some (new_VmProcSimple "")) None (f_util s)))) in Hv. done. }
  { intros s s' Hr Hv [Hok Hi]. split; [by apply (of_helpers_ok s)|by rewrite Hv]. }
  set (cmd := _ +:+ _). intros s (Ha & [evs Hl] & Hf & _). unfold sys, fl_os, lift, proc_system.
  destruct (os_run (ProcSystem cmd) (f_os s)) as (rc & w & _ & Hr). sx_unfold. rewrite Hr.
  assert (∀ o, does unspawned (f_os s) o → accounted t0 (set_f_os o s)) as Hacc.
  { intros o Ho. revert Ha. by apply accounted_same. }
  assert (accounted t0 (set_f_os (mkOsSt _ w (os_log (f_os s) ++ [EvSystem cmd])
    (os_trace (f_os s) ++ [Asked (ProcSystem cmd) rc])) s)) as Ha'.
  { apply Hacc. eexists. split; [done|by repeat constructor]. }
  destruct rc; cbn; [|exact Ha']. split_and!; [exact Ha'|done|]. intros _. exists evs, cmd.
  split; [cbn; by rewrite Hl, app_assoc|]. exists sock, firm. split; [done|]. subst cmd. by rewrite Hrpmb, Hvtpm.
Qed.

(** Before the helpers: nothing was started in the background. *)
Lemma gone_before s s' : does unspawned (f_os s) (f_os s') → no_helpers s' → helpers_gone s s'.
Proof. intros (t & Ht & Hu) Hno. split; [done|]. exists t. split; [done|]. by apply settled_unspawned. Qed.

Lemma calm_no_helpers s s' : calm s s' → no_helpers s → no_helpers s'.
Proof. intros (_ & _ & Hr & Hv & _) [H1 H2]. split; congruence. Qed.

Lemma calm_gone s s' : calm s s' → no_helpers s → helpers_gone s s'.
Proof. intros Hc Hno. apply gone_before; [by apply Hc|by eapply calm_no_helpers]. Qed.

Lemma FlashWithQemu_ends s : no_helpers s → flash_ends s (FlashWithQemu s).
Proof.
  intros Hno. unfold FlashWithQemu, cfg_value. rewrite (bind_run (gets _) _ s _ s eq_refl).
  destruct (str_empty _); [split; [by apply calm_gone|done]|].
  pose proof (tame_usb s) as Hu. unfold mbind at 1, M_bind.
  destruct (QemuCreateVirtUsbDisk s) as [[usb|e|] s1]; [|right; by apply calm_gone|done].
  pose proof (calm_no_helpers _ _ Hu Hno) as Hno1.
  destruct usb; cbn [negb]; [|split; [by apply calm_gone|done]].
  pose proof (tame_disk s1) as Hd. unfold mbind at 1, M_bind.
  destruct (QemuCreateVirtualDisk s1) as [[disk|e|] s2]; [|right; apply calm_gone; [by etrans|done]|done].
  assert (calm s s2) as Hc by (by etrans). pose proof (calm_no_helpers _ _ Hc Hno) as Hno2.
  destruct disk; cbn [negb]; [|split; [by apply calm_gone|done]].
  assert (accounted (os_trace (f_os s)) s2) as Ha2.
  { apply (accounted_same _ s); [by apply Hc..|by apply accounted_none]. }
  pose proof (flash_body_runs (os_log (f_os s)) (os_trace (f_os s)) (flasher s2) s2) as Hb.
  destruct Hc as (Hl & Hcfg & _). rewrite Hcfg in Hb.
  specialize (Hb (conj Hl (conj eq_refl (conj Ha2 Hno2)))). unfold scoped, flash_ends.
  destruct (flash_body _ s2) as [[ok|e|] s3]; [| |done].
  - destruct Hb as (Ha3 & Hf3 & Hb). pose proof (end_helpers_spec _ s3 Ha3) as He.
    destruct (end_helpers s3) as [[u|e|] s4]; [|by left|done].
    destruct He as ((evs & Hl4 & Ht) & Hf4 & Hno4 & Ha4).
    split; [split; [done|by apply accounted_all_gone]|]. intros Hok. exists (os_log (f_os s3)), evs.
    split_and!; [done|done|]. rewrite Hf4, Hf3. by apply Hb.
  - case_decide; [by left|]. pose proof (end_helpers_spec _ s3 Hb) as He.
    destruct (end_helpers s3) as [[u|e'|] s4]; [|by left|done].
    destruct He as (_ & _ & Hno4 & Ha4). right. split; [done|by apply accounted_all_gone].
Qed.

(** Before the emulator's part: log and calls grow, there are no helpers. *)
Definition started (s s' : FlashSt) : Prop :=
  os_log (f_os s) `prefix_of` os_log (f_os s') ∧ does unspawned (f_os s) (f_os s') ∧ no_helpers s'.
Lemma started_trans s1 s2 s3 : started s1 s2 → started s2 s3 → started s1 s3.
Proof. intros (?&?&?) (?&?&?). split_and!; [by etrans..|done]. Qed.
Lemma calm_started s s' : no_helpers s → calm s s' → started s s'.
Proof. intros Hno Hc. split_and!; [by apply Hc..|by eapply calm_no_helpers]. Qed.

Lemma read_flash_cfg_spec p s :
  no_helpers s →
  match read_flash_cfg p s with
  | (Ret _, s') | (Throw _, s') => started s s'
  | (Blocked, _) => False
  end.
Proof.
  intros Hno. unfold read_flash_cfg, lift. destruct (f_os s) as [w log tr] eqn:Hf.
  pose proof (read_config_cases p (flash_cfg_ (flasher s)) w log tr) as Hr.
  destruct (ReadConfigFile p _) as [[ok|e|] [c o]]; [| |done]; destruct Hr as [Hr Hd]; cbn in Hr, Hd;
    (split_and!; [cbn; rewrite Hf; cbn; by rewrite Hr|cbn; by rewrite Hf|done]).
Qed.

Lemma flash_file_spec path s :
  no_helpers s →
  match flash_file capable path s with
  | (Ret _, s') => started s s'
  | (Throw e, s') => e = ExTerminate ∨ started s s'
  | (Blocked, _) => False
  end.
Proof.
  intros Hno.
  assert (tame (is_file path)) as Ht by (unfold is_file; tame_go).
  unfold flash_file, mbind at 1, M_bind. specialize (Ht s).
  destruct (is_file path s) as [[reg|e|] s1]; [|right; by apply calm_started|done].
  pose proof (calm_started _ _ Hno Ht) as Hs1.
  destruct reg; [done|]. unfold mbind at 1, M_bind, lift at 1.
  destruct (GetConfigPath_back capable (f_util s1)) as (dir & u & -> & Hl & Hd).
  destruct dir as [dir|]; [|by left].
  set (s2 := mkFlashSt _ _ _ u).
  assert (started s s2) as Hs2 by (eapply started_trans; [exact Hs1|]; split_and!; [done..|by apply Hs1]).
  pose proof (tame_os (FsExists (dir +:+ "/" +:+ path +:+ ".ini")) (λ _, eq_refl) s2) as Ht2.
  unfold mbind, M_bind. destruct (fl_os _ s2) as [[b|e|] s3]; [|right|done];
    (eapply started_trans; [exact Hs2|apply calm_started; [by apply Hs2|done]]).
Qed.

End flash_guest.

(** ** Examples *)

Module FlashDemo.
#[local] Existing Instance RefBoost.ref_boost.

(** A machine on which files do not change: two images, one of five
    gigabytes, in the unpacked archive. *)
Definition images : list string := ["/tmp/civ/boot.img"; "/tmp/civ/system.img"].
Definition size (p : string) : Z := if bool_decide (p = "/tmp/civ/system.img") then _GB 5 else _MB 32.
Definition quiet_os : OsEnv := {|
  os_world := SimOs.sim;
  os_handle A c w :=
    match c in oscall A return A * SimOs.sim with
    | FsExists _ => (true, w)
    | FsIsRegular _ => (true, w)
    | FsFileSize p => (size p, w)
    | FsDirEntries _ => (Some images, w)
    | c => SimOs.sim_handle _ c w
    end |}.

Definition zip_cfg : CivConfig :=
  (SetValue kGroupGlob kGlobFlashfiles "/img/civ.zip" empty_config).2.
Definition zip_start : @FlashSt quiet_os :=
  @mkFlashSt quiet_os (mkFlasher 0 EmptyString zip_cfg) None None
    (@mkUtil quiet_os None UtilsDemo.root (@mkOsSt quiet_os (os_w (SimOs.boot [] [] [])) [] [])).


#[local] Existing Instance SimOs.sim_os.

Definition ini : string :=
  "[global]
flashfiles=/img/flash.img
[emulator]
path=/usr/bin/qemu
[firmware]
type=unified
path=/ovmf.fd
[disk]
size=8G
path=/civ.qcow2
[vtpm]
bin_path=/usr/bin/swtpm
data_dir=/var/tpm
".
Definition ini_start : FlashSt :=
  mkFlashSt new_VmFlasher None None
    (mkUtil None UtilsDemo.root (SimOs.boot [("/civ.ini", ini); ("/img/flash.img", "x")]
      [("/var/tpm", [])] [])).


(** An emulator that fails is reported as a success. *)
Definition failing_os : OsEnv := {|
  os_world := SimOs.sim;
  os_handle A c w :=
    match c in oscall A return A * SimOs.sim with
    | ProcSystem cmd => (Some (if bool_decide (str_take 14 cmd = "/usr/bin/qemu ") then 1 else 0), w)
    | c => SimOs.sim_handle _ c w
    end |}.
Definition failing_start : @FlashSt failing_os :=
  @mkFlashSt failing_os new_VmFlasher None None
    (@mkUtil failing_os None UtilsDemo.root
      (@mkOsSt failing_os (os_w (SimOs.boot [("/civ.ini", ini); ("/img/flash.img", "x")] [] [])) [] [])).

Example failed_flash_reported_as_success :
  (@FlashGuest _ failing_os UtilsDemo.root_only "/civ.ini" failing_start).1 = Ret true.
Proof. vm_compute. reflexivity. Qed.
End FlashDemo.
