(* ===== verification/Tui.v ===== *)
(** * The form that creates a configuration

    [CivTui] of guest/tui.{h,cc}: the contents of the form, the list of PCI
    devices with its button, and saving.  FTXUI draws the form and turns keys
    and clicks into changes of the bound variables and calls of the bound
    functions; an [ui_event] is such a change or call, and a session is any
    sequence of them. *)

From S2P Require Import Prelude.
From S2P Require Import CStd.
From S2P Require Import Boost.
From S2P Require Import Os.
From S2P Require Import Utils.
From S2P Require Import Config.
From Stdlib Require Import Ascii.

Local Open Scope Z_scope.

(** The [InputField] members. *)
Inductive InputField : Type :=
| flashfiles_ | emulator_ | memory_ | vcpu_ | disk_size_ | disk_path_
| firm_unified_ | firm_splited_code_ | firm_splited_data_ | gvtg_uuid_
| swtpm_bin_ | swtpm_data_ | rpmb_bin_ | rpmb_data_
| adb_port_ | fastboot_port_ | batt_med_ | therm_med_ | aaf_ | tkeep_ | pmctl_ | extra_.

#[export] Instance InputField_eq_dec : EqDecision InputField.
Proof. solve_decision. Defined.

Record CheckBoxState : Type := mkCheck { cb_name : string; cb_checked : bool }.

Definition firmware_type_ : list string := [kFirmUnified; kFirmSplited].
Definition vgpu_type_ : list string := [kVgpuNone; kVgpuVirtio; kVgpuRamfb; kVgpuGvtG; kVgpuGvtD].
Definition gvtg_ver_ : list string := [kGvtgV51; kGvtgV52; kGvtgV54; kGvtgV58].

Record CivTui : Type := mkTui {
  filename_ : string;
  content_ : InputField → string;       (** [GetContent()] of each field *)
  firmware_type_selected_ : Z;
  vgpu_selected_ : Z;
  gvtg_ver_selected_ : Z;
  pci_dev_ : list CheckBoxState;
  pt_pci_disp_ : list string;
  pt_btn_lable_ : string;
  pt_pci_tab_id_ : Z;
  status_bar_ : string;
  civ_config_ : CivConfig;
  exit_loop : bool;                     (** [ExitLoopClosure()] has been called *)
}.

Definition new_CivTui : CivTui :=
  mkTui EmptyString (λ _, EmptyString) 0 1 1 [] [] EmptyString 0 EmptyString empty_config false.

(** [item.substr(0, item.find(" "))] of the shown devices, joined by commas. *)
Fixpoint passthrough_str (l : list string) : string :=
  match l with
  | [] => EmptyString
  | item :: rest =>
      if str_empty item then passthrough_str rest else
      match str_find " " item with
      | None => passthrough_str rest
      | Some pos =>
          str_take pos item +:+ (match rest with [] => EmptyString | _ => "," end)
            +:+ passthrough_str rest
      end
  end.

(** What the bound variables and functions receive. *)
Inductive ui_event : Type :=
| UiInput (f : InputField) (content : string)
| UiFirmware (i : Z)
| UiVgpu (i : Z)
| UiGvtg (i : Z)
| UiCheck (n : nat) (b : bool)
| UiPtButton
| UiSave
| UiExit.

Section tui.
Context {B : Boost} {E : OsEnv} (capable : Creds → bool).

Record TuiSt : Type := mkTuiSt { tui : CivTui; t_util : UtilSt }.

Definition t_os (s : TuiSt) : OsSt := u_os (t_util s).
Definition set_t_os (o : OsSt) (s : TuiSt) : TuiSt :=
  mkTuiSt (tui s) (mkUtil (civ_config_path (t_util s)) (creds (t_util s)) o).
Definition ui_os {A} (c : M OsSt A) : M TuiSt A := lift t_os set_t_os c.
Definition upd_tui (f : CivTui → CivTui) : M TuiSt unit :=
  modify (λ s, mkTuiSt (f (tui s)) (t_util s)).

Definition set_filename (n : string) (t : CivTui) : CivTui :=
  mkTui n (content_ t) (firmware_type_selected_ t) (vgpu_selected_ t) (gvtg_ver_selected_ t)
    (pci_dev_ t) (pt_pci_disp_ t) (pt_btn_lable_ t) (pt_pci_tab_id_ t) (status_bar_ t)
    (civ_config_ t) (exit_loop t).
Definition set_content (f : InputField) (x : string) (t : CivTui) : CivTui :=
  mkTui (filename_ t) (λ g, if decide (g = f) then x else content_ t g)
    (firmware_type_selected_ t) (vgpu_selected_ t) (gvtg_ver_selected_ t)
    (pci_dev_ t) (pt_pci_disp_ t) (pt_btn_lable_ t) (pt_pci_tab_id_ t) (status_bar_ t)
    (civ_config_ t) (exit_loop t).
Definition set_selected (fw vgpu gvtg : Z) (t : CivTui) : CivTui :=
  mkTui (filename_ t) (content_ t) fw vgpu gvtg
    (pci_dev_ t) (pt_pci_disp_ t) (pt_btn_lable_ t) (pt_pci_tab_id_ t) (status_bar_ t)
    (civ_config_ t) (exit_loop t).
Definition set_pt (dev : list CheckBoxState) (disp : list string) (label : string) (tab : Z)
    (t : CivTui) : CivTui :=
  mkTui (filename_ t) (content_ t) (firmware_type_selected_ t) (vgpu_selected_ t)
    (gvtg_ver_selected_ t) dev disp label tab (status_bar_ t) (civ_config_ t) (exit_loop t).
Definition set_status (x : string) (t : CivTui) : CivTui :=
  mkTui (filename_ t) (content_ t) (firmware_type_selected_ t) (vgpu_selected_ t)
    (gvtg_ver_selected_ t) (pci_dev_ t) (pt_pci_disp_ t) (pt_btn_lable_ t) (pt_pci_tab_id_ t)
    x (civ_config_ t) (exit_loop t).
Definition set_config (c : CivConfig) (t : CivTui) : CivTui :=
  mkTui (filename_ t) (content_ t) (firmware_type_selected_ t) (vgpu_selected_ t)
    (gvtg_ver_selected_ t) (pci_dev_ t) (pt_pci_disp_ t) (pt_btn_lable_ t) (pt_pci_tab_id_ t)
    (status_bar_ t) c (exit_loop t).
Definition set_exit (t : CivTui) : CivTui :=
  mkTui (filename_ t) (content_ t) (firmware_type_selected_ t) (vgpu_selected_ t)
    (gvtg_ver_selected_ t) (pci_dev_ t) (pt_pci_disp_ t) (pt_btn_lable_ t) (pt_pci_tab_id_ t)
    (status_bar_ t) (civ_config_ t) true.

(** [v.at(i)]: an [int] outside the vector is converted to a large index. *)
Definition vec_at (v : list string) (i : Z) : M TuiSt string :=
  if i <? 0 then throw ExOutOfRange else
  match v !! Z.to_nat i with
  | Some x => mret x
  | None => throw ExOutOfRange
  end.

(** The part of [InitCompPciPt] that fills the list of devices and prepares
    the button. *)
Definition InitCompPciPt : M TuiSt unit :=
  out ← ui_os (os (ProcOutput "lspci -D"));
  match out with
  | None => throw ExProcess
  | Some text =>
      upd_tui (λ t, set_pt
        (pci_dev_ t ++ ((λ l, mkCheck l false) <$> filter (λ l, str_empty l = false) (getline_all text)))
        (pt_pci_disp_ t) "Edit" (pt_pci_tab_id_ t) t)
  end.

(** The closure [PtPciClickButton]; the focus is FTXUI's. *)
Definition PtPciClickButton : M TuiSt unit :=
  upd_tui (λ t,
    let disp := cb_name <$> filter (λ c, cb_checked c = true) (pci_dev_ t) in
    let tab := if pt_pci_tab_id_ t =? 0 then 1 else 0 in
    set_pt (pci_dev_ t) disp (if tab =? 1 then "Done" else "Edit") tab t).

(** [civ_config_.SetValue(group, key, value)], the result not used *)
Definition conf_set (g k v : string) : M TuiSt unit :=
  upd_tui (λ t, set_config (SetValue g k v (civ_config_ t)).2 t).
Definition conf_input (g k : string) (f : InputField) : M TuiSt unit :=
  v ← gets (λ s, content_ (tui s) f); conf_set g k v.

(** [void CivTui::SetConfToPtree()] *)
Definition SetConfToPtree : M TuiSt unit :=
  name ← gets (λ s, filename_ (tui s));
  conf_set kGroupGlob kGlobName name ;;
  conf_input kGroupGlob kGlobFlashfiles flashfiles_ ;;
  conf_input kGroupEmul kEmulPath emulator_ ;;
  conf_input kGroupMem kMemSize memory_ ;;
  conf_input kGroupVcpu kVcpuNum vcpu_ ;;
  conf_input kGroupDisk kDiskSize disk_size_ ;;
  conf_input kGroupDisk kDiskPath disk_path_ ;;
  fw ← gets (λ s, firmware_type_selected_ (tui s));
  fw_type ← vec_at firmware_type_ fw;
  conf_set kGroupFirm kFirmType fw_type ;;
  (if fw =? 0 then conf_input kGroupFirm kFirmPath firm_unified_
   else if fw =? 1 then
     conf_input kGroupFirm kFirmCode firm_splited_code_ ;;
     conf_input kGroupFirm kFirmVars firm_splited_data_
   else skip) ;;
  vgpu ← gets (λ s, vgpu_selected_ (tui s));
  vgpu_type ← vec_at vgpu_type_ vgpu;
  conf_set kGroupVgpu kVgpuType vgpu_type ;;
  (if vgpu =? 3 then
     gvtg ← gets (λ s, gvtg_ver_selected_ (tui s));
     ver ← vec_at gvtg_ver_ gvtg;
     conf_set kGroupVgpu kVgpuGvtgVer ver ;;
     uuid ← gets (λ s, content_ (tui s) gvtg_uuid_);
     (if negb (str_empty uuid) then conf_set kGroupVgpu kVgpuUuid uuid else skip)
   else skip) ;;
  conf_input kGroupVtpm kVtpmBinPath swtpm_bin_ ;;
  conf_input kGroupVtpm kVtpmDataDir swtpm_data_ ;;
  conf_input kGroupRpmb kVtpmBinPath rpmb_bin_ ;;
  conf_input kGroupRpmb kVtpmDataDir rpmb_data_ ;;
  disp ← gets (λ s, pt_pci_disp_ (tui s));
  conf_set kGroupPciPt kPciPtDev (passthrough_str disp) ;;
  conf_input kGroupNet kNetAdbPort adb_port_ ;;
  conf_input kGroupNet kNetFastbootPort fastboot_port_ ;;
  conf_input kGroupMed kMedBattery batt_med_ ;;
  conf_input kGroupMed kMedThermal therm_med_ ;;
  conf_input kGroupAaf kAafPath aaf_ ;;
  conf_input kGroupService kServTimeKeep tkeep_ ;;
  conf_input kGroupService kServPmCtrl pmctl_ ;;
  conf_input kGroupExtra kExtraCmd extra_.

(** [civ_config_.WriteConfigFile(p)] *)
Definition ui_write (p : string) : M TuiSt bool :=
  lift (λ s, (civ_config_ (tui s), t_os s))
    (λ t s, set_t_os t.2 (mkTuiSt (set_config t.1 (tui s)) (t_util s))) (WriteConfigFile p).

(** The closure [SaveOn]; a missing directory is a null pointer, from which a
    string cannot be made. *)
Definition SaveOn : M TuiSt unit :=
  dir ← lift t_util (λ u s, mkTuiSt (tui s) u) (GetConfigPath capable);
  match dir with
  | None => throw ExLogicError
  | Some configPath =>
      name ← gets (λ s, filename_ (tui s));
      let filePath := configPath +:+ "/" +:+ name +:+ ".ini" in
      ex ← ui_os (os (FsExists filePath));
      if negb ex then
        ui_os (os (FileWrite filePath EmptyString)) ;;
        SetConfToPtree ;;
        ok ← ui_write filePath;
        (if (ok : bool) then upd_tui set_exit else skip)
      else upd_tui (set_status "File alreay exist!")
  end.

(** One event. *)
Definition handle (ev : ui_event) : M TuiSt unit :=
  match ev with
  | UiInput f x => upd_tui (set_content f x)
  | UiFirmware i => upd_tui (λ t, set_selected i (vgpu_selected_ t) (gvtg_ver_selected_ t) t)
  | UiVgpu i => upd_tui (λ t, set_selected (firmware_type_selected_ t) i (gvtg_ver_selected_ t) t)
  | UiGvtg i => upd_tui (λ t, set_selected (firmware_type_selected_ t) (vgpu_selected_ t) i t)
  | UiCheck n b => upd_tui (λ t,
      set_pt (alter (λ c, mkCheck (cb_name c) b) n (pci_dev_ t)) (pt_pci_disp_ t)
        (pt_btn_lable_ t) (pt_pci_tab_id_ t) t)
  | UiPtButton => PtPciClickButton
  | UiSave => SaveOn
  | UiExit => upd_tui set_exit
  end.

(** [screen_.Loop(layout_render)]: until [ExitLoopClosure()] is called; with no
    event left it waits for the user. *)
Fixpoint ui_loop (evs : list ui_event) : M TuiSt unit :=
  stop ← gets (λ s, exit_loop (tui s));
  if (stop : bool) then skip else
  match evs with
  | [] => blocked
  | ev :: evs => handle ev ;; ui_loop evs
  end.

(** [void CivTui::InitializeUi(std::string name)] *)
Definition InitializeUi (name : string) (evs : list ui_event) : M TuiSt unit :=
  upd_tui (set_filename name) ;;
  InitCompPciPt ;;
  ui_loop evs.
End tui.

(** ** What is stored *)

Section form.
Context {B : Boost} {E : OsEnv}.

Definition entry : Type := string * string * string.
Definition put1 (c : CivConfig) (e : entry) : CivConfig := (SetValue e.1.1 e.1.2 e.2 c).2.

(** The entries a form stands for. *)
Definition form_values (t : CivTui) : list entry :=
  [(kGroupGlob, kGlobName, filename_ t);
   (kGroupGlob, kGlobFlashfiles, content_ t flashfiles_);
   (kGroupEmul, kEmulPath, content_ t emulator_);
   (kGroupMem, kMemSize, content_ t memory_);
   (kGroupVcpu, kVcpuNum, content_ t vcpu_);
   (kGroupDisk, kDiskSize, content_ t disk_size_);
   (kGroupDisk, kDiskPath, content_ t disk_path_);
   (kGroupFirm, kFirmType, if firmware_type_selected_ t =? 0 then kFirmUnified else kFirmSplited)]
  ++ (if firmware_type_selected_ t =? 0 then [(kGroupFirm, kFirmPath, content_ t firm_unified_)]
      else [(kGroupFirm, kFirmCode, content_ t firm_splited_code_);
            (kGroupFirm, kFirmVars, content_ t firm_splited_data_)])
  ++ [(kGroupVgpu, kVgpuType, default EmptyString (vgpu_type_ !! Z.to_nat (vgpu_selected_ t)))]
  ++ (if vgpu_selected_ t =? 3 then
        [(kGroupVgpu, kVgpuGvtgVer, default EmptyString (gvtg_ver_ !! Z.to_nat (gvtg_ver_selected_ t)));
         (kGroupVgpu, kVgpuUuid, content_ t gvtg_uuid_)]
      else [])
  ++ [(kGroupVtpm, kVtpmBinPath, content_ t swtpm_bin_);
      (kGroupVtpm, kVtpmDataDir, content_ t swtpm_data_);
      (kGroupRpmb, kRpmbBinPath, content_ t rpmb_bin_);
      (kGroupRpmb, kRpmbDataDir, content_ t rpmb_data_);
      (kGroupPciPt, kPciPtDev, passthrough_str (pt_pci_disp_ t));
      (kGroupNet, kNetAdbPort, content_ t adb_port_);
      (kGroupNet, kNetFastbootPort, content_ t fastboot_port_);
      (kGroupMed, kMedBattery, content_ t batt_med_);
      (kGroupMed, kMedThermal, content_ t therm_med_);
      (kGroupAaf, kAafPath, content_ t aaf_);
      (kGroupService, kServTimeKeep, content_ t tkeep_);
      (kGroupService, kServPmCtrl, content_ t pmctl_);
      (kGroupExtra, kExtraCmd, content_ t extra_)].

(** FTXUI keeps a selection within the entries it shows. *)
Definition selections_ok (t : CivTui) : Prop :=
  0 ≤ firmware_type_selected_ t < 2 ∧ 0 ≤ vgpu_selected_ t < 5 ∧ 0 ≤ gvtg_ver_selected_ t < 4.

Lemma form_values_keys t : NoDup (fst <$> form_values t) ∧ Forall (λ e : entry, accepted e.1.1 e.1.2) (form_values t).
Proof.
  unfold form_values. destruct (firmware_type_selected_ t =? 0), (vgpu_selected_ t =? 3); split.
  all: try (apply (bool_decide_unpack _); vm_compute; exact I).
  all: repeat constructor; apply accepted_has; reflexivity.
Qed.

Lemma put1_empty c g k v : v = EmptyString → put1 c (g, k, v) = c.
Proof. by intros ->. Qed.

(** Only the configuration differs. *)
Definition with_cfg (c : CivConfig) (s : TuiSt) : TuiSt := mkTuiSt (set_config c (tui s)) (t_util s).
Definition cfg_is (s0 : TuiSt) (c : CivConfig) (s : TuiSt) : Prop := s = with_cfg c s0.

Lemma conf_set_is s0 c g k v X :
  runs (cfg_is s0 c) (conf_set g k v) (λ _, cfg_is s0 (put1 c (g, k, v))) X.
Proof. by intros s ->. Qed.
Lemma conf_input_is s0 c g k f X :
  runs (cfg_is s0 c) (conf_input g k f) (λ _, cfg_is s0 (put1 c (g, k, content_ (tui s0) f))) X.
Proof. by intros s ->. Qed.
Lemma member_is {A A'} (g : CivTui → A) (k : A → M TuiSt A') s0 c Q X :
  (∀ c, g (set_config c (tui s0)) = g (tui s0)) →
  runs (cfg_is s0 c) (k (g (tui s0))) Q X → runs (cfg_is s0 c) (gets (λ s, g (tui s)) ≫= k) Q X.
Proof.
  intros Hg Hk s Hs. rewrite (bind_run _ _ s (g (tui s0)) s); [by apply Hk|].
  unfold gets. rewrite Hs. cbn. by rewrite Hg.
Qed.
Lemma vec_at_is v i x k s0 c (Q : unit → TuiSt → Prop) X :
  0 ≤ i → v !! Z.to_nat i = Some x →
  runs (cfg_is s0 c) (k x) Q X → runs (cfg_is s0 c) (vec_at v i ≫= k) Q X.
Proof.
  intros Hi Hx Hk s Hs. rewrite (bind_run _ _ s x s); [by apply Hk|].
  unfold vec_at. rewrite (proj2 (Z.ltb_ge i 0)) by done. by rewrite Hx.
Qed.

(** Name the configuration so far. *)
Ltac conf_name c := cbv beta; match goal with |- runs (cfg_is _ ?d) _ _ _ => set (c := d) end.
Ltac conf_go := repeat first
  [ eapply runs_bind; [first [apply conf_input_is | apply conf_set_is]|intros ?] ].

(** Storing the form stores its entries, one after the other. *)
Lemma SetConfToPtree_runs s0 X :
  selections_ok (tui s0) →
  runs (λ s, s = s0) SetConfToPtree
    (λ _, cfg_is s0 (foldl put1 (civ_config_ (tui s0)) (form_values (tui s0)))) X.
Proof.
  intros (Hfw & Hvg & Hgv).
  assert (∀ s, s = s0 → cfg_is s0 (civ_config_ (tui s0)) s) as Hs0 by (intros s ->; by destruct s0 as [[] ?]).
  eapply runs_pre; [exact Hs0|]. unfold SetConfToPtree, form_values.
  apply (member_is filename_); [done|]. conf_go.
  apply (member_is firmware_type_selected_); [done|].
  eapply (vec_at_is _ _ (if firmware_type_selected_ (tui s0) =? 0 then kFirmUnified else kFirmSplited)); [lia| |].
  { assert (firmware_type_selected_ (tui s0) = 0 ∨ firmware_type_selected_ (tui s0) = 1) as [-> | ->] by lia; done. }
  conf_go. conf_name c1.
  apply runs_bind with (Q' := λ _, cfg_is s0 (foldl put1 c1 (if firmware_type_selected_ (tui s0) =? 0
    then [(kGroupFirm, kFirmPath, content_ (tui s0) firm_unified_)]
    else [(kGroupFirm, kFirmCode, content_ (tui s0) firm_splited_code_);
          (kGroupFirm, kFirmVars, content_ (tui s0) firm_splited_data_)]))).
  { destruct (Z.eqb_spec (firmware_type_selected_ (tui s0)) 0); [exact (conf_input_is _ _ _ _ _ _)|].
    rewrite (proj2 (Z.eqb_eq _ 1)) by lia.
    eapply runs_bind; [apply conf_input_is|intros ?]. exact (conf_input_is _ _ _ _ _ _). }
  intros ?. apply (member_is vgpu_selected_); [done|].
  eapply (vec_at_is _ _ (default EmptyString (vgpu_type_ !! Z.to_nat (vgpu_selected_ (tui s0))))); [lia| |].
  { destruct (lookup_lt_is_Some_2 vgpu_type_ (Z.to_nat (vgpu_selected_ (tui s0)))) as [x ->];
      [cbn; lia|done]. }
  conf_go. conf_name c2.
  apply runs_bind with (Q' := λ _, cfg_is s0 (foldl put1 c2 (if vgpu_selected_ (tui s0) =? 3
    then [(kGroupVgpu, kVgpuGvtgVer, default EmptyString (gvtg_ver_ !! Z.to_nat (gvtg_ver_selected_ (tui s0))));
          (kGroupVgpu, kVgpuUuid, content_ (tui s0) gvtg_uuid_)] else []))).
  { destruct (vgpu_selected_ (tui s0) =? 3); [|by apply runs_ret].
    apply (member_is gvtg_ver_selected_); [done|].
    eapply (vec_at_is _ _ (default EmptyString (gvtg_ver_ !! Z.to_nat (gvtg_ver_selected_ (tui s0))))); [lia| |].
    { destruct (lookup_lt_is_Some_2 gvtg_ver_ (Z.to_nat (gvtg_ver_selected_ (tui s0)))) as [x ->];
        [cbn; lia|done]. }
    conf_go. apply (member_is (λ t, content_ t gvtg_uuid_)); [done|].
    destruct (str_empty (content_ (tui s0) gvtg_uuid_)) eqn:Hu; cbn [negb]; [|exact (conf_set_is _ _ _ _ _ _)].
    apply runs_ret. intros s ->. cbn [foldl]. unfold cfg_is. f_equal.
    by rewrite (put1_empty _ _ _ (content_ (tui s0) gvtg_uuid_)) by (by apply str_empty_true). }
  intros ?. conf_go. apply (member_is pt_pci_disp_); [done|]. conf_go.
  rewrite !foldl_app. cbn [foldl]. exact (conf_input_is _ _ _ _ _ _).
Qed.
End form.

Section stored.
Context {B : Boost} {L : BoostLaws B}.

Lemma GetValue_empty g k : accepted g k → GetValue g k empty_config = EmptyString.
Proof. intros [Hg Hk]%accepted_segment. unfold GetValue. by rewrite pt_get_path. Qed.

Lemma foldl_put1_other l c g k :
  Forall (λ e : entry, accepted e.1.1 e.1.2) l → accepted g k → (g, k) ∉ fst <$> l →
  GetValue g k (foldl put1 c l) = GetValue g k c.
Proof.
  intros Hl Ha. revert c. induction Hl as [|[[g' k'] v] l He Hl IH]; intros c Hn; [done|].
  cbn [foldl]. rewrite fmap_cons, not_elem_of_cons in Hn. destruct Hn as [Hne Hn].
  rewrite IH by done. unfold put1; cbn. rewrite GetValue_SetValue by done.
  case_decide as H; [|done]. destruct H as [[= -> ->] _]. done.
Qed.

Lemma foldl_put1_get l c g k v :
  Forall (λ e : entry, accepted e.1.1 e.1.2) l → NoDup (fst <$> l) → (g, k, v) ∈ l →
  GetValue g k (foldl put1 c l) = if decide (v = EmptyString) then GetValue g k c else trim v.
Proof.
  intros Hl. revert c. induction Hl as [|[[g' k'] v'] l He Hl IH]; intros c Hd Hin.
  { by apply not_elem_of_nil in Hin. }
  rewrite fmap_cons, NoDup_cons in Hd. destruct Hd as [Hn Hd]. cbn [foldl].
  apply elem_of_cons in Hin as [[= <- <- <-]|Hin].
  - rewrite foldl_put1_other by done. unfold put1; cbn. rewrite GetValue_SetValue by done.
    repeat case_decide; naive_solver.
  - rewrite IH by done. case_decide; [|done].
    clear IH. assert (accepted g k) as Ha by (rewrite Forall_forall in Hl; apply (Hl (g, k, v)), Hin).
    unfold put1; cbn. rewrite GetValue_SetValue by done. case_decide as Heq; [|done].
    destruct Heq as [[= -> ->] _]. exfalso. apply Hn. cbn.
    exact (list_elem_of_fmap_2 fst l (g, k, v) Hin).
Qed.

(** A stored configuration passes the check. *)
Lemma foldl_put1_sane l c :
  Forall (λ e : entry, accepted e.1.1 e.1.2) l → SanitizeOpts c = true →
  SanitizeOpts (foldl put1 c l) = true.
Proof.
  intros Hl. revert c. induction Hl as [|[[g k] v] l He Hl IH]; intros c Hc; [done|].
  cbn [foldl]. apply IH. by apply SetValue_sanitized.
Qed.

(** It has a section as soon as one value is not empty. *)
Definition has_sections (c : CivConfig) : Prop := pt_is_empty (cfg_data_ c) = false.

Lemma upd_child_nonempty k f l : upd_child k f l ≠ [].
Proof. destruct l as [|[k' t] l]; cbn; [done|]. by case_decide. Qed.

Lemma put1_sections c e :
  accepted e.1.1 e.1.2 → e.2 ≠ EmptyString ∨ has_sections c → has_sections (put1 c e).
Proof.
  destruct e as [[g k] v]. cbn. intros [Hg Hk]%accepted_segment Hor. unfold put1, SetValue; cbn.
  destruct (str_empty v) eqn:Hv.
  { apply str_empty_true in Hv. by destruct Hor. }
  rewrite pt_put_path by done. unfold has_sections, pt_is_empty; cbn.
  destruct (upd_child _ _ _) eqn:Hu; [|done]. by apply upd_child_nonempty in Hu.
Qed.

Lemma foldl_put1_sections l c :
  Forall (λ e : entry, accepted e.1.1 e.1.2) l →
  Exists (λ e : entry, e.2 ≠ EmptyString) l ∨ has_sections c → has_sections (foldl put1 c l).
Proof.
  intros Hl. revert c. induction Hl as [|e l He Hl IH]; intros c Hor.
  { destruct Hor as [Hx|]; [by inversion Hx|done]. }
  cbn [foldl]. apply IH. destruct Hor as [Hx|Hc]; [|right; apply put1_sections; auto].
  apply Exists_cons in Hx as [Hx|Hx]; [right; apply put1_sections; auto|by left].
Qed.

Lemma form_values_value t : Exists (λ e : entry, e.2 ≠ EmptyString) (form_values t).
Proof.
  apply Exists_exists. exists (kGroupFirm, kFirmType,
    if firmware_type_selected_ t =? 0 then kFirmUnified else kFirmSplited).
  split; [unfold form_values; apply elem_of_app; left; set_solver|].
  by destruct (_ =? 0).
Qed.
End stored.

Section tui_properties.
Context {B : Boost} {L : BoostLaws B} {E : OsEnv} (capable : Creds → bool).

(** What a form leaves in a key that held [old]. *)
Definition stored_text (old v : string) : string := if decide (v = EmptyString) then old else trim v.

Lemma stored_text_fresh v : stored_text EmptyString v = trim v.
Proof. unfold stored_text. case_decide as Hv; [|done]. rewrite Hv. symmetry. apply trim_trimmed. by split. Qed.

(** What is read back from a form that was stored. *)
Lemma stored_form (s : TuiSt) :
  selections_ok (tui s) →
  ∃ s', SetConfToPtree s = (Ret tt, s')
    ∧ (∀ g k v, (g, k, v) ∈ form_values (tui s) → GetValue g k (civ_config_ (tui s'))
         = stored_text (GetValue g k (civ_config_ (tui s))) v)
    ∧ (∀ g k, accepted g k → (g, k) ∉ fst <$> form_values (tui s) →
         GetValue g k (civ_config_ (tui s')) = GetValue g k (civ_config_ (tui s))).
Proof.
  intros Hsel. destruct (form_values_keys (tui s)) as [Hnd Hacc].
  pose proof (SetConfToPtree_runs s (λ _ _, False) Hsel s eq_refl) as Hr.
  destruct (SetConfToPtree s) as [[[]|e|] s']; [|done..]. exists s'. split; [done|].
  unfold cfg_is in Hr. subst s'. cbn [tui with_cfg civ_config_ set_config]. split.
  - intros g k v Hin. by rewrite (foldl_put1_get _ _ _ _ v) by done.
  - intros g k Ha Hn. by rewrite foldl_put1_other by done.
Qed.

(** C21: storing the form, whatever configuration is there from an earlier
    attempt.  Read back with [GetValue], every key of an entry of the form has
    the text of its field without surrounding spaces, or, when the field is
    empty, what the key had before; every other known key has what it had.  In
    particular, from an empty configuration, as at the first SAVE, exactly the
    texts of the form are there and all other known keys are empty. *)
Theorem save_roundtrip (s : TuiSt) :
  selections_ok (tui s) →
  ∃ s', SetConfToPtree s = (Ret tt, s')
    ∧ (∀ g k v, (g, k, v) ∈ form_values (tui s) →
         GetValue g k (civ_config_ (tui s')) = stored_text (GetValue g k (civ_config_ (tui s))) v)
    ∧ (∀ g k, accepted g k → (g, k) ∉ fst <$> form_values (tui s) →
         GetValue g k (civ_config_ (tui s')) = GetValue g k (civ_config_ (tui s)))
    ∧ (civ_config_ (tui s) = empty_config →
         (∀ g k v, (g, k, v) ∈ form_values (tui s) → GetValue g k (civ_config_ (tui s')) = trim v)
         ∧ ∀ g k, accepted g k → (g, k) ∉ fst <$> form_values (tui s) →
             GetValue g k (civ_config_ (tui s')) = EmptyString).
Proof.
  intros Hsel. destruct (stored_form s Hsel) as (s' & Hr & Hin & Hout). exists s'. split_and!; [done..|].
  intros Hc. rewrite Hc in Hin, Hout. destruct (form_values_keys (tui s)) as [_ Hacc]. split.
  - intros g k v Hv. rewrite (Hin g k v Hv).
    rewrite GetValue_empty by (rewrite Forall_forall in Hacc; apply (Hacc (g, k, v)), Hv).
    apply stored_text_fresh.
  - intros g k Ha Hn. rewrite Hout by done. by apply GetValue_empty.
Qed.

(** The check on the configuration stays as it is or becomes true. *)
Definition sane_grows (s s' : TuiSt) : Prop :=
  SanitizeOpts (civ_config_ (tui s)) = true → SanitizeOpts (civ_config_ (tui s')) = true.
#[local] Instance sane_grows_preorder : PreOrder sane_grows.
Proof. split; [by intros s H|]. intros s1 s2 s3 H1 H2 H. auto. Qed.

Lemma sane_os {A} (c : M OsSt A) : grows sane_grows (ui_os c).
Proof. intros s. unfold ui_os, lift. destruct (c (t_os s)). exact (λ H, H). Qed.
Lemma sane_upd f : (∀ t, civ_config_ (f t) = civ_config_ t) → grows sane_grows (upd_tui f).
Proof. intros Hf. apply grows_modify. intros s. unfold sane_grows. cbn. by rewrite Hf. Qed.
Lemma sane_set g k v : accepted g k → grows sane_grows (conf_set g k v).
Proof. intros Ha. apply grows_modify. intros s. unfold sane_grows. cbn. by apply SetValue_sanitized. Qed.
Lemma sane_input g k f : accepted g k → grows sane_grows (conf_input g k f).
Proof. intros Ha. unfold conf_input. grows_go ltac:(by apply sane_set). Qed.

Lemma WriteConfigFile_cfg p : grows (λ s s' : CfgSt, s'.1 = s.1) (WriteConfigFile p).
Proof.
  assert (PreOrder (λ s s' : CfgSt, s'.1 = s.1)) as HP by (split; [by intros s|intros s1 s2 s3 -> ->; done]).
  assert (∀ A (c : oscall A), grows (λ s s' : CfgSt, s'.1 = s.1) (on_os (os c))) as Hos.
  { intros A c s. unfold on_os, lift. destruct (os_run c s.2) as (a & w & _ & ->). done. }
  unfold WriteConfigFile. grows_go ltac:(apply Hos).
Qed.

Lemma sane_at v i : grows sane_grows (vec_at v i).
Proof. unfold vec_at. grows_go fail. Qed.

(** Steps of the form, by their head. *)
Ltac sane_leaf :=
  match goal with
  | |- grows _ (ui_os _) => apply sane_os
  | |- grows _ (upd_tui _) => apply sane_upd; reflexivity
  | |- grows _ (vec_at _ _) => apply sane_at
  | |- grows _ (conf_set _ _ _) => apply sane_set, accepted_has; vm_compute; reflexivity
  | |- grows _ (conf_input _ _ _) => apply sane_input, accepted_has; vm_compute; reflexivity
  end.

Lemma sane_set_conf : grows sane_grows SetConfToPtree.
Proof. unfold SetConfToPtree. grows_go ltac:(idtac; sane_leaf). Qed.

Lemma sane_write p : grows sane_grows (ui_write p).
Proof.
  eapply grows_lift; [apply (WriteConfigFile_cfg p)|].
  intros s [c o]. unfold sane_grows. cbn. intros ->. exact (λ H, H).
Qed.

Lemma sane_save : grows sane_grows (SaveOn capable).
Proof.
  unfold SaveOn. apply grows_bind; [exact _| |].
  { intros s. unfold lift. destruct (GetConfigPath _ _). exact (λ H, H). }
  intros dir. grows_go ltac:(first
    [ sane_leaf | apply sane_set_conf | apply sane_write ]).
Qed.

(** C27: whatever the user does in the form, and however the session ends, the
    configuration it holds has only known sections and keys, so that saving is
    never refused for its content. *)
Theorem tui_config_sane name evs s :
  SanitizeOpts (civ_config_ (tui s)) = true →
  SanitizeOpts (civ_config_ (tui (InitializeUi capable name evs s).2)) = true.
Proof.
  change (sane_grows s (InitializeUi capable name evs s).2). revert s.
  change (grows sane_grows (InitializeUi capable name evs)).
  assert (∀ evs, grows sane_grows (ui_loop capable evs)) as Hloop.
  { clear evs. intros evs. induction evs as [|ev evs IH]; cbn [ui_loop]; [grows_go fail|].
    grows_go ltac:(apply IH). destruct ev; cbn [handle]; try (apply sane_upd; reflexivity). apply sane_save. }
  unfold InitializeUi, InitCompPciPt.
  grows_go ltac:(first [sane_leaf | apply Hloop]).
Qed.

(** Writing a configuration that has sections and passes the check: it is
    written, or the file is not there or not a regular one, or the text cannot
    be made. *)
Lemma WriteConfigFile_cases p c o :
  has_sections c → SanitizeOpts c = true →
  match WriteConfigFile p (c, o) with
  | (Ret true, (c', o')) => c' = c ∧ ∃ txt, write_ini (cfg_data_ c) = Some txt
      ∧ os_log o' = os_log o ++ [EvWrite p txt]
  | (Ret false, (c', o')) => c' = c ∧ os_log o' = os_log o
  | (Throw e, (c', o')) => c' = c ∧ e = ExIniParser ∧ write_ini (cfg_data_ c) = None ∧ os_log o' = os_log o
  | (Blocked, _) => False
  end.
Proof.
  destruct o as [w log tr], c as [[d [|ch chs]]]; [done|]. intros _ Hok. unfold SanitizeOpts in Hok.
  unfold WriteConfigFile, on_os, SanitizeOpts. sx_unfold. cbn -[sanitize_sections] in *.
  sx_call. destruct a; cbn -[sanitize_sections]; [|done].
  destruct (os_handle (FsIsRegular p) w0) as [[|] w1]; cbn -[sanitize_sections]; [|by rewrite app_nil_r].
  rewrite Hok. cbn. rewrite app_nil_r. destruct (write_ini (PTree d (ch :: chs))) as [txt|] eqn:Hw; cbn; [|done].
  sx_call. eauto.
Qed.

(** C26: what pressing SAVE does.  When the guest's file exists it is left
    alone, the status bar says so and the form stays.  Otherwise the file is
    made empty, the form is stored and written: the form is left exactly when
    the text of the stored form has been written to that file; a file that is
    gone again leaves the form open, a tree that cannot be printed ends the
    session, and both leave only the empty file. *)
Theorem save_outcome (s : TuiSt) dir :
  civ_config_path (t_util s) = Some dir → selections_ok (tui s) →
  SanitizeOpts (civ_config_ (tui s)) = true → exit_loop (tui s) = false →
  let p := dir +:+ "/" +:+ filename_ (tui s) +:+ ".ini" in
  let c := foldl put1 (civ_config_ (tui s)) (form_values (tui s)) in
  let '(r, s') := SaveOn capable s in
  let '(there, _) := os_handle (FsExists p) (os_w (t_os s)) in
  if (there : bool) then
    r = Ret tt ∧ os_log (t_os s') = os_log (t_os s) ∧ tui s' = set_status "File alreay exist!" (tui s)
  else
    civ_config_ (tui s') = c
    ∧ match r with
      | Ret _ =>
          if exit_loop (tui s')
          then ∃ txt, write_ini (cfg_data_ c) = Some txt
                 ∧ os_log (t_os s') = os_log (t_os s) ++ [EvWrite p EmptyString; EvWrite p txt]
          else os_log (t_os s') = os_log (t_os s) ++ [EvWrite p EmptyString]
      | Throw e => e = ExIniParser ∧ write_ini (cfg_data_ c) = None
          ∧ os_log (t_os s') = os_log (t_os s) ++ [EvWrite p EmptyString]
      | Blocked => False
      end.
Proof.
  intros Hdir Hsel Hsane Hexit. set (p := dir +:+ _). set (c := foldl _ _ _). cbv zeta.
  destruct (form_values_keys (tui s)) as [_ Hacc].
  assert (has_sections c) as Hsec by (apply foldl_put1_sections; [done|left; apply form_values_value]).
  assert (SanitizeOpts c = true) as Hok by (by apply foldl_put1_sane).
  destruct s as [t [cp cr [w log tr]]]. cbn in Hdir. subst cp.
  unfold SaveOn, lift at 1. unfold mbind at 1, M_bind. cbn [t_util].
  rewrite (GetConfigPath_cached capable dir) by done.
  cbn [tui t_util u_os] in *.
  unfold mbind at 1, M_bind, gets at 1. cbn [tui]. fold p. unfold mbind at 1, M_bind, ui_os at 1, lift at 1, os. cbn [t_os t_util u_os os_w].
  destruct (os_handle (FsExists p) w) as [there w1]. cbn [event_of]. rewrite app_nil_r.
  destruct there; cbn [negb]; [done|].
  unfold ui_os at 1, lift at 1. unfold mbind at 1, M_bind, os. cbn [t_os t_util u_os set_t_os os_w].
  destruct (os_handle (FileWrite p EmptyString) w1) as [[] w2]. cbn [event_of tui].
  set (s2 := set_t_os _ _). 
  pose proof (SetConfToPtree_runs s2 (λ _ _, False) Hsel s2 eq_refl) as Hr.
  unfold mbind at 1, M_bind. destruct (SetConfToPtree s2) as [[[]|e|] s3]; [|done..].
  unfold cfg_is in Hr. subst s3. change (foldl put1 _ _) with c.
  unfold ui_write, lift, mbind, M_bind.
  pose proof (λ tr, WriteConfigFile_cases p c (mkOsSt _ w2 (log ++ [EvWrite p EmptyString]) tr) Hsec Hok) as Hw.
  cbn [tui with_cfg civ_config_ set_config t_os t_util s2 u_os set_t_os os_log os_trace].
  match goal with |- context [mkOsSt _ w2 _ ?tr] => specialize (Hw tr) end.
  destruct (WriteConfigFile p _) as [[[|]|e|] [c' o']].
  - destruct Hw as (-> & txt & Ht & Hl). cbn. split; [done|]. exists txt. split; [done|].
    rewrite Hl. cbn. by rewrite <-app_assoc.
  - destruct Hw as (-> & Hl). cbn. rewrite Hexit. by split.
  - destruct Hw as (-> & -> & Ht & Hl). cbn. by split_and!.
  - done.
Qed.
End tui_properties.

(** ** The list of devices *)

Section passthrough.
(** A line of [lspci]: an address, a space, a description. *)
Definition pci_line (l : string) : Prop :=
  ∃ bdf rest, l = bdf +:+ String " " rest ∧ " "%char ∉ chars bdf ∧ ","%char ∉ chars bdf.

Lemma pci_line_take l rest' bdf :
  l = bdf +:+ String " " rest' → " "%char ∉ chars bdf →
  ∃ pos, str_find " " l = Some pos ∧ str_take pos l = bdf ∧ before_char " " l = bdf.
Proof.
  intros -> Hs. pose proof (before_char_app " " bdf rest' Hs) as Hb. unfold before_char in *.
  destruct (str_find " " _) as [pos|] eqn:Hf; [by exists pos|].
  apply str_find_None in Hf. rewrite chars_app in Hf. unfold chars in Hf at 2; simpl in Hf. set_solver.
Qed.

(** The stored text, cut at its commas, is the list of the addresses of the
    devices that are shown. *)
Lemma passthrough_split l :
  l ≠ [] → Forall pci_line l → split_char "," (passthrough_str l) = before_char " " <$> l.
Proof.
  intros Hne Hl. induction Hl as [|x l (bdf & rest & Hx & Hs & Hc) Hl IH]; [done|].
  destruct (pci_line_take x rest bdf Hx Hs) as (pos & Hf & Ht & Hb).
  cbn [passthrough_str]. assert (str_empty x = false) as -> by (rewrite Hx; by destruct bdf).
  rewrite Hf, Ht, fmap_cons, Hb. destruct l as [|y l].
  - rewrite str_app_nil_l. cbn [passthrough_str]. rewrite str_app_nil_r. by apply split_char_single.
  - change ("," +:+ passthrough_str (y :: l)) with (String "," (passthrough_str (y :: l))).
    rewrite split_char_app by done. f_equal. by apply IH.
Qed.
End passthrough.

(** A last line without a space leaves a comma at the end. *)
Example passthrough_trailing_comma :
  passthrough_str ["0000:00:02.0 VGA"; "odd"] = "0000:00:02.0,".
Proof. reflexivity. Qed.

(** ** Examples *)

Module TuiDemo.
#[local] Existing Instance RefBoost.ref_boost.
#[local] Existing Instance SimOs.sim_os.

Definition form : CivTui :=
  set_filename "civ-1" (set_content memory_ "4G" (set_content emulator_ " /usr/bin/qemu " new_CivTui)).
Definition start : TuiSt :=
  mkTuiSt form (mkUtil (Some "/home/u/.intel/.civ") UtilsDemo.root (SimOs.boot [] [] [])).

Lemma save_roundtrip_witness :
  ∃ s', SetConfToPtree start = (Ret tt, s') ∧ GetValue kGroupMem kMemSize (civ_config_ (tui s')) = "4G"
    ∧ GetValue kGroupEmul kEmulPath (civ_config_ (tui s')) = "/usr/bin/qemu"
    ∧ GetValue kGroupFirm kFirmCode (civ_config_ (tui s')) = EmptyString.
Proof.
  destruct (save_roundtrip (L := RefBoost.ref_laws) start) as (s' & Hr & _ & _ & Hf);
    [vm_compute; repeat split; discriminate|]. destruct (Hf eq_refl) as [Hin Hout].
  exists s'. split_and!; [exact Hr| | |].
  - etrans; [apply (Hin kGroupMem kMemSize "4G"); apply (bool_decide_unpack _); vm_compute; exact I|reflexivity].
  - etrans; [apply (Hin kGroupEmul kEmulPath " /usr/bin/qemu ");
      apply (bool_decide_unpack _); vm_compute; exact I|reflexivity].
  - apply Hout; [apply accepted_has; reflexivity|apply (bool_decide_unpack _); vm_compute; exact I].
Defined.

(** A file system on which no file can be made: SAVE leaves the form open. *)
Definition full_os : OsEnv := {|
  os_world := SimOs.sim;
  os_handle A c w :=
    match c in oscall A return A * SimOs.sim with
    | FileWrite _ _ => (tt, w)
    | c => SimOs.sim_handle _ c w
    end |}.
Definition full_start : @TuiSt full_os :=
  @mkTuiSt full_os form (@mkUtil full_os (Some "/home/u/.intel/.civ") UtilsDemo.root
    (@mkOsSt full_os (os_w (SimOs.boot [] [] [])) [] [])).

(** The text of a field that is cleared after a SAVE that failed is still
    stored by the next one. *)
Example cleared_field_stays :
  let s' := ((handle UtilsDemo.root_only UiSave ;; handle UtilsDemo.root_only (UiInput memory_ EmptyString) ;;
              handle UtilsDemo.root_only UiSave : M (@TuiSt full_os) unit) full_start).2 in
  content_ (tui s') memory_ = EmptyString
  ∧ GetValue kGroupMem kMemSize (civ_config_ (tui s')) = "4G".
Proof. vm_compute. auto. Qed.

Lemma tui_config_sane_witness :
  SanitizeOpts (civ_config_ (tui (InitializeUi UtilsDemo.root_only "civ-1"
    [UiInput vcpu_ "2"; UiSave; UiExit] start).2)) = true.
Proof. apply (tui_config_sane (L := RefBoost.ref_laws)). reflexivity. Defined.

Lemma save_outcome_witness :
  (SaveOn UtilsDemo.root_only start).1 = Ret tt
  ∧ ∃ txt, os_log (t_os (SaveOn UtilsDemo.root_only start).2)
      = [EvWrite "/home/u/.intel/.civ/civ-1.ini" EmptyString; EvWrite "/home/u/.intel/.civ/civ-1.ini" txt].
Proof.
  assert ((SaveOn UtilsDemo.root_only start).1 = Ret tt) as Hr by (vm_compute; reflexivity).
  assert (exit_loop (tui (SaveOn UtilsDemo.root_only start).2) = true) as He by (vm_compute; reflexivity).
  pose proof (save_outcome (L := RefBoost.ref_laws) UtilsDemo.root_only start "/home/u/.intel/.civ") as Ht.
  specialize (Ht eq_refl ltac:(vm_compute; repeat split; discriminate) eq_refl eq_refl).
  split; [exact Hr|]. cbv zeta in Ht.
  destruct (SaveOn UtilsDemo.root_only start) as [r s']. cbn [fst snd] in *. subst r.
  assert (∃ w, os_handle (FsExists ("/home/u/.intel/.civ" +:+ "/" +:+ filename_ (tui start) +:+ ".ini"))
     (os_w (t_os start)) = (false, w)) as [w Hw] by (eexists; vm_compute; reflexivity).
  rewrite Hw in Ht. destruct Ht as [_ Ht]. rewrite He in Ht. destruct Ht as (txt & _ & Hl). exists txt. exact Hl.
Defined.
End TuiDemo.
