(* ===== verification/TuiView.v ===== *)
(** * The layout of the form

    The part of guest/tui.{h,cc} that puts the form together: the tree of FTXUI
    components with the members they are bound to, and the functions that draw
    it.  FTXUI is a library: the calls the code makes to it are the
    constructors of [Component] and [Element], and what the code relies on is
    the class [Ftxui] with its laws: a container passes events on to its
    children, a tab to the selected one, a renderer to the component it wraps,
    and a renderer draws what its function returns.  [RefFtxui] is an instance. *)

From S2P Require Import Prelude.
From S2P Require Import CStd.
From S2P Require Import Boost.
From S2P Require Import Os.
From S2P Require Import Utils.
From S2P Require Import Config.
From S2P Require Import Tui.
From Stdlib Require Import Ascii.

Local Open Scope Z_scope.

Definition LAYOUT_MIN_WIDTH : Z := 60.
Definition LAYOUT_MAX_WIDTH : Z := 120.

(** ** Components and elements *)

(** The [int] members that components are bound to. *)
Inductive IntRef : Type :=
| ref_firmware_type_selected_ | ref_vgpu_selected_ | ref_gvtg_ver_selected_ | ref_pt_pci_tab_id_.

#[export] Instance IntRef_eq_dec : EqDecision IntRef.
Proof. solve_decision. Defined.

Definition read_ref (r : IntRef) (t : CivTui) : Z :=
  match r with
  | ref_firmware_type_selected_ => firmware_type_selected_ t
  | ref_vgpu_selected_ => vgpu_selected_ t
  | ref_gvtg_ver_selected_ => gvtg_ver_selected_ t
  | ref_pt_pci_tab_id_ => pt_pci_tab_id_ t
  end.

(** What a button calls. *)
Inductive OnClick : Type := ClickPt | ClickSave | ClickExit.

#[export] Instance OnClick_eq_dec : EqDecision OnClick.
Proof. solve_decision. Defined.

Inductive Direction : Type := WIDTH | HEIGHT.
Inductive Constraint : Type := EQUAL | LESS_THAN | GREATER_THAN.

(** [ftxui::Component] and [ftxui::Element]; [render c] is [c->Render()]. *)
Inductive Component : Type :=
| Input (content : InputField) (placeholder : string)
| Toggle (entries : list string) (selected : IntRef)
| Dropdown (entries : list string) (selected : IntRef)
| Menu (entries : CivTui → list string)
| Checkbox (label : string) (index : nat)
| Button (label : CivTui → string) (on_click : OnClick)
| Vertical (children : list Component)
| Horizontal (children : list Component)
| Tab (children : list Component) (selector : IntRef)
| Renderer (child : Component) (draw : CivTui → Element)
| Drawing (draw : CivTui → Element)          (** a renderer without a child *)
with Element : Type :=
| text (x : string)
| hbox (l : list Element)
| vbox (l : list Element)
| window (title content : Element)
| size (d : Direction) (c : Constraint) (n : Z) (e : Element)
| frame (e : Element)
| vscroll_indicator (e : Element)
| center (e : Element)
| border (e : Element)
| emptyElement
| render (c : Component).

(** ** The library *)

(** What the user can act on. *)
Inductive Widget : Type :=
| WInput (f : InputField)
| WSelect (r : IntRef) (entries : nat)
| WMenu
| WCheck (index : nat)
| WButton (b : OnClick).

#[export] Instance Widget_eq_dec : EqDecision Widget.
Proof. solve_decision. Defined.

(** What is on the screen: plain text, or an input with the text it shows. *)
Inductive Piece : Type :=
| PText (x : string)
| PInput (f : InputField) (x : string).

Definition is_text (p : Piece) : Prop := match p with PText _ => True | PInput _ _ => False end.

Class Ftxui : Type := {
  active : Component → CivTui → list Widget;  (** what receives keys and clicks *)
  drawn : Component → CivTui → list Piece;    (** what is on the screen *)
}.

(** The pieces of an element, given those of components. *)
Fixpoint pieces_of (rendered : Component → list Piece) (e : Element) : list Piece :=
  match e with
  | text x => [PText x]
  | hbox l | vbox l => l ≫= pieces_of rendered
  | window a b => pieces_of rendered a ++ pieces_of rendered b
  | size _ _ _ e | frame e | vscroll_indicator e | center e | border e => pieces_of rendered e
  | emptyElement => []
  | render c => rendered c
  end.
Definition pieces `{Ftxui} (t : CivTui) : Element → list Piece := pieces_of (λ c, drawn c t).

(** An input shows its content, or the hint while it is empty. *)
Definition input_text (f : InputField) (hint : string) (t : CivTui) : string :=
  if str_empty (content_ t f) then hint else content_ t f.

(** The components that show text only. *)
Definition plain (c : Component) : Prop :=
  match c with Toggle _ _ | Dropdown _ _ | Menu _ | Checkbox _ _ => True | _ => False end.

Class FtxuiLaws (F : Ftxui) : Prop := {
  active_input : ∀ f h t, active (Input f h) t = [WInput f];
  active_toggle : ∀ l r t, active (Toggle l r) t = [WSelect r (length l)];
  active_dropdown : ∀ l r t, active (Dropdown l r) t = [WSelect r (length l)];
  active_menu : ∀ l t, active (Menu l) t = [WMenu];
  active_checkbox : ∀ x i t, active (Checkbox x i) t = [WCheck i];
  active_button : ∀ x b t, active (Button x b) t = [WButton b];
  active_vertical : ∀ l t, active (Vertical l) t = l ≫= λ c, active c t;
  active_horizontal : ∀ l t, active (Horizontal l) t = l ≫= λ c, active c t;
  active_tab : ∀ l r t c, 0 ≤ read_ref r t → l !! Z.to_nat (read_ref r t) = Some c →
    active (Tab l r) t = active c t;
  active_renderer : ∀ c d t, active (Renderer c d) t = active c t;
  active_drawing : ∀ d t, active (Drawing d) t = [];
  drawn_input : ∀ f h t, drawn (Input f h) t = [PInput f (input_text f h t)];
  drawn_plain : ∀ c t, plain c → Forall is_text (drawn c t);
  drawn_button : ∀ x b t, drawn (Button x b) t = [PText (x t)];
  drawn_vertical : ∀ l t, drawn (Vertical l) t = l ≫= λ c, drawn c t;
  drawn_horizontal : ∀ l t, drawn (Horizontal l) t = l ≫= λ c, drawn c t;
  drawn_tab : ∀ l r t c, 0 ≤ read_ref r t → l !! Z.to_nat (read_ref r t) = Some c →
    drawn (Tab l r) t = drawn c t;
  drawn_renderer : ∀ c d t, drawn (Renderer c d) t = pieces t (d t);
  drawn_drawing : ∀ d t, drawn (Drawing d) t = pieces t (d t);
}.

(** ** The layout *)

(** [InputField(name, hint)]: the names and hints of the members. *)
Definition field_name (f : InputField) : string :=
  match f with
  | flashfiles_ => "flashfiles" | emulator_ => "emulator" | memory_ => "memory" | vcpu_ => "vcpu"
  | disk_size_ => "disk size" | disk_path_ => "disk path"
  | firm_unified_ => "bin path" | firm_splited_code_ => "code path" | firm_splited_data_ => "data path"
  | gvtg_uuid_ => "uuid" | swtpm_bin_ => "bin path" | swtpm_data_ => "data dir"
  | rpmb_bin_ => "bin path" | rpmb_data_ => "data dir"
  | adb_port_ => "adb port" | fastboot_port_ => "fastboot port"
  | batt_med_ => "Battery Mediation" | therm_med_ => "Thermal Mediation" | aaf_ => "AAF"
  | tkeep_ => "Guest Time Keep" | pmctl_ => "Guest PM Control" | extra_ => "Extra"
  end.
Definition field_hint (f : InputField) : string :=
  match f with
  | flashfiles_ => "flashfiles path" | emulator_ => "emulator path" | memory_ => "memory size"
  | vcpu_ => "vcpu number(1~1024)"
  | disk_size_ => "virtual disk size" | disk_path_ => "virtual disk path"
  | firm_unified_ => "Unified firmware binary path"
  | firm_splited_code_ => "Splited firmware binary code path"
  | firm_splited_data_ => "Splited firmware binary data path"
  | gvtg_uuid_ => "UUID for a GVTg-VGPU" | swtpm_bin_ => "binary path" | swtpm_data_ => "data folder"
  | rpmb_bin_ => "binary path" | rpmb_data_ => "data folder"
  | adb_port_ => "ADB port(TCP-Localhost), e.g.:5555"
  | fastboot_port_ => "Fastboot port(TCP-Localhost), e.g.:5554"
  | batt_med_ => "Battery Mediation host side executable binary"
  | therm_med_ => "Thermal Mediation host side executable binary"
  | aaf_ => "AAF configuration folder path"
  | tkeep_ => "Time Keep host side executable binary"
  | pmctl_ => "PM Control host side executable binary"
  | extra_ => "Extra command that emulator can acccept"
  end.

(** The constructor's [input_], [RenderInput] and [InputField::Get()]. *)
Definition input_ (f : InputField) : Component := Input f (field_hint f).
Definition RenderInput (f : InputField) : Element :=
  hbox [hbox [size WIDTH EQUAL 18 (text (field_name f)); text ": "]; render (input_ f)].
Definition Get (f : InputField) : Component := Renderer (input_ f) (λ _, RenderInput f).

(** The groups of the form. *)
Definition InitName (name : string) : Component :=
  Drawing (λ _, hbox [hbox [size WIDTH EQUAL 18 (text "name"); text ": "; text name]]).
Definition InitCompDisk : Component :=
  Renderer (Vertical [Get disk_size_; Get disk_path_])
    (λ _, window (text ("disk" +:+ ":")) (vbox [render (Get disk_size_); render (Get disk_path_)])).
Definition cfirm_inner_ : Component :=
  Vertical
    [Toggle firmware_type_ ref_firmware_type_selected_;
     Tab [Get firm_unified_; Vertical [Get firm_splited_code_; Get firm_splited_data_]]
       ref_firmware_type_selected_].
Definition InitCompFirm : Component :=
  Renderer cfirm_inner_ (λ _, window (text "firmware: ") (render cfirm_inner_)).
Definition cvgpu_type_ : Component := Dropdown vgpu_type_ ref_vgpu_selected_.
Definition cgvtg_sub_ : Component :=
  Vertical [Dropdown gvtg_ver_ ref_gvtg_ver_selected_; Get gvtg_uuid_].
Definition cvgpu_side_ : Component :=
  Tab [Drawing (λ _, emptyElement); Drawing (λ _, emptyElement); Drawing (λ _, emptyElement);
       cgvtg_sub_; Drawing (λ _, emptyElement)] ref_vgpu_selected_.
Definition InitCompVgpu : Component :=
  Renderer (Horizontal [cvgpu_type_; cvgpu_side_])
    (λ _, window (text "graphics: ") (hbox [render cvgpu_type_; render cvgpu_side_])).
Definition InitCompVtpm : Component :=
  Renderer (Vertical [Get swtpm_bin_; Get swtpm_data_])
    (λ _, window (text ("swtpm" +:+ ":")) (vbox [render (Get swtpm_bin_); render (Get swtpm_data_)])).
Definition InitCompRpmb : Component :=
  Renderer (Vertical [Get rpmb_bin_; Get rpmb_data_])
    (λ _, window (text ("rpmb" +:+ ":")) (vbox [render (Get rpmb_bin_); render (Get rpmb_data_)])).

(** The rest of [InitCompPciPt]: the button, a box for each device found, and
    the list of the chosen ones. *)
Definition cpt_inner_left_btn_ : Component := Button pt_btn_lable_ ClickPt.
Definition cpt_inner_right_edit_ (devs : list CheckBoxState) : Component :=
  Vertical (imap (λ i c, Checkbox (cb_name c) i) devs).
Definition cpt_inner_right_ (devs : list CheckBoxState) : Component :=
  Tab [Menu pt_pci_disp_; cpt_inner_right_edit_ devs] ref_pt_pci_tab_id_.
Definition cpt_inner_ (devs : list CheckBoxState) : Component :=
  Renderer (Horizontal [cpt_inner_left_btn_; cpt_inner_right_ devs])
    (λ t, hbox
      [vbox [center (render cpt_inner_left_btn_);
             center (text (to_string (Z.of_nat (length (pt_pci_disp_ t))) +:+ " Slected"))];
       vscroll_indicator (frame (render (cpt_inner_right_ devs)))]).
Definition cpt_ (devs : list CheckBoxState) : Component :=
  Renderer (cpt_inner_ devs)
    (λ _, size HEIGHT LESS_THAN 6
            (window (text "PCI Devices to Passthrough") (render (cpt_inner_ devs)))).

(** [void CivTui::InitializeForm(void)] *)
Definition form_ (name : string) (devs : list CheckBoxState) : Component :=
  Vertical
    [InitName name; Get flashfiles_; Get emulator_; Get memory_; Get vcpu_;
     InitCompDisk; InitCompFirm; InitCompVgpu; InitCompVtpm; InitCompRpmb; cpt_ devs;
     Get adb_port_; Get fastboot_port_; Get batt_med_; Get therm_med_; Get aaf_; Get tkeep_;
     Get pmctl_; Get extra_].
Definition InitializeForm (name : string) (devs : list CheckBoxState) : Component :=
  Renderer (form_ name devs) (λ _, vscroll_indicator (frame (vbox [render (form_ name devs)]))).

(** [void CivTui::InitializeButtons(void)], without [SaveOn] *)
Definition save_ : Component := Button (λ _, "SAVE") ClickSave.
Definition exit_ : Component := Button (λ _, "EXIT") ClickExit.
Definition InitializeButtons : Component := Horizontal [save_; exit_].

(** [layout_render] of [CivTui::InitializeUi] *)
Definition layout_render (name : string) (devs : list CheckBoxState) : Component :=
  let form_render_ := InitializeForm name devs in
  Renderer (Vertical [form_render_; InitializeButtons])
    (λ t, center (size HEIGHT LESS_THAN 80 (size WIDTH GREATER_THAN LAYOUT_MIN_WIDTH (border
      (vbox
        [text "Celadon in VM Configuration";
         border (vbox [vscroll_indicator (render form_render_)]);
         text (status_bar_ t);
         center (render InitializeButtons)]))))).

(** ** A reference instance *)

Module RefFtxui.
Fixpoint ref_active (c : Component) (t : CivTui) : list Widget :=
  match c with
  | Input f _ => [WInput f]
  | Toggle l r | Dropdown l r => [WSelect r (length l)]
  | Menu _ => [WMenu]
  | Checkbox _ i => [WCheck i]
  | Button _ b => [WButton b]
  | Vertical l | Horizontal l => l ≫= λ c, ref_active c t
  | Tab l r => default [] (((λ c, ref_active c t) <$> l) !! Z.to_nat (read_ref r t))
  | Renderer c _ => ref_active c t
  | Drawing _ => []
  end.

Fixpoint ref_drawn (c : Component) (t : CivTui) : list Piece :=
  match c with
  | Input f h => [PInput f (input_text f h t)]
  | Toggle l _ => PText <$> l
  | Dropdown l r => PText <$> option_list (l !! Z.to_nat (read_ref r t))
  | Menu l => PText <$> l t
  | Checkbox x _ => [PText x]
  | Button x _ => [PText (x t)]
  | Vertical l | Horizontal l => l ≫= λ c, ref_drawn c t
  | Tab l r => default [] (((λ c, ref_drawn c t) <$> l) !! Z.to_nat (read_ref r t))
  | Renderer _ d | Drawing d => pieces_of (λ c, ref_drawn c t) (d t)
  end.

#[export] Instance ref_ftxui : Ftxui := {| active := ref_active; drawn := ref_drawn |}.

Lemma ftxui_ref_laws : FtxuiLaws ref_ftxui.
Proof.
  split; try done; [intros l r t c _ Hc; cbn; by rewrite list_lookup_fmap, Hc| |
    intros l r t c _ Hc; cbn; by rewrite list_lookup_fmap, Hc].
  assert (∀ l, Forall is_text (PText <$> l)) as Hl by (intros l; by apply Forall_fmap, Forall_true).
  intros [] t Hc; try done; cbn; try apply Hl. by repeat constructor.
Qed.
End RefFtxui.

(** ** What is shown *)

Section view.
Context {F : Ftxui} (LF : FtxuiLaws F).

(** The tab of the device list is one of its two. *)
Definition tab_ok (t : CivTui) : Prop := pt_pci_tab_id_ t = 0 ∨ pt_pci_tab_id_ t = 1.

Lemma active_Get f t : active (Get f) t = [WInput f].
Proof using LF. unfold Get, input_. by rewrite active_renderer, active_input. Qed.

Lemma active_firm t :
  selections_ok t →
  active InitCompFirm t = WSelect ref_firmware_type_selected_ 2
    :: (if firmware_type_selected_ t =? 0 then [WInput firm_unified_]
        else [WInput firm_splited_code_; WInput firm_splited_data_]).
Proof using LF.
  intros (Hfw & _). unfold InitCompFirm, cfirm_inner_. rewrite active_renderer, active_vertical. cbn [mbind list_bind].
  rewrite active_toggle, app_nil_r. cbn [app length firmware_type_]. f_equal.
  destruct (Z.eqb_spec (firmware_type_selected_ t) 0) as [H0|H0].
  - rewrite (active_tab _ _ _ (Get firm_unified_)); cbn; rewrite ?H0; [apply active_Get|done..].
  - assert (firmware_type_selected_ t = 1) as H1 by lia.
    rewrite (active_tab _ _ _ (Vertical [Get firm_splited_code_; Get firm_splited_data_])); cbn; rewrite ?H1; [|done..].
    rewrite active_vertical. cbn. by rewrite !active_Get.
Qed.

Lemma active_vgpu t :
  selections_ok t →
  active InitCompVgpu t = WSelect ref_vgpu_selected_ 5
    :: (if vgpu_selected_ t =? 3 then [WSelect ref_gvtg_ver_selected_ 4; WInput gvtg_uuid_] else []).
Proof using LF.
  intros (_ & Hvg & _). unfold InitCompVgpu, cvgpu_type_. rewrite active_renderer, active_horizontal. cbn [mbind list_bind].
  rewrite active_dropdown, app_nil_r. cbn [app length vgpu_type_]. f_equal. unfold cvgpu_side_.
  destruct (Z.eqb_spec (vgpu_selected_ t) 3) as [H3|H3].
  - rewrite (active_tab _ _ _ cgvtg_sub_); cbn; rewrite ?H3; [|done..].
    unfold cgvtg_sub_. rewrite active_vertical. cbn. by rewrite active_dropdown, active_Get.
  - rewrite (active_tab _ _ _ (Drawing (λ _, emptyElement))); [apply active_drawing|cbn; lia|cbn].
    assert (vgpu_selected_ t = 0 ∨ vgpu_selected_ t = 1 ∨ vgpu_selected_ t = 2 ∨ vgpu_selected_ t = 4)
      as [->|[->|[->| ->]]] by lia; done.
Qed.

Lemma active_pt devs t :
  tab_ok t →
  active (cpt_ devs) t = WButton ClickPt
    :: (if pt_pci_tab_id_ t =? 0 then [WMenu] else imap (λ i _, WCheck i) devs).
Proof using LF.
  intros Htab. unfold cpt_, cpt_inner_, cpt_inner_left_btn_. rewrite !active_renderer, active_horizontal. cbn [mbind list_bind].
  rewrite active_button, app_nil_r. cbn [app]. f_equal. unfold cpt_inner_right_. destruct Htab as [H|H].
  - rewrite (active_tab _ _ _ (Menu pt_pci_disp_)); cbn; rewrite ?H; [apply active_menu|done..].
  - rewrite (active_tab _ _ _ (cpt_inner_right_edit_ devs)); cbn; rewrite ?H; [|done..].
    unfold cpt_inner_right_edit_. rewrite active_vertical. cbn. clear H.
    assert (∀ g : nat → nat, imap (λ i c, Checkbox (cb_name c) (g i)) devs ≫= (λ c, active c t)
      = imap (λ i _, WCheck (g i)) devs) as Hg.
    { induction devs as [|d devs IH]; intros g; [done|]. cbn. rewrite active_checkbox. cbn. f_equal.
      apply (IH (λ i, g (S i))). }
    apply (Hg (λ i, i)).
Qed.

(** What the user can act on, from top to bottom. *)
Definition shown (t : CivTui) (devs : list CheckBoxState) : list Widget :=
  (WInput <$> [flashfiles_; emulator_; memory_; vcpu_; disk_size_; disk_path_])
  ++ WSelect ref_firmware_type_selected_ 2
     :: (if firmware_type_selected_ t =? 0 then [WInput firm_unified_]
         else [WInput firm_splited_code_; WInput firm_splited_data_])
  ++ WSelect ref_vgpu_selected_ 5
     :: (if vgpu_selected_ t =? 3 then [WSelect ref_gvtg_ver_selected_ 4; WInput gvtg_uuid_] else [])
  ++ (WInput <$> [swtpm_bin_; swtpm_data_; rpmb_bin_; rpmb_data_])
  ++ WButton ClickPt :: (if pt_pci_tab_id_ t =? 0 then [WMenu] else imap (λ i _, WCheck i) devs)
  ++ (WInput <$> [adb_port_; fastboot_port_; batt_med_; therm_med_; aaf_; tkeep_; pmctl_; extra_])
  ++ [WButton ClickSave; WButton ClickExit].

Lemma layout_shown name devs t :
  selections_ok t → tab_ok t → active (layout_render name devs) t = shown t devs.
Proof using LF.
  intros Hsel Htab. unfold layout_render, InitializeForm, form_, InitializeButtons, save_, exit_.
  rewrite active_renderer, active_vertical. cbn [mbind list_bind].
  rewrite active_renderer, active_vertical, active_horizontal. cbn [mbind list_bind].
  unfold InitName, InitCompDisk, InitCompVtpm, InitCompRpmb.
  rewrite active_drawing, !active_Get, active_firm, active_vgpu, active_pt, !active_renderer, !active_vertical, !active_button by done.
  cbn [mbind list_bind]. rewrite !active_Get. cbn. unfold shown. cbn. do 7 f_equal.
  repeat (rewrite <-app_assoc; cbn [app]). reflexivity.
Qed.
End view.

(** ** What is saved is what is shown *)

(** The section and key under which [SetConfToPtree] stores a field. *)
Definition field_key (f : InputField) : string * string :=
  match f with
  | flashfiles_ => (kGroupGlob, kGlobFlashfiles) | emulator_ => (kGroupEmul, kEmulPath)
  | memory_ => (kGroupMem, kMemSize) | vcpu_ => (kGroupVcpu, kVcpuNum)
  | disk_size_ => (kGroupDisk, kDiskSize) | disk_path_ => (kGroupDisk, kDiskPath)
  | firm_unified_ => (kGroupFirm, kFirmPath) | firm_splited_code_ => (kGroupFirm, kFirmCode)
  | firm_splited_data_ => (kGroupFirm, kFirmVars) | gvtg_uuid_ => (kGroupVgpu, kVgpuUuid)
  | swtpm_bin_ => (kGroupVtpm, kVtpmBinPath) | swtpm_data_ => (kGroupVtpm, kVtpmDataDir)
  | rpmb_bin_ => (kGroupRpmb, kRpmbBinPath) | rpmb_data_ => (kGroupRpmb, kRpmbDataDir)
  | adb_port_ => (kGroupNet, kNetAdbPort) | fastboot_port_ => (kGroupNet, kNetFastbootPort)
  | batt_med_ => (kGroupMed, kMedBattery) | therm_med_ => (kGroupMed, kMedThermal)
  | aaf_ => (kGroupAaf, kAafPath) | tkeep_ => (kGroupService, kServTimeKeep)
  | pmctl_ => (kGroupService, kServPmCtrl) | extra_ => (kGroupExtra, kExtraCmd)
  end.

(** The fields on the form, as [shown] has them. *)
Definition field_shown (t : CivTui) (f : InputField) : bool :=
  match f with
  | firm_unified_ => firmware_type_selected_ t =? 0
  | firm_splited_code_ | firm_splited_data_ => negb (firmware_type_selected_ t =? 0)
  | gvtg_uuid_ => vgpu_selected_ t =? 3
  | _ => true
  end.

Lemma field_shown_spec t devs f : WInput f ∈ shown t devs ↔ field_shown t f = true.
Proof.
  assert (∀ g, WInput g ∉ imap (λ i (_ : CheckBoxState), WCheck i) devs) as Hd.
  { intros g Hin. apply list_elem_of_lookup in Hin as [i Hi]. rewrite list_lookup_imap in Hi.
    by destruct (devs !! i). }
  unfold shown. destruct (firmware_type_selected_ t =? 0) eqn:Hf, (vgpu_selected_ t =? 3) eqn:Hv,
    (pt_pci_tab_id_ t =? 0); destruct f; cbn [field_shown]; rewrite ?Hf, ?Hv; cbn [negb];
    set_solver.
Qed.

Lemma field_stored t f :
  if field_shown t f then (field_key f, content_ t f) ∈ form_values t
  else field_key f ∉ fst <$> form_values t.
Proof.
  unfold form_values, field_shown.
  destruct f; destruct (firmware_type_selected_ t =? 0), (vgpu_selected_ t =? 3); cbn [negb].
  all: try (apply (bool_decide_unpack _); vm_compute; exact I).
  all: cbn; repeat first [by apply list_elem_of_here | apply list_elem_of_further].
Qed.

(** ** What is drawn *)

(** The fields of the form, from top to bottom. *)
Definition all_fields : list InputField :=
  [flashfiles_; emulator_; memory_; vcpu_; disk_size_; disk_path_;
   firm_unified_; firm_splited_code_; firm_splited_data_; gvtg_uuid_;
   swtpm_bin_; swtpm_data_; rpmb_bin_; rpmb_data_;
   adb_port_; fastboot_port_; batt_med_; therm_med_; aaf_; tkeep_; pmctl_; extra_].

(** The inputs among the pieces, with what they show. *)
Definition as_input (p : Piece) : option (InputField * string) :=
  match p with PInput f x => Some (f, x) | PText _ => None end.
Definition inputs : list Piece → list (InputField * string) := omap as_input.

Lemma inputs_app l l' : inputs (l ++ l') = inputs l ++ inputs l'.
Proof. apply omap_app. Qed.
Lemma inputs_text l : Forall is_text l → inputs l = [].
Proof. induction 1 as [|[x|f x] l Hx Hl IH]; done. Qed.

Lemma fields_filtered t :
  filter (λ f, field_shown t f = true) all_fields =
  [flashfiles_; emulator_; memory_; vcpu_; disk_size_; disk_path_]
  ++ (if firmware_type_selected_ t =? 0 then [firm_unified_] else [firm_splited_code_; firm_splited_data_])
  ++ (if vgpu_selected_ t =? 3 then [gvtg_uuid_] else [])
  ++ [swtpm_bin_; swtpm_data_; rpmb_bin_; rpmb_data_;
      adb_port_; fastboot_port_; batt_med_; therm_med_; aaf_; tkeep_; pmctl_; extra_].
Proof.
  unfold all_fields, field_shown.
  by destruct (firmware_type_selected_ t =? 0), (vgpu_selected_ t =? 3).
Qed.

Section drawing.
Context {F : Ftxui} (LF : FtxuiLaws F).

Definition field_text (t : CivTui) (f : InputField) : InputField * string := (f, input_text f (field_hint f) t).

Lemma inputs_Get f t : inputs (drawn (Get f) t) = [field_text t f].
Proof using LF.
  unfold Get, input_. rewrite drawn_renderer. unfold pieces, RenderInput, input_. cbn [pieces_of mbind list_bind app].
  by rewrite drawn_input.
Qed.
Lemma inputs_plain c t : plain c → inputs (drawn c t) = [].
Proof using LF. intros Hc. by apply inputs_text, drawn_plain. Qed.

(** Spread the inputs of a drawing over its parts. *)
Ltac drawn_go :=
  unfold pieces; cbn [pieces_of mbind list_bind app];
  rewrite ?app_nil_r, ?inputs_app, ?inputs_Get.

Lemma inputs_firm t :
  selections_ok t → inputs (drawn InitCompFirm t) = field_text t <$>
    (if firmware_type_selected_ t =? 0 then [firm_unified_] else [firm_splited_code_; firm_splited_data_]).
Proof using LF.
  intros (Hfw & _). unfold InitCompFirm. rewrite drawn_renderer. drawn_go.
  change (PText "firmware: " :: drawn cfirm_inner_ t) with ([PText "firmware: "] ++ drawn cfirm_inner_ t).
  rewrite inputs_app. unfold cfirm_inner_. rewrite drawn_vertical. drawn_go. rewrite inputs_plain by done. cbn [app].
  destruct (Z.eqb_spec (firmware_type_selected_ t) 0) as [H0|H0].
  - rewrite (drawn_tab _ _ _ (Get firm_unified_)); cbn; rewrite ?H0; [apply inputs_Get|done..].
  - assert (firmware_type_selected_ t = 1) as H1 by lia.
    rewrite (drawn_tab _ _ _ (Vertical [Get firm_splited_code_; Get firm_splited_data_])); [|cbn; by rewrite H1..].
    rewrite drawn_vertical. by drawn_go.
Qed.

Lemma inputs_vgpu t :
  selections_ok t → inputs (drawn InitCompVgpu t) = field_text t <$>
    (if vgpu_selected_ t =? 3 then [gvtg_uuid_] else []).
Proof using LF.
  intros (_ & Hvg & _). unfold InitCompVgpu. rewrite drawn_renderer. drawn_go.
  change (PText "graphics: " :: drawn cvgpu_type_ t ++ drawn cvgpu_side_ t)
    with ([PText "graphics: "] ++ drawn cvgpu_type_ t ++ drawn cvgpu_side_ t).
  rewrite !inputs_app. unfold cvgpu_type_. rewrite inputs_plain by done. cbn [app]. unfold cvgpu_side_.
  destruct (Z.eqb_spec (vgpu_selected_ t) 3) as [H3|H3].
  - rewrite (drawn_tab _ _ _ cgvtg_sub_); [|cbn; by rewrite H3..].
    unfold cgvtg_sub_. rewrite drawn_vertical. drawn_go. by rewrite inputs_plain.
  - rewrite (drawn_tab _ _ _ (Drawing (λ _, emptyElement))); [by rewrite drawn_drawing|cbn; lia|cbn].
    assert (vgpu_selected_ t = 0 ∨ vgpu_selected_ t = 1 ∨ vgpu_selected_ t = 2 ∨ vgpu_selected_ t = 4)
      as [->|[->|[->| ->]]] by lia; done.
Qed.

Lemma inputs_pt devs t : tab_ok t → inputs (drawn (cpt_ devs) t) = [].
Proof using LF.
  intros Htab. unfold cpt_. rewrite drawn_renderer. drawn_go. unfold cpt_inner_, cpt_inner_left_btn_.
  rewrite drawn_renderer. unfold pieces. cbn [pieces_of mbind list_bind app]. rewrite drawn_button. cbn [app].
  rewrite app_nil_r. change (inputs (drawn (cpt_inner_right_ devs) t) = []).
  unfold cpt_inner_right_. destruct Htab as [H|H].
  - rewrite (drawn_tab _ _ _ (Menu pt_pci_disp_)); [by apply inputs_plain|cbn; by rewrite H..].
  - rewrite (drawn_tab _ _ _ (cpt_inner_right_edit_ devs)); [|cbn; by rewrite H..].
    unfold cpt_inner_right_edit_. rewrite drawn_vertical. apply inputs_text. clear H.
    assert (∀ g : nat → nat, Forall is_text (imap (λ i c, Checkbox (cb_name c) (g i)) devs ≫= (λ c, drawn c t))) as Hg.
    { induction devs as [|d devs IH]; intros g; [constructor|]. cbn. apply Forall_app.
      split; [by apply drawn_plain|]. apply (IH (λ i, g (S i))). }
    apply (Hg (λ i, i)).
Qed.

(** The inputs on the screen: the fields that the choices do not hide, once
    each and in their order, with their contents or hints. *)
Lemma layout_inputs name devs t :
  selections_ok t → tab_ok t →
  inputs (drawn (layout_render name devs) t) = field_text t <$> filter (λ f, field_shown t f = true) all_fields.
Proof using LF.
  intros Hsel Htab. unfold layout_render. rewrite drawn_renderer. unfold pieces. cbn [pieces_of mbind list_bind app].
  rewrite !app_nil_r. change (inputs (PText ?x :: ?l)) with (inputs l).
  rewrite inputs_app. change (inputs (PText ?x :: ?l)) with (inputs l).
  unfold InitializeButtons, save_, exit_. rewrite drawn_horizontal. cbn [mbind list_bind]. rewrite !drawn_button.
  rewrite app_nil_r. unfold InitializeForm. rewrite drawn_renderer. unfold pieces. cbn [pieces_of mbind list_bind app].
  rewrite app_nil_r. unfold form_. rewrite drawn_vertical. cbn [mbind list_bind].
  rewrite !inputs_app, !inputs_Get, inputs_firm, inputs_vgpu, inputs_pt by done.
  unfold InitName, InitCompDisk, InitCompVtpm, InitCompRpmb. rewrite drawn_drawing, !drawn_renderer.
  unfold pieces. cbn [pieces_of mbind list_bind app]. rewrite !app_nil_r.
  change (inputs (PText ?x :: ?l)) with (inputs l). rewrite !inputs_app, !inputs_Get.
  rewrite fields_filtered, !fmap_app. reflexivity.
Qed.

End drawing.

Section saved.
Context {B : Boost} {L : BoostLaws B} {E : OsEnv} {F : Ftxui} (LF : FtxuiLaws F).

(** C22: what you see is what is saved.  The inputs on the screen are distinct,
    are those that take keys, and each shows its content, or its hint while it
    is empty.  When the form is stored, a field that is on the screen leaves
    its content under its key, without the surrounding spaces; an empty one,
    and a field that the present choices hide, whatever has been typed into
    it, leave the key as it was: empty in a fresh configuration, and what an
    earlier attempt to save stored otherwise. *)
Theorem saved_is_shown (s : TuiSt) name devs f :
  selections_ok (tui s) → tab_ok (tui s) →
  let on_screen := inputs (drawn (layout_render name devs) (tui s)) in
  let old := GetValue (field_key f).1 (field_key f).2 (civ_config_ (tui s)) in
  NoDup (fst <$> on_screen)
  ∧ (f ∈ fst <$> on_screen ↔ WInput f ∈ active (layout_render name devs) (tui s))
  ∧ (∀ x, (f, x) ∈ on_screen → x = input_text f (field_hint f) (tui s))
  ∧ ∃ s', SetConfToPtree s = (Ret tt, s')
    ∧ GetValue (field_key f).1 (field_key f).2 (civ_config_ (tui s'))
      = if bool_decide (f ∈ fst <$> on_screen) then stored_text old (content_ (tui s) f) else old.
Proof using L LF.
  intros Hsel Htab. cbv zeta. rewrite (layout_inputs LF) by done. rewrite <-list_fmap_compose.
  change (fst ∘ field_text (tui s)) with (λ f : InputField, f). rewrite list_fmap_id.
  assert (f ∈ filter (λ f, field_shown (tui s) f = true) all_fields ↔ field_shown (tui s) f = true) as Hf.
  { rewrite list_elem_of_filter. split; [by intros []|]. intros H. split; [done|].
    destruct f; apply (bool_decide_unpack _); vm_compute; exact I. }
  destruct (stored_form s Hsel) as (s' & Hr & Hin & Hout). split_and!.
  - apply NoDup_filter. apply (bool_decide_unpack _). vm_compute. exact I.
  - by rewrite Hf, (layout_shown LF), field_shown_spec.
  - intros x Hx. apply list_elem_of_fmap in Hx as (g & [= -> ->] & _). done.
  - exists s'. split; [done|]. rewrite (bool_decide_ext _ _ Hf).
    pose proof (field_stored (tui s) f) as Hs. destruct (field_shown (tui s) f).
    + rewrite bool_decide_eq_true_2 by done. destruct (field_key f) as [g k]. by apply Hin.
    + rewrite bool_decide_eq_false_2 by done.
      apply Hout; [|by destruct (field_key f)]. destruct f; apply accepted_has; vm_compute; reflexivity.
Qed.
End saved.

(** ** Sessions *)

(** FTXUI turns keys and clicks into changes of what the active components are
    bound to, and keeps a selection within the entries. *)
Definition deliverable (w : list Widget) (ev : ui_event) : Prop :=
  let choice r i := ∃ n, WSelect r n ∈ w ∧ 0 ≤ i < Z.of_nat n in
  match ev with
  | UiInput f _ => WInput f ∈ w
  | UiFirmware i => choice ref_firmware_type_selected_ i
  | UiVgpu i => choice ref_vgpu_selected_ i
  | UiGvtg i => choice ref_gvtg_ver_selected_ i
  | UiCheck n _ => WCheck n ∈ w
  | UiPtButton => WButton ClickPt ∈ w
  | UiSave => WButton ClickSave ∈ w
  | UiExit => WButton ClickExit ∈ w
  end.

Section session.
Context {B : Boost} {E : OsEnv} {F : Ftxui} (LF : FtxuiLaws F) (capable : Creds → bool).

(** Every event comes from what is active when it comes. *)
Fixpoint session (layout : Component) (evs : list ui_event) (s : TuiSt) : Prop :=
  match evs with
  | [] => True
  | ev :: evs =>
      deliverable (active layout (tui s)) ev
      ∧ match handle capable ev s with (Ret _, s') => session layout evs s' | _ => True end
  end.

(** The names of the devices that are ticked. *)
Definition ticked (t : CivTui) : list string := cb_name <$> filter (λ c, cb_checked c = true) (pci_dev_ t).

Record form_inv (t : CivTui) : Prop := {
  fi_sel : selections_ok t;
  fi_tab : tab_ok t;
  fi_disp : pt_pci_tab_id_ t = 0 → pt_pci_disp_ t = ticked t;
  fi_label : pt_btn_lable_ t = if pt_pci_tab_id_ t =? 0 then "Edit" else "Done";
}.

(** Saving changes the configuration, the status and whether to go on. *)
Definition same_form (s s' : TuiSt) : Prop := form_inv (tui s) → form_inv (tui s').
#[local] Instance same_form_preorder : PreOrder same_form.
Proof. split; [by intros s H|intros s1 s2 s3 H1 H2 H; auto]. Qed.

Lemma form_os {A} (c : M OsSt A) : grows same_form (ui_os c).
Proof. intros s. unfold ui_os, lift. destruct (c (t_os s)). exact (λ H, H). Qed.
Lemma form_upd f : (∀ t, form_inv t → form_inv (f t)) → grows same_form (upd_tui f).
Proof. intros Hf. apply grows_modify. intros s. exact (Hf (tui s)). Qed.
Lemma form_config c t : form_inv t → form_inv (set_config c t).
Proof. by intros []. Qed.
Lemma form_set g k v : grows same_form (conf_set g k v).
Proof. apply form_upd. intros t. apply form_config. Qed.
Lemma form_write p : grows same_form (ui_write p).
Proof.
  intros s. unfold ui_write, lift. destruct (WriteConfigFile p _) as [r [c o]]. exact (form_config c (tui s)).
Qed.
Lemma form_at v i : grows same_form (vec_at v i).
Proof. unfold vec_at. grows_go fail. Qed.

Lemma form_input g k f : grows same_form (conf_input g k f).
Proof. unfold conf_input. grows_go ltac:(apply form_set). Qed.

(** Steps of the form, by their head. *)
Ltac form_leaf :=
  match goal with
  | |- grows _ (ui_os _) => apply form_os
  | |- grows _ (vec_at _ _) => apply form_at
  | |- grows _ (conf_set _ _ _) => apply form_set
  | |- grows _ (conf_input _ _ _) => apply form_input
  | |- grows _ (ui_write _) => apply form_write
  | |- grows _ (upd_tui _) => apply form_upd; by intros ? []
  end.

Lemma form_set_conf : grows same_form SetConfToPtree.
Proof. unfold SetConfToPtree. grows_go ltac:(idtac; form_leaf). Qed.

Lemma form_save : grows same_form (SaveOn capable).
Proof.
  unfold SaveOn. apply grows_bind; [exact _| |].
  { intros s. unfold lift. destruct (GetConfigPath _ _). exact (λ H, H). }
  intros dir. grows_go ltac:(first [form_leaf | apply form_set_conf]).
Qed.

Lemma no_check t devs n : WCheck n ∈ shown t devs → pt_pci_tab_id_ t ≠ 0.
Proof.
  intros Hin Ht. unfold shown in Hin. rewrite Ht in Hin. cbn in Hin.
  destruct (firmware_type_selected_ t =? 0), (vgpu_selected_ t =? 3); set_solver.
Qed.
Lemma select_range t devs r n i :
  WSelect r n ∈ shown t devs → 0 ≤ i < Z.of_nat n →
  match r with
  | ref_firmware_type_selected_ => 0 ≤ i < 2
  | ref_vgpu_selected_ => 0 ≤ i < 5
  | ref_gvtg_ver_selected_ => 0 ≤ i < 4
  | ref_pt_pci_tab_id_ => False
  end.
Proof.
  assert (WSelect r n ∉ imap (λ i (_ : CheckBoxState), WCheck i) devs) as Hd.
  { intros Hin. apply list_elem_of_lookup in Hin as [j Hj]. rewrite list_lookup_imap in Hj.
    by destruct (devs !! j). }
  intros Hin Hi. unfold shown in Hin.
  destruct (firmware_type_selected_ t =? 0), (vgpu_selected_ t =? 3), (pt_pci_tab_id_ t =? 0), r;
    set_unfold in Hin; naive_solver lia.
Qed.

Lemma handle_form layout name devs ev s :
  layout = layout_render name devs → form_inv (tui s) → deliverable (active layout (tui s)) ev →
  form_inv (tui (handle capable ev s).2).
Proof using LF.
  intros -> Hf. pose proof Hf as [Hs Ht Hd Hl]. rewrite (layout_shown LF) by done.
  destruct ev as [f x|i|i|i|n b| | |]; cbn [handle deliverable].
  - intros _. by split.
  - intros (n & Hn & Hi). pose proof (select_range _ _ _ _ _ Hn Hi). split; try done. by destruct Hs as (? & ? & ?).
  - intros (n & Hn & Hi). pose proof (select_range _ _ _ _ _ Hn Hi). split; try done. by destruct Hs as (? & ? & ?).
  - intros (n & Hn & Hi). pose proof (select_range _ _ _ _ _ Hn Hi). split; try done. by destruct Hs as (? & ? & ?).
  - intros Hn%no_check. by split.
  - intros _. unfold PtPciClickButton. cbn. destruct Ht as [Ht|Ht]; rewrite Ht; split; cbn; try done;
      unfold tab_ok; cbn; auto.
  - intros _. by apply form_save.
  - intros _. by split.
Qed.

Lemma session_form name devs evs s :
  session (layout_render name devs) evs s → form_inv (tui s) →
  form_inv (tui (ui_loop capable evs s).2).
Proof using LF.
  revert s. induction evs as [|ev evs IH]; intros s Hse Hf; cbn [ui_loop]; unfold mbind, M_bind, gets.
  - by destruct (exit_loop (tui s)).
  - destruct (exit_loop (tui s)); [done|]. destruct Hse as [Hd Hse].
    pose proof (handle_form _ name devs ev s eq_refl Hf Hd) as Hf'.
    destruct (handle capable ev s) as [[[]|e|] s']; [by apply IH|done..].
Qed.

(** A new form before its first event. *)
Definition opened (name : string) : M TuiSt unit := upd_tui (set_filename name) ;; InitCompPciPt.

Lemma opened_form name s s1 : tui s = new_CivTui → opened name s = (Ret tt, s1) → form_inv (tui s1).
Proof.
  intros Hs. unfold opened, InitCompPciPt, ui_os, lift. sx_unfold. cbn.
  destruct (os_handle (ProcOutput "lspci -D") _) as [[out|] w]; [|done]. intros [= <-]. cbn. rewrite Hs. cbn.
  split; cbn; [repeat split; cbn; lia|by left| |done].
  intros _. unfold ticked. cbn. generalize (filter (λ l, str_empty l = false) (getline_all out)). intros l.
  by induction l.
Qed.

(** C23: in a session that delivers only what the active components of the
    layout can send, the selections stay within their lists, so that storing
    the form never leaves its vectors; and whenever the device list is not
    being edited, the devices that are stored are exactly the ticked ones. *)
Theorem form_session name evs s s1 :
  tui s = new_CivTui → opened name s = (Ret tt, s1) →
  session (layout_render name (pci_dev_ (tui s1))) evs s1 →
  let s' := (InitializeUi capable name evs s).2 in
  selections_ok (tui s') ∧ (∃ s'', SetConfToPtree s' = (Ret tt, s''))
  ∧ (pt_pci_tab_id_ (tui s') = 0 → pt_pci_disp_ (tui s') = ticked (tui s')).
Proof using LF.
  intros Hs Ho Hse. assert (InitializeUi capable name evs s = ui_loop capable evs s1) as Hi.
  { unfold InitializeUi, opened in *. apply bind_ret_inv in Ho as (u & s0 & H1 & H2). bstep H1. by bstep H2. }
  cbv zeta. rewrite Hi. pose proof (session_form _ _ _ _ Hse (opened_form _ _ _ Hs Ho)) as [Hsel Htab Hd _].
  split_and!; try done.
  pose proof (SetConfToPtree_runs _ (λ _ _, False) Hsel _ eq_refl) as Hr.
  destruct (SetConfToPtree _) as [[[]|e|] s'']; [|done..]. by exists s''.
Qed.

(** The status is on the screen: a SAVE that was refused can be seen. *)
Lemma status_drawn name devs t : PText (status_bar_ t) ∈ drawn (layout_render name devs) t.
Proof using LF. unfold layout_render. rewrite drawn_renderer. cbn. set_solver. Qed.
End session.

(** ** Examples *)

Module ViewDemo.
#[local] Existing Instance RefBoost.ref_boost.
#[local] Existing Instance RefFtxui.ref_ftxui.

(** A machine with two devices. *)
#[local] Instance pci_os : OsEnv := {|
  os_world := SimOs.sim;
  os_handle A c w :=
    match c in oscall A return A * SimOs.sim with
    | ProcOutput _ => (Some ("0000:00:02.0 VGA" +:+ String newline ("0000:00:14.0 USB" +:+ String newline EmptyString)), w)
    | c => SimOs.sim_handle _ c w
    end |}.

Definition fresh : TuiSt :=
  mkTuiSt new_CivTui (mkUtil (Some "/home/u/.intel/.civ") UtilsDemo.root
    (@mkOsSt pci_os (os_w (SimOs.boot [] [] [])) [] [])).
Definition first : TuiSt := (opened "civ-1" fresh).2.

Lemma first_opened : opened "civ-1" fresh = (Ret tt, first).
Proof.
  assert ((opened "civ-1" fresh).1 = Ret tt) as <- by (vm_compute; reflexivity). apply surjective_pairing.
Qed.

(** The second device is ticked. *)
Definition tick : list ui_event := [UiPtButton; UiCheck 1 true].

Lemma tick_session : session UtilsDemo.root_only (layout_render "civ-1" (pci_dev_ (tui first))) (tick ++ [UiPtButton]) first.
Proof. vm_compute. repeat split; repeat first [apply list_elem_of_here | apply list_elem_of_further]. Qed.

Lemma form_session_witness :
  pt_pci_disp_ (tui (InitializeUi UtilsDemo.root_only "civ-1" (tick ++ [UiPtButton]) fresh).2)
  = ["0000:00:14.0 USB"].
Proof.
  pose proof (form_session RefFtxui.ftxui_ref_laws UtilsDemo.root_only "civ-1" (tick ++ [UiPtButton]) fresh first
    eq_refl first_opened tick_session) as H. cbv zeta in H. destruct H as (_ & _ & H).
  etrans; [apply H; vm_compute; reflexivity|]. vm_compute. reflexivity.
Defined.

Lemma saved_is_shown_witness :
  (emulator_, " /usr/bin/qemu ") ∈ inputs (drawn (layout_render "civ-1" []) (tui TuiDemo.start))
  ∧ ∃ s', SetConfToPtree TuiDemo.start = (Ret tt, s')
    ∧ GetValue kGroupEmul kEmulPath (civ_config_ (tui s')) = "/usr/bin/qemu".
Proof.
  split; [apply (bool_decide_unpack _); vm_compute; exact I|].
  destruct (saved_is_shown (L := RefBoost.ref_laws) RefFtxui.ftxui_ref_laws TuiDemo.start "civ-1" [] emulator_)
    as (_ & _ & _ & s' & Hr & Hv); [vm_compute; repeat split; discriminate|by left|].
  exists s'. split; [exact Hr|]. etrans; [exact Hv|]. vm_compute. reflexivity.
Defined.

(** Devices that are ticked while the list is being edited are not stored
    before the edit is ended with the button. *)
Example open_edit_not_stored :
  let s := (InitializeUi UtilsDemo.root_only "civ-1" tick fresh).2 in
  ticked (tui s) = ["0000:00:14.0 USB"]
  ∧ GetValue kGroupPciPt kPciPtDev (civ_config_ (tui (SetConfToPtree s).2)) = EmptyString.
Proof. vm_compute. auto. Qed.
End ViewDemo.
