(* ===== verification/Devices.v ===== *)
(** * Host devices

    The device helpers of guest/vm_builder_qemu.cc: access to files under
    /sys, huge pages for SR-IOV guests, choice of a virtual function, and
    handing PCI devices of an IOMMU group to and from vfio-pci. *)

From S2P Require Import Prelude.
From S2P Require Import CStd.
From S2P Require Import Boost.
From S2P Require Import Os.
From Stdlib Require Import Ascii.

Local Open Scope Z_scope.

Definition kPciDevicePath : string := "/sys/bus/pci/devices/".
Definition kPciDriverProbe : string := "/sys/bus/pci/drivers_probe".
Definition kIntelGpuBdf : string := "0000:00:02.0".
Definition kIntelGpuDevPath : string := "/sys/bus/pci/devices/0000:00:02.0/".
Definition kIntelGpuDevice : string := "/sys/bus/pci/devices/0000:00:02.0/device".
Definition kIntelGpuSriovTotalVfs : string := "/sys/bus/pci/devices/0000:00:02.0/sriov_totalvfs".
Definition kIntelGpuSriovAutoProbe : string := "/sys/bus/pci/devices/0000:00:02.0/sriov_drivers_autoprobe".
Definition kIntelGpuSriovNumVfs : string := "/sys/bus/pci/devices/0000:00:02.0/sriov_numvfs".
Definition kVfioPciNewId : string := "/sys/bus/pci/drivers/vfio-pci/new_id".
Definition kVfioPciRemoveId : string := "/sys/bus/pci/drivers/vfio-pci/remove_id".
Definition kVfioPciUnbind : string := "/sys/bus/pci/drivers/vfio-pci/unbind".
Definition kVfioModulePath : string := "/sys/module/vfio/".
Definition kVfioPciModulePath : string := "/sys/module/vfio_pci/".
Definition kGvtgMdevTypePath : string := "/sys/bus/pci/devices/0000:00:02.0/mdev_supported_types/".
Definition kSys2MFreeHugePages : string := "/sys/kernel/mm/hugepages/hugepages-2048kB/free_hugepages".
Definition kSys2MNrHugePages : string := "/sys/kernel/mm/hugepages/hugepages-2048kB/nr_hugepages".
Definition kDrmCard0Vf : string := "/sys/class/drm/card0/iov/vf".
Definition kGtPreemptTimeoutUs : string := "/gt/preempt_timeout_us".
Definition kGtExecQuantumMs : string := "/gt/exec_quantum_ms".
Definition kPreemptTimeout : Z := 50000.
Definition kExecQuantum : Z := 25.

Definition EEXIST : Z := 17.

(** [std::ios_base::dec] and [std::ios_base::hex] *)
Definition ios_dec : Z := 10.
Definition ios_hex : Z := 16.

(** The amount of memory in MB a size string stands for: the checks and the
    unit switch at the head of [SetupHugePages]. *)
Definition parse_mem_mb (mem_size : string) : option Z :=
  if str_empty mem_size then None else
  match (stoi 0 mem_size tt).1 with
  | Ret (mem_mb, _) =>
      if mem_mb <=? 0 then None else
      match str_last mem_size with
      | None => None
      | Some c =>
          let u := toupper c in
          if between "0" "9" u || between "A" "F" u || bool_decide (u = "M"%char)
          then Some mem_mb
          else if bool_decide (u = "G"%char) then
            if Z.quot INT32_MAX 1024 <? mem_mb then None else Some (mem_mb * 1024)
          else None
      end
  | _ => None
  end.

Inductive PciPassthroughAction : Type := kPciPassthrough | kPciRestore.

#[export] Instance action_eq_dec : EqDecision PciPassthroughAction.
Proof. solve_decision. Defined.

Section devices.
Context {B : Boost} {E : OsEnv}.

(** [static bool CheckUuid(std::string uuid)] *)
Definition CheckUuid (uuid : string) : bool :=
  match uuid_size uuid with
  | Some n => if negb (n =? 16) then false else true
  | None => false
  end.

(** [static bool IsVfioDriver(const char *path)] *)
Definition IsVfioDriver (path : string) : M OsSt bool :=
  lnk ← os (FsIsSymlink path);
  if (lnk : bool) then
    s ← os (FsReadSymlink path);
    mret (bool_decide (path_filename s = "vfio-pci"))
  else mret false.

(** [static int ReadSysFile(const char *sys_file, fmtflags base)]: when the
    file does not open, the extraction leaves the local variable
    uninitialised. *)
Definition ReadSysFile (sys_file : string) (base : Z) : M OsSt Z :=
  txt ← os (FileRead sys_file);
  match txt with
  | Some content => mret (extract_int base content)
  | None => os IndetInt
  end.

(** [static int WriteSysFile(const char *sys_file, const std::string &str)]:
    an output stream reports failures in its state and does not throw, so the
    [catch] that returns [errno] is never entered. *)
Definition WriteSysFile (sys_file str : string) : M OsSt Z :=
  os (FileWrite sys_file str) ;; mret 0.

(** The loop that waits for the kernel to reach the requested number, with
    [n] waits left. *)
Fixpoint wait_hugepages (n : nat) (nr_hp required_hp : Z) : M OsSt bool :=
  if nr_hp =? required_hp then mret true
  else
    nr ← ReadSysFile kSys2MNrHugePages ios_dec;
    match n with
    | S n => os (Usleep 10000) ;; wait_hugepages n nr required_hp
    | O => mret false
    end.

(** [static bool SetupHugePages(const std::string &mem_size)] *)
Definition SetupHugePages (mem_size : string) : M OsSt bool :=
  match parse_mem_mb mem_size with
  | None => mret false
  | Some mem_mb =>
      free_hp ← ReadSysFile kSys2MFreeHugePages ios_dec;
      if Z.quot mem_mb 2 <=? free_hp then mret true else
      nr_hp ← ReadSysFile kSys2MNrHugePages ios_dec;
      let required_hp := nr_hp - free_hp + Z.quot mem_mb 2 in
      WriteSysFile kSys2MNrHugePages (to_string required_hp) ;;
      wait_hugepages 200 nr_hp required_hp
  end.

(** [static bool LoadKernelModule(const char *path, const std::string &module)] *)
Definition LoadKernelModule (path module : string) : M OsSt bool :=
  ex ← os (FsExists path);
  if negb ex then
    rc ← proc_system ("modprobe " +:+ module);
    mret (rc =? 0)
  else mret true.

(** The search for a virtual function that is not enabled, from [i] on with
    [n] candidates left. *)
Fixpoint vf_loop (n : nat) (i : Z) : M OsSt Z :=
  match n with
  | O => mret (-1)
  | S n =>
      let sd := str_take (String.length kIntelGpuDevPath - 2) kIntelGpuDevPath
                +:+ to_string i +:+ "/enable" in
      status ← ReadSysFile sd ios_dec;
      if status =? 0 then
        WriteSysFile (kDrmCard0Vf +:+ to_string i +:+ kGtPreemptTimeoutUs)
          (to_string kPreemptTimeout) ;;
        WriteSysFile (kDrmCard0Vf +:+ to_string i +:+ kGtExecQuantumMs)
          (to_string kExecQuantum) ;;
        mret i
      else vf_loop n (i + 1)
  end.

(** [static int SetAvailableVf(void)]; [return false] is 0. *)
Definition SetAvailableVf : M OsSt Z :=
  l1 ← LoadKernelModule kVfioModulePath "vfio";
  if negb l1 then mret (-1) else
  l2 ← LoadKernelModule kVfioPciModulePath "vfio-pci";
  if negb l2 then mret (-1) else
  totalvfs ← ReadSysFile kIntelGpuSriovTotalVfs ios_dec;
  if totalvfs <=? 0 then mret (-1) else
  current_vfs ← ReadSysFile kIntelGpuSriovNumVfs ios_dec;
  if current_vfs <? 0 then mret (-1) else
  when (current_vfs =? 0)
    (WriteSysFile kIntelGpuSriovAutoProbe "0" ;;
     WriteSysFile kIntelGpuSriovNumVfs "0" ;;
     WriteSysFile kIntelGpuSriovNumVfs (to_string totalvfs) ;;
     WriteSysFile kIntelGpuSriovAutoProbe "1" ;; skip) ;;
  dev_id ← ReadSysFile kIntelGpuDevice ios_hex;
  if dev_id <? 0 then mret (-1) else
  let id := "8086 " +:+ format_x dev_id in
  errno_saved ← WriteSysFile kVfioPciNewId id;
  if errno_saved =? EEXIST then
    WriteSysFile kVfioPciRemoveId id ;; WriteSysFile kVfioPciNewId id ;;
    vf_loop (Z.to_nat (totalvfs - 1)) 1
  else if negb (errno_saved =? 0) then mret 0
  else vf_loop (Z.to_nat (totalvfs - 1)) 1.

(** The loop that waits until a driver link is gone, with [n] polls left:
    [true] when it went away in time. *)
Fixpoint wait_unbind (n : nat) (driver : string) : M OsSt bool :=
  match n with
  | O => mret false
  | S n =>
      ex ← os (FsExists driver);
      if negb ex then mret true
      else os (Usleep 1000) ;; wait_unbind n driver
  end.

Definition kCheckUnbindRepeatCount : nat := 2000.

(** One turn of the loop of [PassthroughOnePciDev] for the restore action. *)
Definition restore_dev (x ven_dev driver : string) : M OsSt bool :=
  vfio ← IsVfioDriver driver;
  when vfio
    (WriteSysFile kVfioPciRemoveId ven_dev ;;
     WriteSysFile kVfioPciUnbind (path_filename x) ;; skip) ;;
  os (Usleep 1000000) ;;
  e ← WriteSysFile kPciDriverProbe (path_filename x);
  mret (e =? 0).

(** One turn for the passthrough action. *)
Definition bind_dev (x ven_dev driver : string) : M OsSt bool :=
  ex ← os (FsExists driver);
  unbound ← (if (ex : bool) then
    vfio ← IsVfioDriver driver;
    when vfio (WriteSysFile kVfioPciRemoveId ven_dev ;; skip) ;;
    WriteSysFile (driver +:+ "/unbind") (path_filename x) ;;
    wait_unbind kCheckUnbindRepeatCount driver
  else mret true);
  if negb unbound then mret false else
  errno_saved ← WriteSysFile kVfioPciNewId ven_dev;
  if errno_saved =? EEXIST then
    WriteSysFile kVfioPciRemoveId ven_dev ;; WriteSysFile kVfioPciNewId ven_dev ;; mret true
  else mret (errno_saved =? 0).

(** The loop over the devices of the group. *)
Fixpoint passthrough_entries (action : PciPassthroughAction) (l : list string) : M OsSt bool :=
  match l with
  | [] => mret true
  | x :: l =>
      device ← ReadSysFile (x +:+ "/device") ios_hex;
      vendor ← ReadSysFile (x +:+ "/vendor") ios_hex;
      let ven_dev := format_x vendor +:+ " " +:+ format_x device in
      let driver := x +:+ "/driver" in
      ok ← match action with
           | kPciRestore => restore_dev x ven_dev driver
           | kPciPassthrough => bind_dev x ven_dev driver
           end;
      if (ok : bool) then passthrough_entries action l else mret false
  end.

(** [static bool PassthroughOnePciDev(const char *pci_id, action)] *)
Definition PassthroughOnePciDev (pci_id : string) (action : PciPassthroughAction) : M OsSt bool :=
  l1 ← LoadKernelModule kVfioModulePath "vfio";
  if negb l1 then mret false else
  l2 ← LoadKernelModule kVfioPciModulePath "vfio-pci";
  if negb l2 then mret false else
  let p := path_append (path_append kPciDevicePath pci_id) "/iommu_group/devices" in
  ex ← os (FsExists p);
  if negb ex then mret false else
  dir ← os (FsIsDirectory p);
  if negb dir then mret false else
  l ← dir_entries p;
  passthrough_entries action l.
End devices.

(** ** Lemmas *)

(** What a list of events writes to one file, in order. *)
Definition writes_to (q : string) (evs : list event) : list string :=
  omap (λ e, match e with EvWrite p s => if decide (p = q) then Some s else None | _ => None end)
    evs.

Lemma writes_to_app q e1 e2 : writes_to q (e1 ++ e2) = writes_to q e1 ++ writes_to q e2.
Proof. apply omap_app. Qed.

Lemma writes_to_write_eq q s evs : writes_to q (EvWrite q s :: evs) = s :: writes_to q evs.
Proof. unfold writes_to; simpl. by rewrite decide_True. Qed.
Lemma writes_to_write_ne q p s evs :
  p ≠ q → writes_to q (EvWrite p s :: evs) = writes_to q evs.
Proof. intros. unfold writes_to; simpl. by rewrite decide_False. Qed.

(** The unbind file of a device's driver is none of vfio's files. *)
Lemma unbind_ne_new_id x : (x +:+ "/driver") +:+ "/unbind" ≠ kVfioPciNewId.
Proof.
  intros H%(f_equal (λ s, take 2 (reverse (chars s)))). revert H.
  rewrite !chars_app, !reverse_app. vm_compute. congruence.
Qed.

Section device_lemmas.
Context {B : Boost} {E : OsEnv}.

(** A computation that always returns and changes nothing on the machine. *)
Definition quiet {A} (c : M OsSt A) : Prop :=
  ∀ s, ∃ a s', c s = (Ret a, s') ∧ os_log s' = os_log s.

Lemma quiet_os {A} (c : oscall A) : event_of c = [] → quiet (os c).
Proof. intros Hc s. destruct (os_run c s) as (a & w & _ & ->). eexists _, _. split; [done|].
  simpl. by rewrite Hc, app_nil_r. Qed.
Lemma quiet_ret {A} (a : A) : quiet (mret a).
Proof. intros s. by eexists _, _. Qed.
Lemma quiet_bind {A A'} (c : M OsSt A) (k : A → M OsSt A') :
  quiet c → (∀ a, quiet (k a)) → quiet (c ≫= k).
Proof.
  intros Hc Hk s. destruct (Hc s) as (a & s1 & H1 & L1). destruct (Hk a s1) as (b & s2 & H2 & L2).
  exists b, s2. rewrite (bind_run _ _ _ _ _ H1). split; [done|congruence].
Qed.

Lemma ReadSysFile_quiet f base : quiet (ReadSysFile f base).
Proof.
  apply quiet_bind; [by apply quiet_os|]. intros [c|]; [apply quiet_ret|by apply quiet_os].
Qed.

Lemma IsVfioDriver_quiet d : quiet (IsVfioDriver d).
Proof.
  apply quiet_bind; [by apply quiet_os|]. intros [|]; [|apply quiet_ret].
  apply quiet_bind; [by apply quiet_os|intros; apply quiet_ret].
Qed.

Lemma wait_unbind_quiet n d : quiet (wait_unbind n d).
Proof.
  induction n as [|n IH]; [apply quiet_ret|]. apply quiet_bind; [by apply quiet_os|].
  intros [|]; simpl; [|apply quiet_ret]. apply quiet_bind; [by apply quiet_os|done].
Qed.

Lemma wait_hugepages_quiet n a b : quiet (wait_hugepages n a b).
Proof.
  revert a. induction n as [|n IH]; intros a; cbn [wait_hugepages];
    (case_match; [apply quiet_ret|apply quiet_bind; [apply ReadSysFile_quiet|]; intros nr]).
  - apply quiet_ret.
  - apply quiet_bind; [by apply quiet_os|done].
Qed.

(** Writing a file under /sys always answers 0. *)
Lemma WriteSysFile_run f str s :
  ∃ s1, WriteSysFile f str s = (Ret 0, s1) ∧ os_log s1 = os_log s ++ [EvWrite f str].
Proof.
  unfold WriteSysFile. destruct (os_run (FileWrite f str) s) as (a & w & _ & H). bstep H. by eexists.
Qed.

Lemma restore_dev_spec x ven_dev driver s :
  ∃ s' evs, restore_dev x ven_dev driver s = (Ret true, s')
    ∧ os_log s' = os_log s ++ evs ∧ writes_to kPciDriverProbe evs = [path_filename x].
Proof.
  unfold restore_dev. destruct (IsVfioDriver_quiet driver s) as (vfio & s1 & H1 & L1). bstep H1.
  assert (∃ s2 evs, when vfio (WriteSysFile kVfioPciRemoveId ven_dev ;;
      WriteSysFile kVfioPciUnbind (path_filename x) ;; skip) s1 = (Ret tt, s2)
      ∧ os_log s2 = os_log s1 ++ evs ∧ writes_to kPciDriverProbe evs = []) as (s2 & e2 & H2 & L2 & W2).
  { destruct vfio; [|exists s1, []; by rewrite app_nil_r]. cbn [when].
    destruct (WriteSysFile_run kVfioPciRemoveId ven_dev s1) as (t1 & T1 & K1). bstep T1.
    destruct (WriteSysFile_run kVfioPciUnbind (path_filename x) t1) as (t2 & T2 & K2). bstep T2.
    eexists _, _. split; [done|]. rewrite K2, K1, <-app_assoc. split; done. }
  bstep H2.
  destruct (quiet_os (Usleep 1000000) eq_refl s2) as (? & s3 & H3 & L3). bstep H3.
  destruct (WriteSysFile_run kPciDriverProbe (path_filename x) s3) as (s4 & H4 & L4). bstep H4.
  eexists _, _. split; [done|]. rewrite L4, L3, L2, L1, <-app_assoc. split; [done|].
  by rewrite writes_to_app, W2, writes_to_write_eq.
Qed.

(** The part of [bind_dev] that frees the device from its driver. *)
Lemma unbind_part_spec x ven_dev s :
  ∃ u s' evs,
    (vfio ← IsVfioDriver (x +:+ "/driver");
     when vfio (WriteSysFile kVfioPciRemoveId ven_dev ;; skip) ;;
     WriteSysFile ((x +:+ "/driver") +:+ "/unbind") (path_filename x) ;;
     wait_unbind kCheckUnbindRepeatCount (x +:+ "/driver")) s = (Ret u, s')
    ∧ os_log s' = os_log s ++ evs ∧ writes_to kVfioPciNewId evs = [].
Proof.
  destruct (IsVfioDriver_quiet (x +:+ "/driver") s) as (vfio & t1 & H1 & T1). bstep H1.
  assert (∃ t2 evs, when vfio (WriteSysFile kVfioPciRemoveId ven_dev ;; skip) t1 = (Ret tt, t2)
    ∧ os_log t2 = os_log t1 ++ evs ∧ writes_to kVfioPciNewId evs = []) as (t2 & e2 & H2 & T2 & W2).
  { destruct vfio; [|exists t1, []; by rewrite app_nil_r]. cbn [when].
    destruct (WriteSysFile_run kVfioPciRemoveId ven_dev t1) as (t2 & K2 & T2). bstep K2.
    by eexists _, _. }
  bstep H2.
  destruct (WriteSysFile_run ((x +:+ "/driver") +:+ "/unbind") (path_filename x) t2)
    as (t3 & H3 & T3). bstep H3.
  destruct (wait_unbind_quiet kCheckUnbindRepeatCount (x +:+ "/driver") t3) as (u & t4 & H4 & T4).
  eexists _, _, _. split; [exact H4|]. rewrite T4, T3, T2, T1, <-app_assoc. split; [done|].
  rewrite writes_to_app, W2, writes_to_write_ne by apply unbind_ne_new_id. done.
Qed.

Lemma bind_dev_spec x ven_dev s :
  ∃ b s' evs, bind_dev x ven_dev (x +:+ "/driver") s = (Ret b, s')
    ∧ os_log s' = os_log s ++ evs
    ∧ writes_to kVfioPciNewId evs = if (b : bool) then [ven_dev] else [].
Proof.
  unfold bind_dev.
  destruct (quiet_os (FsExists (x +:+ "/driver")) eq_refl s) as (ex & s1 & H1 & L1). bstep H1.
  match goal with |- context [(?c ≫= _) s1] =>
    assert (∃ u s2 evs, c s1 = (Ret u, s2) ∧ os_log s2 = os_log s1 ++ evs
      ∧ writes_to kVfioPciNewId evs = []) as (u & s2 & e2 & H2 & L2 & W2) end.
  { destruct ex; [apply unbind_part_spec|exists true, s1, []; by rewrite app_nil_r]. }
  bstep H2. destruct u; cbn [negb].
  - destruct (WriteSysFile_run kVfioPciNewId ven_dev s2) as (s3 & H3 & L3). bstep H3.
    eexists true, _, _. split; [done|]. rewrite L3, L2, L1, <-app_assoc. split; [done|].
    by rewrite writes_to_app, W2, writes_to_write_eq.
  - eexists false, _, _. split; [done|]. rewrite L2, L1. split; done.
Qed.

(** *** Specifications by events *)

Lemma ReadSysFile_ends X f base : ends X (λ _ _, True) (ReadSysFile f base).
Proof. intros s. destruct (ReadSysFile_quiet f base s) as (a & s' & -> & L). exists []. by rewrite app_nil_r. Qed.

Lemma WriteSysFile_ends {A} X f str (k : Z → M OsSt A) (Q : A → list event → Prop) :
  ends X (λ b e2, Q b (EvWrite f str :: e2)) (k 0) → ends X Q (WriteSysFile f str ≫= k).
Proof.
  intros HQ. eapply (ends_bind _ _ _ (λ r e, r = 0 ∧ e = [EvWrite f str])).
  - intros s. destruct (WriteSysFile_run f str s) as (s' & -> & L). by eexists.
  - by intros a e [-> ->].
Qed.

Lemma LoadKernelModule_ends p m : ends (λ e, e = ExProcess) (λ _ _, True) (LoadKernelModule p m).
Proof.
  unfold LoadKernelModule, proc_system. eapply ends_any; [by apply ends_os|intros [] e1]; cbn [negb].
  - by apply ends_ret.
  - eapply ends_any; [|intros; by apply ends_ret].
    eapply ends_any; [by apply ends_os|intros [rc|] e2]; [by apply ends_ret|by apply ends_throw].
Qed.

(** -1, or a function whose two parameters have just been set. *)
Definition vf_ok (v : Z) (evs : list event) : Prop :=
  v = -1 ∨ (1 ≤ v ∧ ∃ e0, evs = e0 ++
    [EvWrite (kDrmCard0Vf +:+ to_string v +:+ kGtPreemptTimeoutUs) (to_string kPreemptTimeout);
     EvWrite (kDrmCard0Vf +:+ to_string v +:+ kGtExecQuantumMs) (to_string kExecQuantum)]).

Lemma vf_ok_app v e1 e2 : vf_ok v e2 → vf_ok v (e1 ++ e2).
Proof.
  intros [->|(Hv & e0 & ->)]; [by left|]. right. split; [done|]. eexists. by rewrite app_assoc.
Qed.

Lemma vf_loop_ends X n i : 1 ≤ i → ends X vf_ok (vf_loop n i).
Proof.
  revert i. induction n as [|n IH]; intros i Hi; cbn [vf_loop]; [by apply ends_ret; left|].
  eapply ends_any; [apply ReadSysFile_ends|intros st e1]. case_match.
  - do 2 apply WriteSysFile_ends. apply ends_ret. right. split; [done|]. exists e1. done.
  - eapply ends_mono; [apply IH; lia|]. intros v e. apply vf_ok_app.
Qed.

(** The heads of the loop: two reads, then the action. *)
Lemma passthrough_entries_cons action x l s :
  ∃ ven_dev s1, os_log s1 = os_log s
    ∧ passthrough_entries action (x :: l) s
      = (ok ← match action with
              | kPciRestore => restore_dev x ven_dev (x +:+ "/driver")
              | kPciPassthrough => bind_dev x ven_dev (x +:+ "/driver")
              end;
         if (ok : bool) then passthrough_entries action l else mret false) s1.
Proof.
  cbn [passthrough_entries].
  destruct (ReadSysFile_quiet (x +:+ "/device") ios_hex s) as (d & s1 & H1 & L1). bstep H1.
  destruct (ReadSysFile_quiet (x +:+ "/vendor") ios_hex s1) as (v & s2 & H2 & L2). bstep H2.
  eexists _, s2. split; [congruence|done].
Qed.
End device_lemmas.

(** ** Properties *)

Section properties.
Context {B : Boost} {E : OsEnv}.

(** Giving the devices of a group to vfio-pci.  The loop always returns;
    on success vfio-pci was told exactly one device identity per device of
    the group, on failure fewer (the device whose driver would not let go,
    and those after it, were not offered). *)
Theorem passthrough_offers l s :
  ∃ b s' evs, passthrough_entries kPciPassthrough l s = (Ret b, s')
    ∧ os_log s' = os_log s ++ evs
    ∧ if (b : bool) then length (writes_to kVfioPciNewId evs) = length l
      else (length (writes_to kVfioPciNewId evs) < length l)%nat.
Proof.
  revert s. induction l as [|x l IH]; intros s.
  { exists true, s, []. by rewrite app_nil_r. }
  destruct (passthrough_entries_cons kPciPassthrough x l s) as (vd & s1 & L1 & ->).
  destruct (bind_dev_spec x vd s1) as (b & s2 & e2 & H2 & L2 & W2). bstep H2. destruct b.
  - destruct (IH s2) as (b & s3 & e3 & -> & L3 & W3). exists b, s3, (e2 ++ e3).
    rewrite L3, L2, L1, app_assoc, writes_to_app, W2. split_and!; [done..|].
    destruct b; simpl in *; lia.
  - exists false, s2, e2. rewrite L2, L1, W2. split_and!; [done..|]. simpl; lia.
Qed.

(** Giving them back.  The loop always succeeds, and every device of the
    group, in order, is handed to the kernel for a new driver probe. *)
Theorem restore_probes l s :
  ∃ s' evs, passthrough_entries kPciRestore l s = (Ret true, s')
    ∧ os_log s' = os_log s ++ evs
    ∧ writes_to kPciDriverProbe evs = path_filename <$> l.
Proof.
  revert s. induction l as [|x l IH]; intros s.
  { exists s, []. by rewrite app_nil_r. }
  destruct (passthrough_entries_cons kPciRestore x l s) as (vd & s1 & L1 & ->).
  destruct (restore_dev_spec x vd (x +:+ "/driver") s1) as (s2 & e2 & H2 & L2 & W2). bstep H2.
  destruct (IH s2) as (s3 & e3 & -> & L3 & W3). exists s3, (e2 ++ e3).
  rewrite L3, L2, L1, app_assoc, writes_to_app, W2, W3. by split_and!.
Qed.

(** Choosing a virtual function.  The search fails with -1, or answers a
    function number of at least 1 after setting that function's two scheduling
    parameters; it never answers 0, the physical function.  Only a missing
    [modprobe] makes it throw. *)
Theorem available_vf_range s :
  match SetAvailableVf s with
  | (Ret v, s') => v = -1 ∨ (1 ≤ v ∧ ∃ evs, os_log s' = os_log s ++ evs ++
      [EvWrite (kDrmCard0Vf +:+ to_string v +:+ kGtPreemptTimeoutUs) (to_string kPreemptTimeout);
       EvWrite (kDrmCard0Vf +:+ to_string v +:+ kGtExecQuantumMs) (to_string kExecQuantum)])
  | (Throw e, _) => e = ExProcess
  | (Blocked, _) => False
  end.
Proof.
  enough (ends (λ e, e = ExProcess) vf_ok SetAvailableVf) as Hvf.
  { specialize (Hvf s). destruct (SetAvailableVf s) as [[v|e|] s']; [|done..].
    destruct Hvf as (evs & L & [?|(? & e0 & ->)]); eauto. }
  unfold SetAvailableVf.
  eapply ends_any; [apply LoadKernelModule_ends|intros l1 e1; destruct l1; [|by apply ends_ret; left]].
  eapply ends_any; [apply LoadKernelModule_ends|intros l2 e2; destruct l2; [|by apply ends_ret; left]].
  eapply ends_any; [apply ReadSysFile_ends|intros total e3; case_match; [by apply ends_ret; left|]].
  eapply ends_any; [apply ReadSysFile_ends|intros cur e4; case_match; [by apply ends_ret; left|]].
  eapply ends_any; [|intros _ e5].
  { destruct (cur =? 0); cbn [when]; [|by apply ends_ret].
    repeat apply WriteSysFile_ends. by apply ends_ret. }
  eapply ends_any; [apply ReadSysFile_ends|intros dev e6; case_match; [by apply ends_ret; left|]].
  apply WriteSysFile_ends. cbn [Z.eqb EEXIST negb].
  eapply ends_mono; [apply vf_loop_ends; lia|].
  intros v e Hv. by repeat first [apply vf_ok_app|apply (vf_ok_app v [_])].
Qed.

(** Preparing huge pages always comes back, after at most 200 waits, and
    never throws; it writes the page count at most once, and not at all when
    the size string is refused, which is a failure. *)
Theorem hugepages_outcome mem_size :
  ends (λ _, False)
    (λ b evs, (evs = [] ∨ ∃ n, evs = [EvWrite kSys2MNrHugePages (to_string n)])
      ∧ (parse_mem_mb mem_size = None → b = false ∧ evs = []))
    (SetupHugePages mem_size).
Proof.
  intros s. unfold SetupHugePages. destruct (parse_mem_mb mem_size) as [mb|].
  2:{ exists []. rewrite app_nil_r. naive_solver. }
  destruct (ReadSysFile_quiet kSys2MFreeHugePages ios_dec s) as (fr & s1 & H1 & L1). bstep H1.
  destruct (Z.quot mb 2 <=? fr); [exists []; rewrite app_nil_r; naive_solver|].
  destruct (ReadSysFile_quiet kSys2MNrHugePages ios_dec s1) as (nr & s2 & H2 & L2). bstep H2.
  destruct (WriteSysFile_run kSys2MNrHugePages (to_string (nr - fr + Z.quot mb 2)) s2)
    as (s3 & H3 & L3). bstep H3.
  destruct (wait_hugepages_quiet 200 nr (nr - fr + Z.quot mb 2) s3) as (b & s4 & -> & L4).
  eexists. rewrite L4, L3, L2, L1. split; [done|]. naive_solver.
Qed.
End properties.

(** C39: the size of a guest's memory in MB.  A number with unit M stands for
    itself and with unit G for 1024 times itself, as long as the result fits
    an [int]; larger G sizes are refused, so the multiplication cannot
    overflow. *)
Theorem mem_mb_units n :
  0 < n ≤ INT32_MAX →
  parse_mem_mb (to_string n +:+ "M") = Some n
  ∧ parse_mem_mb (to_string n +:+ "G") = (if n <=? 2097151 then Some (n * 1024) else None)
  ∧ (n <= 2097151 → n * 1024 ≤ INT32_MAX).
Proof.
  intros [Hn Hm].
  assert (∀ c mb, is_digit_in 10 c = None → parse_mem_mb (to_string n +:+ String c EmptyString) = mb ↔
    (let u := toupper c in
     if between "0" "9" u || between "A" "F" u || bool_decide (u = "M"%char) then Some n
     else if bool_decide (u = "G"%char) then
       if Z.quot INT32_MAX 1024 <? n then None else Some (n * 1024) else None) = mb) as Hparse.
  { intros c mb Hc. unfold parse_mem_mb. destruct (scan_number_unit 0 n c EmptyString (or_introl eq_refl) Hn Hc) as [k Hs].
    assert (str_empty (to_string n +:+ String c EmptyString) = false) as -> by (by destruct (to_string n)).
    unfold stoi. rewrite Hs. cbv beta iota zeta.
    assert ((n <? INT32_MIN) || (INT32_MAX <? n) = false) as -> by (unfold INT32_MIN; lia).
    cbn. destruct (Z.leb_spec n 0); [lia|]. by rewrite str_last_app. }
  split_and!.
  - by apply Hparse.
  - apply Hparse; [done|]. change (Z.quot INT32_MAX 1024) with 2097151. cbn -[Z.ltb Z.leb Z.mul].
    destruct (Z.ltb_spec 2097151 n), (Z.leb_spec n 2097151); done || lia.
  - unfold INT32_MAX. lia.
Qed.

Lemma mem_mb_units_witness :
  parse_mem_mb (to_string 4 +:+ "G") = Some 4096 ∧ parse_mem_mb "3000000G" = None.
Proof.
  split; [apply (mem_mb_units 4); unfold INT32_MAX; lia|].
  apply (mem_mb_units 3000000). unfold INT32_MAX; lia.
Defined.
