(* ===== verification/Builder.v ===== *)
(** * A QEMU guest

    [VmBuilder] and [VmBuilderQemu] of guest/vm_builder.{h,cc} and
    guest/vm_builder_qemu.{h,cc}: the command line of the emulator is built
    piece by piece from the configuration, with the side effects some pieces
    need (device passthrough, virtual functions, helper processes, a vsock
    context id), then the processes are started, watched and stopped.

    A method runs on the object and on what is shared by all guests of the
    server: the context-id pool, the function-local static [socketPath] of
    [BuildExtraGuestPmCtrlCmd], and the machine. *)

From S2P Require Import Prelude.
From S2P Require Import CStd.
From S2P Require Import Boost.
From S2P Require Import Os.
From S2P Require Import CidPool.
From S2P Require Import Config.
From S2P Require Import Aaf.
From S2P Require Import Process.
From S2P Require Import Devices.
From Stdlib Require Import Ascii.

Local Open Scope Z_scope.

Inductive VmState : Type :=
| kVmEmpty | kVmCreated | kVmBooting | kVmRunning | kVmPaused | kVmUnknown.

#[export] Instance VmState_eq_dec : EqDecision VmState.
Proof. solve_decision. Defined.

(** [VmStateToStr] *)
Definition VmStateToStr (s : VmState) : string :=
  match s with
  | kVmEmpty => "Empty"
  | kVmCreated => "Created"
  | kVmBooting => "Booting"
  | kVmRunning => "Running"
  | kVmPaused => "Paused"
  | kVmUnknown => "Unknown"
  end.

(** The closures queued in [end_call_]. *)
Inductive EndCall : Type :=
| EcProbeSound        (** reload the sound module *)
| EcRemoveSocket      (** remove the file the static [socketPath] names *)
| EcRestorePci.       (** give the passed-through devices back *)

Record VmBuilderQemu : Type := mkVb {
  name_ : string;
  vsock_cid_ : Z;
  state_ : VmState;
  cfg_ : CivConfig;
  aaf_cfg_ : option Aaf;
  main_proc_ : option VmProc;
  co_procs_ : list VmProc;
  emul_cmd_ : string;
  pci_pt_dev_set_ : list string;
  vm_ready_latch_ : Z;
  end_call_ : list EndCall;
}.

(** [VmBuilderQemu(std::string name, CivConfig cfg)] *)
Definition new_VmBuilderQemu (name : string) (cfg : CivConfig) : VmBuilderQemu :=
  mkVb name 0 kVmEmpty cfg None None [] EmptyString [] 1 [].

(** [VmBuilder::GetName], [GetCid] and [GetState] *)
Definition GetName (v : VmBuilderQemu) : string := name_ v.
Definition GetVmCid (v : VmBuilderQemu) : Z := vsock_cid_ v.
Definition GetState (v : VmBuilderQemu) : VmState := state_ v.

Definition set_cid x v := mkVb (name_ v) x (state_ v) (cfg_ v) (aaf_cfg_ v) (main_proc_ v)
  (co_procs_ v) (emul_cmd_ v) (pci_pt_dev_set_ v) (vm_ready_latch_ v) (end_call_ v).
Definition set_state x v := mkVb (name_ v) (vsock_cid_ v) x (cfg_ v) (aaf_cfg_ v) (main_proc_ v)
  (co_procs_ v) (emul_cmd_ v) (pci_pt_dev_set_ v) (vm_ready_latch_ v) (end_call_ v).
Definition set_aaf x v := mkVb (name_ v) (vsock_cid_ v) (state_ v) (cfg_ v) x (main_proc_ v)
  (co_procs_ v) (emul_cmd_ v) (pci_pt_dev_set_ v) (vm_ready_latch_ v) (end_call_ v).
Definition set_main x v := mkVb (name_ v) (vsock_cid_ v) (state_ v) (cfg_ v) (aaf_cfg_ v) x
  (co_procs_ v) (emul_cmd_ v) (pci_pt_dev_set_ v) (vm_ready_latch_ v) (end_call_ v).
Definition set_procs x v := mkVb (name_ v) (vsock_cid_ v) (state_ v) (cfg_ v) (aaf_cfg_ v)
  (main_proc_ v) x (emul_cmd_ v) (pci_pt_dev_set_ v) (vm_ready_latch_ v) (end_call_ v).
Definition set_emul x v := mkVb (name_ v) (vsock_cid_ v) (state_ v) (cfg_ v) (aaf_cfg_ v)
  (main_proc_ v) (co_procs_ v) x (pci_pt_dev_set_ v) (vm_ready_latch_ v) (end_call_ v).
Definition set_pci x v := mkVb (name_ v) (vsock_cid_ v) (state_ v) (cfg_ v) (aaf_cfg_ v)
  (main_proc_ v) (co_procs_ v) (emul_cmd_ v) x (vm_ready_latch_ v) (end_call_ v).
Definition set_latch x v := mkVb (name_ v) (vsock_cid_ v) (state_ v) (cfg_ v) (aaf_cfg_ v)
  (main_proc_ v) (co_procs_ v) (emul_cmd_ v) (pci_pt_dev_set_ v) x (end_call_ v).
Definition set_end x v := mkVb (name_ v) (vsock_cid_ v) (state_ v) (cfg_ v) (aaf_cfg_ v)
  (main_proc_ v) (co_procs_ v) (emul_cmd_ v) (pci_pt_dev_set_ v) (vm_ready_latch_ v) x.

(** What all guests share. *)
Record Glob `{OsEnv} : Type := mkGlob {
  g_pool : VsockCidPool;
  g_socketPath : string;
  g_config_path : option string;   (** what [GetConfigPath()] answers; [None] is [NULL] *)
  g_os : OsSt;
}.

Definition MAX_NUM_GUEST : nat := 7.
Definition kQmpPowerSocket : string := "/tmp/qmp-pwr-socket-".
Definition kTimeKeepPipe : string := "/tmp/qmp-time-keep-pipe".
Definition kPmCtrlSock : string := "/tmp/qmp-pm-sock".

Section builder.
Context {B : Boost} {E : OsEnv}.

Definition BSt : Type := VmBuilderQemu * Glob.

Definition set_os (o : OsSt) (g : Glob) : Glob :=
  mkGlob _ (g_pool g) (g_socketPath g) (g_config_path g) o.
Definition set_pool (p : VsockCidPool) (g : Glob) : Glob :=
  mkGlob _ p (g_socketPath g) (g_config_path g) (g_os g).
Definition set_socketPath (x : string) (g : Glob) : Glob :=
  mkGlob _ (g_pool g) x (g_config_path g) (g_os g).

Definition b_os {A} (c : M OsSt A) : M BSt A :=
  lift (λ s, g_os s.2) (λ o s, (s.1, set_os o s.2)) c.
Definition b_pool {A} (c : M VsockCidPool A) : M BSt A :=
  lift (λ s, g_pool s.2) (λ p s, (s.1, set_pool p s.2)) c.
Definition this {A} (f : VmBuilderQemu → A) : M BSt A := gets (λ s, f s.1).
Definition upd_vb (f : VmBuilderQemu → VmBuilderQemu) : M BSt unit := modify (λ s, (f s.1, s.2)).

(** [cfg_.GetValue(g, k)] *)
Definition cfg (g k : string) : M BSt string := this (λ v, GetValue g k (cfg_ v)).
(** [emul_cmd_.append(x)] and [emul_cmd_.clear()] *)
Definition append (x : string) : M BSt unit := upd_vb (λ v, set_emul (emul_cmd_ v +:+ x) v).
Definition clear_cmd : M BSt unit := upd_vb (set_emul EmptyString).
(** [co_procs_.emplace_back(p)] *)
Definition add_proc (p : VmProc) : M BSt unit := upd_vb (λ v, set_procs (co_procs_ v ++ [p]) v).
(** [end_call_.emplace(c)] *)
Definition add_end (c : EndCall) : M BSt unit := upd_vb (λ v, set_end (end_call_ v ++ [c]) v).
(** [pci_pt_dev_set_.insert(d)] *)
Definition add_pci (d : string) : M BSt unit :=
  upd_vb (λ v, set_pci (set_insert d (pci_pt_dev_set_ v)) v).
(** [aaf_cfg_->Set(k, v)] when there is an object *)
Definition aaf_set (k x : string) : M BSt unit :=
  upd_vb (λ v, set_aaf (Aaf_Set k x <$> aaf_cfg_ v) v).

Definition SoundCardHook : M BSt unit :=
  rc ← b_os (proc_system "ls /proc/asound/sofhdadsp");
  when (rc =? 0)
    (rc2 ← b_os (proc_system "modprobe -r snd-sof-pci-intel-tgl");
     when (rc2 =? 0) (add_end EcProbeSound)).

Definition SetupSriov : M BSt bool :=
  vgpu_mon_id ← cfg kGroupVgpu kVgpuMonId;
  (if str_empty vgpu_mon_id then append " -display gtk,gl=on"
   else append (" -display gtk,gl=on,monitor=" +:+ vgpu_mon_id)) ;;
  mem_size0 ← cfg kGroupMem kMemSize;
  let mem_size := trim mem_size0 in
  hp ← b_os (SetupHugePages mem_size);
  if negb hp then mret false else
  vf ← b_os SetAvailableVf;
  if vf <? 0 then mret false else
  append (" -device virtio-vga,max_outputs=1,blob=true" +:+
          " -device vfio-pci,host=0000:00:02." +:+ to_string vf +:+
          " -object memory-backend-memfd,hugetlb=on,id=mem_sriov,size=" +:+ mem_size +:+
          " -machine memory-backend=mem_sriov") ;;
  mret true.

Definition BringDownBtHciIntf : M BSt unit :=
  hci0 ← cfg kGroupbluetooth kHciDown;
  let hci_status := trim hci0 in
  when (bool_decide (hci_status = "true"))
    (_ ← b_os (proc_system "sudo hciconfig hci0 down"); skip).

(** The loop of [BuildExtraGuestPmCtrlCmd] from [avail] on. *)
Fixpoint pwr_socket_loop (n : nat) (avail : Z) : M BSt unit :=
  match n with
  | O => skip
  | S n =>
      let socketPath := kQmpPowerSocket +:+ to_string avail in
      modify (λ s : BSt, (s.1, set_socketPath socketPath s.2)) ;;
      there ← b_os (os (Access socketPath));
      if negb there then append (" -qmp unix:" +:+ socketPath +:+ ",server,nowait")
      else pwr_socket_loop n (avail + 1)
  end.

Definition BuildExtraGuestPmCtrlCmd : M BSt unit :=
  ex_cmd ← cfg kGroupExtra kExtraPwrCtrlMultiOS;
  if bool_decide (ex_cmd = "true") then
    pwr_socket_loop MAX_NUM_GUEST 0 ;;
    add_end EcRemoveSocket
  else skip.

(** One token of the passthrough list. *)
Definition passthrough_token (tok : string) : M BSt unit :=
  let it := trim tok in
  ok ← b_os (PassthroughOnePciDev it kPciPassthrough);
  if (ok : bool) then
    add_pci it ;;
    append (" -device vfio-pci,host=" +:+ it +:+ ",x-no-kvm-intx=on")
  else skip.

Definition BuildPtPciDevicesCmd : M BSt unit :=
  pt0 ← cfg kGroupPciPt kPciPtDev;
  let pt_pci := trim pt0 in
  if str_empty pt_pci then skip else
  let vec := split_any "," true pt_pci in
  BringDownBtHciIntf ;;
  for_each passthrough_token vec.

Definition SetPciDevicesCallback : M BSt unit :=
  devs ← this pci_pt_dev_set_;
  match devs with
  | [] => skip
  | _ => add_end EcRestorePci
  end.

Definition PassthroughGpu : M BSt bool :=
  ok ← b_os (PassthroughOnePciDev kIntelGpuBdf kPciPassthrough);
  if (ok : bool) then add_pci kIntelGpuBdf ;; mret true else mret false.

Definition CreateGvtgVgpu : M BSt bool :=
  gvtg_ver ← cfg kGroupVgpu kVgpuGvtgVer;
  let gvtg_create := kGvtgMdevTypePath +:+ gvtg_ver +:+ "/create" in
  uuid ← cfg kGroupVgpu kVgpuUuid;
  r ← b_os (WriteSysFile gvtg_create uuid);
  mret (r =? 0).

Definition RunMediationSrv : M BSt unit :=
  batt_med ← cfg kGroupMed kMedBattery;
  when (negb (str_empty batt_med)) (add_proc (new_VmProcSimple batt_med)) ;;
  ther_med ← cfg kGroupMed kMedThermal;
  when (negb (str_empty ther_med)) (add_proc (new_VmProcSimple ther_med)) ;;
  cam_med ← cfg kGroupMed kMedCamera;
  when (match cam_med with
        | String c EmptyString => bool_decide (tolower c = "y"%char)
        | _ => false
        end)
    (add_proc (new_VmProcSimple "/usr/local/bin/stream")).

Definition BuildGuestTimeKeepCmd : M BSt unit :=
  tk ← cfg kGroupService kServTimeKeep;
  if str_empty tk then skip else
  add_proc (new_VmProcSimple (tk +:+ " " +:+ kTimeKeepPipe)) ;;
  append (" -qmp pipe:" +:+ kTimeKeepPipe).

Definition BuildGuestPmCtrlCmd : M BSt unit :=
  pm ← cfg kGroupService kServPmCtrl;
  if str_empty pm then skip else
  let pm' := match str_find " " pm with
             | Some pos => str_insert (S pos) (kPmCtrlSock +:+ " ") pm
             | None => pm +:+ " " +:+ kPmCtrlSock
             end in
  add_proc (new_VmProcSimple pm') ;;
  append (" -qmp unix:" +:+ kPmCtrlSock +:+ ",server=on,wait=off -no-reboot").

Definition GetUid : M BSt Z :=
  suid ← b_os (os (Getenv "SUDO_UID"));
  match suid with
  | Some s => mret (atoi s)
  | None => b_os (os Getuid)
  end.

Definition BuildAudioCmd : M BSt unit :=
  uid ← GetUid;
  dis ← cfg kGroupAudio kDisableEmul;
  if bool_decide (dis = "true") then skip else
  append (" -device intel-hda" +:+
          " -device hda-duplex,audiodev=android_spk" +:+
          " -audiodev id=android_spk,timer-period=5000,driver=pa," +:+
          "in.fixed-settings=off,out.fixed-settings=off,server=/run/user/" +:+ to_string uid +:+
          "/pulse/native").

Definition BuildExtraCmd : M BSt unit :=
  ex_cmd ← cfg kGroupExtra kExtraCmd;
  if str_empty ex_cmd then skip else append (" " +:+ ex_cmd).

Definition SetExtraServices : M BSt unit :=
  ex0 ← cfg kGroupExtra kExtraService;
  let ex_srvs := trim ex0 in
  if str_empty ex_srvs then skip else
  for_each (λ tok, let it := trim tok in
              if str_empty it then skip else add_proc (new_VmProcSimple it))
    (split_any ";" true ex_srvs).

Definition BuildEmulPath : M BSt bool :=
  str_emul_path ← cfg kGroupEmul kEmulPath;
  ex ← b_os (os (FsExists str_emul_path));
  emul_path ← (if (ex : bool) then b_os (os (FsAbsolute str_emul_path))
    else b_os (os (ProcSearchPath
           (if str_empty str_emul_path then "qemu-system-x86_64" else str_emul_path))));
  if str_empty emul_path then mret false
  else upd_vb (set_emul emul_path) ;; mret true.

Definition BuildFixedCmd : M BSt unit :=
  append (" -M q35" +:+
          " -machine kernel_irqchip=on" +:+
          " -k en-us" +:+
          " -cpu host,-waitpkg,pmu=off" +:+
          " -enable-kvm" +:+
          " -device qemu-xhci,id=xhci,p2=8,p3=8" +:+
          " -device usb-mouse" +:+
          " -device usb-kbd") ;;
  append (" -device intel-iommu,device-iotlb=on,caching-mode=on" +:+
          " -nodefaults ").

Definition BuildNameQmp : M BSt bool :=
  name0 ← cfg kGroupGlob kGlobName;
  let vm_name := trim name0 in
  if str_empty vm_name then clear_cmd ;; mret false else
  append (" -name " +:+ vm_name) ;;
  path ← gets (λ s : BSt, g_config_path s.2);
  match path with
  | None => throw ExLogicError
  | Some path =>
      append (" -qmp unix:" +:+ path +:+ "/." +:+
              default EmptyString (split_any "," false vm_name !! 0%nat) +:+
              ".qmp.unix.socket,server,nowait") ;;
      mret true
  end.

Definition BuildNetCmd : M BSt unit :=
  model0 ← cfg kGroupNet kNetModel;
  let model := if str_empty model0 then "e1000" else model0 in
  if bool_decide (model = "none") then skip else
  adb_port ← cfg kGroupNet kNetAdbPort;
  fb_port ← cfg kGroupNet kNetFastbootPort;
  append (" -netdev user,id=net0" +:+
          (if str_empty adb_port then EmptyString else ",hostfwd=tcp::" +:+ adb_port +:+ "-:5555") +:+
          (if str_empty fb_port then EmptyString else ",hostfwd=tcp::" +:+ fb_port +:+ "-:5554")) ;;
  append (" -device " +:+ model +:+ ",netdev=net0,bus=pcie.0,addr=0xA").

Definition vsock_arg (cid : Z) : string :=
  " -device vhost-vsock-pci,id=vhost-vsock-pci0,bus=pcie.0,addr=0x10,guest-cid=" +:+ to_string cid.

Definition BuildVsockCmd : M BSt bool :=
  str_cid ← cfg kGroupGlob kGlobCid;
  ok ← (if str_empty str_cid then
          c ← b_pool GetCid_any;
          upd_vb (set_cid c) ;;
          if c =? 0 then clear_cmd ;; mret false else mret true
        else
          try_catch
            (n ← stoul str_cid;
             c ← b_pool (GetCid (u32 n));
             upd_vb (set_cid c) ;;
             if c =? 0 then clear_cmd ;; mret false else mret true)
            (λ _, clear_cmd ;; mret false));
  if negb ok then mret false else
  cid ← this vsock_cid_;
  append (vsock_arg cid) ;;
  mret true.

Definition BuildRpmbCmd : M BSt unit :=
  rpmb_bin ← cfg kGroupRpmb kRpmbBinPath;
  rpmb_data ← cfg kGroupRpmb kRpmbDataDir;
  t_buf ← b_os (os (Strftime "%Y-%m-%d_%T"));
  let rpmb_sock := kRpmbSockPrefix +:+ t_buf in
  if negb (str_empty rpmb_bin) && negb (str_empty rpmb_data) then
    append (" -device virtio-serial,addr=1" +:+
            " -device virtserialport,chardev=rpmb0,name=rpmb0,nr=1" +:+
            " -chardev socket,id=rpmb0,path=" +:+ rpmb_sock) ;;
    add_proc (new_VmCoProcRpmb rpmb_bin rpmb_data rpmb_sock)
  else skip.

Definition BuildVtpmCmd : M BSt unit :=
  vtpm_bin ← cfg kGroupVtpm kVtpmBinPath;
  vtpm_data ← cfg kGroupVtpm kVtpmDataDir;
  if negb (str_empty vtpm_bin) && negb (str_empty vtpm_data) then
    append (" -chardev socket,id=chrtpm,path=" +:+
            vtpm_data +:+ "/" +:+ kVtpmSock +:+
            " -tpmdev emulator,id=tpm0,chardev=chrtpm -device tpm-crb,tpmdev=tpm0") ;;
    add_proc (new_VmCoProcVtpm vtpm_bin vtpm_data)
  else skip.

Definition InitAafCfg : M BSt unit :=
  aaf_path ← cfg kGroupAaf kAafPath;
  if str_empty aaf_path then skip else upd_vb (set_aaf (Some (new_Aaf aaf_path))).

Definition BuildAafCfg : M BSt bool :=
  aaf_path ← cfg kGroupAaf kAafPath;
  if str_empty aaf_path then mret true else
  aaf_suspend ← cfg kGroupAaf kAafSuspend;
  ok ← (if str_empty aaf_suspend then mret true
        else if bool_decide (aaf_suspend = "true") || bool_decide (aaf_suspend = "enable")
        then aaf_set kAafKeySuspend "true" ;; mret true
        else if bool_decide (aaf_suspend = "false") || bool_decide (aaf_suspend = "disable")
        then aaf_set kAafKeySuspend "false" ;; mret true
        else mret false);
  if negb ok then mret false else
  aaf_audio_type ← cfg kGroupAaf kAafAudioType;
  when (negb (str_empty aaf_audio_type)) (aaf_set kAafKeyAudioType aaf_audio_type) ;;
  append (" -virtfs local,mount_tag=aaf,security_model=none,path=" +:+ aaf_path) ;;
  mret true.

Definition BuildVgpuCmd : M BSt bool :=
  vgpu_type ← cfg kGroupVgpu kVgpuType;
  if str_empty vgpu_type then mret true
  else if bool_decide (vgpu_type = kVgpuGvtG) then
    vgpu_uuid ← cfg kGroupVgpu kVgpuUuid;
    if str_empty vgpu_uuid then mret false else
    if negb (CheckUuid vgpu_uuid) then mret false else
    ok ← CreateGvtgVgpu;
    if negb ok then mret false else
    append (" -device vfio-pci-nohotplug,ramfb=on,display=on,addr=2.0,x-igd-opregion=on,sysfsdev=" +:+
            kIntelGpuDevPath +:+ vgpu_uuid) ;;
    aaf_set kAafKeyGpuType "gvtg" ;; mret true
  else if bool_decide (vgpu_type = kVgpuGvtD) then
    SoundCardHook ;;
    ok ← PassthroughGpu;
    if negb ok then mret false else
    append (" -vga none -nographic" +:+
            " -device vfio-pci,host=00:02.0,x-igd-gms=2,id=hostdev0,bus=pcie.0,addr=0x2,x-igd-opregion=on" +:+
            " -display none") ;;
    aaf_set kAafKeyGpuType "gvtd" ;; mret true
  else if bool_decide (vgpu_type = kVgpuVirtio) then
    append " -device virtio-vga-gl" ;;
    outputs ← cfg kGroupVgpu kVgpuOutputs;
    (if str_empty outputs then skip else
       r ← stoi 10 outputs;
       when (bool_decide (r.2 = String.length outputs)) (append (",max_outputs=" +:+ outputs))) ;;
    aaf_set kAafKeyGpuType "virtio" ;; mret true
  else if bool_decide (vgpu_type = kVgpuRamfb) then
    append " -device ramfb" ;; mret true
  else if bool_decide (vgpu_type = kVgpuVirtio2D) then
    append " -device virtio-vga" ;;
    aaf_set kAafKeyGpuType "virtio" ;; mret true
  else if bool_decide (vgpu_type = kVgpuSriov) then
    ok ← SetupSriov;
    if negb ok then mret false else
    aaf_set kAafKeyGpuType "sriov" ;; mret true
  else mret false.

Definition vinput_buttons : string :=
  " -device virtio-input-host-pci,evdev=/dev/input/by-id/Power-Button-vm0" +:+
  " -device virtio-input-host-pci,evdev=/dev/input/by-id/Volume-Button-vm0" +:+
  " -device virtio-input-host-pci,evdev=/dev/input/by-id/Other-Button-vm0".

Definition BuildVinputCmd : M BSt unit :=
  vgpu_type ← cfg kGroupVgpu kVgpuType;
  vinput ← cfg kGroupService kServVinput;
  if str_empty vinput then skip else
  if bool_decide (vgpu_type = kVgpuGvtD) then
    append (" -qmp unix:./qmp-vinput-sock,server,nowait" +:+ vinput_buttons) ;;
    add_proc (new_VmProcSimple (vinput +:+ " --gvtd"))
  else
    append vinput_buttons ;;
    add_proc (new_VmProcSimple vinput).

Definition BuildDispCmd : M BSt unit :=
  disp_op ← cfg kGroupDisplay kDispOptions;
  if str_empty disp_op then append " -display gtk,gl=on"
  else append (" -display " +:+ disp_op).

Definition BuildMemCmd : M BSt unit :=
  m ← cfg kGroupMem kMemSize; append (" -m " +:+ m).

Definition BuildVcpuCmd : M BSt unit :=
  n ← cfg kGroupVcpu kVcpuNum; append (" -smp " +:+ n).

Definition BuildFirmwareCmd : M BSt bool :=
  firm_type ← cfg kGroupFirm kFirmType;
  if str_empty firm_type then mret false else
  if bool_decide (firm_type = kFirmUnified) then
    p ← cfg kGroupFirm kFirmPath;
    append (" -drive if=pflash,format=raw,file=" +:+ p) ;; mret true
  else if bool_decide (firm_type = kFirmSplited) then
    c ← cfg kGroupFirm kFirmCode;
    append (" -drive if=pflash,format=raw,readonly,file=" +:+ c) ;;
    v ← cfg kGroupFirm kFirmVars;
    append (" -drive if=pflash,format=raw,file=" +:+ v) ;; mret true
  else mret false.

Definition BuildVdiskCmd : M BSt unit :=
  p ← cfg kGroupDisk kDiskPath;
  append (" -drive file=" +:+ p +:+ ",if=none,id=disk1,discard=unmap,detect-zeroes=unmap" +:+
          " -device virtio-blk-pci,drive=disk1,bootindex=1").

(** [aaf_cfg_->Flush()] when there is an object. *)
Definition flush_aaf : M BSt unit := λ s,
  match aaf_cfg_ s.1 with
  | None => (Ret tt, s)
  | Some a =>
      match Aaf_Flush (a, g_os s.2) with
      | (r, (a', o)) => (r, (set_aaf (Some a') s.1, set_os o s.2))
      end
  end.

(** [bool VmBuilderQemu::BuildVmArgs(void)] *)
Definition BuildVmArgs : M BSt bool :=
  ok ← BuildEmulPath;
  if negb ok then mret false else
  ok ← BuildNameQmp;
  if negb ok then mret false else
  BuildRpmbCmd ;;
  BuildDispCmd ;;
  InitAafCfg ;;
  ok ← BuildVgpuCmd;
  if negb ok then mret false else
  BuildVinputCmd ;;
  ok ← BuildAafCfg;
  if negb ok then mret false else
  BuildNetCmd ;;
  ok ← BuildVsockCmd;
  if negb ok then mret false else
  BuildVtpmCmd ;;
  BuildMemCmd ;;
  BuildVcpuCmd ;;
  ok ← BuildFirmwareCmd;
  if negb ok then mret false else
  BuildVdiskCmd ;;
  BuildPtPciDevicesCmd ;;
  SetPciDevicesCallback ;;
  RunMediationSrv ;;
  BuildGuestTimeKeepCmd ;;
  BuildGuestPmCtrlCmd ;;
  BuildExtraGuestPmCtrlCmd ;;
  BuildAudioCmd ;;
  BuildExtraCmd ;;
  BuildFixedCmd ;;
  SetExtraServices ;;
  flush_aaf ;;
  upd_vb (λ v, set_main (Some (new_VmProcSimple (emul_cmd_ v))) v) ;;
  upd_vb (set_state kVmCreated) ;;
  mret true.

(** ** Running a guest *)

(** A method of the main process and of the [i]-th helper. *)
Definition on_main {A} (c : M ProcSt A) : M BSt A :=
  lift (λ s : BSt, (default (new_VmProcSimple EmptyString) (main_proc_ s.1), g_os s.2))
       (λ t s, (set_main (Some t.1) s.1, set_os t.2 s.2)) c.
Definition on_co {A} (i : nat) (c : M ProcSt A) : M BSt A :=
  lift (λ s : BSt, (default (new_VmProcSimple EmptyString) (co_procs_ s.1 !! i), g_os s.2))
       (λ t s, (set_procs (<[i := t.1]> (co_procs_ s.1)) s.1, set_os t.2 s.2)) c.

(** [for (size_t i = 0; i < co_procs_.size(); ++i) ...] *)
Definition for_co (f : nat → M BSt unit) : M BSt unit :=
  n ← this (λ v, length (co_procs_ v));
  for_each f (seq 0 n).

(** [main_proc_->SetEnv(env)] *)
Definition SetProcessEnv (env : list string) : M BSt unit :=
  upd_vb (λ v, set_main (SetEnv env <$> main_proc_ v) v).

Definition SetProcLogDir : M BSt unit :=
  t_buf ← b_os (os (Strftime "%Y-%m-%d_%H%M%S"));
  name ← this name_;
  let dir := "/tmp/" +:+ name +:+ "_" +:+ t_buf in
  on_main (SetLogDir dir) ;;
  for_co (λ i, on_co i (SetLogDir dir)).

(** [void VmBuilderQemu::StartVm()] *)
Definition StartVm : M BSt unit :=
  mp ← this main_proc_;
  match mp with
  | None => skip
  | Some _ =>
      SetProcLogDir ;;
      for_co (λ i,
        run ← on_co i Running;
        if negb run then tid ← b_os (os ThreadId); on_co i (Proc_Run tid) else skip) ;;
      tid ← b_os (os ThreadId);
      on_main (Proc_Run tid) ;;
      upd_vb (set_state kVmBooting)
  end.

(** [void VmBuilderQemu::SetVmReady(void)] *)
Definition SetVmReady : M BSt unit :=
  upd_vb (λ v, set_latch (Z.max 0 (vm_ready_latch_ v - 1)) v) ;;
  upd_vb (set_state kVmRunning).

(** [bool VmBuilderQemu::WaitVmReady(void)] with [n] turns left; [meanwhile i]
    is what other threads do to the object and the machine during the wait of
    that turn. *)
Fixpoint WaitVmReady_loop (n : nat) (meanwhile : nat → BSt → BSt) : M BSt bool :=
  match n with
  | O => mret false
  | S n =>
      run ← on_main Running;
      if negb run then mret false else
      modify (meanwhile n) ;;
      st ← this state_;
      if decide (st = kVmRunning) then mret true
      else WaitVmReady_loop n meanwhile
  end.
Definition WaitVmReady : (nat → BSt → BSt) → M BSt bool := WaitVmReady_loop 200.

(** [void VmBuilderQemu::WaitVmExit()] *)
Definition WaitVmExit : M BSt unit :=
  mp ← this main_proc_;
  match mp with Some _ => on_main Join | None => skip end.

(** [end_call_.front()()] *)
Definition run_end_call (c : EndCall) : M BSt unit :=
  match c with
  | EcProbeSound => _ ← b_os (proc_system "modprobe snd-sof-pci-intel-tgl"); skip
  | EcRemoveSocket =>
      path ← gets (λ s : BSt, g_socketPath s.2);
      _ ← b_os (os (FsRemove path)); skip
  | EcRestorePci =>
      devs ← this pci_pt_dev_set_;
      for_each (λ d, _ ← b_os (PassthroughOnePciDev d kPciRestore); skip) devs
  end.

(** [while (!end_call_.empty()) { front()(); pop(); }] *)
Fixpoint run_end_calls (l : list EndCall) : M BSt unit :=
  match l with
  | [] => skip
  | c :: l => run_end_call c ;; upd_vb (λ v, set_end (drop 1 (end_call_ v)) v) ;; run_end_calls l
  end.

(** [co_procs_.clear()] *)
Definition clear_procs : M BSt unit :=
  for_co (λ i, on_co i Proc_Delete) ;;
  upd_vb (set_procs []).

(** [void VmBuilderQemu::StopVm()] *)
Definition StopVm : M BSt unit :=
  mp ← this main_proc_;
  (match mp with Some _ => on_main Proc_Stop | None => skip end) ;;
  for_co (λ i, on_co i Proc_Stop) ;;
  clear_procs ;;
  cid ← this vsock_cid_;
  _ ← b_pool (ReleaseCid cid);
  l ← this end_call_;
  run_end_calls l.

(** [VmBuilderQemu::~VmBuilderQemu()] and the destruction of the members. *)
Definition delete_VmBuilderQemu : M BSt unit :=
  noexcept
    (StopVm ;;
     clear_procs ;;
     mp ← this main_proc_;
     match mp with Some _ => on_main Proc_Delete | None => skip end).
End builder.
