(* ===== verification/BuilderProps.v ===== *)
(** * Correctness of building, starting and stopping a guest

    Theorems about Builder.v.  Most of them rest on [frame], the relation
    between the state before and after a piece of the command line that needs
    no context id has been built; each piece is shown to respect it by the
    rules of [grows]. *)

From S2P Require Import Prelude.
From S2P Require Import CStd.
From S2P Require Import Boost.
From S2P Require Import Os.
From S2P Require Import CidPool.
From S2P Require Import Config.
From S2P Require Import Aaf.
From S2P Require Import Process.
From S2P Require Import Devices.
From S2P Require Import Builder.
From Stdlib Require Import Ascii.

Local Open Scope Z_scope.

(** Every plain helper process has something to run. *)
Definition proc_ok (p : VmProc) : Prop := kind p = VmProcSimple → ¬ blank (cmd_ p).
Definition procs_ok (v : VmBuilderQemu) : Prop := Forall proc_ok (co_procs_ v).

Lemma trimmed_nonblank x : trimmed x → str_empty x = false → ¬ blank x.
Proof.
  intros [Hh _] He. destruct x as [|c x]; [done|]. rewrite blank_cons. intros [-> _]. done.
Qed.

Lemma trimmed_nonblank_negb x : trimmed x → negb (str_empty x) = true → ¬ blank x.
Proof. intros Ht He. apply trimmed_nonblank; [done|by destruct (str_empty x)]. Qed.
Lemma nonblank_cons c x : c ≠ " "%char → ¬ blank (String c x).
Proof. rewrite blank_cons. tauto. Qed.

Section frame.
Context {B : Boost} {E : OsEnv}.

(** What [BoostLaws] says of the ends of a trimmed string. *)
Definition trims : Prop := ∀ x, trimmed (trim x).

(** Identity, configuration, life-cycle state and main process stay; helpers
    and end calls are only added, and no blank helper is. *)
Record steady (s s' : BSt) : Prop := {
  st_name : name_ s'.1 = name_ s.1;
  st_cfg : cfg_ s'.1 = cfg_ s.1;
  st_path : g_config_path s'.2 = g_config_path s.2;
  st_state : state_ s'.1 = state_ s.1;
  st_main : main_proc_ s'.1 = main_proc_ s.1;
  st_latch : vm_ready_latch_ s'.1 = vm_ready_latch_ s.1;
  st_procs : co_procs_ s.1 `prefix_of` co_procs_ s'.1;
  st_ends : end_call_ s.1 `prefix_of` end_call_ s'.1;
  st_ok : trims → procs_ok s.1 → procs_ok s'.1;
}.

(** Moreover the context id and the pool stay and the command line is only
    extended. *)
Record frame (s s' : BSt) : Prop := {
  fr_steady : steady s s';
  fr_cid : vsock_cid_ s'.1 = vsock_cid_ s.1;
  fr_pool : g_pool s'.2 = g_pool s.2;
  fr_cmd : ∃ x, emul_cmd_ s'.1 = emul_cmd_ s.1 +:+ x;
}.

#[export] Instance steady_preorder : PreOrder steady.
Proof.
  split; [by intros s|]. intros s1 s2 s3 [] [].
  split; try congruence; try (etrans; eassumption). auto.
Qed.

#[export] Instance frame_preorder : PreOrder frame.
Proof.
  split.
  - intros s. split; try done. exists EmptyString. by rewrite str_app_nil_r.
  - intros s1 s2 s3 [???[x Hx]] [???[y Hy]].
    split; try congruence; [by etrans|]. exists (x +:+ y). by rewrite Hy, Hx, str_app_assoc.
Qed.

(** A change of the object that touches neither command nor helpers. *)
Lemma frame_same (s s' : BSt) :
  name_ s'.1 = name_ s.1 → cfg_ s'.1 = cfg_ s.1 → vsock_cid_ s'.1 = vsock_cid_ s.1 →
  g_pool s'.2 = g_pool s.2 → g_config_path s'.2 = g_config_path s.2 →
  state_ s'.1 = state_ s.1 → main_proc_ s'.1 = main_proc_ s.1 →
  vm_ready_latch_ s'.1 = vm_ready_latch_ s.1 → emul_cmd_ s'.1 = emul_cmd_ s.1 →
  co_procs_ s'.1 = co_procs_ s.1 → end_call_ s.1 `prefix_of` end_call_ s'.1 → frame s s'.
Proof.
  intros ???????? Hc Hp ?. split; try done; [split; try done|].
  - by rewrite Hp.
  - unfold procs_ok. by rewrite Hp.
  - exists EmptyString. by rewrite str_app_nil_r.
Qed.

Lemma frame_b_os {A} (c : M OsSt A) : grows frame (b_os c).
Proof. intros s. unfold b_os, lift. destruct (c (g_os s.2)); simpl. by apply frame_same. Qed.
Lemma frame_this {A} (f : VmBuilderQemu → A) : grows frame (this f).
Proof. apply grows_gets. apply _. Qed.
Lemma frame_append x : grows frame (append x).
Proof. intros s. split; simpl; try done. by exists x. Qed.
Lemma frame_add_end c : grows frame (add_end c).
Proof. intros s. apply frame_same; try done. by apply prefix_app_r. Qed.
Lemma frame_add_pci d : grows frame (add_pci d).
Proof. intros s. by apply frame_same. Qed.
Lemma frame_aaf_set k v : grows frame (aaf_set k v).
Proof. intros s. by apply frame_same. Qed.
Lemma frame_set_aaf a : grows frame (upd_vb (set_aaf a)).
Proof. intros s. by apply frame_same. Qed.
Lemma frame_flush : grows frame flush_aaf.
Proof.
  intros s. unfold flush_aaf. destruct (aaf_cfg_ s.1); [|by apply frame_same].
  destruct (Aaf_Flush _) as [r [a' o]]; simpl. by apply frame_same.
Qed.
Lemma frame_stoi b x : grows frame (stoi b x : M BSt _).
Proof. unfold stoi. repeat case_match; apply grows_throw || apply grows_ret; apply _. Qed.
Lemma frame_socketPath x : grows frame (modify (λ s : BSt, (s.1, set_socketPath x s.2))).
Proof. intros s. by apply frame_same. Qed.

Lemma frame_add_proc p : (trims → proc_ok p) → grows frame (add_proc p).
Proof.
  intros Hp s. split; simpl; try done; [split; simpl; try done|].
  - by apply prefix_app_r.
  - intros Ht Hok. apply Forall_app. split; [done|]. constructor; [auto|constructor].
  - exists EmptyString. by rewrite str_app_nil_r.
Qed.

(** A configuration value has no space at its ends. *)
Lemma GetValue_trimmed g k c : trims → trimmed (GetValue g k c).
Proof. intros Ht. unfold GetValue. case_match; [apply Ht|by split]. Qed.

Lemma frame_cfg {A} g k (f : string → M BSt A) :
  (∀ x, (trims → trimmed x) → grows frame (f x)) → grows frame (cfg g k ≫= f).
Proof.
  intros Hf s. unfold mbind, M_bind, cfg, this, gets.
  apply Hf. intros. by apply GetValue_trimmed.
Qed.
End frame.

#[export] Hint Resolve frame_b_os frame_this frame_append
  frame_add_end frame_add_pci frame_aaf_set frame_set_aaf frame_flush frame_stoi
  frame_socketPath : civ.

Ltac solve_nonblank :=
  first
    [ solve [auto using trimmed_nonblank, trimmed_nonblank_negb]
    | apply nonblank_cons; discriminate
    | apply not_blank_app_l; solve_nonblank
    | apply not_blank_app_r; solve_nonblank ].

(** A computation respects a relation when its leaves do. *)
Ltac solve_grows :=
  repeat first
    [ progress intros
    | solve [auto 2 with civ nocore]
    | apply frame_cfg
    | apply frame_add_proc; intros ? ?; first [discriminate | simpl; solve_nonblank]
    | apply grows_bind; [apply _| |]
    | apply grows_try; [apply _| |]
    | apply grows_ret; apply _
    | apply grows_skip; apply _
    | apply grows_throw; apply _
    | apply grows_gets; apply _
    | apply grows_when; [apply _|]
    | apply grows_for_each; [apply _|]
    | case_match ].

Section pieces.
Context {B : Boost} {E : OsEnv}.

Lemma frame_BuildRpmbCmd : grows frame BuildRpmbCmd.
Proof. unfold BuildRpmbCmd. solve_grows. Qed.
Lemma frame_BuildDispCmd : grows frame BuildDispCmd.
Proof. unfold BuildDispCmd. solve_grows. Qed.
Lemma frame_InitAafCfg : grows frame InitAafCfg.
Proof. unfold InitAafCfg. solve_grows. Qed.
Lemma frame_BuildVgpuCmd : grows frame BuildVgpuCmd.
Proof.
  unfold BuildVgpuCmd, CreateGvtgVgpu, PassthroughGpu, SetupSriov, SoundCardHook. solve_grows.
Qed.
Lemma frame_BuildVinputCmd : grows frame BuildVinputCmd.
Proof. unfold BuildVinputCmd. solve_grows. Qed.
Lemma frame_BuildAafCfg : grows frame BuildAafCfg.
Proof. unfold BuildAafCfg. solve_grows. Qed.
Lemma frame_BuildNetCmd : grows frame BuildNetCmd.
Proof. unfold BuildNetCmd. solve_grows. Qed.
Lemma frame_BuildVtpmCmd : grows frame BuildVtpmCmd.
Proof. unfold BuildVtpmCmd. solve_grows. Qed.
Lemma frame_BuildMemCmd : grows frame BuildMemCmd.
Proof. unfold BuildMemCmd. solve_grows. Qed.
Lemma frame_BuildVcpuCmd : grows frame BuildVcpuCmd.
Proof. unfold BuildVcpuCmd. solve_grows. Qed.
Lemma frame_BuildFirmwareCmd : grows frame BuildFirmwareCmd.
Proof. unfold BuildFirmwareCmd. solve_grows. Qed.
Lemma frame_BuildVdiskCmd : grows frame BuildVdiskCmd.
Proof. unfold BuildVdiskCmd. solve_grows. Qed.
Lemma frame_BuildPtPciDevicesCmd : grows frame BuildPtPciDevicesCmd.
Proof. unfold BuildPtPciDevicesCmd, BringDownBtHciIntf, passthrough_token. solve_grows. Qed.
Lemma frame_SetPciDevicesCallback : grows frame SetPciDevicesCallback.
Proof. unfold SetPciDevicesCallback. solve_grows. Qed.
Lemma frame_RunMediationSrv : grows frame RunMediationSrv.
Proof. unfold RunMediationSrv. solve_grows. Qed.
Lemma frame_BuildGuestTimeKeepCmd : grows frame BuildGuestTimeKeepCmd.
Proof. unfold BuildGuestTimeKeepCmd. solve_grows. Qed.
Lemma frame_BuildGuestPmCtrlCmd : grows frame BuildGuestPmCtrlCmd.
Proof. unfold BuildGuestPmCtrlCmd. solve_grows. Qed.
Lemma frame_pwr_socket_loop n i : grows frame (pwr_socket_loop n i).
Proof. revert i. induction n as [|n IH]; intros i; cbn [pwr_socket_loop]; solve_grows. Qed.
Lemma frame_BuildExtraGuestPmCtrlCmd : grows frame BuildExtraGuestPmCtrlCmd.
Proof. unfold BuildExtraGuestPmCtrlCmd. pose proof frame_pwr_socket_loop. solve_grows. Qed.
Lemma frame_BuildAudioCmd : grows frame BuildAudioCmd.
Proof. unfold BuildAudioCmd, GetUid. solve_grows. Qed.
Lemma frame_BuildExtraCmd : grows frame BuildExtraCmd.
Proof. unfold BuildExtraCmd. solve_grows. Qed.
Lemma frame_BuildFixedCmd : grows frame BuildFixedCmd.
Proof. unfold BuildFixedCmd. solve_grows. Qed.
Lemma frame_SetExtraServices : grows frame SetExtraServices.
Proof. unfold SetExtraServices. solve_grows. Qed.
End pieces.

#[export] Hint Resolve frame_BuildRpmbCmd
  frame_BuildDispCmd frame_InitAafCfg frame_BuildVgpuCmd frame_BuildVinputCmd frame_BuildAafCfg
  frame_BuildNetCmd frame_BuildVtpmCmd frame_BuildMemCmd frame_BuildVcpuCmd
  frame_BuildFirmwareCmd frame_BuildVdiskCmd frame_BuildPtPciDevicesCmd
  frame_SetPciDevicesCallback frame_RunMediationSrv frame_BuildGuestTimeKeepCmd
  frame_BuildGuestPmCtrlCmd frame_BuildExtraGuestPmCtrlCmd frame_BuildAudioCmd
  frame_BuildExtraCmd frame_BuildFixedCmd frame_SetExtraServices : civ.

(** ** The three pieces that replace the command or take a context id *)

Section special.
Context {B : Boost} {E : OsEnv}.

Lemma b_os_run {A} (c : oscall A) (s : BSt) :
  ∃ a o, b_os (os c) s = (Ret a, (s.1, set_os o s.2)).
Proof.
  unfold b_os, lift. destruct (os_run c (g_os s.2)) as (a & w & _ & ->). eauto.
Qed.

Lemma BuildEmulPath_cases s :
  ∃ path o, BuildEmulPath s =
    if str_empty path then (Ret false, (s.1, set_os o s.2))
    else (Ret true, (set_emul path s.1, set_os o s.2)).
Proof.
  destruct s as [v g]. unfold BuildEmulPath, cfg, this, b_os, upd_vb. sx_unfold. cbn.
  sx_call. destruct a; cbn; sx_call; eexists a, _; by destruct (str_empty a).
Qed.

(** The name and monitor socket options. *)
Definition name_arg (v : VmBuilderQemu) (path : string) : string :=
  let vm_name := trim (GetValue kGroupGlob kGlobName (cfg_ v)) in
  " -name " +:+ vm_name +:+ " -qmp unix:" +:+ path +:+ "/." +:+
    default EmptyString (split_any "," false vm_name !! 0%nat) +:+ ".qmp.unix.socket,server,nowait".

Lemma BuildNameQmp_cases s :
  BuildNameQmp s =
    if str_empty (trim (GetValue kGroupGlob kGlobName (cfg_ s.1)))
    then (Ret false, (set_emul EmptyString s.1, s.2))
    else match g_config_path s.2 with
         | Some path => (Ret true, (set_emul (emul_cmd_ s.1 +:+ name_arg s.1 path) s.1, s.2))
         | None => (Throw ExLogicError,
             (set_emul (emul_cmd_ s.1 +:+ " -name " +:+ trim (GetValue kGroupGlob kGlobName (cfg_ s.1))) s.1, s.2))
         end.
Proof.
  unfold BuildNameQmp, cfg, this, upd_vb. sx_unfold. destruct s as [v g]; cbn.
  destruct (str_empty _); [done|]. cbn. destruct (g_config_path g); [|done]. cbn. unfold name_arg. by rewrite !str_app_assoc.
Qed.

(** The context id asked for: any automatic one, or what the text says. *)
Definition asked (v : VmBuilderQemu) (c : Z) : Prop :=
  let str_cid := GetValue kGroupGlob kGlobCid (cfg_ v) in
  if str_empty str_cid then Alloc.automatic c
  else ∃ n, stoul str_cid tt = (Ret n, tt) ∧ c = u32 n.

Lemma stoul_frame {S} x (s : S) : (stoul x s).2 = s ∧ (stoul x s).1 = (stoul x tt).1.
Proof. unfold stoul. repeat case_match; done. Qed.

Lemma BuildVsockCmd_cases s :
  pool_wf (g_pool s.2) →
  (∃ c, Alloc.usable c ∧ bit (g_pool s.2) c = true ∧ asked s.1 c
     ∧ BuildVsockCmd s = (Ret true, (set_emul (emul_cmd_ s.1 +:+ vsock_arg c) (set_cid c s.1),
                                     set_pool (reset_bit c (g_pool s.2)) s.2)))
  ∨ (∃ c, (c = 0 ∨ c = vsock_cid_ s.1)
     ∧ BuildVsockCmd s = (Ret false, (set_emul EmptyString (set_cid c s.1),
                                      set_pool (g_pool s.2) s.2))).
Proof.
  intros Hw. destruct s as [v g]. cbn in *. unfold BuildVsockCmd, asked.
  destruct (str_empty (GetValue kGroupGlob kGlobCid (cfg_ v))) eqn:He.
  - destruct (GetCid_any_cases (g_pool g) Hw) as [[Hr _]|(c & Hr & Ha & Hb & _)].
    + right. exists 0. split; [by left|]. unfold cfg, this, b_pool, upd_vb. sx_unfold. cbn -[stoul].
      rewrite He. cbn -[stoul]. by rewrite Hr.
    + left. exists c. split_and!; [by apply automatic_usable|done|done|].
      unfold cfg, this, b_pool, upd_vb. sx_unfold. cbn -[stoul]. rewrite He. cbn -[stoul]. rewrite Hr. cbn.
      destruct (Z.eqb_spec c 0); [|done]. unfold Alloc.automatic, kCiVCidStart in Ha. lia.
  - destruct (stoul_frame (S := BSt) (GetValue kGroupGlob kGlobCid (cfg_ v)) (v, g)) as [Hs1 Hs2].
    destruct (@stoul BSt _ (v, g)) as [[n|e|] s1] eqn:Hn; cbn -[stoul] in Hs1, Hs2; subst s1.
    + destruct (GetCid_cases (u32 n) (g_pool g)) as [[Hr _]|(Hr & Hu & Hb)].
      * right. exists 0. split; [by left|]. unfold cfg, this, b_pool, upd_vb, try_catch.
        sx_unfold. cbn -[stoul]. rewrite He. cbn -[stoul]. rewrite Hn. cbn. by rewrite Hr.
      * left. exists (u32 n). split_and!; [done|done| |].
        { exists n. split; [|done]. rewrite (surjective_pairing (stoul _ tt)), <-Hs2.
          by destruct (stoul _ tt).2. }
        unfold cfg, this, b_pool, upd_vb, try_catch. sx_unfold. cbn -[stoul]. rewrite He. cbn -[stoul].
        rewrite Hn. cbn. rewrite Hr. cbn. destruct (Z.eqb_spec (u32 n) 0); [|done].
        unfold Alloc.usable in Hu. lia.
    + assert (e ≠ ExTerminate) as He' by (unfold stoul in Hn; repeat case_match; naive_solver).
      right. exists (vsock_cid_ v). split; [by right|].
      unfold cfg, this, b_pool, upd_vb, try_catch. sx_unfold. cbn -[stoul]. rewrite He. cbn -[stoul].
      rewrite Hn. cbn. rewrite decide_False by done. cbn. by destruct v, g.
    + unfold stoul in Hn. repeat case_match; done.
Qed.
End special.

(** ** Building the command line *)

Section args.
Context {B : Boost} {E : OsEnv}.

(** No context id has been taken, or one that was free has. *)
Definition untaken (s0 s : BSt) : Prop :=
  g_pool s.2 = g_pool s0.2 ∧ (vsock_cid_ s.1 = 0 ∨ vsock_cid_ s.1 = vsock_cid_ s0.1).
Definition taken (s0 s : BSt) : Prop :=
  let c := vsock_cid_ s.1 in
  Alloc.usable c ∧ bit (g_pool s0.2) c = true ∧ asked s0.1 c
  ∧ g_pool s.2 = reset_bit c (g_pool s0.2).

Definition before_cid (s0 s : BSt) : Prop := steady s0 s ∧ untaken s0 s.
Definition after_cid (s0 s : BSt) : Prop := steady s0 s ∧ taken s0 s.

Lemma before_cid_frame s0 s s' : before_cid s0 s → frame s s' → before_cid s0 s'.
Proof.
  intros [Hs [Hp Hc]] [Hs' Hc' Hp' _]. split; [by etrans|]. unfold untaken.
  by rewrite Hp', Hc'.
Qed.
Lemma after_cid_frame s0 s s' : after_cid s0 s → frame s s' → after_cid s0 s'.
Proof.
  intros [Hs (Hu & Hb & Ha & Hp)] [Hs' Hc' Hp' _]. split; [by etrans|]. unfold taken.
  by rewrite Hc', Hp'.
Qed.

Lemma steady_emul x (s : BSt) : steady s (set_emul x s.1, s.2).
Proof. by split. Qed.

(** What a failed and a finished build leave behind. *)
Definition build_failed (s0 s : BSt) : Prop := before_cid s0 s ∨ after_cid s0 s.
Definition build_done (s0 s : BSt) : Prop :=
  ∃ s1, after_cid s0 s1 ∧ s.2 = s1.2
    ∧ s.1 = set_state kVmCreated (set_main (Some (new_VmProcSimple (emul_cmd_ s1.1))) s1.1).

Lemma hoare_frame {A} (I : BSt → Prop) X (c : M BSt A) :
  (∀ s s', I s → frame s s' → I s') → (∀ s, I s → X s) → grows frame c →
  hoare I c (λ _, I) X.
Proof.
  intros HI HX Hc s Hs. specialize (Hc s). destruct (c s) as [[]?]; simpl in *; eauto.
Qed.

Lemma hoare_BuildEmulPath s0 :
  hoare (before_cid s0) BuildEmulPath (λ _, before_cid s0) (build_failed s0).
Proof.
  intros s Hs. destruct (BuildEmulPath_cases s) as (path & o & ->).
  destruct Hs as [Hs Hu]. destruct (str_empty path); (split; [|exact Hu]);
    (etrans; [exact Hs|by split]).
Qed.

Lemma hoare_BuildNameQmp s0 :
  hoare (before_cid s0) BuildNameQmp (λ _, before_cid s0) (build_failed s0).
Proof.
  intros s Hs. rewrite BuildNameQmp_cases. destruct Hs as [Hs Hu].
  destruct (str_empty _); [|destruct (g_config_path s.2)]; [| |left];
    (split; [|exact Hu]); (etrans; [exact Hs|by split]).
Qed.

Lemma hoare_BuildVsockCmd s0 :
  pool_wf (g_pool s0.2) →
  hoare (before_cid s0) BuildVsockCmd
    (λ b, if b : bool then after_cid s0 else before_cid s0) (build_failed s0).
Proof.
  intros Hw s [Hs [Hp Hc]]. pose proof (st_cfg _ _ Hs) as Hcfg.
  destruct (BuildVsockCmd_cases s) as [(c & Hu & Hb & Ha & ->)|(c & Hcc & ->)];
    [by rewrite Hp|..].
  - unfold asked in Ha. rewrite Hcfg in Ha. rewrite Hp in *.
    split; [etrans; [exact Hs|by split]|]. by split_and!.
  - split; [etrans; [exact Hs|by split]|]. split; [done|]. simpl. destruct Hcc as [->| ->]; auto.
Qed.
End args.

(** Pieces whose frame is known keep the invariant [I] of their phase; an
    early return is a failed build. *)
Ltac build_step I :=
  lazymatch goal with
  | |- hoare _ (if _ then _ else _) _ _ =>
      apply hoare_if; intros _; [apply hoare_ret_imp; unfold build_failed; tauto|]
  | |- hoare _ (_ ≫= _) _ _ =>
      apply (hoare_bind _ _ _ (λ _, I));
        [apply hoare_frame; [eauto using before_cid_frame, after_cid_frame|
           unfold build_failed; tauto|auto with civ nocore]|intros ?]
  end.

Section args_hoare.
Context {B : Boost} {E : OsEnv}.

Lemma hoare_BuildVmArgs s0 :
  pool_wf (g_pool s0.2) →
  hoare (before_cid s0) BuildVmArgs
    (λ b, if b : bool then build_done s0 else build_failed s0) (build_failed s0).
Proof.
  intros Hw. unfold BuildVmArgs.
  eapply hoare_bind; [apply hoare_BuildEmulPath|intros ?]. build_step (before_cid s0).
  eapply hoare_bind; [apply hoare_BuildNameQmp|intros ?].
  do 10 build_step (before_cid s0).
  eapply hoare_bind; [by apply hoare_BuildVsockCmd|intros []]; cbn [negb];
    [|apply hoare_ret_imp; by left].
  do 17 build_step (after_cid s0).
  intros s Hs. eexists. by split.
Qed.
End args_hoare.

(** *** The finished command line *)

Section command.
Context {B : Boost} {E : OsEnv}.

(** The pieces [l] occur in [x] one after the other. *)
Fixpoint in_order (l : list string) (x : string) : Prop :=
  match l with
  | [] => True
  | p :: l => ∃ a b, x = a +:+ p +:+ b ∧ in_order l b
  end.

Lemma in_order_app_r l x y : in_order l x → in_order l (x +:+ y).
Proof.
  revert x. induction l as [|p l IH]; intros x; [done|].
  intros (a & b & -> & Hb). exists a, (b +:+ y). split; [by rewrite !str_app_assoc|by apply IH].
Qed.

Lemma in_order_snoc l x p : in_order l x → in_order (l ++ [p]) (x +:+ p).
Proof.
  revert x. induction l as [|q l IH]; intros x; simpl.
  - intros _. exists x, EmptyString. by rewrite str_app_nil_r.
  - intros (a & b & -> & Hb). exists a, (b +:+ p). split; [by rewrite !str_app_assoc|by apply IH].
Qed.

(** The firmware option; [None] for a type the builder rejects. *)
Definition firm_arg (c : CivConfig) : option string :=
  let firm_type := GetValue kGroupFirm kFirmType c in
  if bool_decide (firm_type = kFirmUnified) then
    Some (" -drive if=pflash,format=raw,file=" +:+ GetValue kGroupFirm kFirmPath c)
  else if bool_decide (firm_type = kFirmSplited) then
    Some (" -drive if=pflash,format=raw,readonly,file=" +:+ GetValue kGroupFirm kFirmCode c +:+
          " -drive if=pflash,format=raw,file=" +:+ GetValue kGroupFirm kFirmVars c)
  else None.

(** Memory, processors and disk. *)
Definition mem_arg (c : CivConfig) : string := " -m " +:+ GetValue kGroupMem kMemSize c.
Definition vcpu_arg (c : CivConfig) : string := " -smp " +:+ GetValue kGroupVcpu kVcpuNum c.
Definition disk_arg (c : CivConfig) : string :=
  " -drive file=" +:+ GetValue kGroupDisk kDiskPath c +:+
  ",if=none,id=disk1,discard=unmap,detect-zeroes=unmap" +:+
  " -device virtio-blk-pci,drive=disk1,bootindex=1".
Definition fixed_arg : string :=
  " -M q35 -machine kernel_irqchip=on -k en-us -cpu host,-waitpkg,pmu=off -enable-kvm" +:+
  " -device qemu-xhci,id=xhci,p2=8,p3=8 -device usb-mouse -device usb-kbd" +:+
  " -device intel-iommu,device-iotlb=on,caching-mode=on -nodefaults ".

(** The invariant of the build: the pieces [l] are on the command, and what
    [P] says of pool and context id holds. *)
Definition cmd_has (s0 : BSt) (P : BSt → Prop) (l : list string) (s : BSt) : Prop :=
  steady s0 s ∧ P s ∧ in_order l (emul_cmd_ s.1).

Definition pool_is (p : VsockCidPool) (s : BSt) : Prop := g_pool s.2 = p.
Definition cid_is (c : Z) (s : BSt) : Prop := vsock_cid_ s.1 = c.

Lemma pool_is_frame p s s' : frame s s' → pool_is p s → pool_is p s'.
Proof. intros [_ _ Hp _]. unfold pool_is. by rewrite Hp. Qed.
Lemma cid_is_frame p s s' : frame s s' → cid_is p s → cid_is p s'.
Proof. intros [_ Hp _ _]. unfold cid_is. by rewrite Hp. Qed.

(** [Q] once the answer is [v]. *)
Definition if_is {A} (v : A) (Q : BSt → Prop) (a : A) (s : BSt) : Prop := a = v → Q s.

Lemma hoare_known {A C} (v : C) (Q : BSt → Prop) (k : M BSt A) R :
  hoare Q k R (λ _, True) → hoare (if_is v Q v) k R (λ _, True).
Proof. intros Hk. eapply hoare_conseq; [exact Hk|unfold if_is; auto..]. Qed.

Section pieces_on_command.
Context (s0 : BSt) (P : BSt → Prop) (HP : ∀ s s', frame s s' → P s → P s').

Lemma hoare_cmd_frame {A} (c : M BSt A) l :
  grows frame c → hoare (cmd_has s0 P l) c (λ _, cmd_has s0 P l) (λ _, True).
Proof using HP.
  intros Hc. apply hoare_frame; [|done|done].
  intros s s' (Hs & Hp & Hl) F. split_and!; [etrans; [exact Hs|apply F]|eauto|].
  destruct (fr_cmd _ _ F) as [x ->]. by apply in_order_app_r.
Qed.

Lemma hoare_cmd_piece {A} (c : M BSt A) (v : A) (f : CivConfig → string) l :
  grows frame c →
  (∀ s s', c s = (Ret v, s') → emul_cmd_ s'.1 = emul_cmd_ s.1 +:+ f (cfg_ s.1)) →
  hoare (cmd_has s0 P l) c (if_is v (cmd_has s0 P (l ++ [f (cfg_ s0.1)]))) (λ _, True).
Proof using HP.
  intros Hc Hf s (Hs & Hp & Hl). specialize (Hf s). specialize (Hc s).
  destruct (c s) as [[a|e|] s'] eqn:Hr; [|done..]. intros ->. specialize (Hf _ eq_refl).
  simpl in Hc. split_and!; [etrans; [exact Hs|apply Hc]|eauto|].
  rewrite Hf, <-(st_cfg _ _ Hs). by apply in_order_snoc.
Qed.

(** A unit piece inside a sequence. *)
Lemma hoare_cmd_then {A} (c : M BSt unit) (k : M BSt A) (f : CivConfig → string) l Q :
  grows frame c →
  (∀ s s', c s = (Ret tt, s') → emul_cmd_ s'.1 = emul_cmd_ s.1 +:+ f (cfg_ s.1)) →
  hoare (cmd_has s0 P (l ++ [f (cfg_ s0.1)])) k Q (λ _, True) →
  hoare (cmd_has s0 P l) (c ;; k) Q (λ _, True).
Proof using HP.
  intros Hc Hf Hk. eapply hoare_bind; [by apply (hoare_cmd_piece c tt f)|]. intros [].
  by apply hoare_known.
Qed.
End pieces_on_command.

Lemma BuildFirmwareCmd_true s s' :
  BuildFirmwareCmd s = (Ret true, s') →
  emul_cmd_ s'.1 = emul_cmd_ s.1 +:+ default EmptyString (firm_arg (cfg_ s.1)).
Proof.
  unfold BuildFirmwareCmd, firm_arg, cfg, this, upd_vb. sx_unfold. destruct s as [v g]; cbn.
  destruct (str_empty _); [done|]. cbn.
  case_bool_decide; cbn; [by intros [= <-]|].
  case_bool_decide; cbn; intros [= <-]. cbn. by rewrite <-!str_app_assoc.
Qed.
End command.

Ltac cmd_step :=
  lazymatch goal with
  | |- hoare _ (if _ then _ else _) _ _ =>
      apply hoare_if; intros _; [by apply hoare_ret_imp|]
  | |- hoare (cmd_has ?s0 ?P ?l) (_ ≫= _) _ _ =>
      apply (hoare_bind _ _ _ (λ _, cmd_has s0 P l));
        [apply hoare_cmd_frame; [eauto using pool_is_frame, cid_is_frame|auto with civ nocore]
        |intros ?]
  end.

Section command_shape.
Context {B : Boost} {E : OsEnv}.

(** The pieces every finished command has, in their order; a build without a
    configuration path does not finish. *)
Definition mandatory (s0 : BSt) (c : Z) : list string :=
  [name_arg s0.1 (default EmptyString (g_config_path s0.2)); vsock_arg c; mem_arg (cfg_ s0.1); vcpu_arg (cfg_ s0.1);
   default EmptyString (firm_arg (cfg_ s0.1)); disk_arg (cfg_ s0.1); fixed_arg].

Definition shaped (s0 : BSt) (b : bool) (s : BSt) : Prop :=
  b = true → is_Some (g_config_path s0.2) ∧ in_order (mandatory s0 (vsock_cid_ s.1)) (emul_cmd_ s.1).

Lemma cmd_BuildEmulPath s0 :
  hoare (eq s0) BuildEmulPath (λ _, cmd_has s0 (pool_is (g_pool s0.2)) []) (λ _, True).
Proof.
  intros s <-. destruct (BuildEmulPath_cases s0) as (path & o & ->). by destruct (str_empty path).
Qed.

Lemma cmd_BuildNameQmp s0 :
  hoare (cmd_has s0 (pool_is (g_pool s0.2)) []) BuildNameQmp
    (if_is true (λ s, ∃ _ : is_Some (g_config_path s0.2),
       cmd_has s0 (pool_is (g_pool s0.2)) (take 1 (mandatory s0 0)) s))
    (λ _, True).
Proof.
  intros s (Hs & Hp & _). rewrite BuildNameQmp_cases. destruct (str_empty _); [done|].
  destruct (g_config_path s.2) as [path|] eqn:Hpath; [|done]. rewrite (st_path _ _ Hs) in Hpath.
  intros _. exists (mk_is_Some _ _ Hpath). split_and!; [etrans; [exact Hs|by split]|done|]. cbn [emul_cmd_ set_emul fst].
  unfold mandatory. rewrite Hpath. unfold name_arg. rewrite (st_cfg _ _ Hs). by apply (in_order_snoc []).
Qed.

Lemma cmd_BuildVsockCmd s0 :
  pool_wf (g_pool s0.2) →
  hoare (cmd_has s0 (pool_is (g_pool s0.2)) (take 1 (mandatory s0 0))) BuildVsockCmd
    (if_is true (λ s, ∃ c, cmd_has s0 (cid_is c) (take 2 (mandatory s0 c)) s)) (λ _, True).
Proof.
  intros Hw s (Hs & Hp & Hl). unfold pool_is in Hp.
  destruct (BuildVsockCmd_cases s) as [(c & _ & _ & _ & ->)|(c & _ & ->)]; [by rewrite Hp| |done].
  intros _. exists c. split_and!; [etrans; [exact Hs|by split]|done|].
  by apply (in_order_snoc (take 1 (mandatory s0 0))).
Qed.

Lemma cmd_tail s0 c :
  is_Some (g_config_path s0.2) →
  hoare (cmd_has s0 (cid_is c) (take 6 (mandatory s0 c)))
    (BuildPtPciDevicesCmd ;; SetPciDevicesCallback ;; RunMediationSrv ;; BuildGuestTimeKeepCmd ;;
     BuildGuestPmCtrlCmd ;; BuildExtraGuestPmCtrlCmd ;; BuildAudioCmd ;; BuildExtraCmd ;;
     BuildFixedCmd ;; SetExtraServices ;; flush_aaf ;;
     upd_vb (λ v, set_main (Some (new_VmProcSimple (emul_cmd_ v))) v) ;;
     upd_vb (set_state kVmCreated) ;; mret true)
    (shaped s0) (λ _, True).
Proof.
  intros Hpath. do 8 cmd_step.
  apply (hoare_cmd_then _ _ (cid_is_frame c) _ _ (λ _, fixed_arg));
    [auto with civ nocore| |].
  { intros s s' [= <-]. cbn. by rewrite str_app_assoc. }
  do 2 cmd_step. intros s (_ & Hc & Hl) _. cbn. unfold cid_is in Hc. by rewrite Hc.
Qed.

Lemma BuildVmArgs_shape s0 :
  pool_wf (g_pool s0.2) → hoare (eq s0) BuildVmArgs (shaped s0) (λ _, True).
Proof.
  intros Hw. unfold BuildVmArgs.
  eapply hoare_bind; [apply cmd_BuildEmulPath|intros ?]. cmd_step.
  eapply hoare_bind; [apply cmd_BuildNameQmp|intros []]; cbn [negb]; [|by apply hoare_ret_imp].
  apply hoare_known, (hoare_exists (λ _ : is_Some (g_config_path s0.2),
    cmd_has s0 (pool_is (g_pool s0.2)) (take 1 (mandatory s0 0)))). intros Hpath. do 9 cmd_step.
  eapply hoare_bind; [by apply cmd_BuildVsockCmd|intros []]; cbn [negb]; [|by apply hoare_ret_imp].
  apply hoare_known, (hoare_exists (λ c, cmd_has s0 (cid_is c) (take 2 (mandatory s0 c)))).
  intros c. cmd_step.
  apply (hoare_cmd_then _ _ (cid_is_frame c) _ _ mem_arg); [auto with civ nocore|by intros s s' [= <-]|].
  apply (hoare_cmd_then _ _ (cid_is_frame c) _ _ vcpu_arg); [auto with civ nocore|by intros s s' [= <-]|].
  eapply hoare_bind; [apply (hoare_cmd_piece _ _ (cid_is_frame c) _ true
    (λ v, default EmptyString (firm_arg v))); [auto with civ nocore|apply BuildFirmwareCmd_true]|].
  intros []; cbn [negb]; [|by apply hoare_ret_imp]. apply hoare_known.
  apply (hoare_cmd_then _ _ (cid_is_frame c) _ _ disk_arg); [auto with civ nocore|by intros s s' [= <-]|].
  by apply cmd_tail.
Qed.
End command_shape.
