(* ===== verification/Lifecycle.v ===== *)
(** * Starting and stopping a guest

    Lemmas about the second half of Builder.v: what the calls on the main and
    the helper processes leave alone, that stopping a guest comes back and
    gives its resources back, and that starting a guest built from any
    configuration does not hang. *)

From S2P Require Import Prelude.
From S2P Require Import CStd.
From S2P Require Import Boost.
From S2P Require Import Os.
From S2P Require Import CidPool.
From S2P Require Import Config.
From S2P Require Import Aaf.
From S2P Require Import Process.
From S2P Require Import Devices.
From S2P Require Import Builder.
From S2P Require Import BuilderProps.
From Stdlib Require Import Ascii.

Local Open Scope Z_scope.

(** *** Calls on the processes *)

Section life.
Context {B : Boost} {E : OsEnv}.

(** Only the processes and the machine change, and a process keeps its class
    and, when plain, its command. *)
Record life (s s' : BSt) : Prop := {
  lf_name : name_ s'.1 = name_ s.1;
  lf_cfg : cfg_ s'.1 = cfg_ s.1;
  lf_cid : vsock_cid_ s'.1 = vsock_cid_ s.1;
  lf_state : state_ s'.1 = state_ s.1;
  lf_latch : vm_ready_latch_ s'.1 = vm_ready_latch_ s.1;
  lf_ends : end_call_ s'.1 = end_call_ s.1;
  lf_pci : pci_pt_dev_set_ s'.1 = pci_pt_dev_set_ s.1;
  lf_pool : g_pool s'.2 = g_pool s.2;
  lf_sock : g_socketPath s'.2 = g_socketPath s.2;
  lf_main : option_Forall2 same_proc (main_proc_ s.1) (main_proc_ s'.1);
  lf_co : Forall2 same_proc (co_procs_ s.1) (co_procs_ s'.1);
}.

#[export] Instance life_preorder : PreOrder life.
Proof.
  split.
  - by intros s.
  - intros s1 s2 s3 [] []. split; try congruence; by etrans.
Qed.

Lemma Forall2_same_insert (l : list VmProc) i p p' :
  l !! i = Some p → same_proc p p' → Forall2 same_proc l (<[i := p']> l).
Proof.
  intros Hi Hp. apply Forall2_same_length_lookup. rewrite length_insert. split; [done|].
  intros j x y Hx Hy. destruct (decide (i = j)) as [<-|Hj].
  - rewrite list_lookup_insert_eq in Hy by eauto using lookup_lt_Some. by simplify_eq.
  - rewrite list_lookup_insert_ne in Hy by done. by simplify_eq.
Qed.

Lemma life_os o (s : BSt) : life s (s.1, set_os o s.2).
Proof. by split. Qed.

(** A method on the [i]-th helper, or on the main process, that is in [R]. *)
Lemma life_on_co {A} i (c : M ProcSt A) :
  grows (λ s s', same_proc s.1 s'.1) c → grows life (on_co i c).
Proof.
  intros Hc s. unfold on_co, lift.
  specialize (Hc (default (new_VmProcSimple EmptyString) (co_procs_ s.1 !! i), g_os s.2)).
  destruct (c _) as [r [p' o]]; simpl in *.
  destruct (co_procs_ s.1 !! i) as [p|] eqn:Hi; simpl in Hc.
  - split; try done; simpl. by eapply Forall2_same_insert.
  - rewrite list_insert_ge by (by apply lookup_ge_None). by split.
Qed.

Lemma life_on_main {A} (c : M ProcSt A) s :
  grows (λ s s', same_proc s.1 s'.1) c → is_Some (main_proc_ s.1) → life s (on_main c s).2.
Proof.
  intros Hc [p Hp]. unfold on_main, lift. rewrite Hp. simpl.
  specialize (Hc (p, g_os s.2)). destruct (c _) as [r [p' o]]; simpl in *.
  split; try done. simpl. rewrite Hp. by constructor.
Qed.

Lemma same_Proc_Run tid : grows (λ s s', same_proc s.1 s'.1) (Proc_Run tid).
Proof. intros [p o]. pose proof (Proc_Run_same tid p o). by destruct (Proc_Run _ _) as [? []]. Qed.
Lemma same_Proc_Stop : grows (λ s s', same_proc s.1 s'.1) Proc_Stop.
Proof.
  intros [p o]. pose proof (Proc_Stop_runs p o).
  destruct (Proc_Stop _) as [[] []]; simpl; naive_solver.
Qed.
Lemma same_SetLogDir d : grows (λ s s', same_proc s.1 s'.1) (SetLogDir d).
Proof. intros [p o]. pose proof (SetLogDir_runs d p o). by destruct (SetLogDir _ _) as [[] []]. Qed.
Lemma same_Running : grows (λ s s', same_proc s.1 s'.1) Running.
Proof. intros [p o]. by destruct (Running_runs p o) as (? & ? & ->). Qed.
End life.
#[export] Hint Resolve same_Proc_Run same_Proc_Stop same_SetLogDir same_Running life_on_co : civ.

(** *** Stopping *)

Section stop.
Context {B : Boost} {E : OsEnv}.

(** [ReleaseCid] as a function on pools. *)
Definition released (c : Z) (p : VsockCidPool) : VsockCidPool := (ReleaseCid c p).2.

Lemma ReleaseCid_run c p : ∃ b, ReleaseCid c p = (Ret b, released c p).
Proof. unfold released. destruct (ReleaseCid_cases c p) as [[-> _]|[-> _]]; eauto. Qed.

(** Where an exception may leave the pool: the id has been given back, or an
    RPMB helper is what failed. *)
Definition stop_failed (s0 : BSt) (e : exn) (s : BSt) : Prop :=
  ((e = ExFilesystem ∨ e = ExTerminate) ∧ life s0 s ∧ Exists is_rpmb (co_procs_ s0.1))
  ∨ (g_pool s.2 = released (vsock_cid_ s0.1) (g_pool s0.2) ∧ co_procs_ s.1 = []).

Lemma same_rpmb p p' : same_proc p p' → is_rpmb p' → is_rpmb p.
Proof. intros [Hk _]. unfold is_rpmb. by rewrite Hk. Qed.

(** A call on a process that fails only for an RPMB helper. *)
Definition stops (c : M ProcSt unit) : Prop := ∀ p s,
  match c (p, s) with
  | (Ret _, (p', _)) => same_proc p p'
  | (Throw e, (p', _)) => same_proc p p' ∧ (e = ExFilesystem ∨ e = ExTerminate) ∧ is_rpmb p
  | (Blocked, _) => False
  end.

Lemma stops_Proc_Stop : stops Proc_Stop.
Proof. intros p s. pose proof (Proc_Stop_runs p s). destruct (Proc_Stop _) as [[] []]; naive_solver. Qed.
Lemma stops_Proc_Delete : stops Proc_Delete.
Proof. intros p s. pose proof (Proc_Delete_runs p s). destruct (Proc_Delete _) as [[] []]; naive_solver. Qed.

Lemma stops_same c : stops c → grows (λ s s', same_proc s.1 s'.1) c.
Proof. intros Hc [p o]. specialize (Hc p o). destruct (c _) as [[] []]; simpl; naive_solver. Qed.

Lemma on_co_stop s0 i c : stops c → runs (life s0) (on_co i c) (λ _, life s0) (stop_failed s0).
Proof.
  intros Hc s Hs. pose proof (life_on_co i c (stops_same c Hc) s) as Hl.
  unfold on_co, lift in *.
  pose proof (Hc (default (new_VmProcSimple EmptyString) (co_procs_ s.1 !! i)) (g_os s.2)) as Hp.
  destruct (c _) as [[u|e|] [p' o]]; simpl in *; [by etrans| |done].
  destruct Hp as (_ & He & Hr). left. split_and!; [done|by etrans|].
  destruct (co_procs_ s.1 !! i) as [p|] eqn:Hi; [|done]. simpl in Hr.
  destruct (Forall2_lookup_r _ _ _ _ _ (lf_co _ _ Hs) Hi) as (p0 & Hi0 & Hp0).
  apply Exists_exists. exists p0. split; [by eapply list_elem_of_lookup_2|by eapply same_rpmb].
Qed.

Lemma for_co_stop s0 c :
  stops c → runs (life s0) (for_co (λ i, on_co i c)) (λ _, life s0) (stop_failed s0).
Proof.
  intros Hc. unfold for_co, this. apply runs_gets. intros n.
  eapply runs_pre; [by intros ? [H _]; exact H|].
  apply runs_for_each. intros. by apply on_co_stop.
Qed.

(** The main process is a plain one. *)
Definition main_plain (v : VmBuilderQemu) : Prop :=
  match main_proc_ v with Some p => kind p = VmProcSimple | None => True end.

Lemma main_stop s0 c :
  stops c → main_plain s0.1 →
  runs (eq s0) (match main_proc_ s0.1 with Some _ => on_main c | None => skip end)
    (λ _, life s0) (stop_failed s0).
Proof.
  intros Hc Hm s <-. unfold main_plain in Hm. destruct (main_proc_ s0.1) as [p|] eqn:Hp; [|by simpl].
  pose proof (life_on_main c s0 (stops_same c Hc) (ltac:(rewrite Hp; eauto))) as Hl.
  unfold on_main, lift in *. rewrite Hp in *. simpl in *.
  pose proof (Hc p (g_os s0.2)) as Hr. unfold is_rpmb in Hr. rewrite Hm in Hr.
  destruct (c _) as [[u|e|] [p' o]]; simpl in *; [done|naive_solver..].
Qed.

(** After the release: only the machine and the queue change. *)
Definition after_release (s0 s : BSt) : Prop :=
  co_procs_ s.1 = [] ∧ vsock_cid_ s.1 = vsock_cid_ s0.1 ∧ state_ s.1 = state_ s0.1
  ∧ name_ s.1 = name_ s0.1 ∧ g_pool s.2 = released (vsock_cid_ s0.1) (g_pool s0.2).

Lemma runs_b_os {A} s0 l (c : M OsSt A) :
  ends (λ _, True) (λ _ _, True) c →
  runs (λ s, after_release s0 s ∧ end_call_ s.1 = l) (b_os c)
    (λ _ s, after_release s0 s ∧ end_call_ s.1 = l) (stop_failed s0).
Proof.
  intros Hc s [Hs Hl]. unfold b_os, lift. specialize (Hc (g_os s.2)).
  destruct (c _) as [[a|e|] o]; [done| |done]. right. split; apply Hs.
Qed.

Ltac solve_ends :=
  repeat first
    [ progress intros | apply ends_any | by apply ends_os | by apply ends_throw | by apply ends_ret
    | match goal with |- ends _ _ (match ?x with _ => _ end) => destruct x end ].

Lemma proc_system_ends c : ends (λ _, True) (λ _ _, True) (proc_system c).
Proof. unfold proc_system. solve_ends. Qed.
Lemma restore_ends d : ends (λ _, True) (λ _ _, True) (PassthroughOnePciDev d kPciRestore).
Proof.
  unfold PassthroughOnePciDev, LoadKernelModule, proc_system, dir_entries. solve_ends.
  match goal with |- ends _ _ (passthrough_entries _ ?l) => induction l as [|x l IH] end;
    cbn [passthrough_entries]; unfold restore_dev, IsVfioDriver, ReadSysFile, WriteSysFile, when;
    solve_ends. apply IH.
Qed.

Lemma run_end_call_runs s0 l c :
  runs (λ s, after_release s0 s ∧ end_call_ s.1 = l) (run_end_call c)
    (λ _ s, after_release s0 s ∧ end_call_ s.1 = l) (stop_failed s0).
Proof.
  destruct c; cbn [run_end_call].
  - eapply runs_bind; [apply runs_b_os, proc_system_ends|]. intros ?. by apply runs_ret.
  - apply runs_gets. intros path. eapply runs_bind.
    + eapply runs_pre; [by intros s [Hs _]; exact Hs|]. apply runs_b_os. by apply ends_os.
    + intros ?. by apply runs_ret.
  - apply runs_gets. intros devs.
    eapply runs_pre; [by intros s [Hs _]; exact Hs|].
    apply runs_for_each. intros d _. eapply runs_bind; [apply runs_b_os, restore_ends|]. intros ?. by apply runs_ret.
Qed.

Lemma run_end_calls_runs s0 l :
  runs (λ s, after_release s0 s ∧ end_call_ s.1 = l) (run_end_calls l)
    (λ _ s, after_release s0 s ∧ end_call_ s.1 = []) (stop_failed s0).
Proof.
  induction l as [|c l IH]; cbn [run_end_calls]; [by apply runs_ret|].
  eapply runs_bind; [apply run_end_call_runs|]. intros ?.
  eapply runs_bind; [|intros ?; exact IH].
  apply runs_modify. intros s [Hs Hl]. simpl. rewrite Hl. by split.
Qed.

Lemma release_part s0 :
  runs (life s0)
    (clear_procs ;; cid ← this vsock_cid_; _ ← b_pool (ReleaseCid cid);
     l ← this end_call_; run_end_calls l)
    (λ _ s, after_release s0 s ∧ end_call_ s.1 = []) (stop_failed s0).
Proof.
  unfold clear_procs. eapply runs_bind with (Q' := λ _ s, ∃ s1, life s0 s1 ∧ s = (set_procs [] s1.1, s1.2)).
  { eapply runs_bind; [apply for_co_stop, stops_Proc_Delete|]. intros ?.
    apply runs_modify. intros s Hs. by exists s. }
  intros ? s' (s & Hs & ->). unfold this, b_pool. sx_unfold. cbn -[run_end_calls].
  destruct (ReleaseCid_run (vsock_cid_ s.1) (g_pool s.2)) as [b ->]. cbn -[run_end_calls].
  apply run_end_calls_runs. split; [|done].
  destruct Hs as [Hn _ Hc Hst _ _ _ Hp _ _ _]. cbn. split_and!; try done. by rewrite Hc, Hp.
Qed.

(** What [StopVm] does to a guest whose main process is a plain one. *)
Lemma StopVm_runs s0 :
  main_plain s0.1 →
  runs (eq s0) StopVm (λ _ s, after_release s0 s ∧ end_call_ s.1 = []) (stop_failed s0).
Proof.
  intros Hm. unfold StopVm, this. apply runs_gets. intros mp.
  apply runs_bind with (Q' := λ _, life s0).
  { intros s [<- <-]. by apply (main_stop s0 Proc_Stop stops_Proc_Stop Hm). }
  intros ?. apply runs_bind with (Q' := λ _, life s0); [apply for_co_stop, stops_Proc_Stop|].
  intros ?. apply release_part.
Qed.
End stop.

(** *** What stopping does to the machine *)

(** A complete run of [c] makes the calls [t]. *)
Definition ran `{OsEnv} {A} (c : M OsSt A) (t : list answered) : Prop :=
  ∃ o r o', c o = (Ret r, o') ∧ calls o o' t.

(** The calls of a queued end call that was carried out. *)
Definition end_call_done `{Boost} `{OsEnv} (devs : list string) (sock : string) (c : EndCall) (t : list answered) : Prop :=
  match c with
  | EcProbeSound => ran (proc_system "modprobe snd-sof-pci-intel-tgl") t
  | EcRemoveSocket => ran (os (FsRemove sock)) t
  | EcRestorePci => ∃ ts, t = concat ts ∧ Forall2 (λ d, ran (PassthroughOnePciDev d kPciRestore)) devs ts
  end.

(** Between the two states a guest was stopped: its emulator was told to end
    or seen to have ended, the children of all helpers are gone, and then the
    queued end calls were carried out, in their order and to their ends. *)
Definition guest_ended `{Boost} `{OsEnv} (s s' : BSt) : Prop :=
  ∃ t ts, calls (g_os s.2) (g_os s'.2) (t ++ concat ts)
    ∧ (∀ p pid, main_proc_ s.1 = Some p → mon_ p = true → c_ p = Some pid → told pid t)
    ∧ (∀ p pid, p ∈ co_procs_ s.1 → c_ p = Some pid → gone pid t)
    ∧ Forall2 (end_call_done (pci_pt_dev_set_ s.1) (g_socketPath s.2)) (end_call_ s.1) ts.

Section stop_trace.
Context {B : Boost} {E : OsEnv}.

(** Nothing but processes and the machine changes, and children keep their ids. *)
Definition quiet (s s' : BSt) : Prop :=
  (∃ t, calls (g_os s.2) (g_os s'.2) t) ∧ c_ <$> co_procs_ s'.1 = c_ <$> co_procs_ s.1
  ∧ end_call_ s'.1 = end_call_ s.1 ∧ pci_pt_dev_set_ s'.1 = pci_pt_dev_set_ s.1
  ∧ g_socketPath s'.2 = g_socketPath s.2.
#[export] Instance quiet_preorder : PreOrder quiet.
Proof.
  split; [intros s; split_and!; [exists []; apply calls_refl|done..]|].
  intros s1 s2 s3 ([t1 Ht1]&?&?&?&?) ([t2 Ht2]&?&?&?&?).
  split_and!; [exists (t1 ++ t2); by eapply calls_trans|congruence..].
Qed.

Lemma quiet_on_co i (c : M ProcSt unit) : grows only_ends c → grows quiet (on_co i c).
Proof.
  intros Hc s. unfold on_co, lift.
  specialize (Hc (default (new_VmProcSimple EmptyString) (co_procs_ s.1 !! i), g_os s.2)).
  destruct (c _) as [r [p' o]]. destruct Hc as [(t & Ht & _) Hp]. cbn in Ht, Hp.
  split_and!; [by exists t| |done..]. cbn [fst snd set_procs co_procs_].
  destruct (co_procs_ s.1 !! i) as [p|] eqn:Hi; cbn in Hp.
  - rewrite list_fmap_insert, Hp. apply list_insert_id. by rewrite list_lookup_fmap, Hi.
  - by rewrite list_insert_ge by (by apply lookup_ge_None).
Qed.

Lemma quiet_on_main (c : M ProcSt unit) : grows only_ends c → grows quiet (on_main c).
Proof.
  intros Hc s. unfold on_main, lift. specialize (Hc (default (new_VmProcSimple EmptyString) (main_proc_ s.1), g_os s.2)).
  destruct (c _) as [r [p' o]]. destruct Hc as [(t & Ht & _) Hp]. by split_and!; [exists t|..].
Qed.

Lemma quiet_for_co c : grows only_ends c → grows quiet (for_co (λ i, on_co i c)).
Proof.
  intros Hc. unfold for_co, this. apply grows_bind; [exact _|apply grows_gets; exact _|].
  intros n. apply grows_for_each; [exact _|]. intros i. by apply quiet_on_co.
Qed.

(** The calls made for a sum of two parts. *)
Lemma quiet_calls s s' : quiet s s' → ∃ t, calls (g_os s.2) (g_os s'.2) t.
Proof. by intros []. Qed.

Lemma delete_each l s s' :
  for_each (λ i, on_co i Proc_Delete) l s = (Ret tt, s') →
  ∃ t, calls (g_os s.2) (g_os s'.2) t
    ∧ ∀ i p pid, i ∈ l → co_procs_ s.1 !! i = Some p → c_ p = Some pid → gone pid t.
Proof.
  revert s. induction l as [|i l IH]; intros s.
  { intros [= <-]. exists []. split; [apply calls_refl|]. by intros i p pid Hi%not_elem_of_nil. }
  cbn [for_each]. intros Hr. apply bind_ret_inv in Hr as ([] & s1 & H1 & Hr).
  pose proof (quiet_on_co i Proc_Delete Proc_Delete_ends s) as Hq. rewrite H1 in Hq.
  destruct Hq as ([t1 Ht1] & Hc & _). destruct (IH _ Hr) as (t2 & Ht2 & Hg).
  exists (t1 ++ t2). split; [by eapply calls_trans|]. intros j p pid Hj Hp Hpid. apply gone_app.
  destruct (decide (j = i)) as [->|Hne].
  - left. revert H1. unfold on_co, lift. rewrite Hp. cbn.
    pose proof (Proc_Delete_gone p (g_os s.2) pid Hpid) as Hd.
    destruct (Proc_Delete (p, g_os s.2)) as [[[]|e|] [p' o]]; [|done..]. intros [= <-].
    destruct Hd as (t & Ht & _ & Hgone). by rewrite (calls_inj _ _ _ _ Ht1 Ht).
  - right. assert (∃ p1, co_procs_ s1.1 !! j = Some p1 ∧ c_ p1 = Some pid) as (p1 & Hp1 & Hc1).
    { apply (f_equal (.!! j)) in Hc. rewrite !list_lookup_fmap, Hp in Hc. cbn in Hc.
      destruct (co_procs_ s1.1 !! j) as [p1|]; [|done]. exists p1. split; [done|]. cbn in Hc. congruence. }
    apply elem_of_cons in Hj as [Hj|Hj]; [done|]. by eapply Hg.
Qed.

Lemma clear_procs_gone s s' :
  clear_procs s = (Ret tt, s') →
  (∃ t, calls (g_os s.2) (g_os s'.2) t ∧ ∀ p pid, p ∈ co_procs_ s.1 → c_ p = Some pid → gone pid t)
  ∧ end_call_ s'.1 = end_call_ s.1 ∧ pci_pt_dev_set_ s'.1 = pci_pt_dev_set_ s.1
  ∧ g_socketPath s'.2 = g_socketPath s.2.
Proof.
  unfold clear_procs. intros Hr. apply bind_ret_inv in Hr as ([] & s1 & H1 & [= <-]).
  pose proof (quiet_for_co Proc_Delete Proc_Delete_ends s) as Hq. rewrite H1 in Hq.
  destruct Hq as (_ & _ & He & Hpci & Hsock). split; [|by cbn].
  unfold for_co, this in H1. rewrite (bind_run (gets _) _ s _ s eq_refl) in H1.
  destruct (delete_each _ _ _ H1) as (t & Ht & Hg). exists t. split; [done|].
  intros p pid Hp Hpid. apply list_elem_of_lookup in Hp as [i Hi].
  apply (Hg i p pid); [|done..]. apply elem_of_seq. apply lookup_lt_Some in Hi. lia.
Qed.

(** The calls of a run on the machine. *)
Lemma b_os_ran {A} (c : M OsSt A) s r s' :
  grows (does (λ _, True)) c → b_os c s = (Ret r, s') →
  ∃ t, calls (g_os s.2) (g_os s'.2) t ∧ ran c t ∧ s'.1 = s.1 ∧ g_socketPath s'.2 = g_socketPath s.2.
Proof.
  intros Hc. unfold b_os, lift. specialize (Hc (g_os s.2)). destruct (c (g_os s.2)) as [r' o] eqn:Hr.
  intros [= -> <-]. destruct Hc as (t & Ht & _). exists t. split; [done|]. split; [|done].
  by exists (g_os s.2), r, o.
Qed.

Lemma does_any {A} (c : oscall A) : grows (does (λ _, True)) (os c).
Proof. by apply does_os. Qed.
Lemma does_system cmd : grows (does (λ _, True)) (proc_system cmd).
Proof. unfold proc_system. grows_go ltac:(apply does_any). Qed.
Lemma does_restore d : grows (does (λ _, True)) (PassthroughOnePciDev d kPciRestore).
Proof.
  assert (∀ l, grows (does (λ _, True)) (passthrough_entries kPciRestore l)) as Hl.
  { induction l as [|x l IH]; cbn [passthrough_entries];
      unfold restore_dev, IsVfioDriver, ReadSysFile, WriteSysFile, when; grows_go ltac:(first [apply does_any | apply IH]). }
  unfold PassthroughOnePciDev, LoadKernelModule, dir_entries.
  grows_go ltac:(first [apply does_any | apply does_system | apply Hl]).
Qed.

Lemma restore_each devs s s' :
  for_each (λ d, _ ← b_os (PassthroughOnePciDev d kPciRestore); skip) devs s = (Ret tt, s') →
  ∃ ts, calls (g_os s.2) (g_os s'.2) (concat ts) ∧ Forall2 (λ d, ran (PassthroughOnePciDev d kPciRestore)) devs ts
    ∧ s'.1 = s.1 ∧ g_socketPath s'.2 = g_socketPath s.2.
Proof.
  revert s. induction devs as [|d devs IH]; intros s.
  { intros [= <-]. exists []. split; [apply calls_refl|]. by split. }
  cbn [for_each]. intros Hr. apply bind_ret_inv in Hr as ([] & s1 & H1 & Hr).
  apply bind_ret_inv in H1 as (b & s2 & H1 & [= <-]).
  destruct (b_os_ran _ _ _ _ (does_restore d) H1) as (t & Ht & Hran & E1 & E2).
  destruct (IH _ Hr) as (ts & Hts & Hf & F1 & F2). exists (t :: ts).
  split_and!; [cbn; by eapply calls_trans|by constructor|congruence..].
Qed.

Lemma run_end_call_done c s s' :
  run_end_call c s = (Ret tt, s') →
  ∃ t, calls (g_os s.2) (g_os s'.2) t ∧ end_call_done (pci_pt_dev_set_ s.1) (g_socketPath s.2) c t
    ∧ s'.1 = s.1 ∧ g_socketPath s'.2 = g_socketPath s.2.
Proof.
  destruct c; cbn [run_end_call end_call_done]; intros Hr.
  - apply bind_ret_inv in Hr as (rc & s1 & H1 & [= <-]). by apply (b_os_ran _ _ rc), H1; apply does_system.
  - rewrite (bind_run (gets _) _ s _ s eq_refl) in Hr.
    apply bind_ret_inv in Hr as (rc & s1 & H1 & [= <-]). by apply (b_os_ran _ _ rc), H1; apply does_any.
  - unfold this in Hr. rewrite (bind_run (gets _) _ s _ s eq_refl) in Hr.
    destruct (restore_each _ _ _ Hr) as (ts & Hts & Hf & E1 & E2). exists (concat ts).
    split_and!; [done|by exists ts|done..].
Qed.

Lemma run_end_calls_done l s s' :
  run_end_calls l s = (Ret tt, s') →
  ∃ ts, calls (g_os s.2) (g_os s'.2) (concat ts)
    ∧ Forall2 (end_call_done (pci_pt_dev_set_ s.1) (g_socketPath s.2)) l ts.
Proof.
  revert s. induction l as [|c l IH]; intros s.
  { intros [= <-]. exists []. split; [apply calls_refl|constructor]. }
  cbn [run_end_calls]. intros Hr. apply bind_ret_inv in Hr as ([] & s1 & H1 & Hr).
  destruct (run_end_call_done c s s1 H1) as (t & Ht & Hd & E1 & E2).
  apply bind_ret_inv in Hr as ([] & s2 & [= <-] & Hr).
  destruct (IH _ Hr) as (ts & Hts & Hf). cbn in Hts, Hf. rewrite E1, E2 in Hf.
  exists (t :: ts). split; [cbn; by eapply calls_trans|by constructor].
Qed.

(** The first part of [StopVm]: the emulator. *)
Lemma main_told s s' :
  main_plain s.1 →
  (mp ← this main_proc_; match mp with Some _ => on_main Proc_Stop | None => skip end) s = (Ret tt, s') →
  quiet s s' ∧ ∃ t, calls (g_os s.2) (g_os s'.2) t
    ∧ ∀ p pid, main_proc_ s.1 = Some p → mon_ p = true → c_ p = Some pid → told pid t.
Proof.
  intros Hm. unfold this. rewrite (bind_run (gets _) _ s _ s eq_refl). unfold main_plain in Hm.
  destruct (main_proc_ s.1) as [p|] eqn:Hp.
  2:{ intros [= <-]. split; [reflexivity|]. exists []. split; [apply calls_refl|done]. }
  intros Hr. pose proof (quiet_on_main Proc_Stop Proc_Stop_ends s) as Hq. rewrite Hr in Hq. cbn in Hq.
  split; [done|]. destruct Hq as ([t Ht] & _). exists t. split; [done|]. intros q pid [= <-] Hmon Hc.
  destruct (Simple_Stop_told p (g_os s.2) pid Hmon Hc) as (t' & Ht' & Htold).
  revert Hr. unfold on_main, lift. rewrite Hp. cbn.
  unfold Proc_Stop, self. rewrite (bind_run (gets _) _ (p, g_os s.2) _ (p, g_os s.2) eq_refl). cbn. rewrite Hm.
  destruct (Simple_Stop (p, g_os s.2)) as [r [p' o]]. intros [= -> <-]. by rewrite (calls_inj _ _ _ _ Ht Ht').
Qed.

Lemma StopVm_ended s s' : main_plain s.1 → StopVm s = (Ret tt, s') → guest_ended s s'.
Proof.
  intros Hm Hr. unfold StopVm in Hr.
  assert (∃ s1, (mp ← this main_proc_; match mp with Some _ => on_main Proc_Stop | None => skip end) s = (Ret tt, s1)
    ∧ (for_co (λ i, on_co i Proc_Stop) ;; clear_procs ;; cid ← this vsock_cid_; _ ← b_pool (ReleaseCid cid);
       l ← this end_call_; run_end_calls l) s1 = (Ret tt, s')) as (s1 & H1 & Hr1).
  { apply bind_ret_inv in Hr as (mp & s0 & H0 & Hr). apply bind_ret_inv in Hr as ([] & s1 & H1 & Hr).
    exists s1. split; [|done]. by bstep H0. }
  clear Hr. destruct (main_told s s1 Hm H1) as [Hq1 (t1 & Ht1 & Htold)].
  apply bind_ret_inv in Hr1 as ([] & s2 & H2 & Hr).
  pose proof (quiet_for_co Proc_Stop Proc_Stop_ends s1) as Hq2. rewrite H2 in Hq2. cbn in Hq2.
  assert (quiet s s2) as (_ & Hc & He & Hpci & Hsock) by (by etrans). destruct (quiet_calls _ _ Hq2) as [t2 Ht2].
  apply bind_ret_inv in Hr as ([] & s3 & H3 & Hr).
  destruct (clear_procs_gone _ _ H3) as ((t3 & Ht3 & Hgone) & He3 & Hpci3 & Hsock3).
  unfold this, b_pool, lift in Hr. unfold mbind, M_bind, gets in Hr.
  destruct (ReleaseCid_run (vsock_cid_ s3.1) (g_pool s3.2)) as [b Hb]. rewrite Hb in Hr. cbn -[run_end_calls] in Hr.
  destruct (run_end_calls_done _ _ _ Hr) as (ts & Hts & Hf). cbn in Hts, Hf.
  exists ((t1 ++ t2) ++ t3), ts. split_and!.
  - by repeat (eapply calls_trans; [|done]).
  - intros p pid Hp Hmon Hpid. do 2 (apply told_app; left). by eapply Htold.
  - intros p pid Hp Hpid. apply gone_app. right.
    apply list_elem_of_lookup in Hp as [i Hi]. apply (f_equal (.!! i)) in Hc.
    rewrite !list_lookup_fmap, Hi in Hc. destruct (co_procs_ s2.1 !! i) as [p2|] eqn:Hi2; [|done].
    apply (Hgone p2); [by eapply list_elem_of_lookup_2|]. cbn in Hc. congruence.
  - by rewrite He3, He, Hpci3, Hpci, Hsock3, Hsock in Hf.
Qed.

(** Starting keeps what stopping gives back. *)
Definition holds (s s' : BSt) : Prop :=
  vsock_cid_ s'.1 = vsock_cid_ s.1 ∧ g_pool s'.2 = g_pool s.2 ∧ (main_plain s.1 → main_plain s'.1).
#[export] Instance holds_preorder : PreOrder holds.
Proof. split; [by intros s|]. intros s1 s2 s3 (?&?&?) (?&?&?). split_and!; [congruence..|auto]. Qed.

Lemma holds_on_co {A} i (c : M ProcSt A) : grows holds (on_co i c).
Proof. intros s. unfold on_co, lift. by destruct (c _) as [r [p o]]. Qed.
Lemma holds_on_main {A} (c : M ProcSt A) :
  grows (λ s s', same_proc s.1 s'.1) c → grows holds (on_main c).
Proof.
  intros Hc s. unfold on_main, lift. specialize (Hc (default (new_VmProcSimple EmptyString) (main_proc_ s.1), g_os s.2)).
  destruct (c _) as [r [p o]]. destruct Hc as [Hk _]. split_and!; [done..|]. unfold main_plain. cbn in *.
  rewrite Hk. by destruct (main_proc_ s.1).
Qed.
Lemma holds_os {A} (c : M OsSt A) : grows holds (b_os c).
Proof. intros s. unfold b_os, lift. by destruct (c _). Qed.

Lemma start_holds env : grows holds (SetProcessEnv env ;; StartVm).
Proof.
  unfold SetProcessEnv, StartVm, SetProcLogDir, for_co, this.
  grows_go ltac:(first
    [ apply holds_os | apply holds_on_co | apply holds_on_main; auto with civ
    | apply grows_for_each; [exact _|intros ?]
    | apply grows_modify; intros s; split_and!; [done..|]; unfold main_plain; cbn; by destruct (main_proc_ s.1) ]).
Qed.
End stop_trace.

(** *** Starting *)

Section start.
Context {B : Boost} {E : OsEnv}.

(** The main and the plain helper processes have a command to run. *)
Definition startable (v : VmBuilderQemu) : Prop :=
  procs_ok v ∧ match main_proc_ v with Some p => proc_ok p | None => False end.

Lemma same_proc_ok p p' : same_proc p p' → proc_ok p → proc_ok p'.
Proof. intros [Hk Hc] Hp Hs. rewrite Hk in Hs. rewrite Hc by done. auto. Qed.

Lemma startable_life s s' : life s s' → startable s.1 → startable s'.1.
Proof.
  intros Hl [Hp Hm]. split.
  - eapply Forall2_Forall_r; [apply Hl|]. eapply Forall_impl; [exact Hp|].
    intros p Hok p' Hs. by eapply same_proc_ok.
  - destruct (lf_main _ _ Hl); [by eapply same_proc_ok|done].
Qed.

Lemma Proc_Run_back tid p s : proc_ok p → (Proc_Run tid (p, s)).1 ≠ Blocked.
Proof. intros Hp Hb. apply Proc_Run_blocks in Hb as [Hk Hb]. by apply Hp. Qed.

(** What holds while the processes are started one after the other. *)
Definition starting (s0 s : BSt) : Prop := life s0 s ∧ startable s.1.

Lemma starting_step s0 s s' : starting s0 s → life s s' → starting s0 s'.
Proof. intros [Hl Hs] Hl'. split; [by etrans|by eapply startable_life]. Qed.

(** A call on a process that keeps the process's class and command. *)
Lemma runs_life {A} s0 (c : M BSt A) :
  (∀ s, starting s0 s → life s (c s).2 ∧ (c s).1 ≠ Blocked) →
  runs (starting s0) c (λ _, starting s0) (λ _, starting s0).
Proof.
  intros Hc s Hs. destruct (Hc s Hs) as [Hl Hb].
  destruct (c s) as [[]?]; simpl in *; [by eapply starting_step..|done].
Qed.

Lemma on_co_back {A} i (c : M ProcSt A) s :
  (∀ p o, proc_ok p → (c (p, o)).1 ≠ Blocked) → procs_ok s.1 → is_Some (co_procs_ s.1 !! i) →
  (on_co i c s).1 ≠ Blocked.
Proof.
  intros Hc Hs [p Hi]. unfold on_co, lift. rewrite Hi. simpl.
  assert (proc_ok p) as Hp by (by eapply Forall_lookup_1).
  specialize (Hc p (g_os s.2) Hp). by destruct (c _) as [r [? ?]].
Qed.

Lemma on_main_back {A} (c : M ProcSt A) s :
  (∀ p o, proc_ok p → (c (p, o)).1 ≠ Blocked) → startable s.1 → (on_main c s).1 ≠ Blocked.
Proof.
  intros Hc [_ Hm]. unfold on_main, lift. destruct (main_proc_ s.1) as [p|]; [|done]. simpl.
  specialize (Hc p (g_os s.2) Hm). by destruct (c _) as [r [? ?]].
Qed.

Lemma startable_main v : startable v → is_Some (main_proc_ v).
Proof. intros [_ H]. destruct (main_proc_ v); [eauto|done]. Qed.

Lemma co_index s0 s i : starting s0 s → i ∈ seq 0 (length (co_procs_ s0.1)) → is_Some (co_procs_ s.1 !! i).
Proof.
  intros [Hl _] Hi. apply elem_of_seq in Hi. apply lookup_lt_is_Some.
  rewrite <-(Forall2_length _ _ _ (lf_co _ _ Hl)). lia.
Qed.

Lemma runs_on_co {A} s0 i (c : M ProcSt A) :
  grows (λ s s', same_proc s.1 s'.1) c → (∀ p o, proc_ok p → (c (p, o)).1 ≠ Blocked) →
  i ∈ seq 0 (length (co_procs_ s0.1)) →
  runs (starting s0) (on_co i c) (λ _, starting s0) (λ _, starting s0).
Proof.
  intros Hg Hb Hi. apply runs_life. intros s Hs. split; [by apply life_on_co|].
  apply on_co_back; [done|apply Hs|by eapply co_index].
Qed.

Lemma runs_on_main {A} s0 (c : M ProcSt A) :
  grows (λ s s', same_proc s.1 s'.1) c → (∀ p o, proc_ok p → (c (p, o)).1 ≠ Blocked) →
  runs (starting s0) (on_main c) (λ _, starting s0) (λ _, starting s0).
Proof.
  intros Hg Hb. apply runs_life. intros s Hs. split; [apply life_on_main; [done|]|].
  - by apply startable_main, Hs.
  - apply on_main_back; [done|apply Hs].
Qed.

Lemma runs_os {A} s0 (c : oscall A) :
  runs (starting s0) (b_os (os c)) (λ _, starting s0) (λ _, starting s0).
Proof.
  apply runs_life. intros s _. destruct (b_os_run c s) as (a & o & ->). split; [apply life_os|done].
Qed.

Lemma runs_for_co s0 (f : nat → M BSt unit) :
  (∀ i, i ∈ seq 0 (length (co_procs_ s0.1)) →
     runs (starting s0) (f i) (λ _, starting s0) (λ _, starting s0)) →
  runs (starting s0) (for_co f) (λ _, starting s0) (λ _, starting s0).
Proof.
  intros Hf. unfold for_co, this. intros s Hs.
  assert (length (co_procs_ s.1) = length (co_procs_ s0.1)) as Hlen
    by (symmetry; eapply Forall2_length, lf_co, Hs).
  unfold mbind, M_bind, gets. rewrite Hlen. clear Hlen. revert s Hs. by apply runs_for_each.
Qed.
End start.
#[export] Hint Resolve runs_os runs_on_co runs_on_main runs_for_co : civ.

Section start_vm.
Context {B : Boost} {E : OsEnv}.

Lemma SetLogDir_back d p o : proc_ok p → (SetLogDir d (p, o)).1 ≠ Blocked.
Proof. intros _. pose proof (SetLogDir_runs d p o). by destruct (SetLogDir _ _) as [[] []]. Qed.
Lemma Running_back p o : proc_ok p → (Running (p, o)).1 ≠ Blocked.
Proof. intros _. by destruct (Running_runs p o) as (? & ? & ->). Qed.

(** Starting comes back; when no exception interferes the guest is booting. *)
Lemma StartVm_runs s0 :
  startable s0.1 →
  runs (eq s0) StartVm
    (λ _ s, state_ s.1 = kVmBooting ∧ ∃ s1, starting s0 s1 ∧ s = (set_state kVmBooting s1.1, s1.2))
    (λ _, starting s0).
Proof.
  intros Hst. unfold StartVm, this. apply runs_gets. intros mp.
  destruct mp as [p|]; cycle 1.
  { intros s [<- Hm]. by destruct (startable_main _ Hst) as [? ?%eq_sym]; rewrite Hm in *. }
  apply (runs_pre _ (starting s0)); [by intros s [<- _]|].
  eapply runs_bind; [|intros ?; eapply runs_bind].
  - unfold SetProcLogDir, this. eapply runs_bind; [apply runs_os|intros t].
    apply runs_gets. intros name. apply (runs_pre _ (starting s0)); [by intros s [? _]|].
    eapply runs_bind; [by apply runs_on_main; auto using same_SetLogDir, SetLogDir_back|intros ?].
    apply runs_for_co. intros i Hi. by apply runs_on_co; auto using same_SetLogDir, SetLogDir_back.
  - apply runs_for_co. intros i Hi.
    eapply runs_bind; [by apply runs_on_co; auto using same_Running, Running_back|intros []].
    { by apply runs_ret. }
    eapply runs_bind; [apply runs_os|intros tid].
    by apply runs_on_co; auto using same_Proc_Run, Proc_Run_back.
  - intros ?. eapply runs_bind; [apply runs_os|intros tid].
    eapply runs_bind; [by apply runs_on_main; auto using same_Proc_Run, Proc_Run_back|intros ?].
    apply runs_modify. intros s Hs. split; [done|]. by exists s.
Qed.
End start_vm.
