(* ===== verification/GuestTheorems.v ===== *)
(** * Theorems about a guest

    What building, starting, waiting for and stopping a guest promise, and
    the cases where the code gives a resource back that is no longer its own
    or keeps one it should give back. *)

From S2P Require Import Prelude.
From S2P Require Import CStd.
From S2P Require Import Boost.
From S2P Require Import Os.
From S2P Require Import CidPool.
From S2P Require Import Config.
From S2P Require Import Aaf.
From S2P Require Import Process.
From S2P Require Import Devices.
From S2P Require Import Builder.
From S2P Require Import BuilderProps.
From S2P Require Import Lifecycle.
From Stdlib Require Import Ascii.

Local Open Scope Z_scope.

(** ** A guest and a machine for the concrete examples *)
Module Demo.
#[local] Existing Instance RefBoost.ref_boost.

Definition config (l : list (string * string * string)) : CivConfig :=
  foldr (λ '(g, k, v) c, (SetValue g k v c).2) empty_config l.

Definition android : CivConfig := config
  [(kGroupGlob, kGlobName, "civ-1"); (kGroupGlob, kGlobCid, "1002");
   (kGroupEmul, kEmulPath, "/usr/bin/qemu"); (kGroupMem, kMemSize, "4G");
   (kGroupVcpu, kVcpuNum, "2"); (kGroupFirm, kFirmType, kFirmUnified);
   (kGroupFirm, kFirmPath, "OVMF.fd"); (kGroupDisk, kDiskPath, "android.img")].

Definition machine : @Glob SimOs.sim_os :=
  @mkGlob SimOs.sim_os new_pool EmptyString (Some "/home/u/.intel/.civ")
    (SimOs.boot [("/usr/bin/qemu", EmptyString)] [] []).

Definition start : @BSt SimOs.sim_os := (new_VmBuilderQemu "civ-1" android, machine).
End Demo.

Section lemmas.
Context {B : Boost} {E : OsEnv}.

Lemma set_reset_bit c p : 0 ≤ c → bit p c = true → set_bit c (reset_bit c p) = p.
Proof.
  intros Hc Hb. destruct p as [l]. unfold set_bit, reset_bit, bit in *. cbn in *.
  rewrite list_insert_insert_eq. f_equal. apply list_insert_id.
  by destruct (l !! Z.to_nat c) as [[]|].
Qed.

Lemma released_taken s0 s : taken s0 s → released (vsock_cid_ s.1) (g_pool s.2) = g_pool s0.2.
Proof.
  intros (Hu & Hb & _ & Hp). unfold released.
  destruct (ReleaseCid_cases (vsock_cid_ s.1) (g_pool s.2)) as [[_ ?]|[-> _]]; [done|].
  cbn. rewrite Hp. apply set_reset_bit; [unfold Alloc.usable in Hu; lia|done].
Qed.

Lemma released_zero p : released 0 p = p.
Proof. done. Qed.

Lemma in_order_nonblank p l x : in_order (p :: l) x → ¬ blank p → ¬ blank x.
Proof. intros (a & b & -> & _) Hp. rewrite !blank_app. tauto. Qed.

Lemma name_arg_nonblank v path : ¬ blank (name_arg v path).
Proof.
  unfold name_arg. apply not_blank_app_l. intros Hb.
  apply blank_cons in Hb as [_ Hb]. by apply blank_cons in Hb as [? _].
Qed.

(** A finished build is ready to be started. *)
Lemma build_startable (HB : BoostLaws B) name c g env s :
  pool_wf (g_pool g) → BuildVmArgs (new_VmBuilderQemu name c, g) = (Ret true, s) →
  state_ s.1 = kVmCreated
  ∧ startable (set_main (SetEnv env <$> main_proc_ s.1) s.1).
Proof.
  intros Hw Hr. set (s0 := (new_VmBuilderQemu name c, g)) in *.
  pose proof (hoare_BuildVmArgs s0 Hw s0) as H. pose proof (BuildVmArgs_shape s0 Hw s0 eq_refl) as Hsh.
  rewrite Hr in H, Hsh. destruct H as ([v1 g1] & [Hs _] & _ & Hv).
  { split; [reflexivity|]. split; auto. }
  destruct (Hsh eq_refl) as [_ Hcmd]. apply in_order_nonblank in Hcmd; [|apply name_arg_nonblank].
  destruct s as [v g']. simpl in *. subst v. split; [done|]. split.
  - apply (st_ok _ _ Hs); [intros x; apply trim_spec|constructor].
  - intros _. exact Hcmd.
Qed.

Lemma before_cid_refl s : before_cid s s.
Proof. split; [reflexivity|]. split; auto. Qed.

(** A build that started with no context id. *)
Lemma build_cases s0 :
  pool_wf (g_pool s0.2) →
  match BuildVmArgs s0 with
  | (Ret true, s) => build_done s0 s
  | (_, s) => build_failed s0 s
  end.
Proof.
  intros Hw. pose proof (hoare_BuildVmArgs s0 Hw s0 (before_cid_refl s0)) as H.
  by destruct (BuildVmArgs s0) as [[[]| |] s].
Qed.
(** What a build of a fresh guest leaves can be given back exactly. *)
Lemma build_held name c g :
  pool_wf (g_pool g) →
  let s := (BuildVmArgs (new_VmBuilderQemu name c, g)).2 in
  main_plain s.1 ∧ released (vsock_cid_ s.1) (g_pool s.2) = g_pool g.
Proof.
  intros Hw. set (s0 := (new_VmBuilderQemu name c, g)).
  pose proof (build_cases s0 Hw) as H. destruct (BuildVmArgs s0) as [r s]. simpl.
  assert (build_failed s0 s → main_plain s.1 ∧ released (vsock_cid_ s.1) (g_pool s.2) = g_pool g) as Hf.
  { intros [[Hs [Hp Hcid]]|[Hs Ht]];
      (split; [unfold main_plain; by rewrite (st_main _ _ Hs)|]).
    - rewrite Hp. by destruct Hcid as [-> | ->].
    - by apply (released_taken s0). }
  destruct r as [[]| |]; auto.
  destruct s as [v g']. destruct H as ([v1 g1] & [Hs Ht] & Hg & Hv). simpl in Hg, Hv. subst v g'.
  split; [done|]. by apply (released_taken s0 (v1, g1)).
Qed.

(** Destroying the object releases no more than stopping it does. *)
Lemma delete_pool s s' :
  main_plain s.1 → delete_VmBuilderQemu s = (Ret tt, s') →
  g_pool s'.2 = released (vsock_cid_ s.1) (g_pool s.2).
Proof.
  intros Hm. unfold delete_VmBuilderQemu, noexcept. intros H.
  assert ((StopVm ;; clear_procs ;; mp ← this main_proc_;
    match mp with Some _ => on_main Proc_Delete | None => skip end) s = (Ret tt, s')) as Hr.
  { by destruct ((StopVm ;; _) s) as [[[]| |] ?]. }
  clear H. apply bind_ret_inv in Hr as (u & s1 & H1 & Hr).
  pose proof (StopVm_runs s Hm s eq_refl) as Hst. rewrite H1 in Hst.
  destruct Hst as [(Hco & _ & _ & _ & Hp) _].
  apply bind_ret_inv in Hr as (u2 & s2 & H2 & Hr).
  assert (g_pool s2.2 = g_pool s1.2) as Hp2.
  { revert H2. unfold clear_procs, for_co, this. sx_unfold. rewrite Hco. cbn.
    unfold skip, mret, M_ret. by intros [= _ <-]. }
  rewrite <-Hp, <-Hp2. revert Hr. unfold this, on_main. sx_unfold.
  destruct (main_proc_ s2.1); [|by intros [= <-]].
  destruct (Proc_Delete _) as [r [p o]]. by intros [= _ <-].
Qed.

(** Destroying what is left of a build of a fresh guest. *)
Lemma build_deleted name c g :
  pool_wf (g_pool g) →
  match delete_VmBuilderQemu (BuildVmArgs (new_VmBuilderQemu name c, g)).2 with
  | (Ret _, s') => g_pool s'.2 = g_pool g
  | _ => True
  end.
Proof.
  intros Hw. destruct (build_held name c g Hw) as [Hm Hrel].
  destruct (delete_VmBuilderQemu _) as [[[]| |] s'] eqn:Hd; [|done..].
  by rewrite (delete_pool _ _ Hm Hd).
Qed.
End lemmas.

Section properties.
Context {B : Boost} {E : OsEnv}.

(** C1: building a guest that holds no context id either succeeds, and then
    the guest is created, its main process runs the command line that was
    built, and it holds exactly one context id, the one its configuration asks
    for, which was free and now is not; or it fails in any way, and then the
    guest is neither created nor given a main process, and the pool has lost
    at most the one id the guest remembers. *)
Theorem build_outcome s0 :
  pool_wf (g_pool s0.2) → vsock_cid_ s0.1 = 0 →
  match BuildVmArgs s0 with
  | (Ret true, s) =>
      state_ s.1 = kVmCreated ∧ main_proc_ s.1 = Some (new_VmProcSimple (emul_cmd_ s.1))
      ∧ name_ s.1 = name_ s0.1 ∧ cfg_ s.1 = cfg_ s0.1 ∧ taken s0 s
  | (_, s) =>
      state_ s.1 = state_ s0.1 ∧ main_proc_ s.1 = main_proc_ s0.1
      ∧ name_ s.1 = name_ s0.1 ∧ cfg_ s.1 = cfg_ s0.1
      ∧ ((g_pool s.2 = g_pool s0.2 ∧ vsock_cid_ s.1 = 0) ∨ taken s0 s)
  end.
Proof.
  intros Hw Hc.
  assert (∀ s, build_failed s0 s → state_ s.1 = state_ s0.1 ∧ main_proc_ s.1 = main_proc_ s0.1
      ∧ name_ s.1 = name_ s0.1 ∧ cfg_ s.1 = cfg_ s0.1
      ∧ ((g_pool s.2 = g_pool s0.2 ∧ vsock_cid_ s.1 = 0) ∨ taken s0 s)) as Hfail.
  { intros s [[Hs [Hp Hcid]]|[Hs Ht]]; split_and!; try apply Hs; [left|by right].
    split; [done|]. rewrite Hc in Hcid. naive_solver. }
  pose proof (build_cases s0 Hw) as H. destruct (BuildVmArgs s0) as [[[]| |] s]; auto.
  destruct s as [v g]. destruct H as ([v1 g1] & [Hs Ht] & Hg & Hv). simpl in Hg, Hv. subst v g.
  split_and!; [done|done|apply Hs..|exact Ht].
Qed.


(** C2: whatever way a build of a fresh guest ends, and whether it was then
    started or not, however far the start came, stopping the guest comes back.
    When it returns, the context-id pool is exactly what it was before the
    build; the emulator has been told to end or was seen to have ended; the
    children of all helpers are gone, seen to have ended or terminated, and no
    helper is left; and every queued end call has been carried out, in its
    order and to its end, and none is left.  An exception may leave an id taken
    only when the guest has an RPMB helper, whose socket could not be removed. *)
Theorem build_stop_restores name c g env (started : bool) :
  pool_wf (g_pool g) →
  let built := (BuildVmArgs (new_VmBuilderQemu name c, g)).2 in
  let s := if started then ((SetProcessEnv env ;; StartVm) built).2 else built in
  match StopVm s with
  | (Ret _, s') =>
      g_pool s'.2 = g_pool g ∧ co_procs_ s'.1 = [] ∧ end_call_ s'.1 = [] ∧ guest_ended s s'
  | (Throw e, s') => g_pool s'.2 = g_pool g ∨ Exists is_rpmb (co_procs_ s.1)
  | (Blocked, _) => False
  end.
Proof.
  intros Hw built s. pose proof (build_held name c g Hw) as [Hm Hrel]. fold built in Hm, Hrel.
  assert (holds built s) as (Hcid & Hpool & Hplain).
  { destruct started; [apply start_holds|reflexivity]. }
  specialize (Hplain Hm). rewrite <-Hcid, <-Hpool in Hrel.
  pose proof (StopVm_runs s Hplain s eq_refl) as Hst. pose proof (StopVm_ended s) as Hend.
  destruct (StopVm s) as [[[]|e|] s']; [| |done].
  - destruct Hst as [(Hco & _ & _ & _ & Hp) He]. rewrite Hp, Hrel. by split_and!; [..|apply Hend].
  - destruct Hst as [(_ & _ & Hx)|[Hp _]]; [by right|left]. by rewrite Hp, Hrel.
Qed.

(** C16: a guest built from any configuration can be started without hanging:
    every helper and the emulator have a command to run, so each of the calls
    that wait for a child to be created comes back, and when none of them
    throws the guest is booting. *)
Theorem start_never_hangs (HB : BoostLaws B) name c g env :
  pool_wf (g_pool g) →
  match BuildVmArgs (new_VmBuilderQemu name c, g) with
  | (Ret true, s) =>
      match (SetProcessEnv env ;; StartVm) s with
      | (Ret _, s') => state_ s'.1 = kVmBooting ∧ vsock_cid_ s'.1 = vsock_cid_ s.1
      | (Throw _, s') => state_ s'.1 = kVmCreated
      | (Blocked, _) => False
      end
  | _ => True
  end.
Proof.
  intros Hw. destruct (BuildVmArgs _) as [[[]| |] s] eqn:Hr; try done.
  destruct (build_startable HB name c g env s Hw Hr) as [Hcr Hst].
  change ((SetProcessEnv env ;; StartVm) s)
    with (StartVm (set_main (SetEnv env <$> main_proc_ s.1) s.1, s.2)).
  pose proof (StartVm_runs (_, s.2) Hst _ eq_refl) as H.
  destruct (StartVm _) as [[u|e|] s']; [| |done].
  - destruct H as (Hb & s1 & [Hl _] & ->). split; [done|]. exact (lf_cid _ _ Hl).
  - destruct H as [Hl _]. etrans; [exact (lf_state _ _ Hl)|exact Hcr].
Qed.
End properties.

(** *** Waiting *)

Section wait.
Context {B : Boost} {E : OsEnv}.

Lemma on_main_Running s :
  is_Some (main_proc_ s.1) → ∃ b o, on_main Running s = (Ret b, (s.1, set_os o s.2)).
Proof.
  intros [p Hp]. unfold on_main, lift. rewrite Hp. simpl.
  destruct (Running_runs p (g_os s.2)) as (b & o & ->). exists b, o. destruct s as [[] g].
  simpl in *. by subst.
Qed.

(** What other threads may do to a guest that is being waited for. *)
Definition keeps_main (meanwhile : nat → BSt → BSt) : Prop :=
  ∀ n s, main_proc_ (meanwhile n s).1 = main_proc_ s.1.

Lemma WaitVmReady_loop_back n meanwhile s :
  keeps_main meanwhile → is_Some (main_proc_ s.1) →
  ∃ b s', WaitVmReady_loop n meanwhile s = (Ret b, s') ∧ (b = true → state_ s'.1 = kVmRunning).
Proof.
  intros Hk. revert s. induction n as [|n IH]; intros s Hm; cbn [WaitVmReady_loop]; [by eexists _, _|].
  destruct (on_main_Running s Hm) as (b & o & Hr). bstep Hr. destruct b; cbn [negb]; [|by eexists _, _].
  unfold this, modify, gets, mbind, M_bind. cbn beta iota.
  case_decide; [by eexists _, _|]. apply IH. by rewrite Hk.
Qed.

(** A guest whose emulator stays up and that is marked ready in turn [k]. *)
Lemma WaitVmReady_loop_true n k meanwhile p pid s :
  keeps_main meanwhile → main_proc_ s.1 = Some p → c_ p = Some pid →
  (∀ w, (os_handle (ProcRunning pid) w).1 = true) →
  (k < n)%nat → (∀ s, state_ (meanwhile k s).1 = kVmRunning) →
  ∃ s', WaitVmReady_loop n meanwhile s = (Ret true, s').
Proof.
  intros Hk Hm Hc Hup Hkn Hready. revert s Hm.
  induction n as [|n IH]; intros s Hm; [lia|]. cbn [WaitVmReady_loop].
  assert (∃ o, on_main Running s = (Ret true, (s.1, set_os o s.2))) as [o Hr].
  { destruct (on_main_Running s) as (b & o & Hr); [by rewrite Hm|]. exists o.
    rewrite Hr. do 2 f_equal. revert Hr. unfold on_main, lift, Running, self, proc_os. rewrite Hm.
    sx_unfold. cbn. rewrite Hc. cbn. specialize (Hup (os_w (g_os s.2))).
    destruct (os_handle (ProcRunning pid) (os_w (g_os s.2))) as [a w]. cbn in *. congruence. }
  bstep Hr. cbn [negb]. unfold this, modify, gets, mbind, M_bind. cbn beta iota.
  case_decide as Hst; [by eexists|].
  destruct (decide (k = n)) as [->|Hne]; [by rewrite Hready in Hst|].
  apply IH; [lia|]. by rewrite Hk.
Qed.
End wait.

Section wait_property.
Context {B : Boost} {E : OsEnv}.

End wait_property.

(** ** Witnesses *)

Section witnesses.
#[local] Existing Instance RefBoost.ref_boost.
#[local] Existing Instance SimOs.sim_os.

Lemma machine_wf : pool_wf (g_pool Demo.machine).
Proof. apply new_pool_wf. Qed.

Lemma build_outcome_witness :
  vsock_cid_ (BuildVmArgs Demo.start).2.1 = 1002 ∧ taken Demo.start (BuildVmArgs Demo.start).2.
Proof.
  pose proof (build_outcome Demo.start machine_wf eq_refl) as H.
  assert ((BuildVmArgs Demo.start).1 = Ret true) as Hr by (vm_compute; reflexivity).
  split; [vm_compute; reflexivity|].
  destruct (BuildVmArgs Demo.start) as [r s]. simpl in Hr. subst r. apply H.
Defined.


(** The guest was started: its helpers and its emulator run, and are ended. *)
Definition demo_started : BSt := ((SetProcessEnv [] ;; StartVm) (BuildVmArgs Demo.start).2).2.

Lemma build_stop_restores_witness :
  pool_wf (g_pool Demo.machine) ∧ state_ demo_started.1 = kVmBooting
  ∧ match StopVm demo_started with
    | (Ret _, s') => g_pool s'.2 = g_pool Demo.machine ∧ guest_ended demo_started s'
    | _ => False
    end.
Proof.
  assert (state_ demo_started.1 = kVmBooting) as Hb by (vm_compute; reflexivity).
  assert ((StopVm demo_started).1 = Ret tt) as Hr by (vm_compute; reflexivity).
  pose proof (build_stop_restores "civ-1" Demo.android Demo.machine [] true machine_wf) as H.
  cbv beta iota zeta in H. change (new_VmBuilderQemu "civ-1" Demo.android, Demo.machine) with Demo.start in H.
  fold demo_started in H. split; [exact machine_wf|]. split; [exact Hb|].
  destruct (StopVm demo_started) as [r' s']. cbn [fst] in Hr. subst r'.
  destruct H as (H1 & _ & _ & H2). split; [exact H1|exact H2].
Defined.

Lemma start_never_hangs_witness :
  match (SetProcessEnv ["PATH=/bin"] ;; StartVm) (BuildVmArgs Demo.start).2 with
  | (Ret _, s') => state_ s'.1 = kVmBooting
  | _ => False
  end.
Proof.
  pose proof (start_never_hangs RefBoost.ref_laws "civ-1" Demo.android Demo.machine ["PATH=/bin"]
    machine_wf) as H.
  change (new_VmBuilderQemu "civ-1" Demo.android, Demo.machine) with Demo.start in H.
  assert ((BuildVmArgs Demo.start).1 = Ret true) as Hr by (vm_compute; reflexivity).
  assert (((SetProcessEnv ["PATH=/bin"] ;; StartVm) (BuildVmArgs Demo.start).2).1 = Ret tt) as Hs
    by (vm_compute; reflexivity).
  destruct (BuildVmArgs Demo.start) as [r s]. cbn [fst snd] in *. subst r.
  destruct ((SetProcessEnv ["PATH=/bin"] ;; StartVm) s) as [r' s']. cbn [fst] in Hs. subst r'.
  apply H.
Defined.
End witnesses.

(** A machine on which every process stays up. *)
Definition up_os : OsEnv := {|
  os_world := SimOs.sim;
  os_handle := λ A c w, match c in oscall A return A * SimOs.sim with
                        | ProcRunning _ => (true, w)
                        | c => SimOs.sim_handle _ c w
                        end |}.

Section wait_witness.
#[local] Existing Instance up_os.

Definition booting : BSt :=
  (set_main (Some (set_child 100 (new_VmProcSimple "qemu"))) (new_VmBuilderQemu "civ-1" empty_config),
   mkGlob _ new_pool EmptyString (Some EmptyString) (mkOsSt _ (SimOs.mkSim ∅ ∅ ∅ 101 ∅) [] [])).

(** Another thread calls [SetVmReady] in the third turn. *)
Definition ready_in_third (n : nat) (s : BSt) : BSt :=
  if (n =? 197)%nat then (set_state kVmRunning s.1, s.2) else s.

End wait_witness.

(** ** Resources that are not given back, or given back twice *)

Section stop_again.
Context {B : Boost} {E : OsEnv}.

(** Stopping a guest marks its context id as free every time it is
    called, whoever holds the id by then: in any pool in which another guest
    has taken the id since, a further stop of the first guest (its
    destructor's, say) that returns makes the id free again. *)
Theorem stop_again_frees s p :
  main_plain s.1 → pool_wf p → Alloc.usable (vsock_cid_ s.1) → bit p (vsock_cid_ s.1) = false →
  match StopVm (s.1, set_pool p s.2) with
  | (Ret _, s') => vsock_cid_ s'.1 = vsock_cid_ s.1 ∧ bit (g_pool s'.2) (vsock_cid_ s.1) = true
  | (Throw _, s') => Exists is_rpmb (co_procs_ s.1) ∨ bit (g_pool s'.2) (vsock_cid_ s.1) = true
  | (Blocked, _) => False
  end.
Proof.
  intros Hm Hw Hu _.
  assert (bit (released (vsock_cid_ s.1) p) (vsock_cid_ s.1) = true) as Hrel.
  { unfold released. destruct (ReleaseCid_cases (vsock_cid_ s.1) p) as [[_ ?]|[-> _]]; [done|].
    cbn. rewrite bit_set_bit by (done || unfold Alloc.usable in Hu; lia). by rewrite decide_True. }
  pose proof (StopVm_runs (s.1, set_pool p s.2) Hm _ eq_refl) as H.
  destruct (StopVm _) as [[u|e|] s']; [| |done].
  - destruct H as [(_ & Hc & _ & _ & Hp) _]. simpl in *. by rewrite Hp.
  - destruct H as [(_ & _ & ?)|[Hp _]]; [by left|right]. simpl in Hp. by rewrite Hp.
Qed.
End stop_again.

Module Faults.
#[local] Existing Instance RefBoost.ref_boost.
#[local] Existing Instance SimOs.sim_os.

(** A guest is stopped, a second guest takes its id, the first is destroyed. *)
Definition first_stopped : BSt := (StopVm (BuildVmArgs Demo.start).2).2.
Definition second_holds : VsockCidPool := (GetCid 1002 (g_pool first_stopped.2)).2.

(** A passed-through GPU and a firmware type the builder rejects. *)
Definition gvtd : CivConfig := Demo.config
  [(kGroupGlob, kGlobName, "civ-2"); (kGroupEmul, kEmulPath, "/usr/bin/qemu");
   (kGroupVgpu, kVgpuType, kVgpuGvtD); (kGroupFirm, kFirmType, "none")].

Definition gpu_group : string := "/sys/bus/pci/devices/0000:00:02.0/iommu_group/devices".
Definition gpu_machine : Glob :=
  mkGlob _ new_pool EmptyString (Some "/home/u/.intel/.civ")
    (SimOs.boot [("/usr/bin/qemu", EmptyString)]
       [(kVfioModulePath, []); (kVfioPciModulePath, []);
        (gpu_group, [gpu_group +:+ "/0000:00:02.0"])] []).
Definition gpu_failed : outcome bool * BSt :=
  BuildVmArgs (new_VmBuilderQemu "civ-2" gvtd, gpu_machine).

(** Two guests with the extra power-control socket; the emulator of the
    first has created its socket when the second is built. *)
Definition multi (name : string) : BSt → BSt := λ s,
  (BuildExtraGuestPmCtrlCmd (new_VmBuilderQemu name (Demo.config
    [(kGroupGlob, kGlobName, name); (kGroupExtra, kExtraPwrCtrlMultiOS, "true")]), s.2)).2.
Definition guest_a : BSt := multi "a" Demo.start.
Definition a_listens : BSt := (b_os (os (FileWrite "/tmp/qmp-pwr-socket-0" EmptyString)) guest_a).2.
Definition guest_b : BSt := multi "b" a_listens.

(** The GPU was handed to the vfio driver by a build that then failed, and
    stopping the guest does not probe its driver again. *)
Theorem gpu_not_restored :
  gpu_failed.1 = Ret false
  ∧ writes_to kVfioPciNewId (os_log (g_os gpu_failed.2.2)) = ["0 0"]
  ∧ pci_pt_dev_set_ gpu_failed.2.1 = [kIntelGpuBdf]
  ∧ (StopVm gpu_failed.2).1 = Ret tt
  ∧ writes_to kPciDriverProbe (os_log (g_os (StopVm gpu_failed.2).2.2)) = [].
Proof. vm_compute. repeat split. Qed.

(** Stopping the first guest removes the socket of the second and leaves its
    own. *)
Theorem other_socket_removed :
  emul_cmd_ guest_a.1 = " -qmp unix:/tmp/qmp-pwr-socket-0,server,nowait"
  ∧ emul_cmd_ guest_b.1 = " -qmp unix:/tmp/qmp-pwr-socket-1,server,nowait"
  ∧ os_log (g_os (StopVm (guest_a.1, guest_b.2)).2.2)
    = [EvWrite "/tmp/qmp-pwr-socket-0" EmptyString; EvRemove "/tmp/qmp-pwr-socket-1"].
Proof. vm_compute. repeat split. Qed.

Lemma stop_again_frees_witness :
  bit second_holds 1002 = false
  ∧ match StopVm (first_stopped.1, set_pool second_holds first_stopped.2) with
    | (Ret _, s') => bit (g_pool s'.2) 1002 = true
    | _ => False
    end.
Proof.
  assert (bit second_holds 1002 = false) as Hb by (vm_compute; reflexivity).
  assert (vsock_cid_ first_stopped.1 = 1002) as Hc by (vm_compute; reflexivity).
  split; [exact Hb|].
  pose proof (stop_again_frees first_stopped second_holds) as H.
  assert ((StopVm (first_stopped.1, set_pool second_holds first_stopped.2)).1 = Ret tt) as Hr
    by (vm_compute; reflexivity).
  destruct (StopVm _) as [r s']. simpl in Hr. subst r. rewrite Hc in H. apply H.
  - vm_compute; reflexivity.
  - vm_compute; reflexivity.
  - unfold Alloc.usable, kCivMaxCidNum. lia.
  - exact Hb.
Defined.
End Faults.
