(* ===== verification/Listener.v ===== *)
(** * The startup listener

    [StartupListenerImpl] of services/startup_listener_impl.{h,cc}: guests
    that are booting are registered with their context id and a callback; the
    gRPC call a guest makes when it is up runs the callback of the context id
    the call comes from.  A callback captures a pointer to the guest; the
    model keeps the pointer. *)

From S2P Require Import Prelude.
From S2P Require Import CStd.
From Stdlib Require Import Ascii.

Local Open Scope Z_scope.

(** ** Addresses *)

Definition kCivStartupListenerPort : Z := 9999.
Definition kCivPowerCtlListenerPort : Z := 10000.
Definition kCivAppLauncherListenerPort : Z := 10001.
(** linux/vm_sockets.h *)
Definition VMADDR_CID_ANY : Z := 4294967295.
Definition VMADDR_CID_HOST : Z := 2.

(** [snprintf(buf, 49, "vsock:%u:%u", cid, port)] *)
Definition vsock_address (cid port : Z) : string :=
  str_take 48 ("vsock:" +:+ to_string cid +:+ ":" +:+ to_string port).

(** ** The listener *)

(** [grpc::Status] as the listener uses it. *)
Inductive Status : Type := StatusOK | FAILED_PRECONDITION (msg : string).

(** [std::function<void(void)>]: null, or [[vb]() { vb->SetVmReady(); }]. *)
Definition Callback : Type := option nat.

Record StartupListenerImpl : Type := mkListener { pending_vms_ : gmap Z Callback }.

Definition new_listener : StartupListenerImpl := mkListener ∅.

(** [sscanf(s, "vsock:%u", &cid) == 1], with the value stored in [cid]. *)
Definition sscanf_vsock (s : string) : option Z :=
  let '(pre, rest) := (str_take 6 s, str_drop 6 s) in
  if bool_decide (pre = "vsock:") then
    match scan_number 10 rest with
    | Some (neg, v, _) =>
        Some (u32 (if ULONG_MAX <? v then ULONG_MAX else if neg then u64 (- v) else v))
    | None => None
    end
  else None.

(** [VmReady]: the status and the callback that is run, if any. *)
Definition VmReady (peer : string) : M StartupListenerImpl (Status * Callback) :=
  match sscanf_vsock peer with
  | None => mret (FAILED_PRECONDITION "Invalid peer for StartupListener", None)
  | Some cid =>
      found ← gets (λ l, pending_vms_ l !! cid);
      match found with
      | None => mret (FAILED_PRECONDITION "VM is unknown", None)
      | Some callback =>
          modify (λ l, mkListener (delete cid (pending_vms_ l))) ;;
          mret (StatusOK, callback)
      end
  end.

Definition AddPendingVM (cid : Z) (callback : Callback) : M StartupListenerImpl unit :=
  modify (λ l, mkListener (<[cid := callback]> (pending_vms_ l))).

Definition RemovePendingVM (cid : Z) : M StartupListenerImpl unit :=
  modify (λ l, mkListener (delete cid (pending_vms_ l))).

(** ** Properties *)

Lemma sscanf_vsock_peer c rest :
  0 < c < 2 ^ 32 → sscanf_vsock ("vsock:" +:+ to_string c +:+ String ":" rest) = Some c.
Proof.
  intros Hc. unfold sscanf_vsock. set (x := to_string c +:+ String ":" rest).
  change (str_take 6 ("vsock:" +:+ x)) with ("vsock:" +:+ str_take 0 x).
  change (str_drop 6 ("vsock:" +:+ x)) with x.
  assert (str_take 0 x = EmptyString) as -> by (by destruct x).
  rewrite bool_decide_eq_true_2 by done. unfold x.
  destruct (scan_number_unit 10 c ":" rest) as [k ->]; [by right|lia|done|].
  destruct (Z.ltb_spec ULONG_MAX c); [unfold ULONG_MAX in *; lia|]. by rewrite u32_small by lia.
Qed.

(** A guest that was registered under its context id is found by the
    call that comes from it, once: the first call runs the registered callback
    and answers OK, a second call from the same guest is refused and changes
    nothing, and the entries of other guests are the same throughout. *)
Theorem vm_ready_once l cid callback rest :
  0 < cid < 2 ^ 32 →
  let peer := "vsock:" +:+ to_string cid +:+ String ":" rest in
  ∃ l1 l2, AddPendingVM cid callback l = (Ret tt, l1)
    ∧ VmReady peer l1 = (Ret (StatusOK, callback), l2)
    ∧ VmReady peer l2 = (Ret (FAILED_PRECONDITION "VM is unknown", None), l2)
    ∧ ∀ c, c ≠ cid → pending_vms_ l2 !! c = pending_vms_ l !! c
                     ∧ pending_vms_ l1 !! c = pending_vms_ l !! c.
Proof.
  intros Hc peer. eexists _, _. split; [done|].
  unfold VmReady, peer, mbind, M_bind, gets, modify. rewrite sscanf_vsock_peer by done. cbn.
  rewrite lookup_insert_eq. cbn. split; [done|]. cbn. rewrite lookup_delete_eq. split; [done|]. cbn.
  intros c Hne. by rewrite lookup_delete_ne, !lookup_insert_ne by done.
Qed.

Lemma vm_ready_once_witness :
  VmReady "vsock:1002:4096" (AddPendingVM 1002 (Some 7%nat) new_listener).2
  = (Ret (StatusOK, Some 7%nat), mkListener (delete 1002 (<[1002 := Some 7%nat]> ∅))).
Proof.
  destruct (vm_ready_once new_listener 1002 (Some 7%nat) "4096") as (l1 & l2 & Ha & Hr & _); [lia|].
  revert Hr. injection Ha as <-. intros Hr. etrans; [exact Hr|].
  f_equal. injection Hr as <-. reflexivity.
Defined.
