(* ===== verification/Helpers.v ===== *)
(** * Programs around the guest

    The host's application launcher (host/app_launcher/app_launcher_client.cc),
    the stub of guest/vm_powerctl.h, and the three programs that run inside a
    guest (android/applauncher, android/powerctl, android/startup_notify).
    They talk over gRPC on vsock.  A guest is its own machine; [Net] holds the
    guests by context id and the listener of the host.  How gRPC resolves an
    address, and what becomes of a call (not delivered, handled with the reply
    lost, answered), are parameters. *)

From S2P Require Import Prelude.
From S2P Require Import CStd.
From S2P Require Import Os.
From S2P Require Import Listener.
From Stdlib Require Import Ascii.

Local Open Scope Z_scope.

(** ** Messages of vm_guest.proto *)

Record AppLaunchRequest : Type := mkRequest { app_name : string; disp_id : Z }.
Inductive AppStatus : Type := UNKNOWN | LAUNCHED | EXITED | FAILED.
Record AppLaunchResponse : Type := mkResponse { app_status : AppStatus; code : Z }.

(** What becomes of a gRPC call to a service. *)
Inductive CallFate : Type :=
| Undelivered      (** no service listens, or the call does not reach it *)
| Unanswered       (** the service handles the call, its reply does not arrive *)
| Answered.

Section services.
Context {E : OsEnv}.

(** [CivAppLauncherImpl::LaunchApp], in the guest *)
Definition LaunchApp_impl (request : AppLaunchRequest) : M OsSt AppLaunchResponse :=
  let cmd := "/system/bin/am start -n " +:+ app_name request +:+
             " --display " +:+ to_string (disp_id request) in
  rc ← os (CSystem cmd);
  mret (if negb (rc =? 0) then mkResponse FAILED (-1) else mkResponse LAUNCHED 0).

(** [CivPowerCtlImpl::Shutdown], in the guest *)
Definition Shutdown_impl : M OsSt unit :=
  _ ← os (CSystem "/system/bin/reboot -p shutdown"); mret tt.

(** [main] of the two services: [server->Wait()] does not come back, since
    nothing shuts the server down; without a server the program ends with 0. *)
Definition service_main (port : Z) : M OsSt Z :=
  server ← os (GrpcListen (vsock_address VMADDR_CID_ANY port));
  if (server : bool) then blocked else mret 0.
Definition applauncher_main : M OsSt Z := service_main kCivAppLauncherListenerPort.
Definition powerctl_main : M OsSt Z := service_main kCivPowerCtlListenerPort.

(** ** Calls between machines *)

Record Net : Type := mkNet {
  guests : gmap Z OsSt;
  host_listener : StartupListenerImpl;
  ready_runs : list nat;             (** callbacks the listener has run *)
}.

(** gRPC's resolution of an address: a context id and a port. *)
Context (resolve : string → option (Z * Z)).
(** What becomes of a call to a guest's port. *)
Context (fate : Z → Z → CallFate).

(** A call on the guest an address stands for; [None]: the status is not OK,
    which does not say whether the handler has run. *)
Definition rpc {A} (addr : string) (handler : M OsSt A) : M Net (option A) := λ n,
  match resolve addr with
  | Some (cid, port) =>
      match guests n !! cid, fate cid port with
      | None, _ | _, Undelivered => (Ret None, n)
      | Some g, f =>
          let '(r, g') := handler g in
          (Ret (match r, f with Ret a, Answered => Some a | _, _ => None end),
           mkNet (<[cid := g']> (guests n)) (host_listener n) (ready_runs n))
      end
  | None => (Ret None, n)
  end.

(** [bool CivVmPowerCtl::Shutdown(void)] *)
Definition Shutdown (addr : string) : M Net bool :=
  reply ← rpc addr Shutdown_impl; mret (bool_decide (is_Some reply)).

(** [bool CivAppLauncherClient::LaunchApp(std::string, uint32_t)] *)
Definition LaunchApp (addr : string) (name : string) (disp : Z) : M Net bool :=
  reply ← rpc addr (LaunchApp_impl (mkRequest name disp)); mret (bool_decide (is_Some reply)).

(** ** The launcher *)

(** The values of its options [help], [cid], [name], [display]. *)
Record launcher_vm : Type := mkVm {
  vm_help : bool;
  vm_cid : option Z;
  vm_name : option string;
  vm_display : option Z;
}.
Definition vm_empty (vm : launcher_vm) : bool :=
  match vm with mkVm false None None None => true | _ => false end.

(** Boost's parser for them; [None]: it throws. *)
Context (launcher_parse : list string → option launcher_vm).

(** [bool AppLauncherOptions::ParseOptions(int argc, char* argv[])] *)
Definition Launcher_ParseOptions (argv : list string) : M Net bool :=
  match launcher_parse argv with
  | None => throw ExInvalidArgument
  | Some vm =>
      if vm_empty vm then mret false
      else if vm_help vm then mret true else
      match vm_cid vm with
      | None => mret false
      | Some cid =>
          match vm_name vm with
          | None => mret false
          | Some name =>
              match vm_display vm with
              | None => mret false
              | Some disp => LaunchApp (vsock_address cid kCivAppLauncherListenerPort) name disp
              end
          end
      end
  end.

(** [int main(int argc, char *argv[])] of the launcher *)
Definition launcher_main (argv : list string) : M Net Z :=
  try_catch (ok ← Launcher_ParseOptions argv; mret (if (ok : bool) then 0 else -1)) (λ _, mret (-1)).

(** ** The guest's report *)

(** [bool StartupNotify::VmReady(void)] of the guest with context id [cid]; the
    host's listener sees the guest's address as its peer. *)
Definition StartupNotify_VmReady (cid src_port : Z) : M Net bool := λ n,
  match resolve (vsock_address VMADDR_CID_HOST kCivStartupListenerPort) with
  | Some (2, 9999) =>
      match VmReady ("vsock:" +:+ to_string cid +:+ String ":" (to_string src_port)) (host_listener n) with
      | (Ret (st, cb), l) =>
          (Ret (match st with StatusOK => true | _ => false end),
           mkNet (guests n) l (ready_runs n ++ match cb with Some p => [p] | None => [] end))
      | (_, l) => (Ret false, mkNet (guests n) l (ready_runs n))
      end
  | _ => (Ret false, n)
  end.

(** [int main()] of civ_startup_notify *)
Definition startup_notify_main (cid src_port : Z) : M Net Z :=
  ok ← StartupNotify_VmReady cid src_port;
  mret (if (ok : bool) then 0 else -1).
End services.

(** ** Properties *)

Section services_properties.
Context {E : OsEnv} (resolve : string → option (Z * Z)) (fate : Z → Z → CallFate).
Context (launcher_parse : list string → option launcher_vm).
(** gRPC resolves the address the programs print for a context id and port. *)
Definition resolves (cid port : Z) : Prop := resolve (vsock_address cid port) = Some (cid, port).

(** The command a guest runs for a request. *)
Definition am_start (name : string) (disp : Z) : string :=
  "/system/bin/am start -n " +:+ name +:+ " --display " +:+ to_string disp.

(** A guest after it has handled a request to start [name]. *)
Definition launched (n : Net) (cid : Z) (g : OsSt) (name : string) (disp : Z) (n' : Net) : Prop :=
  ∃ g' rc, os_log g' = os_log g ++ [EvSystem (am_start name disp)]
    ∧ calls g g' [Asked (CSystem (am_start name disp)) rc]
    ∧ n' = mkNet (<[cid := g']> (guests n)) (host_listener n) (ready_runs n).

Lemma LaunchApp_cases cid name disp n :
  resolves cid kCivAppLauncherListenerPort →
  let '(r, n') := LaunchApp resolve fate (vsock_address cid kCivAppLauncherListenerPort) name disp n in
  match guests n !! cid, fate cid kCivAppLauncherListenerPort with
  | Some g, Answered => r = Ret true ∧ launched n cid g name disp n'
  | Some g, Unanswered => r = Ret false ∧ launched n cid g name disp n'
  | _, _ => r = Ret false ∧ n' = n
  end.
Proof.
  intros Hc. unfold LaunchApp, rpc, mbind at 1, M_bind. rewrite Hc.
  destruct (guests n !! cid) as [g|]; [|done].
  unfold LaunchApp_impl. cbn [app_name disp_id]. fold (am_start name disp).
  destruct (os_run (CSystem (am_start name disp)) g) as (rc & w & _ & Hr).
  destruct (fate _ _); [done|..]; unfold mbind, M_bind; rewrite Hr; (split; [done|]);
    eexists _, rc; (split_and!; [| |reflexivity]); done.
Qed.

(** C37: launching an application.  With all three options and without
    [--help], a call that reaches the service of the guest with that context id
    makes that guest run one command, the activity manager with the given name
    and display, and touches no other guest; the program ends with 0 when the
    reply arrives, whatever the activity manager answered, and with -1 when the
    reply is lost although the command has run.  If the call does not reach the
    guest, it ends with -1 and nothing has happened.  With [--help] nothing
    happens and it ends with 0; with an option missing or refused nothing
    happens and it ends with -1. *)
Theorem launch_outcome argv n :
  let '(r, n') := launcher_main resolve fate launcher_parse argv n in
  match launcher_parse argv with
  | Some (mkVm false (Some cid) (Some name) (Some disp)) =>
      resolves cid kCivAppLauncherListenerPort →
      match guests n !! cid, fate cid kCivAppLauncherListenerPort with
      | Some g, Answered => r = Ret 0 ∧ launched n cid g name disp n'
      | Some g, Unanswered => r = Ret (-1) ∧ launched n cid g name disp n'
      | _, _ => r = Ret (-1) ∧ n' = n
      end
  | Some vm => r = Ret (if vm_help vm then 0 else -1) ∧ n' = n
  | None => r = Ret (-1) ∧ n' = n
  end.
Proof.
  unfold launcher_main, try_catch, Launcher_ParseOptions.
  destruct (launcher_parse argv) as [[help cid name disp]|]; [|done].
  destruct help; [by destruct cid, name, disp|].
  destruct cid as [cid|], name as [name|], disp as [disp|]; try done. cbn [vm_empty vm_help vm_cid vm_name vm_display].
  pose proof (LaunchApp_cases cid name disp n) as Hr. unfold mbind at 1, M_bind.
  destruct (LaunchApp _ _ _ name disp n) as [r n']. destruct r as [b|e|]; cbn -[decide] in *.
  - intros Hc. specialize (Hr Hc). destruct (guests n !! cid) as [g|]; [destruct (fate _ _)|];
      destruct Hr as [[= ->] Hn]; done.
  - case_decide; intros Hc; specialize (Hr Hc);
      (destruct (guests n !! cid) as [g|]; [destruct (fate _ _)|]); by destruct Hr.
  - intros Hc. specialize (Hr Hc). destruct (guests n !! cid) as [g|]; [destruct (fate _ _)|]; by destruct Hr.
Qed.

(** The report of a guest that is pending succeeds and runs its callback; the
    report of any other guest fails and changes nothing. *)
Lemma notify_outcome cid src_port n :
  0 < cid < 2 ^ 32 → resolves VMADDR_CID_HOST kCivStartupListenerPort →
  startup_notify_main resolve cid src_port n =
    match pending_vms_ (host_listener n) !! cid with
    | Some cb => (Ret 0, mkNet (guests n) (mkListener (delete cid (pending_vms_ (host_listener n))))
                    (ready_runs n ++ match cb with Some p => [p] | None => [] end))
    | None => (Ret (-1), mkNet (guests n) (host_listener n) (ready_runs n ++ []))
    end.
Proof.
  intros Hc Hr. unfold startup_notify_main, StartupNotify_VmReady. unfold mbind at 1, M_bind.
  rewrite Hr. cbn.
  unfold VmReady. rewrite sscanf_vsock_peer by done. sx_unfold. cbn.
  by destruct (pending_vms_ (host_listener n) !! cid).
Qed.
End services_properties.

(** ** Examples *)

Module HelpersDemo.
#[local] Existing Instance SimOs.sim_os.

(** The addresses of two guests and of the host. *)
Definition resolve (addr : string) : option (Z * Z) :=
  c ← sscanf_vsock addr;
  p ← (match scan_number 10 (after_char ":" (str_drop 6 addr)) with Some (_, p, _) => Some p | None => None end);
  Some (c, p).

Example resolve_ex : resolve (vsock_address 1002 kCivAppLauncherListenerPort) = Some (1002, 10001).
Proof. vm_compute. reflexivity. Qed.

Definition parse (argv : list string) : option launcher_vm :=
  Some (mkVm false (Some 1002) (Some "com.android.settings/.Settings") (Some 2)).
Definition net : Net := mkNet {[1002 := SimOs.boot [] [] []]} new_listener [].

(** The two ways a call can end once the guest has it. *)
Lemma launch_outcome_witness :
  (launcher_main resolve (λ _ _, Answered) parse [] net).1 = Ret 0
  ∧ launched net 1002 (SimOs.boot [] [] []) "com.android.settings/.Settings" 2
      (launcher_main resolve (λ _ _, Unanswered) parse [] net).2.
Proof.
  pose proof (launch_outcome resolve (λ _ _, Answered) parse [] net) as H1.
  pose proof (launch_outcome resolve (λ _ _, Unanswered) parse [] net) as H2.
  destruct (launcher_main resolve (λ _ _, Answered) parse [] net) as [r1 n1].
  destruct (launcher_main resolve (λ _ _, Unanswered) parse [] net) as [r2 n2].
  cbn [parse] in H1, H2. specialize (H1 resolve_ex). specialize (H2 resolve_ex).
  change (guests net !! 1002) with (Some (SimOs.boot [] [] [])) in H1, H2. cbv iota in H1, H2.
  split; [exact (proj1 H1)|exact (proj2 H2)].
Defined.

(** A guest in which nothing can be started answers, and the launcher ends
    with 0. *)
Definition broken_os : OsEnv := {|
  os_world := SimOs.sim;
  os_handle A c w :=
    match c in oscall A return A * SimOs.sim with
    | CSystem _ => (1, w)
    | c => SimOs.sim_handle _ c w
    end |}.
Definition broken_net : @Net broken_os :=
  @mkNet broken_os {[1002 := @mkOsSt broken_os (os_w (SimOs.boot [] [] [])) [] []]} new_listener [].

Example failed_launch_reported_as_success :
  (@launcher_main broken_os resolve (λ _ _, Answered) parse [] broken_net).1 = Ret 0.
Proof. vm_compute. reflexivity. Qed.
End HelpersDemo.
