(* ===== verification/Server.v ===== *)
(** * The server

    [Server] of services/server.{h,cc}: the registry of guests and the
    requests clients send.  The server knows a guest only through the virtual
    functions of [VmBuilder] (guest/vm_builder.h); that interface is the class
    [VmBuilder] below, its promises are [VmBuilderLaws], and [qemu] with
    [qemu_laws] shows that [VmBuilderQemu] keeps them.

    A guest object has an identity, the number under which it was made, so
    that a pointer kept by a thread or a callback can outlive the object. *)

From S2P Require Import Prelude.
From S2P Require Import CStd.
From S2P Require Import Boost.
From S2P Require Import Os.
From S2P Require Import CidPool.
From S2P Require Import Config.
From S2P Require Import Aaf.
From S2P Require Import Process.
From S2P Require Import Devices.
From S2P Require Import Builder.
From S2P Require Import BuilderProps.
From S2P Require Import Lifecycle.
From S2P Require Import GuestTheorems.
From S2P Require Import Listener.
From Stdlib Require Import Ascii.

Local Open Scope Z_scope.

(** ** The interface of a guest *)

Class VmBuilder `{OsEnv} : Type := {
  vb : Type;
  vb_new : string → CivConfig → vb;
  BuildVmArgs : M (vb * Glob) bool;
  StartVm : M (vb * Glob) unit;
  StopVm : M (vb * Glob) unit;
  Delete : M (vb * Glob) unit;      (** the virtual destructor *)
  SetVmReady : M (vb * Glob) unit;
  MainRunning : M (vb * Glob) bool; (** the check of each turn of [WaitVmReady] *)
  WaitVmExit : M (vb * Glob) unit;
  SetProcessEnv : list string → M (vb * Glob) unit;
  GetName : vb → string;
  GetCid : vb → Z;
  GetState : vb → VmState;
  vb_built : vb → Prop;             (** fit to be started *)
}.

Section laws.
Context {E : OsEnv} {V : VmBuilder}.

(** The name of a guest never changes, and the pool stays well formed. *)
Definition vm_frame (s s' : vb * Glob) : Prop :=
  GetName s'.1 = GetName s.1 ∧ (pool_wf (g_pool s.2) → pool_wf (g_pool s'.2)).

#[export] Instance vm_frame_preorder : PreOrder vm_frame.
Proof. split; [by intros s|]. intros s1 s2 s3 [H1 ?] [H2 ?]. split; [by rewrite H2, H1|auto]. Qed.

(** The guest keeps its context id, and the pool is as it was. *)
Definition cid_frame (s s' : vb * Glob) : Prop :=
  GetCid s'.1 = GetCid s.1 ∧ g_pool s'.2 = g_pool s.2.

#[export] Instance cid_frame_preorder : PreOrder cid_frame.
Proof. split; [by intros s|]. intros s1 s2 s3 [H1 H2] [H3 H4]. split; congruence. Qed.

Class VmBuilderLaws : Prop := {
  new_name : ∀ n c, GetName (vb_new n c) = n;
  build_frame : grows vm_frame BuildVmArgs;
  start_frame : grows vm_frame StartVm;
  stop_frame : grows vm_frame StopVm;
  delete_frame : grows vm_frame Delete;
  ready_frame : grows vm_frame SetVmReady;
  exit_frame : grows vm_frame WaitVmExit;
  running_frame : grows vm_frame MainRunning;
  env_frame : ∀ env, grows vm_frame (SetProcessEnv env);
  env_kept : ∀ env s, ∃ v, SetProcessEnv env s = (Ret tt, (v, s.2))
    ∧ GetCid v = GetCid s.1 ∧ GetState v = GetState s.1 ∧ (vb_built s.1 → vb_built v);
  ready_running : ∀ s, ∃ s', SetVmReady s = (Ret tt, s') ∧ GetState s'.1 = kVmRunning
    ∧ GetCid s'.1 = GetCid s.1 ∧ s'.2 = s.2 ∧ (vb_built s.1 → vb_built s'.1);
  (** The state changes only in [StartVm] and [SetVmReady]. *)
  stop_state : ∀ s, GetState (StopVm s).2.1 = GetState s.1;
  exit_state : ∀ s, GetState (WaitVmExit s).2.1 = GetState s.1;
  running_state : ∀ s, GetState (MainRunning s).2.1 = GetState s.1;
  (** Only building and stopping touch the pool and the guest's id. *)
  start_cid : grows cid_frame StartVm;
  exit_cid : grows cid_frame WaitVmExit;
  running_cid : grows cid_frame MainRunning;
  (** A built guest can be started, watched and destroyed without a call that
      never comes back. *)
  start_booting : ∀ s, vb_built s.1 →
    match StartVm s with
    | (Ret _, s') => GetState s'.1 = kVmBooting ∧ vb_built s'.1
    | (Throw _, _) => True
    | (Blocked, _) => False
    end;
  running_back : ∀ s, vb_built s.1 → ∃ b s', MainRunning s = (Ret b, s') ∧ vb_built s'.1;
  exit_built : ∀ s, vb_built s.1 → vb_built (WaitVmExit s).2.1;
  delete_back : ∀ s, vb_built s.1 → (Delete s).1 ≠ Blocked;
  (** Destroying a built guest gives its id back, and no other. *)
  delete_releases : ∀ s s', vb_built s.1 → Delete s = (Ret tt, s') →
    g_pool s'.2 = released (GetCid s.1) (g_pool s.2);
  (** A built guest holds one context id that was free before. *)
  build_holds : ∀ n c g, pool_wf (g_pool g) →
    match BuildVmArgs (vb_new n c, g) with
    | (Ret true, s) => vb_built s.1 ∧ GetState s.1 = kVmCreated ∧ Alloc.usable (GetCid s.1)
        ∧ bit (g_pool g) (GetCid s.1) = true ∧ g_pool s.2 = reset_bit (GetCid s.1) (g_pool g)
    | _ => True
    end;
  (** Destroying what a build left gives the pool back as it was. *)
  build_undone : ∀ n c g, pool_wf (g_pool g) →
    match Delete (BuildVmArgs (vb_new n c, g)).2 with
    | (Ret _, s) => g_pool s.2 = g_pool g
    | _ => True
    end;
}.
End laws.
Arguments VmBuilderLaws {_} _.

(** [VmBuilderQemu] is a guest. *)
#[export] Instance qemu {B : Boost} {E : OsEnv} : VmBuilder := {|
  vb := VmBuilderQemu;
  vb_new := new_VmBuilderQemu;
  BuildVmArgs := Builder.BuildVmArgs;
  StartVm := Builder.StartVm;
  StopVm := Builder.StopVm;
  Delete := delete_VmBuilderQemu;
  SetVmReady := Builder.SetVmReady;
  MainRunning := on_main Running;
  WaitVmExit := Builder.WaitVmExit;
  SetProcessEnv := Builder.SetProcessEnv;
  GetName := Builder.GetName;
  GetCid := Builder.GetVmCid;
  GetState := Builder.GetState;
  vb_built v := startable v ∧ main_plain v;
|}.

(** ** Data shared with clients *)

(** [CivMsgType] *)
Inductive CivMsgType : Type :=
| kCiVMsgStopServer
| kCivMsgListVm
| kCivMsgImportVm
| kCivMsgStartVm
| kCivMsgStopVm
| kCivMsgGetVmInfo
| kCivMsgTest
| kCivMsgRespondSuccess
| kCivMsgRespondFail
| MsgOther (n : Z).         (** any other number *)

#[export] Instance CivMsgType_eq_dec : EqDecision CivMsgType.
Proof. solve_decision. Defined.

(** [CivVmInfo] *)
Record CivVmInfo : Type := mkInfo { cid : Z; state : VmState }.

(** The named objects of a client's shared memory segment. *)
Record Shm : Type := mkShm {
  bstrings : gmap string (list string);
  vm_info : option CivVmInfo;
}.

Section server.
Context {B : Boost} {E : OsEnv} {V : VmBuilder}.

Record Srv : Type := mkSrv {
  stop_server_ : bool;
  vmis_ : list (nat * vb);
  next_vb : nat;
  listener : StartupListenerImpl;
  shms : gmap string Shm;
  glob : Glob;
}.

Definition set_stop (b : bool) (s : Srv) : Srv :=
  mkSrv b (vmis_ s) (next_vb s) (listener s) (shms s) (glob s).
Definition set_vmis (l : list (nat * vb)) (s : Srv) : Srv :=
  mkSrv (stop_server_ s) l (next_vb s) (listener s) (shms s) (glob s).
Definition set_next (n : nat) (s : Srv) : Srv :=
  mkSrv (stop_server_ s) (vmis_ s) n (listener s) (shms s) (glob s).
Definition set_listener (l : StartupListenerImpl) (s : Srv) : Srv :=
  mkSrv (stop_server_ s) (vmis_ s) (next_vb s) l (shms s) (glob s).
Definition set_shms (m : gmap string Shm) (s : Srv) : Srv :=
  mkSrv (stop_server_ s) (vmis_ s) (next_vb s) (listener s) m (glob s).
Definition set_glob (g : Glob) (s : Srv) : Srv :=
  mkSrv (stop_server_ s) (vmis_ s) (next_vb s) (listener s) (shms s) g.

Definition srv_os {A} (c : M OsSt A) : M Srv A :=
  lift (λ s, g_os (glob s)) (λ o s, set_glob (set_os o (glob s)) s) c.

(** [managed_shared_memory shm(open_only, payload)] *)
Definition shm_open (payload : string) : M Srv Shm :=
  m ← gets shms;
  match m !! payload with
  | Some shm => mret shm
  | None => throw ExInterprocess
  end.
Definition shm_put (payload : string) (shm : Shm) : M Srv unit :=
  modify (λ s, set_shms (<[payload := shm]> (shms s)) s).

(** [shm.find<bstring>(name).first->c_str()]; dereferencing a null pointer
    ends the process. *)
Definition find_first (shm : Shm) (name : string) : M Srv string :=
  match bstrings shm !! name with
  | Some (x :: _) => mret x
  | _ => throw ExTerminate
  end.

(** [size_t Server::FindVmInstance(std::string name)]; [None] is [-1UL]. *)
Fixpoint find_vm (name : string) (l : list (nat * vb)) : option nat :=
  match l with
  | [] => None
  | (_, v) :: l => if bool_decide (GetName v = name) then Some 0%nat else S <$> find_vm name l
  end.
Definition FindVmInstance (name : string) : M Srv (option nat) :=
  gets (λ s, find_vm name (vmis_ s)).

(** A guest object is destroyed. *)
Definition destroy (v : vb) : M Srv unit := λ s,
  match noexcept Delete (v, glob s) with
  | (r, (_, g)) => (r, set_glob g s)
  end.

(** [void Server::DeleteVmInstance(std::string name)] *)
Definition DeleteVmInstance (name : string) : M Srv unit :=
  index ← FindVmInstance name;
  match index with
  | None => skip
  | Some i =>
      old ← gets (λ s, vmis_ s !! i);
      modify (λ s, set_vmis (delete i (vmis_ s)) s) ;;
      match old with Some (_, v) => destroy v | None => skip end
  end.

(** A method of [vmis_\[i\]]. *)
Definition on_vm {A} (i : nat) (c : M (vb * Glob) A) : M Srv A := λ s,
  match vmis_ s !! i with
  | None => (Throw ExTerminate, s)
  | Some (p, v) =>
      match c (v, glob s) with
      | (r, (v', g)) => (r, set_glob g (set_vmis (<[i := (p, v')]> (vmis_ s)) s))
      end
  end.
Definition get_vm {A} (i : nat) (f : vb → A) : M Srv A := λ s,
  match vmis_ s !! i with
  | None => (Throw ExTerminate, s)
  | Some (_, v) => (Ret (f v), s)
  end.

(** [int Server::StopVm(const char payload[])] *)
Definition Server_StopVm (payload : string) : M Srv Z :=
  shm ← shm_open payload;
  vm_name ← find_first shm "StopVmName";
  id ← FindVmInstance vm_name;
  match id with
  | Some id =>
      cid ← get_vm id GetCid;
      ok ← srv_os (os (GrpcShutdown
             ("vsock:" +:+ to_string cid +:+ ":" +:+ to_string kCivPowerCtlListenerPort)));
      (if negb ok then on_vm id StopVm else skip) ;;
      mret 0
  | None => mret (-1)
  end.

(** The line the server reports for a guest. *)
Definition vm_line (v : vb) : string := GetName v +:+ ":" +:+ VmStateToStr (GetState v).

(** [int Server::ListVm(const char payload[])] *)
Definition ListVm (payload : string) : M Srv Z :=
  shm ← shm_open payload;
  vms ← gets vmis_;
  shm_put payload
    (mkShm (<["ListVms" := (λ pv : nat * vb, vm_line pv.2) <$> vms]> (bstrings shm)) (vm_info shm)) ;;
  mret 0.

(** [CivConfig cfg; cfg.ReadConfigFile(p)] *)
Definition read_cfg (p : string) : M Srv (bool * CivConfig) := λ s,
  match ReadConfigFile p (empty_config, g_os (glob s)) with
  | (Ret b, (c, o)) => (Ret (b, c), set_glob (set_os o (glob s)) s)
  | (Throw e, (_, o)) => (Throw e, set_glob (set_os o (glob s)) s)
  | (Blocked, (_, o)) => (Blocked, set_glob (set_os o (glob s)) s)
  end.

(** [boost::split(name_param, cfg.GetValue(kGroupGlob, kGlobName), is_any_of(","))],
    first part *)
Definition cfg_name (c : CivConfig) : string :=
  default EmptyString (split_any "," false (GetValue kGroupGlob kGlobName c) !! 0%nat).

(** [std::make_unique<VmBuilderQemu>(vm_name, cfg)], [BuildVmArgs], and either
    the insertion at the end of [vmis_] or the destruction. *)
Definition make_vm (vm_name : string) (c : CivConfig) : M Srv (option nat) := λ s,
  match BuildVmArgs (vb_new vm_name c, glob s) with
  | (Ret true, (v, g)) =>
      (Ret (Some (next_vb s)),
       set_glob g (set_next (S (next_vb s)) (set_vmis (vmis_ s ++ [(next_vb s, v)]) s)))
  | (Ret false, (v, g)) => (destroy v ;; mret None) (set_glob g s)
  | (Throw e, (v, g)) => (destroy v ;; throw e) (set_glob g s)
  | (Blocked, (_, g)) => (Blocked, set_glob g s)
  end.

(** [int Server::ImportVm(const char payload[])] *)
Definition ImportVm (payload : string) : M Srv Z :=
  shm ← shm_open payload;
  p ← find_first shm "ImportVmCfgPath";
  if str_empty p then mret (-1) else
  rc ← read_cfg p;
  let '(ok, c) := (rc : bool * CivConfig) in
  if negb ok then mret (-1) else
  let vm_name := cfg_name c in
  if str_empty vm_name then mret (-1) else
  id ← FindVmInstance vm_name;
  go ← match id with
       | Some id =>
           st ← get_vm id GetState;
           if negb (bool_decide (st = kVmCreated)) && negb (bool_decide (st = kVmEmpty))
           then mret false else DeleteVmInstance vm_name ;; mret true
       | None => mret true
       end;
  if negb go then mret (-1) else
  vmi ← make_vm vm_name c;
  match vmi with
  | None => mret (-1)
  | Some _ => mret 0
  end.

(** The index of the guest a pointer points to. *)
Definition index_of (p : nat) (l : list (nat * vb)) : option nat :=
  fst <$> list_find (λ pv : nat * vb, pv.1 = p) l.

(** [vb->f()] through a pointer kept from before; the object may be gone. *)
Definition via {A} (p : nat) (c : M (vb * Glob) A) : M Srv A := λ s,
  match index_of p (vmis_ s) with
  | Some i => on_vm i c s
  | None => (Throw ExTerminate, s)
  end.

(** [int Server::StartVm(const char payload[])] up to the start of the thread:
    the guest and the count of the latch. *)
Definition StartVm_prepare (payload : string) : M Srv (option (nat * Z)) :=
  shm ← shm_open payload;
  p ← find_first shm "StartVmCfgPath";
  if str_empty p then mret None else
  rc ← read_cfg p;
  let '(ok, c) := (rc : bool * CivConfig) in
  if negb ok then mret None else
  let vm_name := cfg_name c in
  if str_empty vm_name then mret None else
  id ← FindVmInstance vm_name;
  match id with
  | Some _ => mret None
  | None =>
      vmi ← make_vm vm_name c;
      match vmi with
      | None => mret None
      | Some p =>
          let env_data := default [] (bstrings shm !! "StartVmEnv") in
          via p (SetProcessEnv env_data) ;;
          mret (Some (p, if bool_decide (GetValue kGroupGlob kGlobWaitReady c = "true") then 2 else 1))
      end
  end.

(** The rest, after [notify_cont.wait()]. *)
Definition StartVm_finish (p : nat) : M Srv Z :=
  st ← via p (gets (λ s : vb * Glob, GetState s.1));
  if bool_decide (st = kVmRunning) then mret 0 else mret (-1).

(** [meanwhile p n] is what other threads do while the server waits for the
    latch of count [n]. *)
Definition Server_StartVm (meanwhile : nat → Z → Srv → Srv) (payload : string) : M Srv Z :=
  r ← StartVm_prepare payload;
  match r with
  | None => mret (-1)
  | Some (p, n) => modify (meanwhile p n) ;; StartVm_finish p
  end.

(** [int Server::GetVmInfo(const char payload[])] *)
Definition GetVmInfo (payload : string) : M Srv Z :=
  shm ← shm_open payload;
  vm_name ← find_first shm "VmName";
  id ← FindVmInstance vm_name;
  match id with
  | None => mret (-1)
  | Some id =>
      i ← get_vm id (λ v, mkInfo (GetCid v) (GetState v));
      shm_put payload (mkShm (bstrings shm) (Some i)) ;;
      mret 0
  end.

(** One turn of the loop of [Server::Start] on a message: what is left in
    [data.first->type]. *)
Definition dispatch (meanwhile : nat → Z → Srv → Srv) (type : CivMsgType) (payload : string) :
    M Srv CivMsgType :=
  let respond (h : M Srv Z) : M Srv CivMsgType :=
    r ← h; mret (if r =? 0 then kCivMsgRespondSuccess else kCivMsgRespondFail) in
  match type with
  | kCiVMsgStopServer => modify (set_stop true) ;; mret kCivMsgRespondSuccess
  | kCivMsgListVm => respond (ListVm payload)
  | kCivMsgImportVm => respond (ImportVm payload)
  | kCivMsgStartVm => respond (Server_StartVm meanwhile payload)
  | kCivMsgStopVm => respond (Server_StopVm payload)
  | kCivMsgGetVmInfo => respond (GetVmInfo payload)
  | kCivMsgTest => mret type
  | _ => mret type
  end.

(** The loop and the [catch] around it, on the messages that come in. *)
Fixpoint serve (meanwhile : nat → Z → Srv → Srv) (l : list (CivMsgType * string)) :
    M Srv (list CivMsgType) :=
  match l with
  | [] => mret []
  | (type, payload) :: l =>
      stop ← gets stop_server_;
      if (stop : bool) then mret [] else
      t ← dispatch meanwhile type payload;
      ts ← serve meanwhile l;
      mret (t :: ts)
  end.
End server.
