(* ===== verification/ServerProps.v ===== *)
(** * Correctness of the server

    [VmBuilderQemu] keeps the promises the server relies on, and the theorems
    about the requests, proved for any guest that keeps them. *)

From S2P Require Import Prelude.
From S2P Require Import CStd.
From S2P Require Import Boost.
From S2P Require Import Os.
From S2P Require Import CidPool.
From S2P Require Import Config.
From S2P Require Import Aaf.
From S2P Require Import Process.
From S2P Require Import Devices.
From S2P Require Import Builder.
From S2P Require Import BuilderProps.
From S2P Require Import Lifecycle.
From S2P Require Import GuestTheorems.
From S2P Require Import Listener.
From S2P Require Import Server.
From Stdlib Require Import Ascii.

Local Open Scope Z_scope.

(** ** The QEMU guest keeps the interface's promises *)

Section qemu_frame.
Context {B : Boost} {E : OsEnv}.

Notation named := (vm_frame (V := qemu)).

Lemma named_vb (f : VmBuilderQemu → VmBuilderQemu) (s : BSt) :
  name_ (f s.1) = name_ s.1 → named s (f s.1, s.2).
Proof. by intros H. Qed.

Lemma named_frame {A} (c : M BSt A) : grows frame c → grows named c.
Proof.
  apply grows_mono. intros [v g] [v' g'] [Hs _ Hp _]. split; [apply Hs|]. simpl in *. by rewrite Hp.
Qed.
Lemma named_upd f : (∀ v, name_ (f v) = name_ v) → grows named (upd_vb f).
Proof. intros Hf s. by apply named_vb. Qed.
Lemma named_on_main {A} (c : M ProcSt A) : grows named (on_main c).
Proof. intros s. unfold on_main, lift. by destruct (c _) as [r [p o]]. Qed.
Lemma named_on_co {A} i (c : M ProcSt A) : grows named (on_co i c).
Proof. intros s. unfold on_co, lift. by destruct (c _) as [r [p o]]. Qed.
Lemma named_b_os {A} (c : M OsSt A) : grows named (b_os c).
Proof. apply named_frame, frame_b_os. Qed.

Lemma named_pool {A} (c : M VsockCidPool A) :
  (∀ p, pool_wf p → pool_wf (c p).2) → grows named (b_pool c).
Proof.
  intros Hc s. unfold b_pool, lift. specialize (Hc (g_pool s.2)). by destruct (c _).
Qed.
Lemma GetCid_any_wf p : pool_wf p → pool_wf (GetCid_any p).2.
Proof.
  intros Hw. destruct (GetCid_any_cases p Hw) as [[-> _]|(c & -> & _)]; [done|by apply reset_bit_wf].
Qed.
Lemma GetCid_wf c p : pool_wf p → pool_wf (CidPool.GetCid c p).2.
Proof. intros Hw. destruct (GetCid_cases c p) as [[-> _]|[-> _]]; [done|by apply reset_bit_wf]. Qed.
Lemma ReleaseCid_wf c p : pool_wf p → pool_wf (ReleaseCid c p).2.
Proof. intros Hw. destruct (ReleaseCid_cases c p) as [[-> _]|[-> _]]; [done|by apply set_bit_wf]. Qed.
Lemma named_stoul x : grows named (stoul x : M BSt _).
Proof. apply named_frame. unfold stoul. repeat case_match; apply grows_throw || apply grows_ret; apply _. Qed.
End qemu_frame.

Ltac named_step :=
  repeat first
    [ progress intros
    | solve [apply named_frame; auto 2 with civ nocore]
    | apply named_b_os | apply named_on_main | apply named_on_co | apply named_stoul
    | apply named_upd; done
    | apply named_pool; auto using GetCid_any_wf, GetCid_wf, ReleaseCid_wf
    | apply grows_bind; [apply _| |]
    | apply grows_try; [apply _| |]
    | apply grows_ret; apply _
    | apply grows_throw; apply _
    | apply grows_gets; apply _
    | apply grows_for_each; [apply _|]
    | case_match ].

Section qemu_laws.
Context {B : Boost} {E : OsEnv}.

Lemma qemu_build_frame : grows (vm_frame (V := qemu)) Builder.BuildVmArgs.
Proof.
  unfold Builder.BuildVmArgs, BuildEmulPath, BuildNameQmp, BuildVsockCmd, cfg, this, append,
    clear_cmd. named_step.
Qed.
Lemma qemu_start_frame : grows (vm_frame (V := qemu)) Builder.StartVm.
Proof. unfold Builder.StartVm, SetProcLogDir, for_co, this. named_step. Qed.
Lemma run_end_calls_frame l : grows (vm_frame (V := qemu)) (run_end_calls l).
Proof.
  induction l as [|c l IH]; cbn [run_end_calls]; [apply grows_skip, _|].
  unfold run_end_call, this. named_step. apply IH.
Qed.
Lemma qemu_stop_frame : grows (vm_frame (V := qemu)) Builder.StopVm.
Proof. unfold Builder.StopVm, clear_procs, for_co, this. named_step. apply run_end_calls_frame. Qed.
Lemma qemu_delete_frame : grows (vm_frame (V := qemu)) delete_VmBuilderQemu.
Proof.
  apply grows_noexcept, grows_bind; [apply _|apply qemu_stop_frame|].
  unfold clear_procs, for_co, this. named_step.
Qed.

Lemma qemu_exit_frame : grows (vm_frame (V := qemu)) Builder.WaitVmExit.
Proof. unfold Builder.WaitVmExit, this. named_step. Qed.

(** Stopping and waiting leave the state alone. *)
Definition same_state (s s' : BSt) : Prop := state_ s'.1 = state_ s.1.
#[local] Instance same_state_preorder : PreOrder same_state.
Proof. split; [by intros s|intros s1 s2 s3 H1 H2; unfold same_state in *; congruence]. Qed.

Lemma state_on_main {A} (c : M ProcSt A) : grows same_state (on_main c).
Proof. intros s. unfold on_main, lift. by destruct (c _) as [r [p o]]. Qed.
Lemma state_on_co {A} i (c : M ProcSt A) : grows same_state (on_co i c).
Proof. intros s. unfold on_co, lift. by destruct (c _) as [r [p o]]. Qed.
Lemma state_b_os {A} (c : M OsSt A) : grows same_state (b_os c).
Proof. intros s. unfold b_os, lift. by destruct (c _). Qed.
Lemma state_b_pool {A} (c : M VsockCidPool A) : grows same_state (b_pool c).
Proof. intros s. unfold b_pool, lift. by destruct (c _). Qed.
Lemma state_upd f : (∀ v, state_ (f v) = state_ v) → grows same_state (upd_vb f).
Proof. intros Hf s. apply Hf. Qed.

Ltac state_go := unfold for_co, this; grows_go ltac:(first
  [ apply state_on_main | apply state_on_co | apply state_b_os | apply state_b_pool
  | apply state_upd; reflexivity | apply grows_for_each; [exact _|intros ?] ]).

Lemma state_end_calls l : grows same_state (run_end_calls l).
Proof.
  induction l as [|c l IH]; cbn [run_end_calls]; [apply grows_skip, _|].
  apply grows_bind; [exact _| |intros ?; apply grows_bind; [exact _| |intros ?; exact IH]].
  - destruct c; cbn [run_end_call]; state_go.
  - by apply state_upd.
Qed.
Lemma qemu_stop_state s : state_ (Builder.StopVm s).2.1 = state_ s.1.
Proof.
  revert s. change (grows same_state Builder.StopVm). unfold Builder.StopVm, clear_procs. state_go.
  apply state_end_calls.
Qed.
Lemma qemu_exit_state s : state_ (Builder.WaitVmExit s).2.1 = state_ s.1.
Proof. revert s. change (grows same_state Builder.WaitVmExit). unfold Builder.WaitVmExit. state_go. Qed.

(** Starting, watching and waiting leave id and pool alone. *)
Notation cid_frame_qemu := (cid_frame (V := qemu)).
Lemma cid_on_main {A} (c : M ProcSt A) : grows cid_frame_qemu (on_main c).
Proof. intros s. unfold on_main, lift. by destruct (c _) as [r [p o]]. Qed.
Lemma cid_on_co {A} i (c : M ProcSt A) : grows cid_frame_qemu (on_co i c).
Proof. intros s. unfold on_co, lift. by destruct (c _) as [r [p o]]. Qed.
Lemma cid_b_os {A} (c : M OsSt A) : grows cid_frame_qemu (b_os c).
Proof. intros s. unfold b_os, lift. by destruct (c _). Qed.
Lemma cid_upd f : (∀ v, vsock_cid_ (f v) = vsock_cid_ v) → grows cid_frame_qemu (upd_vb f).
Proof. intros Hf s. split; [apply Hf|done]. Qed.

Ltac cid_go := unfold for_co, this; grows_go ltac:(first
  [ apply cid_on_main | apply cid_on_co | apply cid_b_os
  | apply cid_upd; reflexivity | apply grows_for_each; [exact _|intros ?] ]).

Lemma qemu_start_cid : grows cid_frame_qemu Builder.StartVm.
Proof. unfold Builder.StartVm, SetProcLogDir. cid_go. Qed.
Lemma qemu_exit_cid : grows cid_frame_qemu Builder.WaitVmExit.
Proof. unfold Builder.WaitVmExit. cid_go. Qed.

Lemma main_plain_same v v' :
  option_Forall2 same_proc (main_proc_ v) (main_proc_ v') → main_plain v → main_plain v'.
Proof. unfold main_plain. destruct 1 as [p p' [Hk _]|]; [by rewrite Hk|done]. Qed.

Lemma qemu_start_booting s :
  startable s.1 ∧ main_plain s.1 →
  match Builder.StartVm s with
  | (Ret _, s') => Builder.GetState s'.1 = kVmBooting ∧ startable s'.1 ∧ main_plain s'.1
  | (Throw _, _) => True
  | (Blocked, _) => False
  end.
Proof.
  intros [Hs Hm]. pose proof (StartVm_runs s Hs s eq_refl) as H.
  destruct (Builder.StartVm s) as [[u|e|] s']; [|done|done].
  destruct H as (Hst & s1 & [Hl Hs1] & ->). split_and!; [done|exact Hs1|].
  exact (main_plain_same _ _ (lf_main _ _ Hl) Hm).
Qed.

Lemma same_Join : grows (λ s s' : ProcSt, same_proc s.1 s'.1) Join.
Proof.
  intros [p o]. unfold Join, self. sx_unfold. cbn. destruct (mon_ p), (c_ p); try done.
  unfold proc_os, lift. by case_match.
Qed.
Lemma qemu_exit_built s :
  startable s.1 ∧ main_plain s.1 → startable (Builder.WaitVmExit s).2.1 ∧ main_plain (Builder.WaitVmExit s).2.1.
Proof.
  intros [Hs Hm]. destruct (startable_main _ Hs) as [p Hp].
  assert (life s (Builder.WaitVmExit s).2) as Hl.
  { unfold Builder.WaitVmExit, this. sx_unfold. rewrite Hp. apply life_on_main; [apply same_Join|eauto]. }
  split; [by eapply startable_life|]. exact (main_plain_same _ _ (lf_main _ _ Hl) Hm).
Qed.

Lemma qemu_delete_back s : main_plain s.1 → (delete_VmBuilderQemu s).1 ≠ Blocked.
Proof.
  intros Hm. unfold delete_VmBuilderQemu, noexcept.
  pose proof (StopVm_runs s Hm s eq_refl) as Hst. unfold mbind at 1, M_bind at 1.
  destruct (Builder.StopVm s) as [[u|e|] s1]; [|done|done].
  destruct Hst as [(Hco & _) _]. unfold clear_procs, for_co, this. sx_unfold. rewrite Hco. cbn.
  unfold on_main, lift. cbn. destruct (main_proc_ s1.1) as [p|]; [|done]. cbn.
  match goal with |- context [Proc_Delete (?p, ?o)] =>
    pose proof (stops_Proc_Delete p o); by destruct (Proc_Delete (p, o)) as [[] []] end.
Qed.

Lemma qemu_laws (HB : BoostLaws B) : VmBuilderLaws qemu.
Proof.
  split.
  - done.
  - apply qemu_build_frame.
  - apply qemu_start_frame.
  - apply qemu_stop_frame.
  - apply qemu_delete_frame.
  - by intros s.
  - apply qemu_exit_frame.
  - apply named_on_main.
  - intros env s. by apply named_vb.
  - intros env s. eexists. split_and!; [done..|]. intros [[Hp Hs] Hm]. cbn in s.
    destruct s as [[] g]. unfold main_plain in Hm. cbn in *. case_match; [|done].
    split; [split; [exact Hp|exact Hs]|exact Hm].
  - intros s. eexists. split_and!; try done.
  - intros s. apply qemu_stop_state.
  - intros s. apply qemu_exit_state.
  - intros s. apply state_on_main.
  - apply qemu_start_cid.
  - apply qemu_exit_cid.
  - apply cid_on_main.
  - apply qemu_start_booting.
  - intros s Hs. destruct (on_main_Running s (startable_main _ (proj1 Hs))) as (b & o & Hr).
    by eexists b, _.
  - apply qemu_exit_built.
  - intros s [_ Hm]. by apply qemu_delete_back.
  - intros s s' [_ Hm] Hd. by apply delete_pool.
  - intros n c g Hw. pose proof (build_startable HB n c g) as Hst. pose proof (build_cases (new_VmBuilderQemu n c, g) Hw) as H. simpl.
    destruct (Builder.BuildVmArgs _) as [[[]| |] [v g']]; try done.
    destruct (Hst [] _ Hw eq_refl) as [_ [Hpo Hmo]]. cbn in Hpo, Hmo.
    destruct H as ([v1 g1] & [Hs (Hu & Hb & _ & Hp)] & Hg & Hv). simpl in *. by subst.
  - intros n c g Hw. exact (build_deleted n c g Hw).
Qed.
End qemu_laws.

(** ** The registry *)

Section registry.
Context {B : Boost} {E : OsEnv} {V : VmBuilder} (L : VmBuilderLaws V).

Definition names (s : Srv) : list string := (λ pv : nat * vb, GetName pv.2) <$> vmis_ s.
Definition pointers (s : Srv) : list nat := (vmis_ s).*1.

(** No two guests share a name, no two share an address and every address was
    handed out before; the pool is well formed. *)
Record server_inv (s : Srv) : Prop := {
  si_names : NoDup (names s);
  si_pointers : NoDup (pointers s);
  si_next : Forall (λ p, p < next_vb s)%nat (pointers s);
  si_pool : pool_wf (g_pool (glob s));
}.

Lemma find_vm_None name l :
  find_vm name l = None ↔ name ∉ (λ pv : nat * vb, GetName pv.2) <$> l.
Proof.
  induction l as [|[p v] l IH]; [split; [intros _; apply not_elem_of_nil|done]|].
  rewrite fmap_cons, not_elem_of_cons. cbn [find_vm snd].
  case_bool_decide; [naive_solver|]. rewrite fmap_None, IH. naive_solver.
Qed.

Lemma find_vm_Some name l i :
  find_vm name l = Some i → ∃ p v, l !! i = Some (p, v) ∧ GetName v = name.
Proof.
  revert i. induction l as [|[p v] l IH]; intros i; cbn [find_vm]; [done|].
  case_bool_decide; [intros [= <-]; eauto|]. intros (j & Hj & ->)%fmap_Some_1. by apply IH.
Qed.

(** The same guests at the same addresses, under the same names. *)
Definition same_guests (s s' : Srv) : Prop :=
  names s' = names s ∧ pointers s' = pointers s ∧ next_vb s' = next_vb s
  ∧ (pool_wf (g_pool (glob s)) → pool_wf (g_pool (glob s'))).

#[export] Instance same_guests_preorder : PreOrder same_guests.
Proof.
  split; [by intros s|]. intros s1 s2 s3 (H1 & H2 & H3 & H4) (H1' & H2' & H3' & H4').
  split_and!; [congruence..|auto].
Qed.

Lemma same_guests_inv s s' : same_guests s s' → server_inv s → server_inv s'.
Proof. intros (Hn & Hp & Hx & Hw) []. split; rewrite ?Hn, ?Hp, ?Hx; auto. Qed.

Lemma same_guests_find s s' name :
  same_guests s s' → find_vm name (vmis_ s) = None → find_vm name (vmis_ s') = None.
Proof. intros (Hn & _). rewrite !find_vm_None. unfold names in Hn. by rewrite Hn. Qed.

Lemma guests_os {A} (c : M OsSt A) : grows same_guests (srv_os c).
Proof. intros s. unfold srv_os, lift. by destruct (c _). Qed.
Lemma guests_shm_open payload : grows same_guests (shm_open payload).
Proof. intros s. unfold shm_open. sx_unfold. by destruct (shms s !! payload). Qed.
Lemma guests_shm_put payload shm : grows same_guests (shm_put payload shm).
Proof. by intros s. Qed.
Lemma guests_find_first shm name : grows same_guests (find_first shm name).
Proof. intros s. unfold find_first. by destruct (bstrings shm !! name) as [[]|]. Qed.
Lemma guests_read_cfg p : grows same_guests (read_cfg p).
Proof. intros s. unfold read_cfg. by destruct (ReadConfigFile _ _) as [[] []]. Qed.
Lemma guests_get_vm {A} i (f : vb → A) : grows same_guests (get_vm i f).
Proof. intros s. unfold get_vm. by destruct (vmis_ s !! i) as [[]|]. Qed.
Lemma guests_destroy v : grows same_guests (destroy v).
Proof.
  intros s. unfold destroy.
  pose proof (grows_noexcept _ _ delete_frame (v, glob s)) as [_ Hp].
  by destruct (noexcept _ _) as [? []].
Qed.

Lemma fmap_insert_same {A C} (f : A → C) (l : list A) i x y :
  l !! i = Some x → f y = f x → f <$> <[i := y]> l = f <$> l.
Proof.
  intros Hi Hf. rewrite list_fmap_insert, Hf. apply list_insert_id.
  by rewrite list_lookup_fmap, Hi.
Qed.

Lemma guests_on_vm {A} i (c : M (vb * Glob) A) : grows vm_frame c → grows same_guests (on_vm i c).
Proof.
  intros Hc s. unfold on_vm. destruct (vmis_ s !! i) as [[p v]|] eqn:Hi; [|reflexivity].
  specialize (Hc (v, glob s)). destruct (c _) as [r [v' g]]. destruct Hc as [Hn Hw].
  split_and!; [|by apply (fmap_insert_same _ _ _ (p, v))|done|done].
  by apply (fmap_insert_same _ _ _ (p, v)).
Qed.
Lemma guests_via {A} p (c : M (vb * Glob) A) : grows vm_frame c → grows same_guests (via p c).
Proof.
  intros Hc s. unfold via. destruct (index_of p (vmis_ s)); [by apply guests_on_vm|reflexivity].
Qed.

(** A computation that keeps the guests keeps the invariant. *)
Lemma hoare_guests {A} (c : M Srv A) name :
  grows same_guests c →
  hoare (λ s, server_inv s ∧ find_vm name (vmis_ s) = None) c
    (λ _ s, server_inv s ∧ find_vm name (vmis_ s) = None) server_inv.
Proof.
  intros Hc s [Hi Hf]. specialize (Hc s). destruct (c s) as [[]?]; simpl in *;
    eauto using same_guests_inv, same_guests_find.
Qed.
Lemma hoare_inv {A} (c : M Srv A) :
  grows same_guests c → hoare server_inv c (λ _, server_inv) server_inv.
Proof.
  intros Hc s Hi. specialize (Hc s). destruct (c s) as [[]?]; simpl in *;
    eauto using same_guests_inv.
Qed.

Lemma server_inv_delete s i :
  server_inv s → server_inv (set_vmis (delete i (vmis_ s)) s).
Proof.
  assert (∀ {C} (f : nat * vb → C), f <$> delete i (vmis_ s) `sublist_of` f <$> vmis_ s) as Hsub.
  { intros. apply fmap_sublist, sublist_delete. }
  intros []. split; simpl; [| | |done].
  - by eapply sublist_NoDup; [|apply Hsub].
  - by eapply sublist_NoDup; [|apply Hsub].
  - apply Forall_forall. intros p Hp. rewrite Forall_forall in si_next0.
    by eapply si_next0, sublist_subseteq; [apply Hsub|].
Qed.

Lemma hoare_DeleteVmInstance name :
  hoare server_inv (DeleteVmInstance name)
    (λ _ s, server_inv s ∧ find_vm name (vmis_ s) = None) server_inv.
Proof using L.
  unfold DeleteVmInstance, FindVmInstance. apply hoare_gets. intros [i|]; cycle 1.
  { by apply hoare_ret_imp. }
  apply hoare_gets. intros old.
  eapply hoare_bind with (Q' := λ _ s, server_inv s ∧ find_vm name (vmis_ s) = None).
  - intros s [[Hi Hf] _]. simpl. split; [by apply server_inv_delete|].
    apply find_vm_Some in Hf as (p & v & Hv & Hn). apply find_vm_None. simpl.
    pose proof (si_names _ Hi) as Hnd. unfold names in Hnd.
    rewrite delete_take_drop, fmap_app. rewrite <-(take_drop_middle _ _ _ Hv), fmap_app, fmap_cons in Hnd.
    simpl in Hnd. rewrite Hn in Hnd. apply NoDup_app in Hnd as (_ & H1 & H2).
    apply NoDup_cons in H2 as [H2 _]. rewrite elem_of_app. intros [Hin|Hin]; [|done].
    apply (H1 _ Hin). left.
  - intros ?. destruct old as [[p v]|]; [apply hoare_guests, guests_destroy|by apply hoare_ret_imp].
Qed.

Lemma hoare_make_vm name c :
  hoare (λ s, server_inv s ∧ find_vm name (vmis_ s) = None) (make_vm name c)
    (λ _, server_inv) server_inv.
Proof using L.
  intros s [Hi Hf]. unfold make_vm.
  pose proof (build_frame (vb_new name c, glob s)) as Hb.
  destruct (BuildVmArgs _) as [r [v g]]. destruct Hb as [Hn Hw]. simpl in Hn, Hw.
  rewrite new_name in Hn.
  assert (server_inv (set_glob g s)) as Hg by (destruct Hi; split; auto).
  destruct r as [[]|e|]; simpl; [|..|done].
  - apply find_vm_None in Hf. destruct Hi. split; simpl; [| | |auto].
    + unfold names in *; simpl. rewrite fmap_app. apply NoDup_app. split_and!; [done| |apply NoDup_singleton].
      intros x Hx ->%list_elem_of_singleton. simpl in Hx. by rewrite Hn in Hx.
    + unfold pointers in *; simpl. rewrite fmap_app. apply NoDup_app. split_and!; [done| |apply NoDup_singleton].
      intros x Hx ->%list_elem_of_singleton. rewrite Forall_forall in si_next0.
      specialize (si_next0 _ Hx). simpl in si_next0. lia.
    + unfold pointers in *; simpl. rewrite fmap_app. apply Forall_app.
      split; [eapply Forall_impl; [done|simpl; lia]|repeat constructor].
  - revert Hg. generalize (set_glob g s). apply hoare_inv, grows_bind; [apply _|apply guests_destroy|].
    intros ?. apply grows_ret, _.
  - revert Hg. generalize (set_glob g s). apply hoare_inv, grows_bind; [apply _|apply guests_destroy|].
    intros ?. apply grows_throw, _.
Qed.
End registry.

#[export] Hint Resolve guests_os guests_shm_open guests_shm_put guests_find_first guests_read_cfg
  guests_get_vm : civ.

(** A request handler keeps the guests when its leaves do. *)
Ltac guests_step :=
  repeat first
    [ progress intros
    | solve [auto 2 with civ nocore]
    | apply guests_on_vm | apply guests_via
    | apply stop_frame | apply env_frame | apply ready_frame
    | apply grows_bind; [apply _| |]
    | apply grows_ret; apply _
    | apply grows_throw; apply _
    | apply grows_skip; apply _
    | apply grows_gets; apply _
    | case_match ].
(** Step over a leaf that keeps the invariant, or leave a request early. *)
Ltac inv_step :=
  lazymatch goal with
  | |- hoare server_inv (if _ then mret _ else _) _ _ =>
      apply hoare_if; intros ?; [by apply hoare_ret_imp|]
  | |- hoare server_inv (_ ≫= _) _ _ =>
      apply (hoare_bind _ _ _ (λ _, server_inv)); [apply hoare_inv; by auto 2 with civ nocore|intros ?]
  end.

Section requests.
Context {B : Boost} {E : OsEnv} {V : VmBuilder} (L : VmBuilderLaws V).

Lemma guests_ListVm payload : grows same_guests (ListVm payload).
Proof. unfold ListVm. guests_step. Qed.
Lemma guests_GetVmInfo payload : grows same_guests (GetVmInfo payload).
Proof. unfold GetVmInfo, FindVmInstance. guests_step. Qed.
Lemma guests_StopVm payload : grows same_guests (Server_StopVm payload).
Proof. unfold Server_StopVm, FindVmInstance. guests_step. Qed.

Lemma hoare_ImportVm payload : hoare server_inv (ImportVm payload) (λ _, server_inv) server_inv.
Proof.
  unfold ImportVm, FindVmInstance. do 4 inv_step. destruct a1 as [ok c]. do 2 inv_step.
  apply hoare_gets. intros id.
  eapply hoare_bind with
    (Q' := λ go s, server_inv s ∧ (go = true → find_vm (cfg_name c) (vmis_ s) = None)).
  - destruct id as [id|]; [|apply hoare_ret_imp; naive_solver].
    eapply hoare_pre; [by intros s [Hi _]; exact Hi|]. inv_step.
    apply hoare_if; intros _; [by apply hoare_ret_imp|].
    eapply hoare_bind; [by apply hoare_DeleteVmInstance|]. intros ?. apply hoare_ret_imp. naive_solver.
  - intros go. apply hoare_if; intros Hgo; [apply hoare_ret_imp; naive_solver|].
    eapply hoare_bind; [eapply hoare_pre; [|by apply hoare_make_vm]|].
    + intros s [Hi Hf]. split; [done|]. apply Hf. by destruct go.
    + intros [p|]; by apply hoare_ret_imp.
Qed.

Lemma hoare_prepare payload :
  hoare server_inv (StartVm_prepare payload) (λ _, server_inv) server_inv.
Proof.
  unfold StartVm_prepare, FindVmInstance. do 4 inv_step. destruct a1 as [ok c]. do 2 inv_step.
  apply hoare_gets. intros [id|]; [apply hoare_ret_imp; naive_solver|].
  eapply hoare_bind; [by apply hoare_make_vm|].
  intros [p|]; [|by apply hoare_ret_imp]. apply hoare_inv. guests_step.
Qed.

(** What other threads may do while a request waits. *)
Definition polite (meanwhile : nat → Z → Srv → Srv) : Prop :=
  ∀ p n s, server_inv s → server_inv (meanwhile p n s).

Lemma hoare_StartVm meanwhile payload :
  polite meanwhile → hoare server_inv (Server_StartVm meanwhile payload) (λ _, server_inv) server_inv.
Proof.
  intros Hm. unfold Server_StartVm. eapply hoare_bind; [apply hoare_prepare|].
  intros [[p n]|]; [|by apply hoare_ret_imp].
  eapply hoare_bind with (Q' := λ _, server_inv); [intros s Hs; by apply Hm|].
  intros ?. unfold StartVm_finish. apply hoare_inv. guests_step.
Qed.

Lemma hoare_dispatch meanwhile type payload :
  polite meanwhile → hoare server_inv (dispatch meanwhile type payload) (λ _, server_inv) server_inv.
Proof.
  intros Hm. destruct type; cbn [dispatch];
    first [by apply hoare_ret_imp
          |apply (hoare_bind _ _ _ (λ _, server_inv)); [|intros ?; by apply hoare_ret_imp]];
    auto using hoare_ImportVm, hoare_StartVm, hoare_inv, guests_ListVm, guests_GetVmInfo, guests_StopVm.
  intros s []. by split.
Qed.

(** C3: however the server's loop goes on a sequence of requests, answered,
    left early by an exception or never finished, no two registered guests
    have the same name or address afterwards, and the pool is well formed. *)
Theorem server_invariant meanwhile l s :
  polite meanwhile → server_inv s → server_inv (serve meanwhile l s).2.
Proof.
  intros Hm Hs.
  enough (hoare server_inv (serve meanwhile l) (λ _, server_inv) server_inv) as Hsv.
  { specialize (Hsv s Hs). by destruct (serve meanwhile l s) as [[]?]. }
  clear s Hs. induction l as [|[type payload] l IH]; cbn [serve]; [by apply hoare_ret_imp|].
  apply hoare_gets. intros [|]; [apply hoare_ret_imp; naive_solver|].
  eapply hoare_pre; [by intros s [Hi _]; exact Hi|].
  eapply hoare_bind; [by apply hoare_dispatch|]. intros ?.
  eapply hoare_bind; [exact IH|]. intros ?. by apply hoare_ret_imp.
Qed.
End requests.

(** *** Requests in detail *)

Section details.
Context {B : Boost} {E : OsEnv} {V : VmBuilder} (L : VmBuilderLaws V).

(** Registry, pool and listener are as they were. *)
Definition idle (s s' : Srv) : Prop :=
  vmis_ s' = vmis_ s ∧ next_vb s' = next_vb s ∧ g_pool (glob s') = g_pool (glob s)
  ∧ listener s' = listener s.

#[export] Instance idle_preorder : PreOrder idle.
Proof.
  split; [by intros s|]. intros s1 s2 s3 (? & ? & ? & ?) (? & ? & ? & ?). split_and!; congruence.
Qed.

Lemma idle_shm_open payload : grows idle (shm_open payload).
Proof. intros s. unfold shm_open. sx_unfold. by destruct (shms s !! payload). Qed.
Lemma idle_shm_put payload shm : grows idle (shm_put payload shm).
Proof. by intros s. Qed.
Lemma idle_find_first shm name : grows idle (find_first shm name).
Proof. intros s. unfold find_first. by destruct (bstrings shm !! name) as [[]|]. Qed.
Lemma idle_read_cfg p : grows idle (read_cfg p).
Proof. intros s. unfold read_cfg. by destruct (ReadConfigFile _ _) as [[] []]. Qed.
Lemma idle_get_vm {A} i (f : vb → A) : grows idle (get_vm i f).
Proof. intros s. unfold get_vm. by destruct (vmis_ s !! i) as [[]|]. Qed.

(** What a new guest adds to the server. *)
Definition joined (s s' : Srv) (p : nat) : Prop :=
  p = next_vb s ∧ next_vb s' = S (next_vb s) ∧ listener s' = listener s
  ∧ ∃ v, vmis_ s' = vmis_ s ++ [(p, v)] ∧ GetName v ∉ names s
    ∧ vb_built v ∧ GetState v = kVmCreated ∧ Alloc.usable (GetCid v) ∧ bit (g_pool (glob s)) (GetCid v) = true
    ∧ g_pool (glob s') = reset_bit (GetCid v) (g_pool (glob s)).

Lemma make_vm_cases name c s :
  server_inv s → find_vm name (vmis_ s) = None →
  match make_vm name c s with
  | (Ret (Some p), s') => joined s s' p
  | (Ret None, s') => idle s s'
  | (_, s') => vmis_ s' = vmis_ s
  end.
Proof using L.
  intros Hi Hf. unfold make_vm, destroy. pose proof (si_pool _ Hi) as Hw.
  pose proof (build_holds name c (glob s) Hw) as Hh. pose proof (build_undone name c (glob s) Hw) as Hu.
  pose proof (build_frame (vb_new name c, glob s)) as [Hn _]. cbn [fst] in Hn.
  rewrite new_name in Hn. destruct (BuildVmArgs _) as [[[]|e|] [v g]]; simpl in *; sx_unfold; simpl; [|..|done].
  - split_and!; [done..|]. exists v. apply find_vm_None in Hf. split_and!; try apply Hh; [done|].
    by rewrite Hn.
  - unfold noexcept. by destruct (Delete (v, g)) as [[] [? ?]].
  - unfold noexcept. by destruct (Delete (v, g)) as [[] [? ?]].
Qed.

Lemma index_of_last s p v :
  server_inv s → p = next_vb s → index_of p (vmis_ s ++ [(p, v)]) = Some (length (vmis_ s)).
Proof.
  intros Hi ->. unfold index_of. rewrite list_find_app_r; simpl.
  - rewrite decide_True by done. simpl. by f_equal.
  - apply list_find_None. pose proof (si_next _ Hi) as Hx. unfold pointers in Hx.
    rewrite Forall_fmap in Hx. eapply Forall_impl; [exact Hx|]. simpl. lia.
Qed.

Lemma via_env s s' p env :
  server_inv s → joined s s' p →
  ∃ s'', via p (SetProcessEnv env) s' = (Ret tt, s'') ∧ joined s s'' p.
Proof using L.
  intros Hi (Hp & Hx & Hl & v & Hv & Hn & Hbu & Hst & Hu & Hb & Hg). unfold via. rewrite Hv, index_of_last by done.
  unfold on_vm. rewrite Hv, list_lookup_middle by done.
  destruct (env_kept env (v, glob s')) as (v' & He & Hc & Hs & Hbk).
  pose proof (env_frame env (v, glob s')) as [Hnm _]. rewrite He in *. simpl in *.
  eexists. split; [done|]. split_and!; [done..|]. exists v'. simpl.
  rewrite Hc, Hs, Hnm. split_and!; try done; [|by apply Hbk].
  by rewrite insert_app_r_alt, Nat.sub_diag by done.
Qed.

Lemma idle_inv s s' : idle s s' → server_inv s → server_inv s'.
Proof.
  intros (Hv & Hn & Hp & _) []. split; unfold names, pointers; rewrite ?Hv, ?Hn, ?Hp; done.
Qed.

(** Requests up to the point where a guest is made. *)
Lemma hoare_idle {A} s0 (X : Srv → Prop) (c : M Srv A) :
  (∀ s, idle s0 s → X s) → grows idle c → hoare (idle s0) c (λ _, idle s0) X.
Proof.
  intros HX Hc s Hs. specialize (Hc s). destruct (c s) as [[]?]; simpl in *;
    try apply HX; by etrans.
Qed.
End details.

#[export] Hint Resolve idle_shm_open idle_shm_put idle_find_first idle_read_cfg idle_get_vm : civ.
Ltac idle_step s0 :=
  lazymatch goal with
  | |- hoare (idle s0) (if _ then mret _ else _) _ _ =>
      apply hoare_if; intros ?; [apply hoare_ret_imp; by auto|]
  | |- hoare (idle s0) (_ ≫= _) _ _ =>
      apply (hoare_bind _ _ _ (λ _, idle s0));
        [apply hoare_idle; [by auto|by auto 2 with civ nocore]|intros ?]
  end.

Section outcomes.
Context {B : Boost} {E : OsEnv} {V : VmBuilder} (L : VmBuilderLaws V).

Definition start_post (s : Srv) (r : option (nat * Z)) (s' : Srv) : Prop :=
  match r with
  | None => idle s s'
  | Some (p, n) => joined s s' p ∧ (n = 1 ∨ n = 2)
  end.
Definition start_left (s s' : Srv) : Prop := vmis_ s' = vmis_ s.

Lemma idle_left s s' : idle s s' → start_left s s'.
Proof. by intros [? _]. Qed.

Lemma joined_idle s0 s s' p : idle s0 s → joined s s' p → joined s0 s' p.
Proof.
  intros (Hv & Hn & Hp & Hl) (-> & Hx & Hy & v & ? & ? & ? & ? & ? & ? & ?).
  split_and!; [congruence..|]. unfold names in *. rewrite Hv in *. rewrite Hp in *. by exists v.
Qed.

Lemma make_vm_post s0 c payload_env n :
  server_inv s0 → (n = 1 ∨ n = 2) →
  hoare (λ s, idle s0 s ∧ find_vm (cfg_name c) (vmis_ s) = None)
    (vmi ← make_vm (cfg_name c) c;
     match vmi with
     | None => mret None
     | Some p => via p (SetProcessEnv payload_env) ;; mret (Some (p, n))
     end) (start_post s0) (start_left s0).
Proof using L.
  intros Hi Hn s [Hs Hf]. pose proof (idle_inv _ _ Hs Hi) as Hi'.
  pose proof (make_vm_cases L (cfg_name c) c s Hi' Hf) as Hm.
  pose proof (idle_left _ _ Hs) as Hl. unfold start_left in *.
  unfold mbind at 1, M_bind at 1.
  destruct (make_vm _ _ s) as [[[p|]|e|] s1]; simpl in *.
  - destruct (via_env L s s1 p payload_env Hi' Hm) as (s2 & Hr & Hj).
    bstep Hr. split; [|done]. by eapply joined_idle.
  - by etrans.
  - by rewrite Hm.
  - by rewrite Hm.
Qed.

Lemma StartVm_prepare_post s payload :
  server_inv s → hoare (idle s) (StartVm_prepare payload) (start_post s) (start_left s).
Proof using L.
  intros Hi. pose proof (idle_left s) as Hl. unfold StartVm_prepare, FindVmInstance.
  do 4 idle_step s. destruct a1 as [ok c]. do 2 idle_step s.
  apply hoare_gets. intros [id|]; [apply hoare_ret_imp; by intros ? [? _]|].
  apply make_vm_post; [done|]. destruct (bool_decide _); auto.
Qed.

(** C12: a start request either registers one new guest, under a name no
    registered guest has, at a new address, created, and with exactly one
    context id taken, one that was free; or it answers that it failed and
    leaves registry, pool and listener as they were; if it leaves by an
    exception or does not finish, the registry is as it was. *)
Theorem start_outcome payload s :
  server_inv s →
  match StartVm_prepare payload s with
  | (Ret (Some (p, n)), s') => joined s s' p ∧ (n = 1 ∨ n = 2)
  | (Ret None, s') => idle s s'
  | (_, s') => vmis_ s' = vmis_ s
  end.
Proof using L.
  intros Hi. pose proof (StartVm_prepare_post s payload Hi s (ltac:(reflexivity))) as Hp.
  by destruct (StartVm_prepare payload s) as [[[[p n]|]|e|] s'].
Qed.
End outcomes.

(** *** Importing *)

Section import.
Context {B : Boost} {E : OsEnv} {V : VmBuilder}.

Definition registered (pv : nat * vb) (s : Srv) : Prop := pv ∈ vmis_ s.

(** The guest a name denotes, and its state. *)
Definition denotes (name : string) (st : VmState) (s : Srv) : Prop :=
  ∃ i p v, find_vm name (vmis_ s) = Some i ∧ vmis_ s !! i = Some (p, v) ∧ GetState v = st.

Lemma hoare_registered {A} pv (c : M Srv A) :
  (∀ s, vmis_ (c s).2 = vmis_ s ∨ ∃ l, vmis_ (c s).2 = vmis_ s ++ l) →
  hoare (registered pv) c (λ _, registered pv) (registered pv).
Proof.
  intros Hc s Hs. unfold registered in *. specialize (Hc s).
  destruct (c s) as [[]?]; simpl in *; destruct Hc as [-> |[l ->]];
    rewrite ?elem_of_app; auto.
Qed.

Lemma registered_idle {A} pv (c : M Srv A) :
  grows idle c → hoare (registered pv) c (λ _, registered pv) (registered pv).
Proof. intros Hc. apply hoare_registered. intros s. left. apply Hc. Qed.

Lemma destroy_vmis v s : vmis_ (destroy v s).2 = vmis_ s.
Proof. unfold destroy. by destruct (noexcept _ _) as [? []]. Qed.

Lemma registered_make pv name c :
  hoare (registered pv) (make_vm name c) (λ _, registered pv) (registered pv).
Proof.
  apply hoare_registered. intros s. unfold make_vm.
  destruct (BuildVmArgs _) as [[[]|e|] [v g]]; simpl; [right; by eexists|left|left|by left];
    sx_unfold; pose proof (destroy_vmis v (set_glob g s)); by destruct (destroy _ _) as [[]?].
Qed.

Lemma registered_delete pv name st :
  GetState pv.2 ≠ st →
  hoare (λ s, registered pv s ∧ denotes name st s) (DeleteVmInstance name)
    (λ _, registered pv) (registered pv).
Proof.
  intros Hst s [Hr (i & p & v & Hf & Hi & Hv)]. unfold DeleteVmInstance, FindVmInstance.
  sx_unfold. rewrite Hf, Hi.
  pose proof (destroy_vmis v (set_vmis (delete i (vmis_ s)) s)) as Hd.
  assert (registered pv (set_vmis (delete i (vmis_ s)) s)) as Hr'.
  { unfold registered in *. simpl. apply list_elem_of_lookup in Hr as [j Hj].
    assert (i ≠ j) by (intros <-; rewrite Hj in Hi; by simplify_eq/=).
    rewrite delete_take_drop. rewrite <-(take_drop_middle _ _ _ Hi) in Hj.
    apply list_elem_of_lookup_2 in Hj. apply elem_of_app in Hj as [Hj|Hj]; [set_solver|].
    apply elem_of_cons in Hj as [->|Hj]; [done|set_solver]. }
  destruct (destroy _ _) as [[]?]; unfold registered in *; simpl in *; by rewrite Hd.
Qed.

(** How an import goes on, for what the steps it is made of preserve. *)
Lemma hoare_ImportVm_steps (I X : Srv → Prop) payload :
  (∀ A (c : M Srv A), grows idle c → hoare I c (λ _, I) X) →
  (∀ name c, hoare (λ s, I s ∧ find_vm name (vmis_ s) = None) (make_vm name c) (λ _, I) X) →
  (∀ name st, st = kVmCreated ∨ st = kVmEmpty →
     hoare (λ s, I s ∧ denotes name st s) (DeleteVmInstance name)
       (λ _ s, I s ∧ find_vm name (vmis_ s) = None) X) →
  hoare I (ImportVm payload) (λ _, I) X.
Proof.
  intros Hidle Hmake Hdel. unfold ImportVm, FindVmInstance.
  eapply hoare_bind; [by apply Hidle, idle_shm_open|intros shm].
  eapply hoare_bind; [by apply Hidle, idle_find_first|intros path].
  apply hoare_if; intros _; [by apply hoare_ret_imp|].
  eapply hoare_bind; [by apply Hidle, idle_read_cfg|intros [ok c]].
  do 2 (apply hoare_if; intros _; [by apply hoare_ret_imp|]).
  apply hoare_gets. intros id.
  apply (hoare_bind _ _ _ (λ go s, I s ∧ (go = true → find_vm (cfg_name c) (vmis_ s) = None))).
  - destruct id as [id|]; [|apply hoare_ret_imp; naive_solver].
    apply (hoare_bind _ _ _ (λ st s, I s ∧ denotes (cfg_name c) st s)).
    { intros s [Hs Hf]. unfold get_vm. destruct (find_vm_Some _ _ _ Hf) as (p & v & Hi & _).
      rewrite Hi. split; [done|]. by exists id, p, v. }
    intros st. apply hoare_if; intros Hst; [apply hoare_ret_imp; naive_solver|].
    eapply hoare_bind; [apply (Hdel _ st)|intros ?; apply hoare_ret_imp; naive_solver].
    apply andb_false_iff in Hst as [Hst|Hst]; apply negb_false_iff, bool_decide_eq_true in Hst; auto.
  - intros go. apply hoare_if; intros Hgo; [apply hoare_ret_imp; naive_solver|].
    apply (hoare_bind _ _ _ (λ _, I)); [|intros [p|]; by apply hoare_ret_imp].
    eapply hoare_pre; [|apply Hmake]. intros s [Hs Hf]. split; [done|]. apply Hf. by destruct go.
Qed.

(** C31: importing a guest never removes or changes a registered guest that
    is booting, running or paused, whatever way the request ends. *)
Theorem import_keeps_running payload p v s :
  (p, v) ∈ vmis_ s → GetState v ≠ kVmCreated → GetState v ≠ kVmEmpty →
  (p, v) ∈ vmis_ (ImportVm payload s).2.
Proof.
  intros Hr Hc He.
  enough (hoare (registered (p, v)) (ImportVm payload) (λ _, registered (p, v)) (registered (p, v)))
    as Hh. { specialize (Hh s Hr). by destruct (ImportVm payload s) as [[]?]. }
  clear s Hr. unfold ImportVm, FindVmInstance.
  apply (hoare_bind _ _ _ (λ _, registered (p, v))); [apply registered_idle, idle_shm_open|intros shm].
  apply (hoare_bind _ _ _ (λ _, registered (p, v))); [apply registered_idle, idle_find_first|intros path].
  apply hoare_if; intros _; [by apply hoare_ret_imp|].
  apply (hoare_bind _ _ _ (λ _, registered (p, v))); [apply registered_idle, idle_read_cfg|intros [ok c]].
  do 2 (apply hoare_if; intros _; [by apply hoare_ret_imp|]).
  apply hoare_gets. intros id. apply (hoare_bind _ _ _ (λ _, registered (p, v))).
  - destruct id as [id|]; [|apply hoare_ret_imp; by intros ? [? _]].
    apply (hoare_bind _ _ _ (λ st s, registered (p, v) s ∧ denotes (cfg_name c) st s)).
    { intros s [Hs Hf]. unfold get_vm. destruct (find_vm_Some _ _ _ Hf) as (p' & v' & Hi & _).
      rewrite Hi. split; [done|]. by exists id, p', v'. }
    intros st. apply hoare_if; intros Hst; [apply hoare_ret_imp; by intros ? [? _]|].
    apply (hoare_bind _ _ _ (λ _, registered (p, v))); [|intros ?; by apply hoare_ret_imp].
    apply registered_delete. simpl. intros Heq. subst st. by rewrite !bool_decide_eq_false_2 in Hst.
  - intros go. apply hoare_if; intros _; [by apply hoare_ret_imp|].
    apply (hoare_bind _ _ _ (λ _, registered (p, v))); [apply registered_make|].
    intros [?|]; by apply hoare_ret_imp.
Qed.

(** Asking for a guest's data: for a registered name the answer is 0 and
    the client's memory has the context id and the state of the guest of that
    name; for any other name the answer is -1 and nothing changes. *)
Theorem get_vm_info payload name shm s :
  shms s !! payload = Some shm → bstrings shm !! "VmName" = Some [name] →
  match find_vm name (vmis_ s) with
  | None => GetVmInfo payload s = (Ret (-1), s)
  | Some i => ∃ p v, vmis_ s !! i = Some (p, v) ∧ GetName v = name
      ∧ GetVmInfo payload s = (Ret 0, set_shms (<[payload :=
          mkShm (bstrings shm) (Some (mkInfo (GetCid v) (GetState v)))]> (shms s)) s)
  end.
Proof.
  intros Hs Hn. unfold GetVmInfo, shm_open, find_first, FindVmInstance, get_vm, shm_put.
  sx_unfold. rewrite Hs, Hn. destruct (find_vm name (vmis_ s)) as [i|] eqn:Hf; [|done].
  destruct (find_vm_Some _ _ _ Hf) as (p & v & Hi & Hv). exists p, v. by rewrite Hi.
Qed.
End import.

(** ** Witnesses *)

Module SrvDemo.
#[local] Existing Instance RefBoost.ref_boost.
#[local] Existing Instance SimOs.sim_os.

Definition ini : string :=
  foldr (λ l r, l +:+ String newline r) EmptyString
    ["[global]"; "name=civ-1"; "[emulator]"; "path=/usr/bin/qemu"; "[firmware]"; "type=unified";
     "path=OVMF.fd"; "[disk]"; "path=android.img"].

Definition client (l : list (string * list string)) : Shm := mkShm (list_to_map l) None.

Definition server (vms : list (nat * VmBuilderQemu)) (next : nat) : Srv :=
  mkSrv false vms next new_listener
    (list_to_map [("start", client [("StartVmCfgPath", ["/civ.ini"])]);
                  ("import", client [("ImportVmCfgPath", ["/civ.ini"])]);
                  ("info", client [("VmName", ["civ-1"])])])
    (mkGlob _ new_pool EmptyString (Some "/home/u/.intel/.civ")
       (SimOs.boot [("/usr/bin/qemu", EmptyString); ("/civ.ini", ini)] [] [])).

Definition running : VmBuilderQemu :=
  set_state kVmRunning (new_VmBuilderQemu "civ-1" empty_config).

Lemma server_empty_inv : server_inv (server [] 0).
Proof. split; [constructor..|apply new_pool_wf]. Qed.

Lemma server_invariant_witness :
  (serve (λ _ _ s, s) [(kCivMsgImportVm, "import"); (kCivMsgListVm, "info")] (server [] 0)).1
    = Ret [kCivMsgRespondSuccess; kCivMsgRespondSuccess]
  ∧ server_inv (serve (λ _ _ s, s) [(kCivMsgImportVm, "import"); (kCivMsgListVm, "info")]
      (server [] 0)).2.
Proof.
  split; [vm_compute; reflexivity|].
  apply (server_invariant (qemu_laws RefBoost.ref_laws)); [intros p n s Hs; exact Hs|apply server_empty_inv].
Defined.

Lemma start_outcome_witness :
  match StartVm_prepare "start" (server [] 0) with
  | (Ret (Some (p, _)), s') => joined (server [] 0) s' p
  | _ => False
  end.
Proof.
  pose proof (start_outcome (qemu_laws RefBoost.ref_laws) "start" (server [] 0) server_empty_inv) as H.
  assert ((StartVm_prepare "start" (server [] 0)).1 = Ret (Some (0%nat, 1))) as Hr
    by (vm_compute; reflexivity).
  destruct (StartVm_prepare "start" (server [] 0)) as [r s']. simpl in Hr. subst r. apply H.
Defined.

Lemma import_keeps_running_witness :
  (7%nat, running) ∈ vmis_ (ImportVm "import" (server [(7%nat, running)] 8)).2.
Proof.
  apply (import_keeps_running (V := qemu) "import" 7%nat running (server [(7%nat, running)] 8));
    [left|discriminate|discriminate].
Defined.

Lemma get_vm_info_witness :
  (GetVmInfo "info" (server [(7%nat, running)] 8)).1 = Ret 0.
Proof.
  pose proof (get_vm_info "info" "civ-1" (client [("VmName", ["civ-1"])])
    (server [(7%nat, running)] 8) eq_refl eq_refl) as (p & v & _ & _ & H).
  by rewrite H.
Defined.
End SrvDemo.
