(* ===== verification/ServerRun.v ===== *)
(** * The life of the server process

    [Server::Start] and [Server::Stop] of services/server.cc with the set-up
    of the startup listener ([SetupStartupListenerService] and
    [RunListenerService]), the signal handler and the shared memory segment
    that clients look for.  The handling of single requests is Server.v's; the
    step-by-step exchange of one message is Message.v's. *)

From S2P Require Import Prelude.
From S2P Require Import CStd.
From S2P Require Import Boost.
From S2P Require Import Os.
From S2P Require Import CidPool.
From S2P Require Import Config.
From S2P Require Import Builder.
From S2P Require Import Listener.
From S2P Require Import Server.
From S2P Require Import ServerProps.
From Stdlib Require Import Ascii.

Local Open Scope Z_scope.

Definition kCivServerMemName : string := "CivServerShm".

(** What reaches a server that runs. *)
Inductive srv_event : Type :=
| SrvMsg (type : CivMsgType) (payload : string)
| SrvSignal.

Section run.
Context {B : Boost} {E : OsEnv} {V : VmBuilder}.
Context (meanwhile : nat → Z → Srv → Srv).

Record RunSt : Type := mkRun {
  rs_srv : Srv;
  handlers : bool;          (** [HandleSIG] is installed *)
  l_thread : bool;          (** [startup_listener_.thread] *)
  l_server : bool;          (** [startup_listener_.server] is not null *)
  l_listening : bool;       (** it has not been shut down *)
  sync_ : bool;             (** [sync_] is not null *)
  segment : bool;           (** the segment [kCivServerMemName] is there *)
}.

Definition set_srv (x : Srv) (s : RunSt) : RunSt :=
  mkRun x (handlers s) (l_thread s) (l_server s) (l_listening s) (sync_ s) (segment s).
Definition set_handlers (s : RunSt) : RunSt :=
  mkRun (rs_srv s) true (l_thread s) (l_server s) (l_listening s) (sync_ s) (segment s).
Definition set_lthread (s : RunSt) : RunSt :=
  mkRun (rs_srv s) (handlers s) true (l_server s) (l_listening s) (sync_ s) (segment s).
Definition set_lserver (b : bool) (s : RunSt) : RunSt :=
  mkRun (rs_srv s) (handlers s) (l_thread s) b b (sync_ s) (segment s).
Definition set_shutdown (s : RunSt) : RunSt :=
  mkRun (rs_srv s) (handlers s) (l_thread s) (l_server s) false (sync_ s) (segment s).
Definition set_sync (s : RunSt) : RunSt :=
  mkRun (rs_srv s) (handlers s) (l_thread s) (l_server s) (l_listening s) true (segment s).
Definition set_segment (b : bool) (s : RunSt) : RunSt :=
  mkRun (rs_srv s) (handlers s) (l_thread s) (l_server s) (l_listening s) (sync_ s) b.

Definition on_srv {A} (c : M Srv A) : M RunSt A := lift rs_srv set_srv c.
Definition run_os {A} (c : M OsSt A) : M RunSt A := on_srv (srv_os c).

(** [void RunListenerService(...)] up to the release of the latch; the rest is
    the wait for [Shutdown] on a thread of its own. *)
Definition RunListenerService (listener_address : string) : M RunSt unit :=
  server ← run_os (os (GrpcListen listener_address));
  modify (set_lserver server).

(** [bool Server::SetupStartupListenerService(void)]: the latch has been
    released when the thread has stored the server, or a null pointer. *)
Definition SetupStartupListenerService : M RunSt bool :=
  let listener_address := vsock_address VMADDR_CID_ANY kCivStartupListenerPort in
  modify set_lthread ;;
  RunListenerService listener_address ;;
  mret true.

(** [void Server::Stop(void)], which [HandleSIG] calls *)
Definition Server_Stop : M RunSt unit :=
  on_srv (modify (set_stop true)) ;;
  sync ← gets sync_;
  if negb sync then throw ExTerminate else
  server ← gets l_server;
  if (server : bool) then modify set_shutdown else skip.
Definition HandleSIG : M RunSt unit := Server_Stop.

(** The loop of [Server::Start]; with nothing left to come it waits. *)
Fixpoint run_loop (l : list srv_event) : M RunSt unit :=
  stop ← on_srv (gets stop_server_);
  if (stop : bool) then skip else
  match l with
  | [] => blocked
  | SrvMsg type payload :: l => _ ← on_srv (dispatch meanwhile type payload); run_loop l
  | SrvSignal :: l => HandleSIG ;; run_loop l
  end.

(** The scope of [remover]: its constructor and destructor remove the segment. *)
Definition serve_segment (l : list srv_event) : M RunSt unit :=
  modify (set_segment false) ;;
  scoped
    (ok ← run_os (os (ShmCreate kCivServerMemName));
     if negb ok then throw ExInterprocess else
     modify (set_segment true) ;;
     modify set_sync ;;
     run_loop l)
    (modify (set_segment false)).

(** [void Server::Start(void)] *)
Definition Server_Start (l : list srv_event) : M RunSt unit :=
  try_catch
    (modify set_handlers ;;
     _ ← SetupStartupListenerService;
     serve_segment l)
    (λ _, skip).
End run.

(** ** Properties *)

Section run_properties.
Context {B : Boost} {E : OsEnv} {V : VmBuilder}.
Context (meanwhile : nat → Z → Srv → Srv).

(** A relation on the server's state, however the code ends. *)
Definition srv_keeps (P : Srv → Prop) (s s' : RunSt) : Prop := P (rs_srv s) → P (rs_srv s').
#[local] Instance srv_keeps_preorder P : PreOrder (srv_keeps P).
Proof. split; [by intros s H|intros s1 s2 s3 H1 H2 H; auto]. Qed.

Lemma keeps_srv {A} (P : Srv → Prop) (c : M Srv A) :
  hoare P c (λ _, P) P → grows (srv_keeps P) (on_srv c).
Proof.
  intros Hc s Hs. unfold on_srv, lift. specialize (Hc _ Hs).
  by destruct (c (rs_srv s)) as [[]?].
Qed.
Lemma keeps_modify (P : Srv → Prop) f :
  (∀ s, rs_srv (f s) = rs_srv s) → grows (srv_keeps P) (modify f).
Proof. intros Hf. apply grows_modify. intros s. unfold srv_keeps. by rewrite Hf. Qed.

Lemma keeps_scoped {A} (P : Srv → Prop) (c : M RunSt A) d :
  grows (srv_keeps P) c → grows (srv_keeps P) d → grows (srv_keeps P) (scoped c d).
Proof.
  intros Hc Hd s Hs. unfold scoped. specialize (Hc s Hs). destruct (c s) as [[a|e|] s']; [| |done].
  - specialize (Hd s' Hc). by destruct (d s') as [[]?].
  - case_decide; [done|]. specialize (Hd s' Hc). by destruct (d s') as [[]?].
Qed.

Lemma keeps_os {A} (c : M OsSt A) : grows (srv_keeps server_inv) (run_os c).
Proof. apply keeps_srv, hoare_inv, guests_os. Qed.

Lemma keeps_stop : grows (srv_keeps server_inv) Server_Stop.
Proof.
  unfold Server_Stop. grows_go ltac:(first
    [ apply keeps_srv; intros s []; by split | apply keeps_modify; reflexivity ]).
Qed.

Lemma keeps_loop l : VmBuilderLaws V → polite meanwhile → grows (srv_keeps server_inv) (run_loop meanwhile l).
Proof.
  intros HV Hm. induction l as [|[type payload|] l IH]; cbn [run_loop]; unfold HandleSIG.
  all: grows_go ltac:(first [apply IH | apply keeps_stop
    | apply keeps_srv, hoare_dispatch; assumption | apply keeps_srv; by intros s Hs]).
Qed.

(** Without signals the loop is the one over messages of Server.v, followed by
    the wait when it has not been stopped. *)
Lemma run_loop_serve l s :
  run_loop meanwhile ((λ m : CivMsgType * string, SrvMsg m.1 m.2) <$> l) s
  = (_ ← on_srv (serve meanwhile l);
     stop ← on_srv (gets stop_server_);
     if (stop : bool) then skip else blocked) s.
Proof.
  revert s. induction l as [|[type payload] l IH]; intros s.
  - unfold on_srv, lift. sx_unfold. cbn. by destruct s.
  - cbn [fmap list_fmap run_loop serve fst snd]. unfold on_srv at 1 3, lift. sx_unfold. cbn.
    unfold on_srv, lift in *. destruct (stop_server_ (rs_srv s)) eqn:Hs.
    + cbn. rewrite Hs. by destruct s.
    + cbn. destruct (dispatch meanwhile type payload (rs_srv s)) as [[t|e|] x] eqn:Hd; cbn; [|by destruct s..].
      etrans; [apply IH|]. cbn. destruct (serve meanwhile l x) as [[ts|e|] y]; cbn; by destruct s.
Qed.

(** What the loop does not touch. *)
Definition same_frame (s s' : RunSt) : Prop :=
  segment s' = segment s ∧ handlers s' = handlers s ∧ l_thread s' = l_thread s.
#[local] Instance same_frame_preorder : PreOrder same_frame.
Proof. split; [by intros s; split_and!|]. intros s1 s2 s3 (?&?&?) (?&?&?). split_and!; congruence. Qed.

Lemma frame_srv {A} (c : M Srv A) : grows same_frame (on_srv c).
Proof. intros s. unfold on_srv, lift. destruct (c (rs_srv s)). by split_and!. Qed.
Lemma frame_loop l : grows same_frame (run_loop meanwhile l).
Proof.
  induction l as [|[type payload|] l IH]; cbn [run_loop]; unfold HandleSIG, Server_Stop.
  all: grows_go ltac:(first [apply IH | apply frame_srv | apply grows_modify; by intros s]).
Qed.

Lemma run_os_ret {A} (c : oscall A) t : ∃ a t', run_os (os c) t = (Ret a, t') ∧ same_frame t t'.
Proof.
  pose proof (frame_srv (srv_os (os c)) t) as Hf. revert Hf. unfold run_os, on_srv, srv_os, lift.
  destruct (os_run c (g_os (glob (rs_srv t)))) as (a & w & _ & ->). cbn. eauto.
Qed.

(** The segment is there while the loop runs, and gone when it is left. *)
Lemma serve_segment_spec l s :
  let '(r, s') := serve_segment meanwhile l s in
  match r with
  | Blocked => segment s' = true
  | Throw e => e = ExTerminate ∨ segment s' = false
  | Ret _ => segment s' = false
  end ∧ handlers s' = handlers s ∧ l_thread s' = l_thread s.
Proof.
  unfold serve_segment, mbind at 1, M_bind. cbn. unfold scoped. unfold mbind at 1, M_bind.
  destruct (run_os_ret (ShmCreate kCivServerMemName) (set_segment false s)) as (ok & s1 & -> & _ & Hh & Ht).
  cbn in Hh, Ht.
  destruct ok; cbn [negb]; [|unfold throw; case_decide; [done|]; cbn; auto].
  unfold mbind, M_bind. cbn. set (s2 := set_sync (set_segment true s1)).
  pose proof (frame_loop l s2) as (Hs & Hh2 & Ht2). cbn in Hs, Hh2, Ht2.
  destruct (run_loop meanwhile l s2) as [[u|e|] s3]; cbn in *; [|case_decide|]; cbn; split_and!;
    auto; congruence.
Qed.

(** C13: the life of a server.  Whatever requests and signals come, the
    registry stays consistent; when [Start] comes back, by a stop request, a
    signal or an exception of a request, the segment by which clients find the
    server is gone; nothing but the end of the process passes its handler;
    and a server that waits still has its segment. *)
Theorem server_life l s :
  VmBuilderLaws V → polite meanwhile → server_inv (rs_srv s) →
  let '(r, s') := Server_Start meanwhile l s in
  server_inv (rs_srv s') ∧ handlers s' = true ∧ l_thread s' = true
  ∧ match r with
    | Ret _ => segment s' = false
    | Throw e => e = ExTerminate
    | Blocked => segment s' = true
    end.
Proof.
  intros HV Hm Hinv.
  assert (grows (srv_keeps server_inv) (Server_Start meanwhile l)) as Hk.
  { unfold Server_Start, SetupStartupListenerService, RunListenerService, serve_segment. cbv zeta. apply grows_try; [exact _| |].
    - grows_go ltac:(idtac; match goal with
        | |- grows _ (scoped _ _) => apply keeps_scoped
        | |- grows _ (modify _) => apply keeps_modify; reflexivity
        | |- grows _ (run_os _) => apply keeps_os
        | |- grows _ (run_loop _ _) => by apply keeps_loop
        end).
    - intros ?. apply grows_skip; exact _. }
  specialize (Hk s Hinv). destruct (Server_Start meanwhile l s) as [r s'] eqn:Hrun. split; [exact Hk|].
  revert Hrun. unfold Server_Start, try_catch, SetupStartupListenerService, RunListenerService.
  unfold mbind, M_bind, modify, mret, M_ret.
  match goal with |- context [run_os (os ?c) ?t] =>
    destruct (run_os_ret c t) as (b & t' & -> & _ & Hh & Ht) end. cbn in Hh, Ht.
  pose proof (serve_segment_spec l (set_lserver b t')) as Hspec.
  destruct (serve_segment meanwhile l (set_lserver b t')) as [[u|e|] s2]; cbn in *;
    destruct Hspec as (Hs & Hh' & Ht').
  - intros [= <- <-]. by rewrite Hh', Ht'.
  - case_decide as He; intros [= <- <-]; rewrite Hh', Ht'; split_and!; try done. by destruct Hs.
  - intros [= <- <-]. by rewrite Hh', Ht'.
Qed.
End run_properties.

(** ** Examples *)

Module RunDemo.
#[local] Existing Instance RefBoost.ref_boost.
#[local] Existing Instance SimOs.sim_os.

Definition fresh : RunSt := mkRun (SrvDemo.server [] 0) false false false false false false.

Lemma server_life_witness :
  let '(r, s') := Server_Start (λ _ _ s, s)
    [SrvMsg kCivMsgImportVm "import"; SrvMsg kCiVMsgStopServer "info"] fresh in
  r = Ret tt ∧ segment s' = false ∧ server_inv (rs_srv s').
Proof.
  pose proof (server_life (V := qemu) (λ _ _ s, s)
    [SrvMsg kCivMsgImportVm "import"; SrvMsg kCiVMsgStopServer "info"] fresh (qemu_laws RefBoost.ref_laws)
    (λ p n s Hs, Hs) SrvDemo.server_empty_inv) as Ht.
  assert ((Server_Start (λ _ _ s, s) [SrvMsg kCivMsgImportVm "import"; SrvMsg kCiVMsgStopServer "info"] fresh).1
    = Ret tt) as Hr by (vm_compute; reflexivity).
  destruct (Server_Start _ _ _) as [r s']. cbn in Hr. subst r. destruct Ht as (Hi & _ & _ & Hs). auto.
Defined.

(** A signal before the segment is made finds no [sync_]. *)
Example signal_before_sync : (HandleSIG fresh).1 = Throw ExTerminate.
Proof. reflexivity. Qed.

(** A listener that cannot be started is not noticed. *)
Definition deaf_os : OsEnv := {|
  os_world := SimOs.sim;
  os_handle A c w :=
    match c in oscall A return A * SimOs.sim with
    | GrpcListen _ => (false, w)
    | c => SimOs.sim_handle _ c w
    end |}.
Definition deaf : @RunSt deaf_os (@qemu _ deaf_os) :=
  @mkRun deaf_os (@qemu _ deaf_os)
    (@mkSrv deaf_os (@qemu _ deaf_os) false [] 0 new_listener ∅
      (@mkGlob deaf_os new_pool EmptyString (Some EmptyString)
        (@mkOsSt deaf_os (os_w (SimOs.boot [] [] [])) [] [])))
    false false false false false false.

Example listener_failure_ignored :
  let '(r, s') := @SetupStartupListenerService deaf_os (@qemu _ deaf_os) deaf in
  r = Ret true ∧ l_server s' = false.
Proof. vm_compute. auto. Qed.
End RunDemo.
