(* ===== verification/StartProtocol.v ===== *)
(** * Starting a guest: the server thread, the guest's thread, the listener

    [Server::StartVm] makes a latch on its stack, starts a thread that runs
    [Server::VmThread] on a pointer to the guest, waits for the latch and then
    reads the guest's state.  The guest's own "ready" call arrives on a
    listener thread.  The steps below are the accesses these three make to
    what they share: the latch, the guest object (deleted by the guest's
    thread) and the listener's entry, in the order of the source and in any
    interleaving.  [used_freed] records an access to a deleted guest. *)

From S2P Require Import Prelude.
From S2P Require Import Builder.

Local Open Scope Z_scope.

(** Where [Server::VmThread] stands. *)
Inductive ThreadPc : Type :=
| TStart          (** [vb->StartVm()] *)
| TCount          (** [if (notify_cont->try_count_down())] *)
| TReady          (** [vb->SetVmReady()] *)
| TExit           (** [vb->WaitVmExit()] *)
| TDelete         (** [DeleteVmInstance(vb->GetName())] *)
| TPending        (** [AddPendingVM(vb->GetCid(), ...)] *)
| TWait (n : nat) (** [vb->WaitVmReady()] with [n] turns left *)
| TCountOk        (** [notify_cont->try_count_down()] after a ready guest *)
| TDeleteFail     (** [DeleteVmInstance(vb->GetName())] after a failure *)
| TCountFail      (** [notify_cont->try_count_down()] after a failure *)
| TEnd.

#[export] Instance ThreadPc_eq_dec : EqDecision ThreadPc.
Proof. solve_decision. Defined.

(** Where [Server::StartVm] stands from [notify_cont.wait()] on. *)
Inductive MainPc : Type :=
| MWait           (** [notify_cont.wait()] *)
| MRead           (** [vb->GetState()] *)
| MDone (r : Z).  (** returned [r] *)

Record Proto : Type := mkProto {
  latch : Z;
  main : MainPc;
  thr : ThreadPc;
  vm : option VmState;      (** the guest's state; [None] once deleted *)
  pending : bool;           (** the listener has the callback *)
  reported : bool;          (** the guest has reported ready *)
  used_freed : bool;
}.

(** [boost::latch::try_count_down] *)
Definition count_down (n : Z) : Z := Z.max 0 (n - 1).

Definition with_thr t (s : Proto) : Proto :=
  mkProto (latch s) (main s) t (vm s) (pending s) (reported s) (used_freed s).
Definition with_main m (s : Proto) : Proto :=
  mkProto (latch s) m (thr s) (vm s) (pending s) (reported s) (used_freed s).
Definition with_latch n (s : Proto) : Proto :=
  mkProto n (main s) (thr s) (vm s) (pending s) (reported s) (used_freed s).
Definition with_vm v (s : Proto) : Proto :=
  mkProto (latch s) (main s) (thr s) v (pending s) (reported s) (used_freed s).
Definition with_pending b (s : Proto) : Proto :=
  mkProto (latch s) (main s) (thr s) (vm s) b (reported s) (used_freed s).
Definition with_reported (s : Proto) : Proto :=
  mkProto (latch s) (main s) (thr s) (vm s) (pending s) true (used_freed s).
Definition with_freed (s : Proto) : Proto :=
  mkProto (latch s) (main s) (thr s) (vm s) (pending s) (reported s) true.

(** Steps of [Server::VmThread]. *)
Inductive vm_thread : Proto → Proto → Prop :=
| t_start s v : thr s = TStart → vm s = Some v →
    vm_thread s (with_thr TCount (with_vm (Some kVmBooting) s))
| t_count_last s : thr s = TCount → count_down (latch s) = 0 →
    vm_thread s (with_thr TReady (with_latch 0 s))
| t_count s : thr s = TCount → count_down (latch s) ≠ 0 →
    vm_thread s (with_thr TPending (with_latch (count_down (latch s)) s))
| t_ready s v : thr s = TReady → vm s = Some v →
    vm_thread s (with_thr TExit (with_vm (Some kVmRunning) s))
| t_exit s v : thr s = TExit → vm s = Some v → vm_thread s (with_thr TDelete s)
| t_delete s v : thr s = TDelete → vm s = Some v → vm_thread s (with_thr TEnd (with_vm None s))
| t_pending s v : thr s = TPending → vm s = Some v →
    vm_thread s (with_thr (TWait 200) (with_pending true s))
| t_wait_died s n v : thr s = TWait (S n) → vm s = Some v → vm_thread s (with_thr TDeleteFail s)
| t_wait_ready s n : thr s = TWait (S n) → vm s = Some kVmRunning →
    vm_thread s (with_thr TCountOk s)
| t_wait_more s n v : thr s = TWait (S n) → vm s = Some v → v ≠ kVmRunning →
    vm_thread s (with_thr (TWait n) s)
| t_wait_over s v : thr s = TWait 0 → vm s = Some v → vm_thread s (with_thr TDeleteFail s)
| t_count_ok s : thr s = TCountOk →
    vm_thread s (with_thr TExit (with_latch (count_down (latch s)) s))
| t_delete_fail s v : thr s = TDeleteFail → vm s = Some v →
    vm_thread s (with_thr TCountFail (with_vm None s))
| t_count_fail s : thr s = TCountFail →
    vm_thread s (with_thr TEnd (with_latch (count_down (latch s)) s)).

(** Steps of [Server::StartVm]. *)
Inductive start_vm : Proto → Proto → Prop :=
| m_wait s : main s = MWait → latch s = 0 → start_vm s (with_main MRead s)
| m_read s v : main s = MRead → vm s = Some v →
    start_vm s (with_main (MDone (if bool_decide (v = kVmRunning) then 0 else -1)) s)
| m_read_freed s r : main s = MRead → vm s = None →
    start_vm s (with_main (MDone r) (with_freed s)).

(** [VmReady] of the listener, called by the guest. *)
Inductive vm_ready : Proto → Proto → Prop :=
| l_ready s v : pending s = true → vm s = Some v →
    vm_ready s (with_reported (with_pending false (with_vm (Some kVmRunning) s)))
| l_ready_freed s : pending s = true → vm s = None →
    vm_ready s (with_freed (with_pending false s)).

Definition pstep (s s' : Proto) : Prop := vm_thread s s' ∨ start_vm s s' ∨ vm_ready s s'.

(** A freshly built guest and a latch of count [n]: 2 when the configuration
    asks to wait until the guest is ready, 1 otherwise. *)
Definition pinit (n : Z) : Proto := mkProto n MWait TStart (Some kVmCreated) false false false.

Definition preachable (n : Z) : Proto → Prop := rtc pstep (pinit n).

(** ** Invariants *)

(** The latch's count at each point of the guest's thread. *)
Definition latch_at (n : Z) (t : ThreadPc) : Z :=
  match t with
  | TStart | TCount => n
  | TReady => 0
  | TPending | TWait _ | TCountOk | TDeleteFail | TCountFail => n - 1
  | TExit | TDelete | TEnd => 0
  end.

Record wait_inv (s : Proto) : Prop := {
  w_latch : latch s = latch_at 2 (thr s);
  w_thr : thr s ≠ TReady;
  w_main : main s = MWait ∨ latch s = 0;
  w_running : vm s = Some kVmRunning → reported s = true;
  w_ok : thr s = TCountOk → vm s = Some kVmRunning;
  w_exit : thr s = TExit ∨ thr s = TDelete → vm s = Some kVmRunning;
  w_gone : thr s = TCountFail ∨ thr s = TEnd → vm s = None;
  w_alive : thr s ≠ TCountFail → thr s ≠ TEnd → is_Some (vm s);
  w_result : main s = MDone 0 → used_freed s = false → reported s = true;
}.

Ltac proto_step := 
  match goal with H : pstep _ _ |- _ => destruct H as [H|[H|H]] end;
  match goal with
  | H : vm_thread _ _ |- _ => destruct H
  | H : start_vm _ _ |- _ => destruct H
  | H : vm_ready _ _ |- _ => destruct H
  end.

Lemma wait_inv_step s s' : pstep s s' → wait_inv s → wait_inv s'.
Proof.
  intros Hst [Hl Ht Hm Hr Hok Hex Hg Ha Hres]. proto_step; destruct s; simpl in *; subst;
    unfold count_down in *; simpl in *;
    split; simpl; try done; try lia; intros; destruct_or?; simplify_eq; eauto; try lia.
  all: first [ case_bool_decide; [subst; by apply Hr|done]
             | by specialize (Hg (or_introl eq_refl))
             | by specialize (Hg (or_intror eq_refl)) ].
Qed.

Lemma wait_inv_reachable s : preachable 2 s → wait_inv s.
Proof.
  apply (rtc_invariant pstep); [intros a b Hs Ha; by eapply wait_inv_step|].
  split; simpl; try done; naive_solver.
Qed.

(** Without waiting: the guest's thread marks the guest itself. *)
Record nowait_inv (s : Proto) : Prop := {
  n_latch : latch s = latch_at 1 (thr s);
  n_thr : thr s ∈ [TStart; TCount; TReady; TExit; TDelete; TEnd];
  n_main : main s = MWait ∨ latch s = 0;
  n_pending : pending s = false;
  n_exit : thr s = TExit ∨ thr s = TDelete → vm s = Some kVmRunning;
  n_alive : thr s ≠ TEnd → is_Some (vm s);
  n_running : vm s = Some kVmRunning → thr s = TExit ∨ thr s = TDelete;
  n_gone : thr s = TEnd → vm s = None;
}.

Lemma nowait_inv_step s s' : pstep s s' → nowait_inv s → nowait_inv s'.
Proof.
  intros Hst [Hl Ht Hm Hp Hex Ha Hr Hg]. proto_step; destruct s; simpl in *; subst;
    unfold count_down in *; simpl in *; try (by exfalso; set_solver);
    split; simpl; try done; try lia; try set_solver; intros; destruct_or?; simplify_eq; eauto;
    try lia; naive_solver.
Qed.

Lemma nowait_inv_reachable s : preachable 1 s → nowait_inv s.
Proof.
  apply (rtc_invariant pstep); [intros a b Hs Ha; by eapply nowait_inv_step|].
  split; simpl; try done; try set_solver; naive_solver.
Qed.

(** In either mode. *)
Lemma proto_latch n a : n = 1 ∨ n = 2 → preachable n a → latch a = latch_at n (thr a).
Proof. intros [-> | ->] Ha; [apply n_latch, (nowait_inv_reachable _ Ha)|apply w_latch, (wait_inv_reachable _ Ha)]. Qed.

Lemma proto_alive n a :
  n = 1 ∨ n = 2 → preachable n a → thr a ≠ TCountFail → thr a ≠ TEnd → is_Some (vm a).
Proof.
  intros [-> | ->] Ha ??; [by apply n_alive; [apply nowait_inv_reachable|]|by apply w_alive; [apply wait_inv_reachable|..]].
Qed.

Lemma proto_gone n a :
  n = 1 ∨ n = 2 → preachable n a → thr a = TCountFail ∨ thr a = TEnd → vm a = None.
Proof.
  intros [-> | ->] Ha Ht; [|by apply w_gone; [apply wait_inv_reachable|]].
  destruct (nowait_inv_reachable _ Ha) as [_ Hl _ _ _ _ _ Hg]. destruct Ht as [Ht|Ht]; [|auto].
  rewrite Ht in Hl. set_solver.
Qed.

(** A guest is entered into the listener in one place. *)
Lemma proto_unlisted n a : preachable n a → thr a ∈ [TStart; TCount; TPending] → pending a = false.
Proof.
  apply (rtc_invariant pstep (λ a, thr a ∈ [TStart; TCount; TPending] → pending a = false)); [|done].
  intros b b' Hst Hb. proto_step; destruct s; simpl in *; subst; set_solver.
Qed.

(** ** Properties *)

(** When the configuration asks to wait until the guest is ready, the
    start request ends only after the guest's thread has stopped waiting, and
    an answer of success that was read from a living guest means that the
    guest has reported ready. *)
Theorem start_success_means_ready s r :
  preachable 2 s → main s = MDone r →
  (thr s = TExit ∨ thr s = TDelete ∨ thr s = TEnd)
  ∧ (r = 0 → used_freed s = false → reported s = true).
Proof.
  intros Hr Hm. destruct (wait_inv_reachable s Hr). rewrite Hm in *. split; [|naive_solver].
  destruct w_main0 as [|Hl]; [done|]. rewrite Hl in w_latch0.
  destruct (thr s); simpl in *; auto; first [lia|done].
Qed.

(** The guest's thread, while the latch is held, always has a next step, and
    every step brings it nearer to the end. *)
Definition steps_left (t : ThreadPc) : nat :=
  match t with
  | TStart => 210
  | TCount => 209
  | TPending => 208
  | TWait n => 5 + n
  | TDeleteFail => 4
  | TCountOk | TCountFail => 3
  | TReady => 3
  | TExit => 2
  | TDelete => 1
  | TEnd => 0
  end.

Lemma thread_decreases s s' : vm_thread s s' → (steps_left (thr s') < steps_left (thr s))%nat.
Proof. destruct 1; destruct s; simpl in *; subst; simpl; lia. Qed.

Lemma proto_bounded n a : preachable n a → (steps_left (thr a) ≤ 210)%nat.
Proof.
  apply (rtc_invariant pstep (λ a, steps_left (thr a) ≤ 210)%nat); [|by simpl].
  intros b b' [Hst|[Hst|Hst]] Hb; [apply thread_decreases in Hst; lia|by destruct Hst..].
Qed.

(** A start request cannot be left waiting: as long as the latch is held
    the guest's thread has a step to take whatever the others do, each of its
    steps brings it nearer to its end, and where it has no further step or
    only waits for the emulator to exit the latch has been released. *)
Theorem start_released n s :
  (n = 1 ∨ n = 2) → preachable n s → latch s ≠ 0 →
  (∃ s', vm_thread s s') ∧ ∀ s', vm_thread s s' → (steps_left (thr s') < steps_left (thr s))%nat.
Proof.
  intros Hn Hr Hl. split; [|intros s'; apply thread_decreases].
  assert (is_Some (vm s) ∨ thr s = TCountFail ∨ thr s = TEnd) as Ha.
  { destruct Hn as [-> | ->]; [destruct (nowait_inv_reachable s Hr)|destruct (wait_inv_reachable s Hr)];
      destruct (thr s); naive_solver. }
  assert (thr s ≠ TEnd) as He.
  { intros He. destruct Hn as [-> | ->];
      [destruct (nowait_inv_reachable s Hr)|destruct (wait_inv_reachable s Hr)];
      rewrite He in *; simpl in *; lia. }
  destruct (thr s) as [| | | | | |[|k]| | | |] eqn:Ht;
    try (destruct Ha as [[v Hv]|[?|?]]; [|done..]); try done; try (by eexists; econstructor).
  destruct (decide (count_down (latch s) = 0)); eexists; by econstructor.
Qed.

(** In the waiting mode, a start request that reads the guest's state
    after the guest's thread has ended always reads a deleted guest; a guest
    that does not become ready is such a case, since its thread deletes it
    before it releases the latch. *)
Theorem failed_wait_reads_freed s s' :
  preachable 2 s → thr s = TEnd → main s = MRead → start_vm s s' → used_freed s' = true.
Proof.
  intros Hr Ht Hm Hs. destruct (wait_inv_reachable s Hr).
  assert (vm s = None) as Hv by auto. destruct Hs; simpl; congruence.
Qed.

(** ** Runs *)

(** A guest that is waited for and reports ready. *)
Definition ready_run : Proto := mkProto 0 (MDone 0) TExit (Some kVmRunning) false true false.
(** A guest that is waited for and whose emulator dies. *)
Definition died_run : Proto := mkProto 0 MRead TEnd None true false false.
(** A guest that is not waited for, marked running after the answer. *)
Definition late_run : Proto := mkProto 0 (MDone (-1)) TExit (Some kVmRunning) false false false.

Ltac thread c := eapply rtc_l; [left; by eapply c|]; cbn.
Ltac server c := eapply rtc_l; [right; left; by eapply c|]; cbn.
Ltac guest c := eapply rtc_l; [right; right; by eapply c|]; cbn.

Lemma ready_run_reachable : preachable 2 ready_run.
Proof.
  unfold preachable, pinit. thread t_start. thread t_count. thread t_pending. guest l_ready.
  thread t_wait_ready. thread t_count_ok. server m_wait. server m_read. apply rtc_refl.
Qed.

Lemma died_run_reachable : preachable 2 died_run.
Proof.
  unfold preachable, pinit. thread t_start. thread t_count. thread t_pending. thread t_wait_died.
  thread t_delete_fail. thread t_count_fail. server m_wait. apply rtc_refl.
Qed.

(** A guest that is not waited for can be started, and run, and still be
    reported as not started: the latch is released before the guest is marked
    running. *)
Theorem late_mark_reports_failure : preachable 1 late_run.
Proof.
  unfold preachable, pinit. thread t_start. thread t_count_last. server m_wait. server m_read.
  thread t_ready. apply rtc_refl.
Qed.

(** The listener's entry of a guest that was given up is still there and its
    callback uses the deleted guest. *)
Theorem stale_callback :
  ∃ s, preachable 2 died_run ∧ vm_ready died_run s ∧ used_freed s = true.
Proof. eexists. split; [apply died_run_reachable|]. split; [by apply l_ready_freed|done]. Qed.

Lemma start_success_means_ready_witness : reported ready_run = true.
Proof.
  destruct (start_success_means_ready ready_run 0 ready_run_reachable eq_refl) as [_ H].
  apply H; reflexivity.
Defined.

Lemma start_released_witness : ∃ s', vm_thread (pinit 2) s'.
Proof.
  destruct (start_released 2 (pinit 2)) as [H _]; [by right|apply rtc_refl|done|exact H].
Defined.

Lemma failed_wait_reads_freed_witness :
  used_freed (with_main (MDone 0) (with_freed died_run)) = true.
Proof.
  apply (failed_wait_reads_freed died_run); [apply died_run_reachable|reflexivity|reflexivity|].
  by apply m_read_freed.
Defined.
