(* ===== verification/ProcProtocol.v ===== *)
(** * Running a process: the caller, the monitor thread, the child

    [VmProcSimple::Run] starts a thread that runs [ThreadMon] and waits for
    [child_latch_]; [ThreadMon] creates the child, stores it in [c_] and waits
    for it; [Join] and [Stop] are called later, possibly by different threads.
    The steps below are the accesses these make to what they share: the
    members [mon_] and [c_], the latch and the child, in the order of
    guest/vm_process.cc and in any interleaving.  What Process.v computes in
    one go is the order in which the caller goes first and the monitor then
    runs up to the wait for the child. *)

From S2P Require Import Prelude.

Local Open Scope Z_scope.

(** Where [VmProcSimple::Run] stands. *)
Inductive RunPc : Type :=
| RNew            (** before the call *)
| RSpawned        (** the thread runs, [mon_] is not assigned yet *)
| RWait           (** [child_latch_.wait()] *)
| RDone.

(** Where [VmProcSimple::ThreadMon] stands. *)
Inductive MonPc : Type :=
| MNone           (** the thread does not exist *)
| MParse          (** [cmd_.find_first_not_of(' ')] *)
| MId             (** [mon_->get_id()] *)
| MPerm           (** [boost::filesystem::permissions] of the log file *)
| MCreate         (** the constructor of [child], with its handlers *)
| MAssign         (** [c_ = ...] *)
| MChild          (** [c_->wait(ec)] *)
| MEnd.

(** Where [VmProcSimple::Stop] stands. *)
Inductive StopPc : Type :=
| SIdle
| SJoin           (** [kill], then [mon_->try_join_for(seconds(10))] *)
| SReset          (** [mon_.reset(nullptr)] *)
| SDone.

(** Where [VmProcSimple::Join] stands. *)
Inductive JoinPc : Type :=
| JIdle
| JIn             (** inside [mon_->join()] *)
| JDone.

Inductive ChildSt : Type := ChNone | ChAlive | ChDead | ChFailed.

Inductive Fault : Type :=
| NullMon         (** [mon_] is used before it is assigned *)
| Uncaught        (** an exception leaves the function of the thread *)
| DestroyedMon.   (** [*mon_] is destroyed while a member function of it runs *)

#[export] Instance MonPc_eq_dec : EqDecision MonPc.
Proof. solve_decision. Defined.
#[export] Instance ChildSt_eq_dec : EqDecision ChildSt.
Proof. solve_decision. Defined.

Record Proc : Type := mkProc {
  run : RunPc;
  mon : MonPc;
  stopper : StopPc;
  joiner : JoinPc;
  mon_set : bool;           (** [mon_] is not null *)
  c_set : bool;             (** [c_] is not null *)
  child : ChildSt;
  child_latch_ : Z;
  fault : option Fault;
}.

Definition set_run r s := mkProc r (mon s) (stopper s) (joiner s) (mon_set s) (c_set s) (child s) (child_latch_ s) (fault s).
Definition set_mon m s := mkProc (run s) m (stopper s) (joiner s) (mon_set s) (c_set s) (child s) (child_latch_ s) (fault s).
Definition set_stopper x s := mkProc (run s) (mon s) x (joiner s) (mon_set s) (c_set s) (child s) (child_latch_ s) (fault s).
Definition set_joiner x s := mkProc (run s) (mon s) (stopper s) x (mon_set s) (c_set s) (child s) (child_latch_ s) (fault s).
Definition set_mon_ptr b s := mkProc (run s) (mon s) (stopper s) (joiner s) b (c_set s) (child s) (child_latch_ s) (fault s).
Definition set_c s := mkProc (run s) (mon s) (stopper s) (joiner s) (mon_set s) true (child s) (child_latch_ s) (fault s).
Definition set_child x s := mkProc (run s) (mon s) (stopper s) (joiner s) (mon_set s) (c_set s) x (child_latch_ s) (fault s).
Definition release s := mkProc (run s) (mon s) (stopper s) (joiner s) (mon_set s) (c_set s) (child s) 0 (fault s).
Definition set_fault f s := mkProc (run s) (mon s) (stopper s) (joiner s) (mon_set s) (c_set s) (child s) (child_latch_ s) (Some f).

(** [bool VmProcSimple::Running(void)] *)
Definition is_running (s : Proc) : bool := c_set s && bool_decide (child s = ChAlive).

Section steps.
Context (blank : bool).      (** [cmd_] has nothing but spaces *)

(** [mon_ = std::make_unique<boost::thread>(...)]: the thread may run before
    the assignment. *)
Inductive run_step : Proc → Proc → Prop :=
| r_spawn s : run s = RNew → run_step s (set_mon MParse (set_run RSpawned s))
| r_assign s : run s = RSpawned → run_step s (set_mon_ptr true (set_run RWait s))
| r_wait s : run s = RWait → child_latch_ s = 0 → run_step s (set_run RDone s).

(** The handlers [on_success] and [on_error] release the latch inside the
    constructor, before the result is stored. *)
Inductive mon_step : Proc → Proc → Prop :=
| m_blank s : mon s = MParse → blank = true → mon_step s (set_mon MEnd s)
| m_parse s : mon s = MParse → blank = false → mon_step s (set_mon MId s)
| m_id s : mon s = MId → mon_set s = true → mon_step s (set_mon MPerm s)
| m_id_null s : mon s = MId → mon_set s = false → mon_step s (set_fault NullMon (set_mon MEnd s))
| m_perm s : mon s = MPerm → mon_step s (set_mon MCreate s)
| m_perm_throws s : mon s = MPerm → mon_step s (set_fault Uncaught (set_mon MEnd s))
| m_create s : mon s = MCreate → mon_step s (set_mon MAssign (release (set_child ChAlive s)))
| m_create_fails s : mon s = MCreate → mon_step s (set_mon MAssign (release (set_child ChFailed s)))
| m_assign s : mon s = MAssign → mon_step s (set_mon MChild (set_c s))
| m_wait s : mon s = MChild → child s ≠ ChAlive → mon_step s (set_mon MEnd s).

Inductive stop_step : Proc → Proc → Prop :=
| s_none s : stopper s = SIdle → run s = RDone → mon_set s && is_running s = false →
    stop_step s (set_stopper SDone s)
| s_kill s : stopper s = SIdle → run s = RDone → mon_set s && is_running s = true →
    stop_step s (set_stopper SJoin s)
| s_joined s : stopper s = SJoin → mon s = MEnd → stop_step s (set_stopper SReset s)
| s_timeout s : stopper s = SJoin → stop_step s (set_stopper SReset s)
| s_reset s : stopper s = SReset → joiner s ≠ JIn →
    stop_step s (set_mon_ptr false (set_stopper SDone s))
| s_reset_in_use s : stopper s = SReset → joiner s = JIn →
    stop_step s (set_fault DestroyedMon (set_mon_ptr false (set_stopper SDone s))).

Inductive join_step : Proc → Proc → Prop :=
| j_none s : joiner s = JIdle → run s = RDone → mon_set s = false → join_step s (set_joiner JDone s)
| j_enter s : joiner s = JIdle → run s = RDone → mon_set s = true → join_step s (set_joiner JIn s)
| j_leave s : joiner s = JIn → mon s = MEnd → join_step s (set_joiner JDone s).

(** The emulator ends, by itself or after the signal. *)
Inductive child_step : Proc → Proc → Prop :=
| c_exit s : child s = ChAlive → child_step s (set_child ChDead s).

(** A fault ends the process that has it. *)
Definition proc_step (s s' : Proc) : Prop :=
  fault s = None ∧ (run_step s s' ∨ mon_step s s' ∨ stop_step s s' ∨ join_step s s' ∨ child_step s s').

Definition proc_init : Proc := mkProc RNew MNone SIdle JIdle false false ChNone 1 None.
Definition proc_reachable : Proc → Prop := rtc proc_step proc_init.
End steps.

(** ** Invariants *)

(** What holds at each point of the monitor. *)
Definition mon_facts (blank : bool) (s : Proc) : Prop :=
  match mon s with
  | MNone => run s = RNew ∧ child s = ChNone ∧ c_set s = false ∧ child_latch_ s = 1
  | MParse => run s ≠ RNew ∧ child s = ChNone ∧ c_set s = false ∧ child_latch_ s = 1
  | MId | MPerm | MCreate => run s ≠ RNew ∧ child s = ChNone ∧ c_set s = false ∧ child_latch_ s = 1 ∧ blank = false
  | MAssign => run s ≠ RNew ∧ child s ≠ ChNone ∧ c_set s = false ∧ child_latch_ s = 0 ∧ blank = false
  | MChild => run s ≠ RNew ∧ child s ≠ ChNone ∧ c_set s = true ∧ child_latch_ s = 0 ∧ blank = false
  | MEnd => run s ≠ RNew
      ∧ (child s = ChNone ∧ c_set s = false ∧ child_latch_ s = 1 ∧ (blank = true ∨ is_Some (fault s))
         ∨ child s ≠ ChNone ∧ c_set s = true ∧ child_latch_ s = 0 ∧ blank = false)
  end.

Record proc_inv (blank : bool) (s : Proc) : Prop := {
  pi_mon : mon_facts blank s;
  pi_done : run s = RDone → child_latch_ s = 0;
  pi_wait : run s = RWait → mon_set s = true;
  pi_idle : run s ≠ RDone → stopper s = SIdle ∧ joiner s = JIdle;
}.

Lemma proc_inv_step blank s s' : proc_step blank s s' → proc_inv blank s → proc_inv blank s'.
Proof.
  intros [Hf Hst] [Hm Hd Hw Hi]. unfold mon_facts in Hm.
  destruct Hst as [Hst|[Hst|[Hst|[Hst|Hst]]]]; destruct Hst; destruct s; cbn in *; subst.
  all: try (match goal with m : MonPc |- _ => destruct m end).
  all: split; unfold mon_facts; cbn in *; intuition (congruence || lia || auto).
Qed.

Lemma proc_inv_reachable blank s : proc_reachable blank s → proc_inv blank s.
Proof.
  apply (rtc_invariant (proc_step blank)); [intros a b Hs Ha; by eapply proc_inv_step|].
  split; unfold mon_facts; cbn; auto; discriminate.
Qed.

(** ** Properties *)

(** Steps the monitor may take until the latch is released. *)
Definition mon_left (m : MonPc) : nat :=
  match m with MNone => 5 | MParse => 4 | MId => 3 | MPerm => 2 | MCreate => 1 | _ => 0 end.

(** C20: in any interleaving, [Run] returns only when the creation of the child
    has been tried, and never for a blank command: it then waits for a latch
    that nobody releases.  While it waits for a command that is not blank, the
    monitor can take a step, and each of its steps comes nearer to the release
    of the latch, except that the permissions of the log file may not be
    settable: that exception leaves the thread and ends the process. *)
Theorem run_waits_for_child blank s :
  proc_reachable blank s → fault s = None →
  (run s = RDone → child s ≠ ChNone ∧ blank = false)
  ∧ (blank = true → child_latch_ s = 1)
  ∧ (run s = RWait → blank = false → child_latch_ s ≠ 0 →
     (∃ s', mon_step blank s s' ∧ fault s' = None)
     ∧ ∀ s', mon_step blank s s' →
         (fault s' = None ∧ (mon_left (mon s') < mon_left (mon s))%nat)
         ∨ (mon s = MPerm ∧ fault s' = Some Uncaught)).
Proof.
  intros Hr Hf. destruct (proc_inv_reachable _ _ Hr) as [Hm Hd Hw _]. unfold mon_facts in Hm. split_and!.
  - intros Hrun. specialize (Hd Hrun). destruct (mon s); intuition congruence.
  - intros Hb. destruct (mon s); intuition congruence.
  - intros Hrun Hb Hl. specialize (Hw Hrun).
    assert (mon s ≠ MEnd) as Hend.
    { intros Hmon. rewrite Hmon in Hm. destruct Hm as [_ [(? & ? & ? & [?|[f Hx]])|?]]; intuition congruence. }
    split.
    + destruct (mon s) eqn:Hmon; try (intuition congruence);
        eexists; (split; [first [by apply m_parse | by apply m_id | by apply m_perm | by apply m_create]|]); by cbn.
    + intros s' Hs. destruct Hs as [s Hp|s Hp|s Hp|s Hp|s Hp|s Hp|s Hp|s Hp|s Hp|s Hp]; rewrite Hp in *;
        try (intuition congruence); cbn; rewrite ?Hp; auto with lia.
Qed.

(** [Running] says that a living child is not running exactly in the window
    between the release of the latch and the assignment of [c_]; outside of it
    the answer is right. *)
Theorem running_window blank s :
  proc_reachable blank s →
  (is_running s = true → child s = ChAlive)
  ∧ (child s = ChAlive → (is_running s = false ↔ mon s = MAssign)).
Proof.
  intros Hr. destruct (proc_inv_reachable _ _ Hr) as [Hm _ _ _]. unfold mon_facts, is_running in *. split.
  - intros [_ H%bool_decide_eq_true]%andb_true_iff. done.
  - intros Hc. rewrite (bool_decide_eq_true_2 _ Hc), andb_true_r.
    destruct (mon s); intuition congruence.
Qed.

(** ** Runs *)

Ltac caller c := eapply rtc_l; [split; [reflexivity|left; by eapply c]|]; cbn.
Ltac monitor c := eapply rtc_l; [split; [reflexivity|right; left; by eapply c]|]; cbn.
Ltac stopping c := eapply rtc_l; [split; [reflexivity|right; right; left; by eapply c]|]; cbn.
Ltac joining c := eapply rtc_l; [split; [reflexivity|right; right; right; left; by eapply c]|]; cbn.

(** [Run] has returned and the child lives, but [Running] does not know it. *)
Definition early : Proc := mkProc RDone MAssign SIdle JIdle true false ChAlive 0 None.
Lemma early_reachable : proc_reachable false early.
Proof.
  unfold proc_reachable, proc_init. caller r_spawn. caller r_assign. monitor m_parse. monitor m_id. monitor m_perm.
  monitor m_create. caller r_wait. apply rtc_refl.
Qed.

Lemma run_waits_for_child_witness : child early ≠ ChNone.
Proof. apply (run_waits_for_child false early early_reachable eq_refl). reflexivity. Defined.

Lemma running_window_witness : is_running early = false.
Proof. apply (running_window false early early_reachable); reflexivity. Defined.

(** The monitor may be faster than the assignment of [mon_]. *)
Theorem fast_monitor_null : ∃ s, proc_reachable false s ∧ fault s = Some NullMon.
Proof.
  eexists. split; [|shelve]. unfold proc_reachable, proc_init. caller r_spawn. monitor m_parse.
  monitor m_id_null. apply rtc_refl. Unshelve. done.
Qed.

(** A guest that is stopped while its thread waits in [Join]: the thread object
    is destroyed under the waiting call. *)
Theorem stop_under_join : ∃ s, proc_reachable false s ∧ fault s = Some DestroyedMon.
Proof.
  eexists. split; [|shelve]. unfold proc_reachable, proc_init. caller r_spawn. caller r_assign.
  monitor m_parse. monitor m_id. monitor m_perm. monitor m_create. caller r_wait. monitor m_assign.
  joining j_enter. stopping s_kill. stopping s_timeout. stopping s_reset_in_use.
  apply rtc_refl. Unshelve. done.
Qed.
