(* ===== verification/System.v ===== *)
(** * The server with its threads

    The requests of Server.v, [Server::VmThread] of services/server.cc on the
    registry itself, and the calls of the startup listener, in any
    interleaving.  The main thread handles one request at a time and, in a
    start request, waits for the latch of the guest it has made; every started
    guest has a thread of its own; the guests' calls arrive on the listener's
    threads.

    A request that is not waited for, a turn of a guest's thread, a call of a
    guest and a signal are each one step.  The turns are those of StartProtocol.v, except
    that a turn of [WaitVmReady] is two steps here, the check that the
    emulator runs and the check of the state after the wait. *)

From S2P Require Import Prelude.
From S2P Require Import CStd.
From S2P Require Import Boost.
From S2P Require Import Os.
From S2P Require Import CidPool.
From S2P Require Import Config.
From S2P Require Import Builder.
From S2P Require Import Listener.
From S2P Require Import Server.
From S2P Require Import ServerProps.
From S2P Require Import StartProtocol.

Local Open Scope Z_scope.

(** The thread of a guest and the latch it shares with its start request. *)
Record Thr : Type := mkThr {
  pc : ThreadPc;
  checked : bool;          (** this turn has seen the emulator running *)
  t_latch : Z;             (** what is left of the latch *)
  t_count : Z;             (** what it was made with *)
}.

Definition goto (t : ThreadPc) (x : Thr) : Thr := mkThr t false (t_latch x) (t_count x).
Definition counted (x : Thr) : Thr := mkThr (pc x) false (count_down (t_latch x)) (t_count x).

(** The main thread, between requests or inside a start request. *)
Inductive Phase : Type :=
| Idle
| Waiting (p : nat)        (** [notify_cont.wait()] *)
| Reading (p : nat).       (** [vb->GetState()] *)

Section system.
Context {B : Boost} {E : OsEnv} {V : VmBuilder}.

Record Sys : Type := mkSys {
  srv : Srv;
  phase : Phase;
  threads : gmap nat Thr;  (** by the guest they run *)
  results : gmap nat Z;    (** what the start request of a guest has returned *)
  called : list nat;       (** guests whose ready call has been taken *)
  listening : bool;        (** the listener has not been shut down *)
  over : bool;             (** the loop was left by an exception, or the process is gone *)
}.

Definition set_srv (x : Srv) (s : Sys) : Sys :=
  mkSys x (phase s) (threads s) (results s) (called s) (listening s) (over s).
Definition set_phase (f : Phase) (s : Sys) : Sys :=
  mkSys (srv s) f (threads s) (results s) (called s) (listening s) (over s).
Definition set_thread (p : nat) (x : Thr) (s : Sys) : Sys :=
  mkSys (srv s) (phase s) (<[p := x]> (threads s)) (results s) (called s) (listening s) (over s).
Definition set_result (p : nat) (r : Z) (s : Sys) : Sys :=
  mkSys (srv s) (phase s) (threads s) (<[p := r]> (results s)) (called s) (listening s) (over s).
Definition set_called (c : Callback) (s : Sys) : Sys :=
  mkSys (srv s) (phase s) (threads s) (results s) (option_list c ++ called s) (listening s) (over s).
Definition set_over (s : Sys) : Sys :=
  mkSys (srv s) (phase s) (threads s) (results s) (called s) (listening s) true.
(** [Server::Stop], called by the signal handler on whatever thread it
    interrupts. *)
Definition signalled (s : Sys) : Sys :=
  mkSys (set_stop true (srv s)) (phase s) (threads s) (results s) (called s) false (over s).

Definition on_listener {A} (c : M StartupListenerImpl A) : M Srv A :=
  lift listener set_listener c.

(** One turn of [Server::VmThread(vb, notify_cont)]. *)
Definition thread_turn (p : nat) (x : Thr) : M Srv Thr :=
  match pc x with
  | TStart => via p StartVm ;; mret (goto TCount x)
  | TCount =>
      let x' := counted x in
      mret (goto (if t_latch x' =? 0 then TReady else TPending) x')
  | TReady => via p SetVmReady ;; mret (goto TExit x)
  | TExit => via p WaitVmExit ;; mret (goto TDelete x)
  | TDelete =>
      name ← via p (gets (λ s : vb * Glob, GetName s.1));
      DeleteVmInstance name ;; mret (goto TEnd x)
  | TPending =>
      cid ← via p (gets (λ s : vb * Glob, GetCid s.1));
      on_listener (AddPendingVM cid (Some p)) ;; mret (goto (TWait 200) x)
  | TWait O => mret (goto TDeleteFail x)
  | TWait (S n) =>
      if checked x then
        st ← via p (gets (λ s : vb * Glob, GetState s.1));
        mret (goto (if bool_decide (st = kVmRunning) then TCountOk else TWait n) x)
      else
        run ← via p MainRunning;
        mret (if (run : bool) then mkThr (pc x) true (t_latch x) (t_count x) else goto TDeleteFail x)
  | TCountOk => mret (goto TExit (counted x))
  | TDeleteFail =>
      name ← via p (gets (λ s : vb * Glob, GetName s.1));
      DeleteVmInstance name ;; mret (goto TCountFail x)
  | TCountFail => mret (goto TEnd (counted x))
  | TEnd => blocked
  end.

(** A call of a guest, with the callback it runs. *)
Definition ready_call (peer : string) : M Srv (Status * Callback) :=
  r ← on_listener (VmReady peer);
  (match r.2 with Some p => via p SetVmReady | None => skip end) ;;
  mret r.

(** What happens next. *)
Inductive sys_event : Type :=
| SysRequest (type : CivMsgType) (payload : string)   (** a message for the main thread *)
| SysWake                                             (** the latch lets the main thread go on *)
| SysAnswer                                           (** the start request returns *)
| SysThread (p : nat)                                 (** a turn of a guest's thread *)
| SysReady (peer : string)                            (** a call of a guest *)
| SysSignal.                                          (** SIGINT or SIGTERM *)

(** A computation on the server's state as a step; one that never comes back
    is no step, and an exception ends the run. *)
Definition settle {A} (c : M Srv A) (k : A → Sys → Sys) (s : Sys) : option Sys :=
  match c (srv s) with
  | (Ret a, x) => Some (k a (set_srv x s))
  | (Throw _, x) => Some (set_over (set_srv x s))
  | (Blocked, _) => None
  end.

(** Requests other than a start are handled at once. *)
Definition no_wait : nat → Z → Srv → Srv := λ _ _ s, s.

(** What a start request leaves behind before it waits. *)
Definition start_thread (r : option (nat * Z)) (s : Sys) : Sys :=
  match r with
  | Some (p, n) => set_phase (Waiting p) (set_thread p (mkThr TStart false n n) s)
  | None => s
  end.

Definition sys_do (ev : sys_event) (s : Sys) : option Sys :=
  if over s then None else
  match ev, phase s with
  | SysRequest type payload, Idle =>
      if stop_server_ (srv s) then None else
      match type with
      | kCivMsgStartVm => settle (StartVm_prepare payload) start_thread s
      | _ => settle (dispatch no_wait type payload) (λ _ s, s) s
      end
  | SysWake, Waiting p =>
      match threads s !! p with
      | Some x => if t_latch x =? 0 then Some (set_phase (Reading p) s) else None
      | None => None
      end
  | SysAnswer, Reading p =>
      settle (StartVm_finish p) (λ r s, set_phase Idle (set_result p r s)) s
  | SysThread p, _ =>
      match threads s !! p with
      | Some x => settle (thread_turn p x) (set_thread p) s
      | None => None
      end
  | SysReady peer, _ =>
      if listening s then settle (ready_call peer) (λ r, set_called r.2) s else None
  | SysSignal, _ => Some (signalled s)
  | _, _ => None
  end.

Definition sys_step (s s' : Sys) : Prop := ∃ ev, sys_do ev s = Some s'.

(** A server that has not started a guest yet. *)
Record sys_init (s : Sys) : Prop := {
  init_inv : server_inv (srv s);
  init_phase : phase s = Idle;
  init_threads : threads s = ∅;
  init_pending : ∀ c p, pending_vms_ (listener (srv s)) !! c ≠ Some (Some p);
}.

Definition sys_reachable (s : Sys) : Prop := ∃ s0, sys_init s0 ∧ rtc sys_step s0 s.

(** A sequence of events, as far as they are possible. *)
Fixpoint sys_run (l : list sys_event) (s : Sys) : option Sys :=
  match l with
  | [] => Some s
  | ev :: l => s' ← sys_do ev s; sys_run l s'
  end.

Lemma sys_run_steps l s s' : sys_run l s = Some s' → rtc sys_step s s'.
Proof.
  revert s. induction l as [|ev l IH]; intros s; cbn [sys_run]; [intros [= <-]; apply rtc_refl|].
  intros (s1 & Hs & Hl)%bind_Some. eapply rtc_l; [by exists ev|by apply IH].
Qed.
End system.
