(* ===== verification/SystemProps.v ===== *)
(** * Correctness of the server with its threads

    The invariant of the whole system, and that each started guest, seen alone,
    goes through the protocol of StartProtocol.v. *)

From S2P Require Import Prelude.
From S2P Require Import CStd.
From S2P Require Import Boost.
From S2P Require Import Os.
From S2P Require Import CidPool.
From S2P Require Import Config.
From S2P Require Import Builder.
From S2P Require Import Listener.
From S2P Require Import Server.
From S2P Require Import ServerProps.
From S2P Require Import StartProtocol.
From S2P Require Import System.

Local Open Scope Z_scope.

(** ** Guests by address *)

Section objects.
Context {B : Boost} {E : OsEnv} {V : VmBuilder}.

Definition obj_in (p : nat) (l : list (nat * vb)) : option vb :=
  (λ x, x.2.2) <$> list_find (λ pv : nat * vb, pv.1 = p) l.

(** The guest at an address, and its state; [None] when it is gone. *)
Definition obj (p : nat) (s : Srv) : option vb := obj_in p (vmis_ s).
Definition vst (p : nat) (s : Srv) : option VmState := GetState <$> obj p s.

Lemma obj_in_cons p q v l : obj_in p ((q, v) :: l) = if decide (q = p) then Some v else obj_in p l.
Proof.
  unfold obj_in. cbn. destruct (decide (q = p)); [done|]. rewrite <-option_fmap_compose.
  by destruct (list_find _ l) as [[]|].
Qed.

Lemma obj_in_None p l : p ∉ l.*1 → obj_in p l = None.
Proof.
  induction l as [|[q v] l IH]; [done|]. rewrite fmap_cons, not_elem_of_cons, obj_in_cons.
  intros [Hq Hl]. rewrite decide_False by done. auto.
Qed.

Lemma obj_in_app p l1 l2 :
  obj_in p (l1 ++ l2) = match obj_in p l1 with Some v => Some v | None => obj_in p l2 end.
Proof.
  induction l1 as [|[q v] l1 IH]; [done|]. cbn [app]. rewrite !obj_in_cons. by case_decide.
Qed.

Lemma index_of_cons p q v l :
  index_of p ((q, v) :: l) = if decide (q = p) then Some 0%nat else S <$> index_of p l.
Proof.
  unfold index_of. cbn. destruct (decide (q = p)); [done|]. rewrite <-!option_fmap_compose.
  by destruct (list_find _ l) as [[]|].
Qed.

Lemma index_of_obj p l :
  match index_of p l with
  | Some i => ∃ v, l !! i = Some (p, v) ∧ obj_in p l = Some v
  | None => obj_in p l = None
  end.
Proof.
  induction l as [|[q v] l IH]; [done|]. rewrite index_of_cons, obj_in_cons.
  case_decide as Hq; [subst; eauto|]. by destruct (index_of p l).
Qed.

Lemma obj_in_insert p q v v' l i :
  NoDup l.*1 → l !! i = Some (p, v) →
  obj_in q (<[i := (p, v')]> l) = if decide (q = p) then Some v' else obj_in q l.
Proof.
  revert i. induction l as [|[r w] l IH]; intros i; [done|]. rewrite fmap_cons, NoDup_cons.
  intros [Hr Hl]. destruct i as [|i]; cbn [lookup list_lookup insert list_insert].
  - intros [= -> ->]. rewrite !obj_in_cons. repeat case_decide; congruence.
  - intros Hi. rewrite !obj_in_cons, IH by done. repeat case_decide; try congruence. subst.
    destruct Hr. apply list_elem_of_fmap. eexists (_, _). split; [|by eapply list_elem_of_lookup_2].
    done.
Qed.

Lemma obj_in_delete p q v l i :
  NoDup l.*1 → l !! i = Some (p, v) →
  obj_in q (delete i l) = if decide (q = p) then None else obj_in q l.
Proof.
  revert i. induction l as [|[r w] l IH]; intros i; [done|]. rewrite fmap_cons, NoDup_cons.
  intros [Hr Hl]. destruct i as [|i]; cbn [lookup list_lookup].
  - intros [= -> ->]. change (delete 0%nat ((p, v) :: l)) with l. rewrite obj_in_cons. cbn in Hr.
    repeat case_decide; try congruence. subst. by apply obj_in_None.
  - intros Hi. change (delete (S i) ((r, w) :: l)) with ((r, w) :: delete i l).
    rewrite !obj_in_cons, (IH i) by done. repeat case_decide; try congruence. subst.
    destruct Hr. apply list_elem_of_fmap. eexists (_, _). split; [|by eapply list_elem_of_lookup_2].
    done.
Qed.

(** Where a guest stands in the registry. *)
Lemma obj_lookup p v s : obj p s = Some v → ∃ i, index_of p (vmis_ s) = Some i ∧ vmis_ s !! i = Some (p, v).
Proof.
  unfold obj. pose proof (index_of_obj p (vmis_ s)) as H.
  destruct (index_of p (vmis_ s)) as [i|]; [|congruence].
  destruct H as (v' & Hi & Hv). rewrite Hv. intros [= <-]. eauto.
Qed.

Lemma lookup_obj i p v s : server_inv s → vmis_ s !! i = Some (p, v) → obj p s = Some v.
Proof.
  intros Hi Hl. pose proof (obj_in_insert p p v v (vmis_ s) i (si_pointers _ Hi) Hl) as He.
  by rewrite decide_True, list_insert_id in He.
Qed.

Lemma obj_old p s v : server_inv s → obj p s = Some v → (p < next_vb s)%nat.
Proof.
  intros Hi (i & _ & Hl)%obj_lookup. pose proof (si_next _ Hi) as Hx. rewrite Forall_forall in Hx.
  apply Hx. unfold pointers. apply list_elem_of_fmap. apply list_elem_of_lookup_2 in Hl. by exists (p, v).
Qed.

(** A method through a pointer changes that guest and what all guests share. *)
Lemma via_run {A} p (c : M (vb * Glob) A) s :
  NoDup (pointers s) →
  match obj p s with
  | None => via p c s = (Throw ExTerminate, s)
  | Some v => ∃ s', via p c s = ((c (v, glob s)).1, s')
      ∧ (∀ q, obj q s' = if decide (q = p) then Some (c (v, glob s)).2.1 else obj q s)
      ∧ next_vb s' = next_vb s ∧ listener s' = listener s ∧ glob s' = (c (v, glob s)).2.2
  end.
Proof.
  intros Hnd. unfold via, obj at 1. pose proof (index_of_obj p (vmis_ s)) as H.
  destruct (index_of p (vmis_ s)) as [i|]; [|by rewrite H].
  destruct H as (v & Hi & ->). unfold on_vm. rewrite Hi.
  destruct (c (v, glob s)) as [r [v' g]]. cbn. eexists. split; [done|]. cbn. split_and!; try done.
  intros q. by apply (obj_in_insert p q v).
Qed.

(** What is read through a pointer. *)
Lemma via_gets {A} p (f : vb → A) s :
  NoDup (pointers s) →
  via p (gets (λ t : vb * Glob, f t.1)) s = match obj p s with
                                          | Some v => (Ret (f v), s)
                                          | None => (Throw ExTerminate, s)
                                          end.
Proof.
  intros Hnd. unfold via, obj. pose proof (index_of_obj p (vmis_ s)) as H.
  destruct (index_of p (vmis_ s)) as [i|]; [|by rewrite H].
  destruct H as (v & Hi & ->). unfold on_vm, gets. rewrite Hi. cbn. f_equal.
  rewrite list_insert_id by done. by destruct s.
Qed.
End objects.

(** ** Steps that leave the other guests alone *)

Section quiet.
Context {B : Boost} {E : OsEnv} {V : VmBuilder} (L : VmBuilderLaws V).

(** The guest registered under a name is the only one. *)
Lemma find_vm_obj name s i p v :
  server_inv s → find_vm name (vmis_ s) = Some i → obj p s = Some v → GetName v = name →
  vmis_ s !! i = Some (p, v).
Proof.
  intros Hi Hf (j & _ & Hj)%obj_lookup Hn. destruct (find_vm_Some _ _ _ Hf) as (p' & v' & Hi' & Hn').
  assert (i = j) as ->; [|done].
  eapply (NoDup_lookup (names s)); [apply Hi|..]; unfold names; rewrite list_lookup_fmap.
  - by rewrite Hi'; cbn; rewrite Hn'.
  - by rewrite Hj; cbn; rewrite Hn.
Qed.

Lemma destroy_run v s :
  destroy v s = ((noexcept Delete (v, glob s)).1, set_glob (noexcept Delete (v, glob s)).2.2 s).
Proof. unfold destroy. by destruct (noexcept _ _) as [r [v' g]]. Qed.

(** Deleting a registered guest by its name deletes just this one. *)
Lemma DeleteVmInstance_run s p v :
  server_inv s → obj p s = Some v →
  ∃ r s', DeleteVmInstance (GetName v) s = (r, s')
    ∧ (∀ q, obj q s' = if decide (q = p) then None else obj q s)
    ∧ next_vb s' = next_vb s ∧ listener s' = listener s ∧ (vb_built v → r ≠ Blocked)
    ∧ (∀ u, r = Ret u → ∃ v', Delete (v, glob s) = (Ret tt, (v', glob s'))).
Proof using L.
  intros Hi Hp. unfold DeleteVmInstance, FindVmInstance. sx_unfold.
  destruct (find_vm (GetName v) (vmis_ s)) as [i|] eqn:Hf; cycle 1.
  { apply find_vm_None in Hf as []. apply obj_lookup in Hp as (i & _ & Hl).
    apply list_elem_of_fmap. exists (p, v). by split; [|eapply list_elem_of_lookup_2]. }
  assert (vmis_ s !! i = Some (p, v)) as Hl by (by eapply find_vm_obj).
  rewrite Hl, destroy_run.
  eexists _, _. split; [done|]. cbn. split_and!; try done.
  - intros q. apply (obj_in_delete p q v); [apply Hi|done].
  - intros Hb. pose proof (delete_back (v, glob s) Hb) as Hd. unfold noexcept.
    by destruct (Delete (v, glob s)) as [[] ?].
  - intros u. unfold noexcept. destruct (Delete (v, glob s)) as [[[]|e|] [v' g']]; [|done..]. by exists v'.
Qed.

(** The state of a guest that has been started, or is gone. *)
Definition settled (o : option VmState) : Prop := o ≠ Some kVmCreated ∧ o ≠ Some kVmEmpty.

(** What a request may do: new guests come, and only guests that have not been
    started change their state or go. *)
Record quiet (s s' : Srv) : Prop := {
  q_next : (next_vb s ≤ next_vb s')%nat;
  q_same : ∀ p, (p < next_vb s)%nat → settled (vst p s) → vst p s' = vst p s;
  q_listener : listener s' = listener s;
}.

#[export] Instance quiet_preorder : PreOrder quiet.
Proof.
  split; [by intros s; split|]. intros s1 s2 s3 [Hn Hs Hl] [Hn' Hs' Hl']. split; [lia| |congruence].
  intros p Hp Hst. rewrite Hs', Hs; try done; [lia|]. by rewrite Hs.
Qed.

Lemma quiet_idle s s' : idle s s' → quiet s s'.
Proof. intros (Hv & Hn & _ & Hl). split; [lia| |done]. intros p _ _. unfold vst, obj. by rewrite Hv. Qed.

Lemma quiet_srv_os {A} (c : M OsSt A) : grows quiet (srv_os c).
Proof. intros s. unfold srv_os, lift. destruct (c _). apply quiet_idle. by split_and!. Qed.

(** A method that keeps the guest's state. *)
Lemma quiet_on_vm {A} i (c : M (vb * Glob) A) :
  (∀ s, GetState (c s).2.1 = GetState s.1) →
  ∀ s, NoDup (pointers s) → quiet s (on_vm i c s).2.
Proof.
  intros Hc s Hnd. unfold on_vm. destruct (vmis_ s !! i) as [[p v]|] eqn:Hi; [|reflexivity].
  specialize (Hc (v, glob s)). destruct (c (v, glob s)) as [r [v' g]]. cbn in *.
  split; [done| |done]. intros q _ _. unfold vst, obj. cbn [vmis_ set_glob set_vmis].
  rewrite (obj_in_insert p q v) by done.
  case_decide as Hq; [|done]. subst. cbn. rewrite Hc.
  pose proof (obj_in_insert p p v v (vmis_ s) i Hnd Hi) as He. rewrite decide_True in He by done.
  rewrite list_insert_id in He by done. by rewrite He.
Qed.

Lemma quiet_joined s s' p : server_inv s → joined s s' p → quiet s s'.
Proof.
  intros Hi (-> & Hn & Hl & v & Hv & _). split; [lia| |done].
  intros q Hq _. unfold vst, obj. rewrite Hv, obj_in_app. destruct (obj_in q (vmis_ s)) as [w|]; [done|].
  rewrite obj_in_cons, decide_False by lia. done.
Qed.
End quiet.

(** ** Requests *)

Section requests.
Context {B : Boost} {E : OsEnv} {V : VmBuilder} (L : VmBuilderLaws V).

Definition serving (s0 s : Srv) : Prop := server_inv s ∧ quiet s0 s.

Lemma serving_idle {A} s0 (c : M Srv A) :
  grows idle c → hoare (serving s0) c (λ _, serving s0) (λ _, True).
Proof.
  intros Hc s [Hi Hq]. specialize (Hc s). destruct (c s) as [[]x]; [|done..]. cbn in Hc.
  split; [by eapply idle_inv|]. etrans; [done|by apply quiet_idle].
Qed.

Lemma serving_make s0 name c :
  hoare (λ s, serving s0 s ∧ find_vm name (vmis_ s) = None) (make_vm name c)
    (λ _, serving s0) (λ _, True).
Proof using L.
  intros s [[Hi Hq] Hf]. pose proof (make_vm_cases L name c s Hi Hf) as Hc.
  pose proof (hoare_make_vm L name c s (conj Hi Hf)) as Hinv.
  destruct (make_vm name c s) as [[[p|]|e|] x]; [..|done|done]; (split; [done|]); etrans; try done.
  - by eapply quiet_joined.
  - by apply quiet_idle.
Qed.

Lemma serving_delete s0 name st :
  st = kVmCreated ∨ st = kVmEmpty →
  hoare (λ s, serving s0 s ∧ denotes name st s) (DeleteVmInstance name)
    (λ _ s, serving s0 s ∧ find_vm name (vmis_ s) = None) (λ _, True).
Proof using L.
  intros Hst s [[Hi Hq] (i & p & v & Hf & Hv & Hs)].
  pose proof (hoare_DeleteVmInstance L name s Hi) as Hd.
  pose proof (lookup_obj i p v s Hi Hv) as Hp.
  destruct (find_vm_Some _ _ _ Hf) as (p' & v' & Hv' & <-). rewrite Hv in Hv'. simplify_eq.
  destruct (DeleteVmInstance_run L s p' v' Hi Hp) as (r & s' & Hr & Ho & Hn & Hl & _).
  rewrite Hr in *. destruct r; [|done..]. destruct Hd as [Hi' Hf']. split; [|done]. split; [done|].
  etrans; [done|]. split; [lia| |done]. intros q _ [Hc He]. unfold vst in *. rewrite Ho.
  case_decide as Hqp; [|done]. subst. rewrite Hp in *. cbn in *. destruct Hst; congruence.
Qed.

Ltac serving_step s0 :=
  lazymatch goal with
  | |- hoare (serving s0) (if _ then mret _ else _) _ _ =>
      apply hoare_if; intros ?; [by apply hoare_ret_imp|]
  | |- hoare (serving s0) (_ ≫= _) _ _ =>
      apply (hoare_bind _ _ _ (λ _, serving s0)); [apply serving_idle; by auto 2 with civ nocore|intros ?]
  end.

Lemma serving_ImportVm s0 payload :
  hoare (serving s0) (ImportVm payload) (λ _, serving s0) (λ _, True).
Proof using L.
  apply hoare_ImportVm_steps; [intros ?; apply serving_idle|apply serving_make|intros ?; apply serving_delete].
Qed.

Lemma serving_StopVm s0 payload :
  hoare (serving s0) (Server_StopVm payload) (λ _, serving s0) (λ _, True).
Proof using L.
  unfold Server_StopVm, FindVmInstance. do 2 serving_step s0. apply hoare_gets. intros [id|].
  2: { apply hoare_ret_imp. by intros s [Hs _]. }
  eapply hoare_pre; [by intros s [Hs _]; exact Hs|]. serving_step s0.
  apply (hoare_bind _ _ _ (λ _, serving s0)).
  { intros s [Hi Hq]. pose proof (quiet_srv_os (os (GrpcShutdown
      ("vsock:" +:+ to_string a1 +:+ ":" +:+ to_string kCivPowerCtlListenerPort))) s) as H.
    match goal with |- context [srv_os ?c s] => pose proof (guests_os c s) as Hg end.
    destruct (srv_os _ s) as [[]x]; [|done..]. split; [by eapply same_guests_inv|by etrans]. }
  intros ok. apply (hoare_bind _ _ _ (λ _, serving s0)); [|intros ?; by apply hoare_ret_imp].
  apply hoare_if; intros _; [|by apply hoare_ret_imp].
  intros s [Hi Hq]. pose proof (quiet_on_vm id StopVm stop_state s (si_pointers _ Hi)) as H.
  pose proof (guests_on_vm id StopVm stop_frame s) as Hg.
  destruct (on_vm id StopVm s) as [[]x]; [|done..]. split; [by eapply same_guests_inv|by etrans].
Qed.

Lemma serving_dispatch s0 type payload :
  type ≠ kCivMsgStartVm →
  hoare (serving s0) (dispatch no_wait type payload) (λ _, serving s0) (λ _, True).
Proof using L.
  intros Ht. destruct type; cbn [dispatch];
    first [done|by apply hoare_ret_imp
          |apply (hoare_bind _ _ _ (λ _, serving s0)); [|intros ?; by apply hoare_ret_imp]];
    auto using serving_ImportVm, serving_StopVm.
  - intros s [Hi [Hn Hs Hl]]. destruct Hi. split; [by split|]. by split.
  - unfold ListVm. do 2 serving_step s0. serving_step s0. by apply hoare_ret_imp.
  - unfold GetVmInfo, FindVmInstance. do 2 serving_step s0. apply hoare_gets. intros [id|].
    2: { apply hoare_ret_imp. by intros s [Hs _]. }
    eapply hoare_pre; [by intros s [Hs _]; exact Hs|]. do 2 serving_step s0. by apply hoare_ret_imp.
Qed.
End requests.

(** ** The simulation *)

Section simulation.
Context {B : Boost} {E : OsEnv} {V : VmBuilder} (L : VmBuilderLaws V).

(** The start request of a guest, as StartProtocol.v sees it. *)
Definition main_of (p : nat) (s : Sys) : option MainPc :=
  match phase s with
  | Waiting q => if decide (q = p) then Some MWait else MDone <$> results s !! p
  | Reading q => if decide (q = p) then Some MRead else MDone <$> results s !! p
  | Idle => MDone <$> results s !! p
  end.

Definition pend (s : Srv) : gmap Z Callback := pending_vms_ (listener s).

(** The thread [x] of guest [p] stands where the protocol stands in [a]. *)
Record sim (p : nat) (s : Sys) (x : Thr) (a : Proto) : Prop := {
  sm_thr : thr a = pc x;
  sm_latch : latch a = t_latch x;
  sm_main : main_of p s = Some (main a);
  sm_vm : vm a = vst p (srv s);
  sm_pend : ∀ c, pend (srv s) !! c = Some (Some p) → pending a = true;
  sm_called : reported a = true → p ∈ called s;
  sm_freed : used_freed a = false;
}.

Record thr_ok (s : Sys) (p : nat) (x : Thr) : Prop := {
  th_old : (p < next_vb (srv s))%nat;
  th_count : t_count x = 1 ∨ t_count x = 2;
  th_start : pc x = TStart → phase s = Waiting p;
  th_settled : pc x ≠ TStart → settled (vst p (srv s));
  th_built : phase s = Waiting p → t_latch x ≠ 0 → ∀ v, obj p (srv s) = Some v → vb_built v;
}.

Definition followed (s : Sys) (p : nat) (x : Thr) : Prop :=
  thr_ok s p x ∧ ∃ a, preachable (t_count x) a ∧ sim p s x a.

(** The invariant of the system. *)
Record good (s : Sys) : Prop := {
  gd_inv : server_inv (srv s);
  gd_thr : ∀ p x, threads s !! p = Some x → followed s p x;
  gd_pend : ∀ c p, pend (srv s) !! c = Some (Some p) → is_Some (threads s !! p);
  gd_once : ∀ c c' p, pend (srv s) !! c = Some (Some p) → pend (srv s) !! c' = Some (Some p) → c = c';
  gd_wait : ∀ p, phase s = Waiting p → is_Some (threads s !! p);
}.

(** What a turn of the thread of [p] may do. *)
Record turned (p : nat) (s y : Srv) : Prop := {
  tu_inv : server_inv y;
  tu_other : ∀ q, q ≠ p → obj q y = obj q s;
  tu_next : next_vb y = next_vb s;
}.

Lemma turned_via {A} p (c : M (vb * Glob) A) s0 :
  grows vm_frame c → hoare (turned p s0) (via p c) (λ _, turned p s0) (λ _, True).
Proof.
  intros Hc s [Hi Ho Hn]. pose proof (via_run p c s (si_pointers _ Hi)) as Hr.
  pose proof (guests_via p c Hc s) as Hg.
  destruct (obj p s) as [v|]; [|by rewrite Hr]. destruct Hr as (y & Hr & Hy & Hn' & Hl & _).
  rewrite Hr in *. destruct (c (v, glob s)).1; [|done..]. split.
  - by eapply same_guests_inv.
  - intros q Hq. rewrite Hy, decide_False by done. auto.
  - congruence.
Qed.

Lemma turned_delete p name s0 :
  hoare (λ s, turned p s0 s ∧ ∃ v, obj p s = Some v ∧ GetName v = name) (DeleteVmInstance name)
    (λ _, turned p s0) (λ _, True).
Proof using L.
  intros s [[Hi Ho Hn] (v & Hv & <-)].
  pose proof (hoare_DeleteVmInstance L (GetName v) s Hi) as Hd.
  destruct (DeleteVmInstance_run L s p v Hi Hv) as (r & y & Hr & Hy & Hn' & Hl & _).
  rewrite Hr in *. destruct r; [|done..]. split; [apply Hd| |congruence].
  intros q Hq. rewrite Hy, decide_False by done. auto.
Qed.

Lemma thread_turned p x s :
  server_inv s → match thread_turn p x s with (Ret _, y) => turned p s y | _ => True end.
Proof using L.
  intros Hi.
  enough (hoare (turned p s) (thread_turn p x) (λ _, turned p s) (λ _, True)) as H.
  { specialize (H s). destruct (thread_turn p x s) as [[]y]; [|done..]. apply H. split; auto. }
  assert (∀ A (c : M (vb * Glob) A) (x' : A → Thr), grows vm_frame c →
    hoare (turned p s) (a ← via p c; mret (x' a)) (λ _, turned p s) (λ _, True)) as Hvia.
  { intros A c x' Hc. eapply hoare_bind; [by apply turned_via|]. intros a. by apply hoare_ret_imp. }
  assert (∀ x' : Thr, hoare (turned p s)
    (name ← via p (gets (λ t : vb * Glob, GetName t.1)); DeleteVmInstance name ;; mret x')
    (λ _, turned p s) (λ _, True)) as Hdel.
  { intros x'. apply (hoare_bind _ _ _ (λ name y, turned p s y ∧ ∃ v, obj p y = Some v ∧ GetName v = name)).
    - intros y Hy. rewrite via_gets by apply si_pointers, (tu_inv _ _ _ Hy). destruct (obj p y) as [v|] eqn:Hv; [|done]. eauto.
    - intros name. eapply hoare_bind; [apply turned_delete|]. intros ?. by apply hoare_ret_imp. }
  unfold thread_turn. destruct (pc x) as [| | | | | |[|n]| | | |].
  2,7,9,11: by apply hoare_ret_imp.
  1-3: apply Hvia; auto using start_frame, ready_frame, exit_frame.
  1,4: apply Hdel. 3: done.
  - eapply hoare_bind; [apply turned_via, grows_gets, _|]. intros cid.
    apply (hoare_bind _ _ _ (λ _, turned p s)); [|intros ?; by apply hoare_ret_imp]. intros y [Hy Ho Hn]. split; [|done..].
    destruct Hy. by split.
  - destruct (checked x); apply Hvia; [apply grows_gets, _|apply running_frame].
Qed.

(** Only [AddPendingVM] changes the listener's table. *)
Definition same_pend (s s' : Srv) : Prop := pend s' = pend s.
#[local] Instance same_pend_preorder : PreOrder same_pend.
Proof. split; [by intros s|intros s1 s2 s3 H1 H2; unfold same_pend in *; congruence]. Qed.

Lemma pend_via {A} p (c : M (vb * Glob) A) : grows same_pend (via p c).
Proof.
  intros s. unfold via, on_vm. destruct (index_of p (vmis_ s)) as [i|]; [|done].
  destruct (vmis_ s !! i) as [[q v]|]; [|done]. by destruct (c _) as [r [? ?]].
Qed.
Lemma pend_delete name : grows same_pend (DeleteVmInstance name).
Proof.
  unfold DeleteVmInstance, FindVmInstance. grows_go ltac:(idtac; lazymatch goal with
    | |- grows _ (destroy ?v) => intros ?; unfold destroy; by destruct (noexcept _ _) as [? []]
    | |- grows _ (modify _) => by apply grows_modify
    end).
Qed.

Lemma thread_pend p x s :
  match thread_turn p x s with
  | (Ret _, y) => pend y = pend s ∨ pc x = TPending ∧ ∃ c, pend y = <[c := Some p]> (pend s)
  | _ => True
  end.
Proof.
  destruct (decide (pc x = TPending)) as [Hpc|Hpc].
  - unfold thread_turn. rewrite Hpc. unfold mbind at 1, M_bind.
    match goal with |- context [via p ?c s] => pose proof (pend_via p c s) as Hv; destruct (via p c s) as [[cid|e|] y] end;
      [|done..]. cbn in *. right. split; [done|]. exists cid. unfold same_pend, pend in *. cbn. by rewrite Hv.
  - assert (grows same_pend (thread_turn p x)) as Hg.
    { unfold thread_turn. destruct (pc x) as [| | | | | |[|n]| | | |]; try done;
        grows_go ltac:(first [apply pend_via | apply pend_delete]). }
    specialize (Hg s). destruct (thread_turn p x s) as [[]y]; [by left|done..].
Qed.

(** A method that comes back was called on a guest that is there. *)
Lemma via_ret {A} p (c : M (vb * Glob) A) s r y :
  server_inv s → via p c s = (Ret r, y) →
  ∃ v v' g, obj p s = Some v ∧ c (v, glob s) = (Ret r, (v', g)) ∧ obj p y = Some v'
    ∧ pend y = pend s ∧ next_vb y = next_vb s.
Proof.
  intros Hi Hr. pose proof (via_run p c s (si_pointers _ Hi)) as Hv.
  destruct (obj p s) as [v|]; [|by rewrite Hr in Hv]. destruct Hv as (y' & Hy & Ho & Hn & Hl & _).
  rewrite Hy in Hr. destruct (c (v, glob s)) as [r' [v' g]] eqn:Hc. cbn in Hr. simplify_eq.
  exists v, v', g. unfold pend. specialize (Ho p). rewrite decide_True in Ho by done. by rewrite Hl.
Qed.

(** A turn that the protocol follows with a step, or without one. *)
Lemma followed_step s p x x' y a a' :
  thr_ok s p x → preachable (t_count x) a → sim p s x a →
  a' = a ∨ vm_thread a a' → main a' = main a → reported a' = reported a → used_freed a' = used_freed a →
  thr a' = pc x' → latch a' = t_latch x' → vm a' = vst p y →
  (∀ c, pend y !! c = Some (Some p) → pending a' = true) →
  next_vb y = next_vb (srv s) → t_count x' = t_count x → pc x' ≠ TStart → settled (vst p y) →
  (phase s = Waiting p → t_latch x' ≠ 0 → ∀ v, obj p y = Some v → vb_built v) →
  followed (set_thread p x' (set_srv y s)) p x'.
Proof.
  intros [] Ha [] Hst Hm Hr Hf Hth Hla Hvm Hpe Hn Hc Hpc Hse Hb. split.
  - split; cbn; [by rewrite Hn|by rewrite Hc|done|done|done].
  - rewrite Hc. exists a'. split.
    + destruct Hst as [-> |Hst]; [done|]. eapply rtc_r; [exact Ha|by left].
    + split; try done; [by rewrite Hm|by rewrite Hr|by rewrite Hf].
Qed.

End simulation.

(** *** One turn *)

Section turn.
Context {B : Boost} {E : OsEnv} {V : VmBuilder} (L : VmBuilderLaws V).
Context (s : Sys) (p : nat) (x : Thr) (a : Proto).
Context (Hi : server_inv (srv s)) (Hok : thr_ok s p x).
Context (Ha : preachable (t_count x) a) (Hs : sim p s x a).

Lemma sim_vm v : obj p (srv s) = Some v → vm a = Some (GetState v).
Proof. intros Hv. rewrite (sm_vm _ _ _ _ Hs). unfold vst. by rewrite Hv. Qed.

Lemma sim_latch : t_latch x = latch_at (t_count x) (pc x).
Proof. rewrite <-(sm_latch _ _ _ _ Hs), <-(sm_thr _ _ _ _ Hs). by apply proto_latch; [apply Hok|]. Qed.

(** A turn on the latch alone. *)
Lemma followed_same x' t n :
  pc x ≠ TStart → t ≠ TStart → x' = mkThr t false n (t_count x) → (n ≠ 0 → t_latch x ≠ 0) →
  vm_thread a (with_thr t (with_latch n a)) →
  followed (set_thread p x' (set_srv (srv s) s)) p x'.
Proof.
  intros Hp Ht -> Hl Hst. pose proof Hok as [_ _ _ Hse Hb]. pose proof Hs as [_ _ _ Hvm Hpe _ _].
  apply (followed_step s p x _ _ a (with_thr t (with_latch n a))); cbn; auto.
Qed.

(** The guest is deleted. *)
Lemma followed_delete x' y t :
  t ≠ TStart → x' = goto t x →
  (∀ v, vm a = Some v → vm_thread a (with_thr t (with_vm None a))) →
  (name ← via p (gets (λ u : vb * Glob, GetName u.1)); DeleteVmInstance name ;; mret x') (srv s) = (Ret x', y) →
  followed (set_thread p x' (set_srv y s)) p x'.
Proof using All.
  intros Ht -> Hst (name & y1 & H1 & (u & y2 & H2 & [= <-])%bind_ret_inv)%bind_ret_inv.
  rewrite via_gets in H1 by apply si_pointers, Hi. destruct (obj p (srv s)) as [v|] eqn:Hv; [|done].
  injection H1 as <- <-.
  destruct (DeleteVmInstance_run L (srv s) p v Hi Hv) as (r & y' & Hr & Ho & Hn & Hl & _).
  rewrite Hr in H2. injection H2 as -> ->. specialize (Ho p). rewrite decide_True in Ho by done.
  assert (vst p y2 = None) as Hno by (unfold vst; by rewrite Ho).
  apply (followed_step s p x _ _ a (with_thr t (with_vm None a))); cbn; rewrite ?Hno; try done.
  - right. eapply Hst, sim_vm, Hv.
  - apply (sm_latch _ _ _ _ Hs).
  - unfold pend. rewrite Hl. apply (sm_pend _ _ _ _ Hs).
  - intros _ _ w. congruence.
Qed.

(** A method is called; [st] is the state it leaves. *)
Lemma followed_call {A} (c : M (vb * Glob) A) r y x' a' t st :
  via p c (srv s) = (Ret r, y) →
  t ≠ TStart → pc x' = t → t_latch x' = t_latch x → t_count x' = t_count x →
  settled (Some st) →
  (∀ v v' g, obj p (srv s) = Some v → c (v, glob (srv s)) = (Ret r, (v', g)) →
     GetState v' = st ∧ (phase s = Waiting p → t_latch x ≠ 0 → vb_built v → vb_built v')) →
  (∀ v, obj p (srv s) = Some v → a' = a ∨ vm_thread a a') →
  a' = with_thr t (with_vm (Some st) a) →
  followed (set_thread p x' (set_srv y s)) p x'.
Proof using Hi Hok Ha Hs.
  intros Hr Ht Hx Hl Hc Hst Hcase Hstep ->.
  destruct (via_ret _ _ _ _ _ Hi Hr) as (v & v' & g & Hv & Hrun & Hv' & Hp & Hn).
  destruct (Hcase v v' g Hv Hrun) as [Hg Hb].
  assert (vst p y = Some st) as Hy by (unfold vst; rewrite Hv'; cbn; by rewrite Hg).
  apply (followed_step s p x _ _ a (with_thr t (with_vm (Some st) a))); cbn; rewrite ?Hy, ?Hx, ?Hl; eauto.
  - apply (sm_latch _ _ _ _ Hs).
  - rewrite Hp. apply (sm_pend _ _ _ _ Hs).
  - intros Hw Hne w Hw'. rewrite Hv' in Hw'. injection Hw' as <-. apply Hb; try done.
    by apply (th_built _ _ _ Hok).
Qed.
End turn.

Section turns.
Context {B : Boost} {E : OsEnv} {V : VmBuilder} (L : VmBuilderLaws V).

Lemma with_vm_same a v : vm a = v → with_vm v a = a.
Proof. destruct a. cbn. by intros ->. Qed.
Lemma with_thr_same a t : thr a = t → with_thr t a = a.
Proof. destruct a. cbn. by intros ->. Qed.
Lemma with_latch_same a n : latch a = n → with_latch n a = a.
Proof. destruct a. cbn. by intros ->. Qed.

(** The guest is entered into the listener. *)
Lemma followed_pending s p x a x' y :
  server_inv (srv s) → thr_ok s p x → preachable (t_count x) a → sim p s x a → pc x = TPending →
  thread_turn p x (srv s) = (Ret x', y) → followed (set_thread p x' (set_srv y s)) p x'.
Proof.
  intros Hi Hok Ha Hs Hpc. unfold thread_turn. rewrite Hpc.
  intros (cid & y1 & H1 & (u & y2 & H2 & [= <- <-])%bind_ret_inv)%bind_ret_inv.
  rewrite via_gets in H1 by apply si_pointers, Hi. destruct (obj p (srv s)) as [v|] eqn:Hv; [|done].
  injection H1 as <- <-. injection H2 as <- <-. pose proof Hok as [_ _ _ Hse Hb].
  apply (followed_step s p x _ _ a (with_thr (TWait 200) (with_pending true a))); try done; cbn.
  - right. eapply t_pending; [by rewrite (sm_thr _ _ _ _ Hs)|by eapply sim_vm].
  - apply (sm_latch _ _ _ _ Hs).
  - apply (sm_vm _ _ _ _ Hs).
  - apply Hse. by rewrite Hpc.
Qed.

(** A turn of the wait. *)
Lemma followed_wait s p x a x' y n :
  server_inv (srv s) → thr_ok s p x → preachable (t_count x) a → sim p s x a → pc x = TWait (S n) →
  thread_turn p x (srv s) = (Ret x', y) → followed (set_thread p x' (set_srv y s)) p x'.
Proof using B L.
  intros Hi Hok Ha Hs Hpc. unfold thread_turn. rewrite Hpc.
  pose proof (sm_thr _ _ _ _ Hs) as Hth. rewrite Hpc in Hth.
  assert (settled (vst p (srv s))) as Hse by (apply (th_settled _ _ _ Hok); by rewrite Hpc).
  destruct (checked x).
  - intros (st & y1 & H1 & [= <- <-])%bind_ret_inv.
    rewrite via_gets in H1 by apply si_pointers, Hi. destruct (obj p (srv s)) as [v|] eqn:Hv; [|done].
    injection H1 as <- <-. pose proof (sim_vm _ _ _ _ Hs v Hv) as Hvm.
    apply (followed_same s p x a Hok Ha Hs _ (if bool_decide (GetState v = kVmRunning) then TCountOk else TWait n)
      (t_latch x)); try done; [by rewrite Hpc|by case_bool_decide|].
    rewrite (with_latch_same a) by apply (sm_latch _ _ _ _ Hs).
    case_bool_decide as Hst; [eapply t_wait_ready|eapply t_wait_more]; rewrite ?Hst in *; done.
  - intros (run & y1 & H1 & [= <- <-])%bind_ret_inv.
    destruct (via_ret _ _ _ _ _ Hi H1) as (v & _ & _ & Hv & _). pose proof (sim_vm _ _ _ _ Hs v Hv) as Hvm.
    unfold vst in Hse. rewrite Hv in Hse. cbn in Hse.
    apply (followed_call s p x a Hi Hok Ha Hs MainRunning run y1 _ (with_thr (if (run : bool) then TWait (S n) else TDeleteFail) a)
      (if (run : bool) then TWait (S n) else TDeleteFail) (GetState v)); try done; try (by destruct run).
    + intros v1 v' g Hv1 Hr. rewrite Hv in Hv1. injection Hv1 as <-. split.
      * pose proof (running_state (v, glob (srv s))) as Hg. by rewrite Hr in Hg.
      * intros _ _ Hb. destruct (running_back (v, glob (srv s)) Hb) as (b & s' & Hr' & Hb').
        rewrite Hr in Hr'. by injection Hr' as <- <-.
    + intros w _. destruct run; [left; by apply with_thr_same|right; by eapply t_wait_died].
    + f_equal. by rewrite with_vm_same.
Qed.

Lemma followed_start s p x a x' y :
  server_inv (srv s) → thr_ok s p x → preachable (t_count x) a → sim p s x a → pc x = TStart →
  thread_turn p x (srv s) = (Ret x', y) → followed (set_thread p x' (set_srv y s)) p x'.
Proof using B L.
  intros Hi Hok Ha Hs Hpc. pose proof (sim_latch s p x a Hok Ha Hs) as Hlat. rewrite Hpc in Hlat.
  unfold thread_turn. rewrite Hpc. intros (u & y1 & H1 & [= <- <-])%bind_ret_inv.
  apply (followed_call s p x a Hi Hok Ha Hs StartVm u y1 _ (with_thr TCount (with_vm (Some kVmBooting) a))
    TCount kVmBooting); try done.
  - intros v v' g Hv Hr.
    assert (vb_built v) as Hb.
    { apply (th_built _ _ _ Hok); [by apply (th_start _ _ _ Hok)| |done].
      rewrite Hlat. cbn. destruct (th_count _ _ _ Hok); lia. }
    pose proof (start_booting (v, glob (srv s)) Hb) as Hboot. rewrite Hr in Hboot. by destruct Hboot.
  - intros v Hv. right. eapply t_start; [by rewrite (sm_thr _ _ _ _ Hs)|by eapply sim_vm].
Qed.

Lemma followed_mark s p x a x' y :
  server_inv (srv s) → thr_ok s p x → preachable (t_count x) a → sim p s x a → pc x = TReady →
  thread_turn p x (srv s) = (Ret x', y) → followed (set_thread p x' (set_srv y s)) p x'.
Proof using B L.
  intros Hi Hok Ha Hs Hpc. unfold thread_turn. rewrite Hpc.
  intros (u & y1 & H1 & [= <- <-])%bind_ret_inv.
  apply (followed_call s p x a Hi Hok Ha Hs SetVmReady u y1 _ (with_thr TExit (with_vm (Some kVmRunning) a))
    TExit kVmRunning); try done.
  - intros v v' g Hv Hrun. destruct (ready_running (v, glob (srv s))) as (s' & Hr' & Hg & _ & _ & Hb).
    rewrite Hrun in Hr'. injection Hr' as _ <-. auto.
  - intros v Hv. right. eapply t_ready; [by rewrite (sm_thr _ _ _ _ Hs)|by eapply sim_vm].
Qed.

Lemma followed_exit s p x a x' y :
  server_inv (srv s) → thr_ok s p x → preachable (t_count x) a → sim p s x a → pc x = TExit →
  thread_turn p x (srv s) = (Ret x', y) → followed (set_thread p x' (set_srv y s)) p x'.
Proof using B L.
  intros Hi Hok Ha Hs Hpc. pose proof (sim_latch s p x a Hok Ha Hs) as Hlat. rewrite Hpc in Hlat.
  unfold thread_turn. rewrite Hpc. intros (u & y1 & H1 & [= <- <-])%bind_ret_inv.
  destruct (via_ret _ _ _ _ _ Hi H1) as (v & _ & _ & Hv & _). pose proof (sim_vm _ _ _ _ Hs v Hv) as Hvm.
  apply (followed_call s p x a Hi Hok Ha Hs WaitVmExit u y1 _ (with_thr TDelete a) TDelete (GetState v)); try done.
  - pose proof (th_settled _ _ _ Hok) as Hse. unfold vst in Hse. rewrite Hv, Hpc in Hse. by apply Hse.
  - intros v1 v' g Hv1 Hr. rewrite Hv in Hv1. injection Hv1 as <-. split; [|intros _ Hne; by rewrite Hlat in Hne].
    pose proof (exit_state (v, glob (srv s))) as Hg. by rewrite Hr in Hg.
  - intros w _. right. eapply t_exit; [by rewrite (sm_thr _ _ _ _ Hs)|done].
  - by rewrite with_vm_same.
Qed.

(** The thread ends with its guest: after the emulator, or after the wait. *)
Lemma followed_ends s p x a x' y :
  server_inv (srv s) → thr_ok s p x → preachable (t_count x) a → sim p s x a →
  pc x = TDelete ∨ pc x = TDeleteFail →
  thread_turn p x (srv s) = (Ret x', y) → followed (set_thread p x' (set_srv y s)) p x'.
Proof using B L.
  intros Hi Hok Ha Hs Hpc. pose proof (sm_thr _ _ _ _ Hs) as Hth. unfold thread_turn.
  destruct Hpc as [Hpc|Hpc]; rewrite Hpc in *;
    intros (name & y1 & H1 & (u & y2 & H2 & [= <- <-])%bind_ret_inv)%bind_ret_inv.
  - apply (followed_delete L s p x a Hi Hok Ha Hs _ y2 TEnd); try done; [intros v Hv; by eapply t_delete|].
    bstep H1. by bstep H2.
  - apply (followed_delete L s p x a Hi Hok Ha Hs _ y2 TCountFail); try done; [intros v Hv; by eapply t_delete_fail|].
    bstep H1. by bstep H2.
Qed.

(** A turn on the latch. *)
Lemma followed_latch s p x a x' y :
  thr_ok s p x → preachable (t_count x) a → sim p s x a →
  pc x = TCount ∨ pc x = TCountOk ∨ pc x = TCountFail →
  thread_turn p x (srv s) = (Ret x', y) → followed (set_thread p x' (set_srv y s)) p x'.
Proof using B.
  intros Hok Ha Hs Hpc. pose proof (sm_thr _ _ _ _ Hs) as Hth. pose proof (sm_latch _ _ _ _ Hs) as Hla.
  assert (count_down (latch a) ≠ 0 → t_latch x ≠ 0) as Hne by (unfold count_down; rewrite <-Hla; lia).
  unfold thread_turn. destruct Hpc as [Hpc|[Hpc|Hpc]]; rewrite Hpc in *;
    intros [= <- <-]; unfold goto, counted; cbn; rewrite <-Hla in *.
  - destruct (Z.eqb_spec (count_down (latch a)) 0) as [H0|H0].
    + rewrite H0. apply (followed_same s p x a Hok Ha Hs _ TReady 0); try done; [by rewrite Hpc|].
      by apply t_count_last.
    + apply (followed_same s p x a Hok Ha Hs _ TPending (count_down (latch a))); try done;
        [by rewrite Hpc|by rewrite <-Hla|by apply StartProtocol.t_count].
  - apply (followed_same s p x a Hok Ha Hs _ TExit (count_down (latch a))); try done;
      [by rewrite Hpc|by rewrite <-Hla|by apply t_count_ok].
  - apply (followed_same s p x a Hok Ha Hs _ TEnd (count_down (latch a))); try done;
      [by rewrite Hpc|by rewrite <-Hla|by apply t_count_fail].
Qed.

Lemma turn_followed s p x x' y :
  server_inv (srv s) → followed s p x → thread_turn p x (srv s) = (Ret x', y) →
  followed (set_thread p x' (set_srv y s)) p x'.
Proof using B L.
  intros Hi [Hok (a & Ha & Hs)] Hr. destruct (pc x) as [| | | | | |[|n]| | | |] eqn:Hpc;
    try (by eapply followed_latch; eauto); try (by eapply followed_ends; eauto);
    eauto using followed_start, followed_mark, followed_exit, followed_pending, followed_wait.
  - unfold thread_turn in Hr. rewrite Hpc in Hr. injection Hr as <- <-.
    pose proof (sm_thr _ _ _ _ Hs) as Hth. rewrite Hpc in Hth.
    apply (followed_same s p x a Hok Ha Hs _ TDeleteFail (t_latch x)); try done; [by rewrite Hpc|].
    rewrite (with_latch_same a) by apply (sm_latch _ _ _ _ Hs).
    destruct (proto_alive _ _ (th_count _ _ _ Hok) Ha) as [v Hv]; [by rewrite Hth..|]. by eapply t_wait_over.
  - unfold thread_turn in Hr. by rewrite Hpc in Hr.
Qed.
End turns.

(** *** One step of the system *)

Section steps.
Context {B : Boost} {E : OsEnv} {V : VmBuilder} (L : VmBuilderLaws V).

(** A guest that a step does not concern. *)
Lemma followed_frame s s' p x :
  followed s p x → (next_vb (srv s) ≤ next_vb (srv s'))%nat → vst p (srv s') = vst p (srv s) →
  (pc x = TStart → phase s' = Waiting p) →
  (phase s' = Waiting p → phase s = Waiting p ∧ obj p (srv s') = obj p (srv s)) →
  main_of p s' = main_of p s →
  (∀ c, pend (srv s') !! c = Some (Some p) → pend (srv s) !! c = Some (Some p)) →
  (p ∈ called s → p ∈ called s') →
  followed s' p x.
Proof.
  intros [[Ho Hc Hst Hse Hb] (a & Ha & [])] Hn Hv Hph Hph' Hm Hp Hca. split.
  - split; [lia|done|done|by rewrite Hv|]. intros Hw Hl v Hov. destruct (Hph' Hw) as [Hw' Hobj].
    apply Hb; try done. by rewrite <-Hobj.
  - exists a. split; [done|]. split; try done; [by rewrite Hm|by rewrite Hv|eauto|eauto].
Qed.

(** A guest that only its start request concerns: [a'] is where it stands. *)
Lemma followed_main s s' p x a a' :
  thr_ok s p x → preachable (t_count x) a → sim p s x a → pc x ≠ TStart →
  srv s' = srv s → called s' = called s → phase s' ≠ Waiting p →
  start_vm a a' → thr a' = thr a → latch a' = latch a → vm a' = vm a → pending a' = pending a →
  reported a' = reported a → used_freed a' = false → main_of p s' = Some (main a') →
  followed s' p x.
Proof.
  intros [Ho Hc Hst Hse Hb] Ha [] Hpc Hs Hca Hph Hstep ? Hl ? Hpe Hre ? ?.
  split; [split; rewrite ?Hs; done|]. exists a'. split.
  - eapply rtc_r; [exact Ha|]. by right; left.
  - split; rewrite ?Hs, ?Hca, ?Hpe, ?Hre; done || congruence.
Qed.

Lemma good_thread s p s' : good s → sys_do (SysThread p) s = Some s' → over s' = false → good s'.
Proof using B L.
  intros [Hi Ht Hp Hu Hwt]. unfold sys_do. destruct (over s); [done|]. cbn.
  destruct (threads s !! p) as [x|] eqn:Hx; [|done]. unfold settle.
  pose proof (thread_turned L p x (srv s) Hi) as Htu. pose proof (thread_pend p x (srv s)) as Hpe.
  destruct (thread_turn p x (srv s)) as [[x'|e|] y] eqn:Hr; [|intros [= <-]; done|done].
  intros [= <-] _. destruct Htu as [Hi' Ho Hn].
  assert (∀ c q, q ≠ p → pend y !! c = Some (Some q) → pend (srv s) !! c = Some (Some q)) as Hother.
  { intros c q Hq. destruct Hpe as [->|(_ & d & ->)]; [done|]. rewrite lookup_insert_Some. naive_solver. }
  split.
  - done.
  - intros q z Hz. cbn in Hz. destruct (decide (q = p)) as [->|Hq].
    + rewrite lookup_insert_eq in Hz. injection Hz as <-. eapply turn_followed; eauto.
    + rewrite lookup_insert_ne in Hz by done. pose proof (Ht q z Hz) as Hf.
      eapply followed_frame; [exact Hf|..]; cbn; try done.
      * by rewrite Hn.
      * unfold vst. by rewrite Ho.
      * apply (th_start _ _ _ (proj1 Hf)).
      * intros ?. split; [done|]. by apply Ho.
      * intros c. by apply Hother.
  - intros c q Hc. cbn. destruct (decide (q = p)) as [->|Hq]; [rewrite lookup_insert_eq; eauto|].
    rewrite lookup_insert_ne by done. by eapply Hp, Hother.
  - intros c c' q. cbn. destruct Hpe as [->|(Hpc & d & ->)]; [apply Hu|].
    assert (∀ c, pend (srv s) !! c ≠ Some (Some p)) as Hno.
    { intros e He. destruct (Ht p x Hx) as [_ (a & Ha & Hs)]. pose proof (sm_pend _ _ _ _ Hs e He) as Hpa.
      rewrite (proto_unlisted _ _ Ha) in Hpa; [done|]. rewrite (sm_thr _ _ _ _ Hs), Hpc. set_solver. }
    rewrite !lookup_insert_Some. naive_solver.
  - intros q Hq. cbn. destruct (decide (q = p)) as [->|Hne]; [rewrite lookup_insert_eq; eauto|].
    rewrite lookup_insert_ne by done. by apply Hwt.
Qed.

Lemma good_wake s s' : good s → sys_do SysWake s = Some s' → good s'.
Proof.
  intros [Hi Ht Hp Hu Hwt]. unfold sys_do. destruct (over s); [done|]. destruct (phase s) as [|p|] eqn:Hph; [done| |done].
  destruct (threads s !! p) as [x|] eqn:Hx; [|done].
  destruct (Z.eqb_spec (t_latch x) 0) as [Hl|Hl]; [|done]. intros [= <-]. split; [done| |done..].
  intros q z Hz. cbn in Hz. pose proof (Ht q z Hz) as Hf. destruct (decide (q = p)) as [->|Hq].
  - rewrite Hx in Hz. injection Hz as <-. destruct Hf as [Hok (a & Ha & Hs)].
    assert (main a = MWait) as Hma.
    { pose proof (sm_main _ _ _ _ Hs) as Hm. unfold main_of in Hm. rewrite Hph, decide_True in Hm by done. congruence. }
    eapply (followed_main s _ p x a (with_main MRead a)); try done.
    + intros Hpc. pose proof (sim_latch s p x a Hok Ha Hs) as Hlat. rewrite Hpc, Hl in Hlat. cbn in Hlat.
      destruct (th_count _ _ _ Hok); lia.
    + apply m_wait; [done|]. by rewrite (sm_latch _ _ _ _ Hs).
    + apply (sm_freed _ _ _ _ Hs).
    + unfold main_of. cbn. by rewrite decide_True.
  - eapply followed_frame; [exact Hf|..]; cbn; try done.
    + intros Hpc. pose proof (th_start _ _ _ (proj1 Hf) Hpc). congruence.
    + unfold main_of. rewrite Hph. cbn. by rewrite !decide_False by done.
Qed.

Lemma good_answer s s' : good s → sys_do SysAnswer s = Some s' → over s' = false → good s'.
Proof.
  intros [Hi Ht Hp Hu Hwt]. unfold sys_do. destruct (over s); [done|]. destruct (phase s) as [| |p] eqn:Hph; [done|done|].
  unfold settle, StartVm_finish, mbind, M_bind. rewrite via_gets by apply si_pointers, Hi.
  destruct (obj p (srv s)) as [v|] eqn:Hv; [|intros [= <-]; done]. cbv zeta.
  set (r := if bool_decide (GetState v = kVmRunning) then 0 else -1).
  intros Hs' _. assert (s' = set_phase Idle (set_result p r s)) as ->.
  { revert Hs'. unfold r. case_bool_decide; intros [= <-]; by destruct s. }
  clear Hs'. split; [done| |done..].
  intros q z Hz. cbn in Hz. pose proof (Ht q z Hz) as Hf. destruct (decide (q = p)) as [->|Hq].
  - destruct Hf as [Hok (a & Ha & Hs)].
    assert (main a = MRead) as Hma.
    { pose proof (sm_main _ _ _ _ Hs) as Hm. unfold main_of in Hm. rewrite Hph, decide_True in Hm by done. congruence. }
    eapply (followed_main s _ p z a (with_main (MDone r) a)); try done.
    + intros Hpc. pose proof (th_start _ _ _ Hok Hpc). congruence.
    + eapply m_read; [done|by eapply sim_vm].
    + apply (sm_freed _ _ _ _ Hs).
    + unfold main_of. cbn. by rewrite lookup_insert_eq.
  - eapply followed_frame; [exact Hf|..]; cbn; try done.
    + intros Hpc. pose proof (th_start _ _ _ (proj1 Hf) Hpc). congruence.
    + unfold main_of. rewrite Hph. cbn. by rewrite decide_False, lookup_insert_ne by done.
Qed.

Lemma VmReady_cases peer l :
  ∃ st cb l', VmReady peer l = (Ret (st, cb), l')
    ∧ (∀ c q, pending_vms_ l' !! c = Some (Some q) → pending_vms_ l !! c = Some (Some q))
    ∧ match cb with
      | Some p => ∃ c, pending_vms_ l !! c = Some (Some p) ∧ pending_vms_ l' !! c ≠ Some (Some p)
      | None => True
      end.
Proof.
  unfold VmReady. destruct (sscanf_vsock peer) as [cid|]; [|by eexists _, _, _].
  sx_unfold. destruct (pending_vms_ l !! cid) as [cb|] eqn:Hc; [|by eexists _, _, _].
  eexists _, cb, _. split; [done|]. cbn. split.
  - intros c q. rewrite lookup_delete_Some. naive_solver.
  - destruct cb as [p|]; [|done]. exists cid. split; [done|]. intros Hx%lookup_delete_Some. naive_solver.
Qed.

(** The guest whose callback runs. *)
Lemma followed_ready s s' p x c :
  good s → threads s !! p = Some x → pend (srv s) !! c = Some (Some p) →
  is_Some (obj p (srv s)) → vst p (srv s') = Some kVmRunning →
  next_vb (srv s') = next_vb (srv s) → phase s' = phase s → results s' = results s → called s' = p :: called s →
  (∀ c, pend (srv s') !! c ≠ Some (Some p)) →
  (∀ v, vb_built v → obj p (srv s) = Some v → ∀ v', obj p (srv s') = Some v' → vb_built v') →
  followed s' p x.
Proof.
  intros [Hi Ht Hp Hu Hwt] Hx Hc [v Hv] Hst Hn Hph Hre Hca Hno Hb.
  destruct (Ht p x Hx) as [[Ho Hco Hts Hse Hbu] (a & Ha & Hs)]. split.
  - split; [by rewrite Hn|done|by rewrite Hph|by rewrite Hst|].
    rewrite Hph. intros Hw Hl v' Hv'. by eapply Hb; eauto.
  - exists (with_reported (with_pending false (with_vm (Some kVmRunning) a))). split.
    + eapply rtc_r; [exact Ha|]. right; right. eapply l_ready; [by eapply (sm_pend _ _ _ _ Hs)|by eapply sim_vm].
    + destruct Hs. split; try done; cbn.
      * unfold main_of in *. by rewrite Hph, Hre.
      * intros c' Hc'. by destruct (Hno c').
      * intros _. rewrite Hca. by left.
Qed.

(** What a call of a guest that comes back has done. *)
Lemma ready_call_run peer s r z :
  server_inv s → ready_call peer s = (Ret r, z) →
  server_inv z ∧ next_vb z = next_vb s
  ∧ (∀ c q, pend z !! c = Some (Some q) → pend s !! c = Some (Some q))
  ∧ match r.2 with
    | None => ∀ q, obj q z = obj q s
    | Some p => ∃ c v v', pend s !! c = Some (Some p) ∧ pend z !! c ≠ Some (Some p) ∧ obj p s = Some v
        ∧ (∀ q, obj q z = if decide (q = p) then Some v' else obj q s)
        ∧ GetState v' = kVmRunning ∧ (vb_built v → vb_built v')
    end.
Proof using L.
  intros Hi. unfold ready_call, on_listener, lift, mbind at 1, M_bind.
  destruct (VmReady_cases peer (listener s)) as (st & cb & l' & -> & Hsub & Hcb). cbn.
  set (y := set_listener l' s). assert (server_inv y) as Hiy by (destruct Hi; by split).
  destruct cb as [p|]; cbn; [|by intros [= <- <-]]. destruct Hcb as (c & Hc & Hc').
  unfold mbind, M_bind. destruct (via p SetVmReady y) as [[u|e|] z'] eqn:Hv; [|done..]. intros [= <- <-]. cbn.
  pose proof (via_run p SetVmReady y (si_pointers _ Hiy)) as Hrun.
  pose proof (guests_via p SetVmReady ready_frame y) as Hg. rewrite Hv in Hg. cbn in Hg.
  destruct (obj p y) as [v|] eqn:Hov; [|by rewrite Hv in Hrun]. destruct Hrun as (z & Hz & Ho & Hn & Hl & _).
  rewrite Hv in Hz. injection Hz as _ ->.
  destruct (ready_running (v, glob y)) as (w & Hw & Hst & _ & _ & Hb). rewrite Hw in Ho. cbn in Ho.
  unfold pend. rewrite Hl. split_and!; [by eapply same_guests_inv|done|exact Hsub|]. by exists c, v, w.1.
Qed.

Lemma good_ready s peer s' : good s → sys_do (SysReady peer) s = Some s' → over s' = false → good s'.
Proof using L.
  intros Hgood. pose proof Hgood as [Hi Ht Hp Hu Hwt]. unfold sys_do. destruct (over s); [done|].
  assert (∀ s', settle (ready_call peer) (λ r, set_called r.2) s = Some s' → over s' = false → good s') as H;
    [|by destruct (phase s), (listening s); first [apply H|done]].
  clear s'. intros s'. unfold settle. pose proof (ready_call_run peer (srv s)) as Hrun.
  destruct (ready_call peer (srv s)) as [[[st cb]|e|] z]; [|intros [= <-]; done|done]. intros [= <-] _.
  destruct (Hrun _ _ Hi eq_refl) as (Hiz & Hn & Hsub & Hcb). cbn [snd] in *.
  split; cbn [srv threads set_called set_srv]; [done| |naive_solver..].
  intros q x Hx. pose proof (Ht q x Hx) as Hf.
  assert (cb ≠ Some q → obj q z = obj q (srv s)) as Hq.
  { destruct cb as [p|]; [|done]. destruct Hcb as (c & v & v' & _ & _ & _ & Ho & _). intros Hne.
    rewrite Ho, decide_False by congruence. done. }
  destruct (decide (cb = Some q)) as [->|Hne].
  - destruct Hcb as (c & v & v' & Hc & Hc' & Hv & Ho & Hst & Hb).
    specialize (Ho q). rewrite decide_True in Ho by done.
    eapply (followed_ready s _ q x c); cbn; try done.
    + unfold vst. rewrite Ho. cbn. by rewrite Hst.
    + intros d Hd. pose proof (Hu _ _ _ Hc (Hsub _ _ Hd)) as Heq. by rewrite <-Heq in Hd.
    + intros v1 Hv1 Ho1 v2 Hv2. rewrite Ho in Hv2. rewrite Hv in Ho1. simplify_eq. auto.
  - specialize (Hq Hne). eapply followed_frame; [exact Hf|..]; cbn; try done.
    + by rewrite Hn.
    + unfold vst. by rewrite Hq.
    + apply (th_start _ _ _ (proj1 Hf)).
    + intros c. apply Hsub.
    + intros Hin. apply elem_of_app. by right.
Qed.

(** A request that is not waited for, as the started guests see it. *)
Lemma followed_quiet s s' p x :
  good s → phase s = Idle → threads s !! p = Some x →
  quiet (srv s) (srv s') → phase s' ≠ Waiting p → main_of p s' = main_of p s → called s' = called s →
  followed s' p x.
Proof.
  intros [Hi Ht Hp Hu Hwt] Hph Hx [Hn Hs Hl] Hph' Hm Hca. pose proof (Ht p x Hx) as Hf.
  pose proof (proj1 Hf) as [Ho _ Hst Hse _].
  assert (pc x ≠ TStart) as Hpc by (intros Hpc; rewrite Hst in Hph; done).
  eapply followed_frame; [exact Hf|done|by apply Hs; [|apply Hse]|done|done|done| |by rewrite Hca].
  unfold pend. by rewrite Hl.
Qed.

Lemma good_quiet s y : good s → phase s = Idle → serving (srv s) y → good (set_srv y s).
Proof.
  intros Hg Hph [Hiy Hq]. split; cbn; [done| |unfold pend; rewrite ?(q_listener _ _ Hq); apply Hg..].
  intros p x Hx. eapply (followed_quiet s); try done. cbn. congruence.
Qed.

(** The thread of a new guest. *)
Lemma followed_new s y p n :
  good s → joined (srv s) y p → n = 1 ∨ n = 2 →
  followed (start_thread (Some (p, n)) (set_srv y s)) p (mkThr TStart false n n).
Proof.
  intros [Hi Ht Hp Hu Hwt] (-> & Hn & Hl & v & Hv & _ & Hb & Hst & _) Hc. set (p := next_vb (srv s)) in *.
  assert (obj p y = Some v) as Hov.
  { unfold obj. rewrite Hv, obj_in_app. assert (obj_in p (vmis_ (srv s)) = None) as ->.
    - destruct (obj_in p (vmis_ (srv s))) as [w|] eqn:Hw; [|done].
      pose proof (obj_old p (srv s) w Hi Hw). lia.
    - rewrite obj_in_cons. by rewrite decide_True. }
  split.
  - split; cbn; [lia|done|done|done|]. intros _ _ w Hw. congruence.
  - exists (pinit n). split; [apply rtc_refl|]. split; cbn; try done.
    + unfold main_of. cbn. by rewrite decide_True.
    + unfold vst. rewrite Hov. cbn. by rewrite Hst.
    + intros c Hc'. unfold pend in Hc'. cbn in Hc'. rewrite Hl in Hc'.
      destruct (Hp c p Hc') as [x Hx]. pose proof (th_old _ _ _ (proj1 (Ht p x Hx))). lia.
Qed.

Lemma good_start s payload s' :
  good s → phase s = Idle → settle (StartVm_prepare payload) start_thread s = Some s' → over s' = false → good s'.
Proof using L.
  intros Hg Hph. pose proof Hg as [Hi Ht Hp Hu Hwt]. unfold settle.
  pose proof (StartVm_prepare_post L (srv s) payload Hi (srv s) (ltac:(reflexivity))) as Hpost.
  pose proof (hoare_prepare L payload (srv s) Hi) as Hinv.
  destruct (StartVm_prepare payload (srv s)) as [[[[p n]|]|e|] y]; [| |intros [= <-]; done|done].
  - destruct Hpost as [Hj Hn]. intros [= <-] _.
    assert (∀ q x, threads s !! q = Some x → q ≠ p) as Hnew.
    { intros q x Hx ->. pose proof (th_old _ _ _ (proj1 (Ht p x Hx))). destruct Hj as [-> _]. lia. }
    pose proof (quiet_joined _ _ _ Hi Hj) as Hq. split; cbn [start_thread set_phase set_thread set_srv srv threads].
    + done.
    + intros q x. destruct (decide (q = p)) as [->|Hne].
      * rewrite lookup_insert_eq. intros [= <-]. by apply followed_new.
      * rewrite lookup_insert_ne by done. intros Hx. eapply (followed_quiet s); try done; cbn; [congruence|].
        unfold main_of. cbn. by rewrite Hph, decide_False by done.
    + unfold pend. rewrite (q_listener _ _ Hq). intros c q Hc. destruct (decide (q = p)) as [->|Hne];
        [rewrite lookup_insert_eq; eauto|]. rewrite lookup_insert_ne by done. by eapply Hp.
    + unfold pend. rewrite (q_listener _ _ Hq). exact Hu.
    + intros q [= <-]. cbn. rewrite lookup_insert_eq. eauto.
  - intros [= <-] _. apply good_quiet; [done|done|]. split; [done|]. by apply quiet_idle.
Qed.

(** A signal changes nothing that the guests see. *)
Lemma good_signal s : good s → good (signalled s).
Proof.
  intros [Hi Ht Hp Hu Hwt]. split; cbn; [destruct Hi; by split| |done..].
  intros p x Hx. pose proof (Ht p x Hx) as Hf.
  eapply followed_frame; [exact Hf|..]; try done. apply (th_start _ _ _ (proj1 Hf)).
Qed.

Lemma good_step s s' : good s → sys_step s s' → over s' = false → good s'.
Proof using B L.
  intros Hg [ev Hev] Ho. destruct ev as [type payload| | |p|peer|];
    eauto using good_wake, good_answer, good_thread, good_ready; revert Hev.
  2: { unfold sys_do. destruct (over s); [done|]. intros Hs. assert (s' = signalled s) as -> by
         (destruct (phase s); congruence). by apply good_signal. }
  unfold sys_do. destruct (over s); [done|]. destruct (phase s) eqn:Hph; [|done..].
  destruct (stop_server_ (srv s)); [done|].
  assert (∀ type, type ≠ kCivMsgStartVm →
    settle (dispatch no_wait type payload) (λ _ s, s) s = Some s' → good s') as Hdisp.
  { intros t Ht. unfold settle. pose proof (serving_dispatch L (srv s) t payload Ht (srv s)) as H.
    destruct (dispatch no_wait t payload (srv s)) as [[a|e|] y]; [|intros [= <-]; done|done].
    intros [= <-]. apply good_quiet; [done|done|]. apply H. split; [apply Hg|reflexivity]. }
  destruct type; try (by apply Hdisp). intros Hs. by eapply good_start.
Qed.

Lemma over_stays s s' : rtc sys_step s s' → over s' = false → over s = false.
Proof.
  induction 1 as [|x y z [ev Hev] _ IH]; [done|]. intros Hz. specialize (IH Hz).
  revert Hev. unfold sys_do. by destruct (over x).
Qed.

Lemma sys_good s : sys_reachable s → over s = false → good s.
Proof using B L.
  intros (s0 & [Hi Hph Ht Hp] & Hr). assert (good s0) as Hg.
  { split; [done|intros p x; by rewrite Ht|intros c p Hc; by destruct (Hp c p)|intros c c' p Hc; by destruct (Hp c p)|
      intros p; by rewrite Hph]. }
  clear Hi Hph Ht Hp. induction Hr as [|x y z Hst Hr IH]; [done|].
  intros Ho. apply IH; [|done]. eapply good_step; eauto using over_stays.
Qed.
End steps.
