(* ===== verification/SystemTheorems.v ===== *)
(** * What the server with its threads promises

    The theorems about System.v: refinement of the start protocol, life time of
    a guest object, meaning of an answer, and progress of a start request, with
    concrete runs. *)

From S2P Require Import Prelude.
From S2P Require Import CStd.
From S2P Require Import Boost.
From S2P Require Import Os.
From S2P Require Import CidPool.
From S2P Require Import Config.
From S2P Require Import Builder.
From S2P Require Import Listener.
From S2P Require Import Server.
From S2P Require Import ServerProps.
From S2P Require Import StartProtocol.
From S2P Require Import System.
From S2P Require Import SystemProps.

Local Open Scope Z_scope.

(** Turns of a thread until its latch is certainly released; a turn of the
    wait counts twice, once for each of its checks. *)
Definition turns_left (x : Thr) : nat := 2 * steps_left (pc x) - (if checked x then 1 else 0).

Section theorems.
Context {B : Boost} {E : OsEnv} {V : VmBuilder} (L : VmBuilderLaws V).

(** What is known of a guest that has a thread. *)
Lemma sys_followed s p x :
  sys_reachable s → over s = false → threads s !! p = Some x →
  thr_ok s p x ∧ ∃ a, preachable (t_count x) a ∧ sim p s x a.
Proof using B L. intros Hr Ho Hx. by apply (gd_thr _ (sys_good L s Hr Ho)). Qed.

(** C4: whatever requests, threads and guests do to the server, in any order,
    each started guest goes through the start protocol: the point its thread
    has reached, its latch, the point of its start request, its state in the
    registry, its entry in the listener and its ready call are those of a
    state the protocol reaches. *)
Theorem system_refines_protocol s p x :
  sys_reachable s → over s = false → threads s !! p = Some x →
  ∃ a, preachable (t_count x) a ∧ sim p s x a.
Proof using B L. intros Hr Ho Hx. apply (sys_followed s p x Hr Ho Hx). Qed.

(** C5: in every state the server can reach with its threads, no two guests
    share a name or an address and the pool is well formed; and a guest that
    has been started is registered exactly until its own thread has deleted
    it, so that no turn of the thread finds it gone. *)
Theorem guest_lifetime s :
  sys_reachable s → over s = false →
  server_inv (srv s)
  ∧ ∀ p x, threads s !! p = Some x →
      (is_Some (obj p (srv s)) ↔ pc x ≠ TCountFail ∧ pc x ≠ TEnd).
Proof using B L.
  intros Hr Ho. split; [apply (gd_inv _ (sys_good L s Hr Ho))|].
  intros p x Hx. destruct (sys_followed s p x Hr Ho Hx) as [Hok (a & Ha & Hs)].
  pose proof (th_count _ _ _ Hok) as Hc. pose proof (sm_vm _ _ _ _ Hs) as Hvm. unfold vst in Hvm.
  rewrite <-(sm_thr _ _ _ _ Hs). split.
  - intros [v Hv]. rewrite Hv in Hvm. cbn in Hvm.
    split; intros Ht; rewrite (proto_gone _ _ Hc Ha) in Hvm; auto; done.
  - intros [H1 H2]. destruct (proto_alive _ _ Hc Ha H1 H2) as [v Hv]. rewrite Hv in Hvm.
    destruct (obj p (srv s)); [eauto|done].
Qed.

(** C7: what an answer to a start request means.  It is given only when the
    latch has been released; and when the request was to wait until the guest
    is ready, success is answered only if the ready call of that very guest
    has been taken. *)
Theorem start_answer_meaning s p x r :
  sys_reachable s → over s = false → threads s !! p = Some x → phase s = Idle → results s !! p = Some r →
  t_latch x = 0 ∧ (t_count x = 2 → r = 0 → p ∈ called s).
Proof using B L.
  intros Hr Ho Hx Hph Hres. destruct (sys_followed s p x Hr Ho Hx) as [Hok (a & Ha & Hs)].
  pose proof (sm_main _ _ _ _ Hs) as Hm. unfold main_of in Hm. rewrite Hph, Hres in Hm. injection Hm as Hm.
  rewrite <-(sm_latch _ _ _ _ Hs). destruct (th_count _ _ _ Hok) as [Hc|Hc]; rewrite Hc in *.
  - split; [|done]. destruct (n_main _ (nowait_inv_reachable _ Ha)) as [|]; [congruence|done].
  - pose proof (wait_inv_reachable _ Ha) as Hw. split.
    + destruct (w_main _ Hw); [congruence|done].
    + intros _ ->. apply (sm_called _ _ _ _ Hs). apply (w_result _ Hw); [done|apply (sm_freed _ _ _ _ Hs)].
Qed.

(** *** Progress *)

(** A method that comes back, and what follows it. *)
Lemma via_bind_back {A C} p (c : M (vb * Glob) A) (k : A → M Srv C) s :
  server_inv s → (∀ v, obj p s = Some v → (c (v, glob s)).1 ≠ Blocked) →
  (∀ r y, via p c s = (Ret r, y) → (k r y).1 ≠ Blocked) → ((via p c ≫= k) s).1 ≠ Blocked.
Proof.
  intros Hi Hc Hk. unfold mbind, M_bind. pose proof (via_run p c s (si_pointers _ Hi)) as Hr.
  destruct (obj p s) as [v|]; [|by rewrite Hr]. destruct Hr as (y & Hr & _).
  specialize (Hc v eq_refl). destruct (via p c s) as [[r'|e|] y'] eqn:Hv; [by apply Hk|done|].
  injection Hr as Hr _. by rewrite <-Hr in Hc.
Qed.

(** While the latch is held, no turn waits for ever. *)
Lemma turn_back s p x :
  server_inv (srv s) → followed s p x → phase s = Waiting p → t_latch x ≠ 0 →
  (thread_turn p x (srv s)).1 ≠ Blocked.
Proof using L.
  intros Hi [Hok (a & Ha & Hs)] Hw Hl. pose proof (sim_latch s p x a Hok Ha Hs) as Hlat.
  assert (∀ v, obj p (srv s) = Some v → vb_built v) as Hb by (by apply (th_built _ _ _ Hok)).
  unfold thread_turn. destruct (pc x) as [| | | | | |[|n]| | | |] eqn:Hpc; cbn in Hlat; try done.
  - apply via_bind_back; [done| |done]. intros v Hv. pose proof (start_booting (v, glob (srv s)) (Hb v Hv)).
    by destruct (StartVm _) as [[] ?].
  - by apply via_bind_back.
  - destruct (checked x); [by apply via_bind_back|]. apply via_bind_back; [done| |done].
    intros v Hv. by destruct (running_back (v, glob (srv s)) (Hb v Hv)) as (b & s' & -> & _).
  - apply via_bind_back; [done..|]. intros name y. rewrite via_gets by apply si_pointers, Hi.
    destruct (obj p (srv s)) as [v|] eqn:Hv; [|done]. intros [= <- <-].
    destruct (DeleteVmInstance_run L (srv s) p v Hi Hv) as (r & y & Hr & _ & _ & _ & Hnb & _).
    unfold mbind, M_bind. rewrite Hr. specialize (Hnb (Hb v eq_refl)). by destruct r.
Qed.

(** Every turn that comes back brings the thread nearer to its end. *)
Lemma turn_decreases p x s x' y :
  thread_turn p x s = (Ret x', y) → (turns_left x' < turns_left x)%nat.
Proof.
  intros Hr. unfold turns_left.
  assert (pc x' = pc x ∧ checked x = false ∧ checked x' = true ∧ (0 < steps_left (pc x))%nat
    ∨ checked x' = false ∧ (steps_left (pc x') < steps_left (pc x))%nat) as [(-> & -> & -> & ?)|[-> ?]];
    [|lia|destruct (checked x); lia].
  revert Hr. unfold thread_turn. destruct (pc x) as [| | | | | |[|n]| | | |] eqn:Hpc; try done;
    try (destruct (checked x) eqn:Hch);
    intros Hr; repeat (apply bind_ret_inv in Hr as (? & ? & _ & Hr)); injection Hr as <- <-.
  all: try (by right; cbn; split; [|lia]).
  all: cbn; try case_match; cbn; rewrite ?Hpc; cbn; auto with lia.
Qed.

(** C8: a start request cannot be left waiting, whatever the machine answers
    and whatever the other threads and guests do: as long as the latch is held
    the next turn of the guest's thread comes back, and unless it ends the
    process it leaves fewer turns to go; the turns of other threads, calls of
    guests and signals leave this thread as it is; and when the latch has been
    released the request goes on.  At most 420 turns are needed. *)
Theorem start_request_progress s p :
  sys_reachable s → over s = false → phase s = Waiting p →
  ∃ x, threads s !! p = Some x ∧ (turns_left x ≤ 420)%nat
    ∧ (t_latch x = 0 → ∃ s', sys_do SysWake s = Some s')
    ∧ (t_latch x ≠ 0 → ∃ s', sys_do (SysThread p) s = Some s'
         ∧ (over s' = true ∨ ∃ x', threads s' !! p = Some x' ∧ (turns_left x' < turns_left x)%nat))
    ∧ ∀ ev s', ev ≠ SysThread p → sys_do ev s = Some s' → threads s' !! p = Some x.
Proof using B L.
  intros Hr Ho Hw. pose proof (sys_good L s Hr Ho) as Hg. destruct (gd_wait _ Hg p Hw) as [x Hx].
  exists x. split_and!; [done| | | |].
  - destruct (gd_thr _ Hg p x Hx) as [_ (a & Ha & Hs)]. pose proof (proto_bounded _ _ Ha) as Hbd.
    rewrite (sm_thr _ _ _ _ Hs) in Hbd. unfold turns_left. lia.
  - intros Hl. unfold sys_do. rewrite Ho, Hw, Hx, Hl. by eexists.
  - intros Hl. pose proof (turn_back s p x (gd_inv _ Hg) (gd_thr _ Hg p x Hx) Hw Hl) as Hb.
    unfold sys_do. rewrite Ho, Hx. unfold settle.
    destruct (thread_turn p x (srv s)) as [[x'|e|] y] eqn:Ht; [| |done].
    + eexists. split; [done|]. right. exists x'. split; [cbn; by rewrite lookup_insert_eq|]. by eapply turn_decreases.
    + eexists. split; [done|]. by left.
  - intros ev s' Hne. unfold sys_do. rewrite Ho, Hw. destruct ev as [type payload| | |q|peer|]; try done.
    + rewrite Hx. case_match; [|done]. by intros [= <-].
    + destruct (threads s !! q) as [z|]; [|done]. unfold settle.
      destruct (thread_turn q z (srv s)) as [[]?]; [| |done]; intros [= <-]; [|done]. cbn.
      rewrite lookup_insert_ne by congruence. done.
    + destruct (listening s); [|done].
      unfold settle. destruct (ready_call peer (srv s)) as [[]?]; [| |done]; by intros [= <-].
    + by intros [= <-].
Qed.
End theorems.

(** ** Runs *)

Module SysDemo.
#[local] Existing Instance RefBoost.ref_boost.
#[local] Existing Instance SimOs.sim_os.

(** A configuration that asks to wait until the guest is ready. *)
Definition ini : string :=
  foldr (λ l r, l +:+ String newline r) EmptyString
    ["[global]"; "name=civ-1"; "wait_ready=true"; "[emulator]"; "path=/usr/bin/qemu"; "[firmware]";
     "type=unified"; "path=OVMF.fd"; "[disk]"; "path=android.img"].
Definition server : Srv :=
  mkSrv false [] 0 new_listener
    (list_to_map [("start", SrvDemo.client [("StartVmCfgPath", ["/civ.ini"])])])
    (mkGlob _ new_pool EmptyString (Some "/home/u/.intel/.civ")
       (SimOs.boot [("/usr/bin/qemu", EmptyString); ("/civ.ini", ini)] [] [])).
Definition fresh : Sys := mkSys server Idle ∅ ∅ [] true false.

Lemma fresh_init : sys_init fresh.
Proof. split; [split; [constructor..|apply new_pool_wf]|done|done|]. intros c p. discriminate. Qed.

(** The state after a sequence of events that are possible. *)
Definition after (l : list sys_event) : Sys := default fresh (sys_run l fresh).
Definition possible (l : list sys_event) : bool := if sys_run l fresh then true else false.
Lemma after_reachable l : possible l = true → sys_reachable (after l).
Proof.
  unfold possible, after. destruct (sys_run l fresh) as [s|] eqn:Hs; [|done]. intros _.
  exists fresh. split; [apply fresh_init|]. by eapply sys_run_steps.
Qed.


(** Started, registered with the listener, reported ready, answered. *)
Definition to_wait : list sys_event := SysRequest kCivMsgStartVm "start" :: replicate 4 (SysThread 0).
Definition to_read : list sys_event :=
  to_wait ++ [SysReady "vsock:1000:7"; SysThread 0; SysThread 0; SysWake].
Definition to_answer : list sys_event := to_read ++ [SysAnswer].

Lemma to_wait_reachable : sys_reachable (after to_wait).
Proof. apply after_reachable. vm_compute. reflexivity. Qed.
Lemma to_answer_reachable : sys_reachable (after to_answer).
Proof. apply after_reachable. vm_compute. reflexivity. Qed.

Definition waiting_thread : Thr := mkThr (TWait 200) true 1 2.
Definition running_thread : Thr := mkThr TExit false 0 2.

Lemma system_refines_protocol_witness :
  ∃ a, preachable 2 a ∧ sim 0 (after to_wait) waiting_thread a.
Proof.
  apply (system_refines_protocol (qemu_laws RefBoost.ref_laws) (after to_wait) 0 waiting_thread);
    [apply to_wait_reachable|vm_compute; reflexivity..].
Defined.

Lemma guest_lifetime_witness : is_Some (obj 0 (srv (after to_answer))).
Proof.
  destruct (guest_lifetime (qemu_laws RefBoost.ref_laws) (after to_answer)) as [_ H];
    [apply to_answer_reachable|vm_compute; reflexivity|].
  apply (H 0%nat running_thread); [vm_compute; reflexivity|]. split; discriminate.
Defined.

Lemma start_answer_meaning_witness : 0%nat ∈ called (after to_answer).
Proof.
  destruct (start_answer_meaning (qemu_laws RefBoost.ref_laws) (after to_answer) 0 running_thread 0) as [_ H];
    [apply to_answer_reachable|vm_compute; reflexivity..|]. apply H; reflexivity.
Defined.

Lemma start_request_progress_witness :
  ∃ x, threads (after to_wait) !! 0%nat = Some x ∧ (turns_left x ≤ 420)%nat.
Proof.
  destruct (start_request_progress (qemu_laws RefBoost.ref_laws) (after to_wait) 0) as (x & Hx & Hl & _);
    [apply to_wait_reachable|vm_compute; reflexivity..|]. exists x. auto.
Defined.

(** A guest that is waited for and never reports ready: its thread deletes it,
    and the answer of the start request reads what is gone. *)
Example failed_wait_ends_server :
  let given_up := to_wait ++ replicate 400 (SysThread 0) ++ [SysThread 0; SysThread 0; SysWake; SysAnswer] in
  possible given_up = true ∧ over (after given_up) = true.
Proof. vm_compute. auto. Qed.
End SysDemo.
