(* ===== verification/SystemCids.v ===== *)
(** * Context ids over the life of the server

    Which context ids the guests of System.v hold: each registered guest has
    one of its own, and an id is free again as soon as its guest is gone,
    whatever the interleaving, as long as no stop request is made.  With one,
    an id is released twice, and the last example is a run in which two guests
    end up with the same id. *)

From S2P Require Import Prelude.
From S2P Require Import CStd.
From S2P Require Import Boost.
From S2P Require Import Os.
From S2P Require Import CidPool.
From S2P Require Import Config.
From S2P Require Import Lifecycle.
From S2P Require Import Builder.
From S2P Require Import Listener.
From S2P Require Import Server.
From S2P Require Import ServerProps.
From S2P Require Import StartProtocol.
From S2P Require Import System.
From S2P Require Import SystemProps.
From S2P Require Import SystemTheorems.

Local Open Scope Z_scope.

Section cids.
Context {B : Boost} {E : OsEnv} {V : VmBuilder} (L : VmBuilderLaws V).
Context (p0 : VsockCidPool).      (** the pool before the first guest *)

Definition spool (s : Srv) : VsockCidPool := g_pool (glob s).

(** The guests and the pool agree. *)
Record tally (s : Srv) : Prop := {
  ta_inv : server_inv s;
  ta_held : ∀ p v, obj p s = Some v → vb_built v ∧ Alloc.usable (GetCid v) ∧ bit p0 (GetCid v) = true;
  ta_own : ∀ p q v w, obj p s = Some v → obj q s = Some w → GetCid v = GetCid w → p = q;
  ta_free : ∀ c, Alloc.usable c →
    (bit (spool s) c = true ↔ bit p0 c = true ∧ ∀ p v, obj p s = Some v → GetCid v ≠ c);
}.

Lemma tally_idle s s' : idle s s' → tally s → tally s'.
Proof.
  intros Hid [Hi Hh Ho Hf]. pose proof (idle_inv _ _ Hid Hi) as Hi'.
  destruct Hid as (Hv & _ & Hp & _). unfold spool, obj in *. split; unfold spool, obj; rewrite ?Hv, ?Hp; done.
Qed.

Lemma hoare_tally_idle {A} (c : M Srv A) : grows idle c → hoare tally c (λ _, tally) (λ _, True).
Proof. intros Hc s Hs. specialize (Hc s). destruct (c s) as [[]x]; [|done..]. by eapply tally_idle. Qed.

(** A method that keeps the guest fit and leaves its id and the pool alone. *)
Lemma hoare_tally_via {A} p (c : M (vb * Glob) A) :
  grows vm_frame c → grows cid_frame c →
  (∀ s r s', vb_built s.1 → c s = (Ret r, s') → vb_built s'.1) →
  hoare tally (via p c) (λ _, tally) (λ _, True).
Proof.
  intros Hn Hc Hb s [Hi Hh Ho Hf]. pose proof (via_run p c s (si_pointers _ Hi)) as Hr.
  pose proof (guests_via p c Hn s) as Hg. destruct (obj p s) as [v|] eqn:Hv; [|by rewrite Hr].
  destruct Hr as (y & Hr & Hy & _ & _ & Hgl). rewrite Hr in *. specialize (Hc (v, glob s)). specialize (Hb (v, glob s)).
  destruct (c (v, glob s)) as [[r|e|] [v' g]]; [|done..]. cbn in *. destruct Hc as [Hcid Hpool]. cbn in *.
  assert (∀ q w, obj q y = Some w → ∃ w', obj q s = Some w' ∧ GetCid w = GetCid w' ∧ (vb_built w' → vb_built w)) as Hback.
  { intros q w. rewrite Hy. case_decide as Hq; [|eauto]. subst. intros [= <-]. exists v.
    split_and!; [done..|]. intros Hbv. by eapply (Hb r (_, _)). }
  assert (∀ q w, obj q s = Some w → ∃ w', obj q y = Some w' ∧ GetCid w' = GetCid w) as Hfwd.
  { intros q w Hw. rewrite Hy. case_decide as Hq; [|eauto]. subst. rewrite Hv in Hw. injection Hw as <-. eauto. }
  split.
  - by eapply same_guests_inv.
  - intros q w (w' & Hw' & -> & Hbw)%Hback. destruct (Hh q w' Hw') as (? & ? & ?). auto.
  - intros q1 q2 w1 w2 (w1' & H1 & -> & _)%Hback (w2' & H2 & -> & _)%Hback. by apply Ho.
  - intros d Hd. unfold spool. rewrite Hgl, Hpool. rewrite (Hf d Hd).
    split; intros [H1 H2]; (split; [done|]); intros q w.
    + intros (w' & Hw' & -> & _)%Hback. eauto.
    + intros (w' & Hw' & <-)%Hfwd. eauto.
Qed.

(** A new guest takes its id, a deleted one gives it back. *)
Lemma tally_joined s s' p : server_inv s' → joined s s' p → tally s → tally s'.
Proof.
  intros Hi' (-> & Hn & _ & v & Hv & _ & Hb & _ & Hu & Hbit & Hp) [Hi Hh Ho Hf].
  assert (∀ q, obj q s' = if decide (q = next_vb s) then Some v else obj q s) as Hobj.
  { intros q. unfold obj. rewrite Hv, obj_in_app, obj_in_cons. case_decide as Hq.
    - subst. rewrite decide_True by done. destruct (obj_in (next_vb s) (vmis_ s)) as [w|] eqn:Hw; [|done].
      pose proof (obj_old _ s w Hi Hw). lia.
    - rewrite decide_False by done. by destruct (obj_in q (vmis_ s)). }
  pose proof (proj1 (Hf _ Hu) Hbit) as [Hb0 Hnew]. split; [done| | |].
  - intros q w. rewrite Hobj. case_decide; [intros [= <-]; auto|apply Hh].
  - intros q1 q2 w1 w2. rewrite !Hobj. repeat case_decide; try congruence.
    + intros [= <-] H2 Hc. by destruct (Hnew q2 w2 H2).
    + intros H1 [= <-] Hc. by destruct (Hnew q1 w1 H1).
    + apply Ho.
  - intros c Hc. unfold spool. rewrite Hp, bit_reset_bit by (apply usable_range; done).
    case_decide as Hcv.
    + subst. split; [done|]. intros [_ H]. destruct (H (next_vb s) v); [|done]. rewrite Hobj. by rewrite decide_True.
    + rewrite (Hf c Hc). split; intros [H1 H2]; (split; [done|]); intros q w.
      * rewrite Hobj. case_decide; [by intros [= <-]|apply H2].
      * intros Hw. apply (H2 q). rewrite Hobj, decide_False; [done|]. pose proof (obj_old _ _ _ Hi Hw). lia.
Qed.

Lemma tally_deleted s s' p v v' :
  server_inv s' → obj p s = Some v → (∀ q, obj q s' = if decide (q = p) then None else obj q s) →
  Delete (v, glob s) = (Ret tt, (v', glob s')) → tally s → tally s'.
Proof using L.
  intros Hi' Hv Hobj Hd [Hi Hh Ho Hf]. destruct (Hh p v Hv) as (Hb & Hu & Hbit).
  pose proof (delete_releases (v, glob s) _ Hb Hd) as Hp. cbn in Hp.
  assert (spool s' = set_bit (GetCid v) (spool s)) as Hp'.
  { unfold spool. rewrite Hp. unfold released. by destruct (ReleaseCid_cases (GetCid v) (g_pool (glob s))) as [[_ ?]|[-> _]]. }
  split; [done| | |].
  - intros q w. rewrite Hobj. case_decide; [done|apply Hh].
  - intros q1 q2 w1 w2. rewrite !Hobj. repeat case_decide; try done. apply Ho.
  - intros c Hc. pose proof (usable_range c Hc) as Hr. pose proof (usable_range _ Hu) as Hrv.
    rewrite Hp', bit_set_bit by (done || apply Hi || lia). case_decide as Hcv.
    + subst. split; [|done]. intros _. split; [done|]. intros q w. rewrite Hobj. case_decide as Hq; [done|].
      intros Hw He. by destruct Hq; apply (Ho _ _ w v).
    + rewrite (Hf c Hc). split; intros [H1 H2]; (split; [done|]); intros q w.
      * rewrite Hobj. case_decide; [done|apply H2].
      * intros Hw. destruct (decide (q = p)) as [->|Hq]; [congruence|]. apply (H2 q). by rewrite Hobj, decide_False.
Qed.

Lemma hoare_tally_delete name p v :
  hoare (λ s, tally s ∧ obj p s = Some v ∧ GetName v = name) (DeleteVmInstance name)
    (λ _ s, tally s ∧ find_vm name (vmis_ s) = None) (λ _, True).
Proof using L.
  intros s (Ht & Hv & <-). pose proof (hoare_DeleteVmInstance L (GetName v) s (ta_inv _ Ht)) as Hd.
  destruct (DeleteVmInstance_run L s p v (ta_inv _ Ht) Hv) as (r & s' & Hr & Ho & _ & _ & _ & Hg).
  rewrite Hr in *. destruct r as [u|e|]; [|done..]. destruct Hd as [Hi Hf]. destruct (Hg u eq_refl) as [v' Hd].
  split; [|done]. by eapply tally_deleted.
Qed.

(** *** Requests *)

Lemma hoare_tally_make name c :
  hoare (λ s, tally s ∧ find_vm name (vmis_ s) = None) (make_vm name c) (λ _, tally) (λ _, True).
Proof using L.
  intros s [Ht Hf]. pose proof (ta_inv _ Ht) as Hi. pose proof (make_vm_cases L name c s Hi Hf) as Hc.
  pose proof (hoare_make_vm L name c s (conj Hi Hf)) as Hinv.
  destruct (make_vm name c s) as [[[p|]|e|] x]; [by eapply tally_joined|by eapply tally_idle|done..].
Qed.

Lemma hoare_tally_dispatch type payload :
  type ≠ kCivMsgStartVm → type ≠ kCivMsgStopVm →
  hoare tally (dispatch no_wait type payload) (λ _, tally) (λ _, True).
Proof using L.
  intros Hs Ht.
  assert (∀ h : M Srv Z, hoare tally h (λ _, tally) (λ _, True) →
    hoare tally (r ← h; mret (if r =? 0 then kCivMsgRespondSuccess else kCivMsgRespondFail)) (λ _, tally) (λ _, True)) as Hre.
  { intros h Hh. eapply hoare_bind; [exact Hh|]. intros ?. by apply hoare_ret_imp. }
  destruct type; cbn [dispatch]; try done; try (by apply hoare_ret_imp); try apply Hre.
  - intros s [[] ? ? ?]. by split; [split|..].
  - apply hoare_tally_idle. unfold ListVm. grows_go ltac:(first [apply idle_shm_open|apply idle_shm_put]).
  - apply hoare_ImportVm_steps; [intros A; apply hoare_tally_idle|apply hoare_tally_make|].
    intros name st _ s (Hs0 & i & p & v & Hf & Hl & _).
    destruct (find_vm_Some _ _ _ Hf) as (p' & v' & Hl' & Hn). rewrite Hl in Hl'. injection Hl' as <- <-.
    apply (hoare_tally_delete name p v). split_and!; try done.
    by eapply lookup_obj; [apply ta_inv|].
  - apply hoare_tally_idle. unfold GetVmInfo, FindVmInstance. grows_go ltac:(first
      [apply idle_shm_open|apply idle_shm_put|apply idle_find_first|apply idle_get_vm]).
Qed.

(** *** Threads and calls *)

Lemma hoare_tally_ready p : hoare tally (via p SetVmReady) (λ _, tally) (λ _, True).
Proof using L.
  apply hoare_tally_via; [apply ready_frame| |].
  - intros s. destruct (ready_running s) as (s' & -> & _ & Hc & Hg & _). cbn. split; [done|by rewrite Hg].
  - intros s r s' Hb. destruct (ready_running s) as (s1 & -> & _ & _ & _ & Hk). intros [= _ <-]. auto.
Qed.

Lemma hoare_tally_listener {A} (c : M StartupListenerImpl A) :
  hoare tally (on_listener c) (λ _, tally) (λ _, True).
Proof.
  intros s [[] Hh Ho Hf]. unfold on_listener, lift. destruct (c (listener s)) as [[]l]; [|done..].
  split; [by split|done..].
Qed.

Lemma hoare_tally_get {A} p (f : vb → A) :
  hoare tally (via p (gets (λ t : vb * Glob, f t.1))) (λ _, tally) (λ _, True).
Proof. intros s Hs. rewrite via_gets by apply si_pointers, ta_inv, Hs. by destruct (obj p s). Qed.

Lemma hoare_tally_finish p : hoare tally (StartVm_finish p) (λ _, tally) (λ _, True).
Proof.
  unfold StartVm_finish. eapply hoare_bind; [apply hoare_tally_get|].
  intros st. apply hoare_if; intros _; by apply hoare_ret_imp.
Qed.

Lemma hoare_tally_turn p x : hoare tally (thread_turn p x) (λ _, tally) (λ _, True).
Proof using L.
  assert (∀ A (c : M (vb * Glob) A) (x' : A → Thr), hoare tally (via p c) (λ _, tally) (λ _, True) →
    hoare tally (a ← via p c; mret (x' a)) (λ _, tally) (λ _, True)) as Hvia.
  { intros A c x' Hc. eapply hoare_bind; [exact Hc|]. intros a. by apply hoare_ret_imp. }
  assert (∀ x' : Thr, hoare tally
    (name ← via p (gets (λ t : vb * Glob, GetName t.1)); DeleteVmInstance name ;; mret x')
    (λ _, tally) (λ _, True)) as Hdel.
  { intros x'. apply (hoare_bind _ _ _ (λ name y, tally y ∧ ∃ v, obj p y = Some v ∧ GetName v = name)).
    - intros y Hy. rewrite via_gets by apply si_pointers, ta_inv, Hy. destruct (obj p y) as [v|] eqn:Hv; [|done]. eauto.
    - intros name. apply (hoare_bind _ _ _ (λ _ s, tally s ∧ find_vm name (vmis_ s) = None)); [|intros ?; apply hoare_ret_imp; by intros ? [? _]].
      intros s [Hs (v & Hv & Hn)]. by apply (hoare_tally_delete name p v). }
  unfold thread_turn. destruct (pc x) as [| | | | | |[|n]| | | |].
  2,7,9,11: by apply hoare_ret_imp.
  1-3: apply Hvia.
  - apply hoare_tally_via; [apply start_frame|apply start_cid|].
    intros s r s' Hb Hr. pose proof (start_booting s Hb) as H. rewrite Hr in H. apply H.
  - apply hoare_tally_ready.
  - apply hoare_tally_via; [apply exit_frame|apply exit_cid|].
    intros s r s' Hb Hr. pose proof (exit_built s Hb) as H. by rewrite Hr in H.
  - apply Hdel.
  - eapply hoare_bind; [apply hoare_tally_get|]. intros cid.
    eapply hoare_bind; [apply hoare_tally_listener|]. intros ?. by apply hoare_ret_imp.
  - destruct (checked x); apply Hvia; [apply hoare_tally_get|].
    apply hoare_tally_via; [apply running_frame|apply running_cid|].
    intros s r s' Hb Hr. destruct (running_back s Hb) as (b & s1 & Hr' & Hb1). rewrite Hr in Hr'. by injection Hr' as _ <-.
  - apply Hdel.
  - done.
Qed.

Lemma hoare_tally_call peer : hoare tally (ready_call peer) (λ _, tally) (λ _, True).
Proof using L.
  unfold ready_call. eapply hoare_bind; [apply hoare_tally_listener|]. intros [st [p|]]; cbn.
  - eapply hoare_bind; [apply hoare_tally_ready|]. intros ?. by apply hoare_ret_imp.
  - apply (hoare_bind _ _ _ (λ _, tally)); [by apply hoare_ret_imp|]. intros ?. by apply hoare_ret_imp.
Qed.

(** *** Steps *)

(** A step in which no guest is asked to stop. *)
Definition calm_step (s s' : Sys) : Prop :=
  ∃ ev, (∀ payload, ev ≠ SysRequest kCivMsgStopVm payload) ∧ sys_do ev s = Some s'.

Lemma settle_tally {A} (c : M Srv A) (k : A → Sys → Sys) s s' :
  hoare tally c (λ _, tally) (λ _, True) → (∀ a t, srv (k a t) = srv t) →
  settle c k s = Some s' → over s' = false → tally (srv s) → tally (srv s').
Proof.
  intros Hc Hk Hs Ho Ht. revert Hs Ho. unfold settle. specialize (Hc (srv s) Ht).
  destruct (c (srv s)) as [[a|e|] x]; [| |done]; intros [= <-]; [|done]. by rewrite Hk.
Qed.

Lemma calm_tally s s' : calm_step s s' → over s' = false → tally (srv s) → tally (srv s').
Proof using L.
  intros (ev & Hev & Hs) Ho. revert Hs. unfold sys_do. destruct (over s); [done|].
  destruct ev as [type payload| | |p|peer|].
  - destruct (phase s); [|done..]. destruct (stop_server_ (srv s)); [done|].
    destruct (decide (type = kCivMsgStartVm)) as [->|Hty].
    + intros Hs Ht. eapply (settle_tally _ start_thread); [|by intros [[]|]|exact Hs|done|done].
      intros x Hx. pose proof (StartVm_prepare_post L x payload (ta_inv _ Hx) x (reflexivity x)) as Hp.
      pose proof (hoare_prepare L payload x (ta_inv _ Hx)) as Hi.
      destruct (StartVm_prepare payload x) as [[[[p n]|]|e|] y]; cbn in *; [|by eapply tally_idle|done..].
      eapply tally_joined; [done|apply Hp|done].
    + assert (type ≠ kCivMsgStopVm) as Hst by (intros ->; by apply (Hev payload)).
      intros Hs Ht. eapply settle_tally; [by apply (hoare_tally_dispatch type payload)| |destruct type; try done; exact Hs|done|done].
      done.
  - destruct (phase s); [done| |done]. repeat case_match; try done. by intros [= <-].
  - destruct (phase s); [done..|]. intros Hs Ht. eapply settle_tally; [| |exact Hs|done|done]; [|done].
    apply hoare_tally_finish.
  - destruct (threads s !! p) as [x|]; [|destruct (phase s); done]. intros Hs Ht.
    eapply (settle_tally _ (set_thread p)); [apply (hoare_tally_turn p x)|done|destruct (phase s); exact Hs|done|done].
  - intros Hs Ht. destruct (listening s); [|destruct (phase s); done].
    eapply (settle_tally _ (λ r, set_called r.2)); [apply (hoare_tally_call peer)|done|destruct (phase s); exact Hs|done|done].
  - intros Hs [[] ? ? ?]. assert (s' = signalled s) as -> by (destruct (phase s); congruence).
    by split; [split|..].
Qed.
End cids.

Section theorem.
Context {B : Boost} {E : OsEnv} {V : VmBuilder} (L : VmBuilderLaws V).

Lemma tally_fresh s : server_inv s → vmis_ s = [] → tally (spool s) s.
Proof.
  intros Hi Hv. split; unfold obj; rewrite ?Hv; try done. intros c _. split; [|by intros [? _]].
  intros Hb. split; [exact Hb|]. intros p v. discriminate.
Qed.

(** C6: the context ids of a server that started without a guest, in any
    interleaving of requests, guests' threads, ready calls and signals in which
    no guest is asked to stop: two registered guests never have the same id,
    and an id is free exactly when it was free before the first guest and no
    registered guest has it.  So no id is lost when a build fails, a guest is
    replaced by an import, ends or is given up. *)
Theorem guest_cids s0 s :
  sys_init s0 → vmis_ (srv s0) = [] → rtc calm_step s0 s → over s = false →
  (∀ p q v w, obj p (srv s) = Some v → obj q (srv s) = Some w → GetCid v = GetCid w → p = q)
  ∧ ∀ c, Alloc.usable c →
      (bit (g_pool (glob (srv s))) c = true
       ↔ bit (g_pool (glob (srv s0))) c = true ∧ ∀ p v, obj p (srv s) = Some v → GetCid v ≠ c).
Proof using B L.
  intros Hi Hv Hr. enough (over s = false → tally (spool (srv s0)) (srv s)) as H.
  { intros Ho. destruct (H Ho) as [_ _ Hown Hfree]. split; [exact Hown|exact Hfree]. }
  revert s Hr. apply (rtc_ind_r (λ s, over s = false → tally (spool (srv s0)) (srv s))).
  - intros _. apply tally_fresh; [apply init_inv, Hi|exact Hv].
  - intros s s' _ Hst IH Ho. eapply calm_tally; [exact L|exact Hst|exact Ho|].
    apply IH. destruct Hst as (ev & _ & Hs). revert Hs. unfold sys_do. by destruct (over s).
Qed.
End theorem.

(** ** Runs *)

Module CidDemo.
#[local] Existing Instance RefBoost.ref_boost.
#[local] Existing Instance SimOs.sim_os.

Definition ini (name : string) : string :=
  foldr (λ l r, l +:+ String newline r) EmptyString
    ["[global]"; "name=" +:+ name; "[emulator]"; "path=/usr/bin/qemu"; "[firmware]";
     "type=unified"; "path=OVMF.fd"; "[disk]"; "path=android.img"].
Definition server : Srv :=
  mkSrv false [] 0 new_listener
    (list_to_map [("start-1", SrvDemo.client [("StartVmCfgPath", ["/1.ini"])]);
                  ("start-2", SrvDemo.client [("StartVmCfgPath", ["/2.ini"])]);
                  ("start-3", SrvDemo.client [("StartVmCfgPath", ["/3.ini"])]);
                  ("stop-1", SrvDemo.client [("StopVmName", ["civ-1"])])])
    (mkGlob _ new_pool EmptyString (Some "/home/u/.intel/.civ")
       (SimOs.boot [("/usr/bin/qemu", EmptyString); ("/1.ini", ini "civ-1");
                    ("/2.ini", ini "civ-2"); ("/3.ini", ini "civ-3")] [] [])).
Definition fresh : Sys := mkSys server Idle ∅ ∅ [] true false.
Definition cids (s : Sys) : list Z := (λ pv, GetCid pv.2) <$> vmis_ (srv s).

Lemma fresh_server_init : sys_init fresh.
Proof. split; [split; [constructor..|apply new_pool_wf]|done|done|]. intros c p. discriminate. Qed.

(** Guest [p] is started and answered for. *)
Definition start (payload : string) (p : nat) : list sys_event :=
  SysRequest kCivMsgStartVm payload :: replicate 3 (SysThread p) ++ [SysWake; SysAnswer].
Definition ends (p : nat) : list sys_event := replicate 2 (SysThread p).

(** Two guests run, the first ends, and a third takes its id. *)
Definition calm_run : list sys_event := start "start-1" 0 ++ start "start-2" 1 ++ ends 0 ++ start "start-3" 2.
Definition after_calm : Sys := default fresh (sys_run calm_run fresh).

Definition is_stop (ev : sys_event) : bool :=
  match ev with SysRequest kCivMsgStopVm _ => true | _ => false end.
Lemma calm_steps l s s' : forallb (λ ev, negb (is_stop ev)) l = true → sys_run l s = Some s' → rtc calm_step s s'.
Proof.
  revert s. induction l as [|ev l IH]; intros s; cbn [sys_run forallb]; [intros _ [= <-]; apply rtc_refl|].
  intros [Hev Hl]%andb_true_iff (s1 & Hs & Hr)%bind_Some. eapply rtc_l; [|by apply IH].
  exists ev. split; [|exact Hs]. intros payload ->. discriminate.
Qed.

Lemma after_calm_reached : rtc calm_step fresh after_calm.
Proof.
  apply (calm_steps calm_run); [reflexivity|]. unfold after_calm.
  assert ((if sys_run calm_run fresh then true else false) = true) as H by (vm_compute; reflexivity).
  by destruct (sys_run calm_run fresh).
Qed.

Lemma guest_cids_witness :
  cids after_calm = [1001; 1000]
  ∧ (bit (g_pool (glob (srv after_calm))) 1000 = true → ∀ p v, obj p (srv after_calm) = Some v → GetCid v ≠ 1000).
Proof.
  split; [vm_compute; reflexivity|].
  destruct (guest_cids (qemu_laws RefBoost.ref_laws) fresh after_calm) as [_ H];
    [apply fresh_server_init|reflexivity|apply after_calm_reached|vm_compute; reflexivity|].
  intros Hb. apply (H 1000); [split; [discriminate|reflexivity]|exact Hb].
Defined.

(** With a stop request in between, the id of the first guest is released by
    the request and again when its thread deletes it; the guest that took it
    in the meantime then shares it with the next one. *)
Definition stop_run : list sys_event :=
  start "start-1" 0 ++ [SysRequest kCivMsgStopVm "stop-1"] ++ start "start-2" 1 ++ ends 0 ++ start "start-3" 2.
Theorem stop_shares_cid :
  match sys_run stop_run fresh with
  | Some s => over s = false ∧ cids s = [1000; 1000] ∧ results s !! 1%nat = Some 0 ∧ results s !! 2%nat = Some 0
  | None => False
  end.
Proof. vm_compute. auto. Qed.
End CidDemo.
