(* ===== verification/Cli.v ===== *)
(** * The command line client

    [Client] of services/client.{h,cc} and the guest commands of
    vm_manager.cc, run against a server in the state the model has.  A client
    puts the arguments of a request into a shared memory segment of its own,
    sends the segment's name with the request's type, and reads the answer
    from the segment.  [Notify] is here the exchange as a whole: the server
    answers; or it has left its loop by an exception, its segment is gone, and
    the client gives up after its retries; or it never comes back from the
    handler, or dies in it, with [mutex_cond] locked: then the segment stays
    and the client hangs, since each of its timed waits ends by locking that
    mutex again. *)

From S2P Require Import Prelude.
From S2P Require Import CStd.
From S2P Require Import Boost.
From S2P Require Import Os.
From S2P Require Import CidPool.
From S2P Require Import Config.
From S2P Require Import Builder.
From S2P Require Import Listener.
From S2P Require Import Server.
From Stdlib Require Import Ascii.

Local Open Scope Z_scope.

(** The numbers of [VmBuilder::VmState]. *)
Definition state_code (s : VmState) : Z :=
  match s with
  | kVmEmpty => 0
  | kVmCreated => 1
  | kVmBooting => 2
  | kVmRunning => 3
  | kVmPaused => 4
  | kVmUnknown => 5
  end.

(** [static_cast<VmBuilder::VmState>(i)] for [0 <= i < kVmUnknown] *)
Definition known_states : list VmState := [kVmEmpty; kVmCreated; kVmBooting; kVmRunning; kVmPaused].

Section cli.
Context {B : Boost} {E : OsEnv} {V : VmBuilder}.
Context (meanwhile : nat → Z → Srv → Srv).

Definition client_shm_name (pid : Z) : string := "CivClientShm" +:+ to_string pid.

(** [Client::Client()] and [Client::~Client()]: there must be a server's
    segment, and the client's own must be new. *)
Definition Client_new (pid : Z) : M Srv unit :=
  stopped ← gets stop_server_;
  if (stopped : bool) then throw ExInterprocess else
  m ← gets shms;
  match m !! client_shm_name pid with
  | Some _ => throw ExInterprocess
  | None => shm_put (client_shm_name pid) (mkShm ∅ None)
  end.
Definition Client_delete (pid : Z) : M Srv unit :=
  modify (λ s, set_shms (delete (client_shm_name pid) (shms s)) s).

(** The segment of a client that exists. *)
Definition client_shm (pid : Z) : M Srv Shm :=
  gets (λ s, default (mkShm ∅ None) (shms s !! client_shm_name pid)).

(** [bool Client::Notify(CivMsgType t)] *)
Definition Notify (pid : Z) (t : CivMsgType) : M Srv bool := λ s,
  match dispatch meanwhile t (client_shm_name pid) s with
  | (Ret kCivMsgRespondSuccess, s') => (Ret true, s')
  | (Ret _, s') => (Ret false, s')
  | (Throw e, s') => if decide (e = ExTerminate) then (Blocked, s') else (Ret false, set_stop true s')
  | (Blocked, s') => (Blocked, s')
  end.

(** [std::vector<std::string> Client::GetGuestLists(void)] *)
Definition GetGuestLists (pid : Z) : M Srv (list string) :=
  shm ← client_shm pid;
  mret (default [] (bstrings shm !! "ListVms")).

Definition put_bstrings (pid : Z) (name : string) (l : list string) : M Srv unit :=
  shm ← client_shm pid;
  shm_put (client_shm_name pid) (mkShm (<[name := l]> (bstrings shm)) (vm_info shm)).

(** [void Client::PrepareStartGuestClientShm(const char *path)]; [env] is the
    environment of the client's process. *)
Definition PrepareStartGuestClientShm (pid : Z) (env : list string) (path : string) : M Srv unit :=
  put_bstrings pid "StartVmCfgPath" [path] ;;
  put_bstrings pid "StartVmEnv" env.
Definition PrepareStopGuestClientShm (pid : Z) (vm_name : string) : M Srv unit :=
  put_bstrings pid "StopVmName" [vm_name].
Definition PrepareGetGuestInfoClientShm (pid : Z) (vm_name : string) : M Srv unit :=
  put_bstrings pid "VmName" [vm_name].

(** [CivVmInfo Client::GetCivVmInfo(const char *vm_name)] *)
Definition GetCivVmInfo (pid : Z) (vm_name : string) : M Srv CivVmInfo :=
  PrepareGetGuestInfoClientShm pid vm_name ;;
  _ ← Notify pid kCivMsgGetVmInfo;
  shm ← client_shm pid;
  mret (default (mkInfo 0 kVmUnknown) (vm_info shm)).

(** [{ Client c; ... }] *)
Definition with_client {A} (pid : Z) (body : M Srv A) : M Srv A :=
  Client_new pid ;;
  r ← body;
  Client_delete pid ;;
  mret r.

(** [bool IsServerRunning()] *)
Definition IsServerRunning (pid : Z) : M Srv bool :=
  try_catch (with_client pid (_ ← Notify pid kCivMsgTest; mret true)) (λ _, mret false).

(** The loop of [GetGuestState] over the reported lines. *)
Fixpoint find_state (name : string) (vm_list : list string) : Z :=
  match vm_list with
  | [] => state_code kVmUnknown
  | it :: vm_list =>
      match split_any ":" false it with
      | [n; st] =>
          if bool_decide (n = name) then
            match list_find (λ s, st = VmStateToStr s) known_states with
            | Some (i, _) => Z.of_nat i
            | None => find_state name vm_list
            end
          else find_state name vm_list
      | _ => find_state name vm_list
      end
  end.

(** [static int GetGuestState(std::string name)] *)
Definition GetGuestState (pid : Z) (name : string) : M Srv Z :=
  if str_empty name then mret (-1) else
  run ← IsServerRunning pid;
  if negb run then mret (-1) else
  with_client pid
    (_ ← Notify pid kCivMsgListVm;
     vm_list ← GetGuestLists pid;
     mret (find_state name vm_list)).

(** [static bool ListGuest(void)]: the lines that are printed. *)
Definition ListGuest (pid : Z) : M Srv (option (list string)) :=
  run ← IsServerRunning pid;
  if negb run then mret None else
  with_client pid
    (ok ← Notify pid kCivMsgListVm;
     if negb ok then mret None else Some <$> GetGuestLists pid).

(** The configuration file [StartGuest] asks the server to read; [dir] is what
    [GetConfigPath()] answers in the client's process. *)
Definition guest_config (dir path : string) : M Srv (option string) :=
  ex ← srv_os (os (FsExists path));
  reg ← (if (ex : bool) then srv_os (os (FsIsRegular path)) else mret false);
  if (ex : bool) && (reg : bool) then mret (Some path) else
  let p := dir +:+ "/" +:+ path +:+ ".ini" in
  ex2 ← srv_os (os (FsExists p));
  mret (if (ex2 : bool) then Some p else None).

(** [static bool StartGuest(std::string path)] *)
Definition StartGuest (pid : Z) (env : list string) (dir path : string) : M Srv bool :=
  run ← IsServerRunning pid;
  if negb run then mret false else
  p ← guest_config dir path;
  match p with
  | None => mret false
  | Some p => with_client pid (PrepareStartGuestClientShm pid env p ;; Notify pid kCivMsgStartVm)
  end.

(** [static bool StopGuest(std::string name)] *)
Definition StopGuest (pid : Z) (name : string) : M Srv bool :=
  run ← IsServerRunning pid;
  if negb run then mret false else
  with_client pid (PrepareStopGuestClientShm pid name ;; Notify pid kCivMsgStopVm).

(** [static bool StopServer(void)]: the check after the answer is made while
    the first client is still there. *)
Definition StopServer (pid : Z) : M Srv bool :=
  run ← IsServerRunning pid;
  if negb run then mret false else
  with_client pid
    (ok ← Notify pid kCiVMsgStopServer;
     if (ok : bool) then again ← IsServerRunning pid; mret (negb again) else mret false).

(** [static bool GetGuestCid(std::string name)]: the number that is printed. *)
Definition GetGuestCid (pid : Z) (name : string) : M Srv (option Z) :=
  run ← IsServerRunning pid;
  if negb run then mret None else
  with_client pid
    (vi ← GetCivVmInfo pid name;
     mret (if bool_decide (state vi = kVmUnknown) then None else Some (cid vi))).
End cli.

(** ** Properties *)

Section lemmas.
Context {B : Boost} {E : OsEnv} {V : VmBuilder}.
Context (meanwhile : nat → Z → Srv → Srv).

(** A server is running and the client's process has no segment yet. *)
Definition reachable_server (pid : Z) (s : Srv) : Prop :=
  stop_server_ s = false ∧ shms s !! client_shm_name pid = None.

(** The server while the client of process [pid] is connected. *)
Definition connected (pid : Z) (shm : Shm) (s : Srv) : Srv :=
  set_shms (<[client_shm_name pid := shm]> (shms s)) s.

Lemma with_client_run {A} pid (body : M Srv A) s a shm :
  reachable_server pid s →
  body (connected pid (mkShm ∅ None) s) = (Ret a, connected pid shm s) →
  with_client pid body s = (Ret a, s).
Proof.
  intros [Hst Hm] Hb. unfold with_client, Client_new. sx_unfold. rewrite Hst, Hm.
  unfold shm_put. sx_unfold. change (set_shms _ s) with (connected pid (mkShm ∅ None) s).
  rewrite Hb. unfold Client_delete. sx_unfold. f_equal. destruct s. simpl in *.
  unfold connected, set_shms; simpl. by rewrite delete_insert_eq, delete_id.
Qed.

Lemma IsServerRunning_run pid s :
  reachable_server pid s → IsServerRunning meanwhile pid s = (Ret true, s).
Proof. intros Hr. unfold IsServerRunning, try_catch. by erewrite with_client_run. Qed.

Lemma client_shm_connected pid shm s :
  client_shm pid (connected pid shm s) = (Ret shm, connected pid shm s).
Proof. unfold client_shm. sx_unfold. simpl. by rewrite lookup_insert_eq. Qed.

Lemma connected_twice pid shm shm' s : connected pid shm' (connected pid shm s) = connected pid shm' s.
Proof. unfold connected, set_shms; simpl. by rewrite insert_insert_eq. Qed.

(** Listing the guests. *)
Lemma Notify_list pid s :
  Notify meanwhile pid kCivMsgListVm (connected pid (mkShm ∅ None) s)
  = (Ret true, connected pid (mkShm {["ListVms" := (λ pv : nat * vb, vm_line pv.2) <$> vmis_ s]} None) s).
Proof.
  unfold Notify. cbn [dispatch]. unfold ListVm, shm_open, shm_put. sx_unfold. simpl.
  rewrite lookup_insert_eq. simpl. f_equal. apply connected_twice.
Qed.

Lemma GetGuestState_run pid name s :
  reachable_server pid s → name ≠ EmptyString →
  GetGuestState meanwhile pid name s
  = (Ret (find_state name ((λ pv : nat * vb, vm_line pv.2) <$> vmis_ s)), s).
Proof.
  intros Hr Hn. unfold GetGuestState. apply str_empty_false in Hn as ->.
  rewrite (bind_run _ _ _ _ _ (IsServerRunning_run pid s Hr)). cbn [negb].
  eapply with_client_run; [done|]. rewrite (bind_run _ _ _ _ _ (Notify_list pid s)).
  unfold GetGuestLists. rewrite (bind_run (_ ≫= _) _ _ _ _
    (bind_run _ _ _ _ _ (client_shm_connected pid _ s))). simpl. by rewrite lookup_singleton_eq.
Qed.

(** Asking for a guest's data. *)
Definition asking (name : string) : Shm := mkShm {["VmName" := [name]]} None.

Lemma find_vm_lookup name (l : list (nat * vb)) i :
  find_vm name l = Some i → ∃ p v, l !! i = Some (p, v).
Proof.
  revert i. induction l as [|[p v] l IH]; intros i; cbn [find_vm]; [done|].
  case_bool_decide; [intros [= <-]; eauto|]. intros (j & Hj & ->)%fmap_Some_1. by apply IH.
Qed.

Lemma Prepare_info pid name s :
  PrepareGetGuestInfoClientShm pid name (connected pid (mkShm ∅ None) s)
  = (Ret tt, connected pid (asking name) s).
Proof.
  unfold PrepareGetGuestInfoClientShm, put_bstrings.
  rewrite (bind_run _ _ _ _ _ (client_shm_connected pid _ s)). unfold shm_put. sx_unfold.
  f_equal. apply connected_twice.
Qed.

Lemma Notify_info pid name s :
  Notify meanwhile pid kCivMsgGetVmInfo (connected pid (asking name) s)
  = match (i ← find_vm name (vmis_ s); vmis_ s !! i) with
    | Some (_, v) => (Ret true, connected pid
        (mkShm {["VmName" := [name]]} (Some (mkInfo (GetCid v) (GetState v)))) s)
    | None => (Ret false, connected pid (asking name) s)
    end.
Proof.
  unfold Notify. cbn [dispatch].
  unfold GetVmInfo, shm_open, find_first, FindVmInstance, get_vm, shm_put. sx_unfold. simpl.
  rewrite lookup_insert_eq. simpl. rewrite lookup_singleton_eq. simpl.
  destruct (find_vm name (vmis_ s)) as [i|] eqn:Hf; [|done]. simpl.
  destruct (find_vm_lookup _ _ _ Hf) as (p & v & Hi). rewrite Hi. simpl.
  f_equal. apply connected_twice.
Qed.

Lemma GetCivVmInfo_run pid name s :
  ∃ shm, GetCivVmInfo meanwhile pid name (connected pid (mkShm ∅ None) s)
  = (Ret (match (i ← find_vm name (vmis_ s); vmis_ s !! i) with
          | Some (_, v) => mkInfo (GetCid v) (GetState v)
          | None => mkInfo 0 kVmUnknown
          end), connected pid shm s).
Proof.
  pose proof (Notify_info pid name s) as Hn. unfold GetCivVmInfo. bstep (Prepare_info pid name s).
  destruct (i ← find_vm name (vmis_ s); vmis_ s !! i) as [[p v]|];
    bstep Hn; eexists; by erewrite (bind_run _ _ _ _ _ (client_shm_connected _ _ _)).
Qed.

Lemma find_known_state st :
  st ≠ kVmUnknown → ∃ i, list_find (λ s, VmStateToStr st = VmStateToStr s) known_states = Some (i, st)
    ∧ Z.of_nat i = state_code st.
Proof. destruct st; intros; try done; by eexists. Qed.
End lemmas.

Section properties.
Context {B : Boost} {E : OsEnv} {V : VmBuilder}.
Context (meanwhile : nat → Z → Srv → Srv).

Lemma split_line (HB : BoostLaws B) n st :
  ":"%char ∉ chars n → ":"%char ∉ chars (VmStateToStr st) ∧
  split_any ":" false (n +:+ ":" +:+ VmStateToStr st) = [n; VmStateToStr st].
Proof.
  intros Hn. assert (":"%char ∉ chars (VmStateToStr st)) as Hst by (destruct st; vm_compute; set_solver).
  split; [done|]. rewrite split_any_char.
  change (n +:+ ":" +:+ VmStateToStr st) with (n +:+ String ":" (VmStateToStr st)).
  by rewrite split_char_app, split_char_single.
Qed.

(** A line of another guest is passed over. *)
Lemma find_state_skip (HB : BoostLaws B) u name vm_list :
  GetName u ≠ name → find_state name (vm_line u :: vm_list) = find_state name vm_list.
Proof.
  intros Hne. cbn [find_state]. unfold vm_line.
  destruct (decide (":"%char ∈ chars (GetName u))) as [Hin|Hout].
  - rewrite split_any_char.
    destruct (str_find ":" (GetName u)) as [n|] eqn:Hf; [|by apply str_find_None in Hf].
    destruct (before_after _ _ _ Hf) as [Heq Hb]. rewrite Heq.
    change (":" +:+ VmStateToStr (GetState u)) with (String ":" (VmStateToStr (GetState u))).
    rewrite str_app_assoc, str_app_cons, split_char_app by done.
    by destruct (split_char_two ":" (after_char ":" (GetName u)) (VmStateToStr (GetState u)))
      as (a & b & l & ->).
  - destruct (split_line HB (GetName u) (GetState u) Hout) as [_ ->].
    by rewrite bool_decide_eq_false_2.
Qed.

Lemma find_state_listed (HB : BoostLaws B) v (l : list (nat * vb)) p :
  NoDup ((λ pv : nat * vb, GetName pv.2) <$> l) → (p, v) ∈ l →
  ":"%char ∉ chars (GetName v) → GetState v ≠ kVmUnknown →
  find_state (GetName v) ((λ pv : nat * vb, vm_line pv.2) <$> l) = state_code (GetState v).
Proof.
  intros Hnd Hin Hc Hst. induction l as [|[q u] l IH]; [by apply not_elem_of_nil in Hin|].
  rewrite fmap_cons in Hnd |- *. apply NoDup_cons in Hnd as [Hu Hnd]. cbn [snd].
  apply elem_of_cons in Hin as [[= <- <-]|Hin].
  - cbn [find_state]. unfold vm_line. destruct (split_line HB (GetName v) (GetState v) Hc) as [_ ->].
    rewrite bool_decide_eq_true_2 by done.
    destruct (find_known_state (GetState v) Hst) as (i & -> & Hi). done.
  - specialize (IH Hnd Hin).
    assert (GetName u ≠ GetName v) as Hne.
    { intros He. apply Hu. simpl. rewrite He. exact (list_elem_of_fmap_2 (λ pv : nat * vb, GetName pv.2) _ _ Hin). }
    by rewrite find_state_skip.
Qed.

(** C35: a client that asks for the state of a registered guest gets the
    number of that guest's state, and the server is as before; the name must
    have no colon, which separates name and state in the report. *)
Theorem guest_state_reported (HB : BoostLaws B) pid p v s :
  reachable_server pid s → NoDup ((λ pv : nat * vb, GetName pv.2) <$> vmis_ s) →
  (p, v) ∈ vmis_ s → GetName v ≠ EmptyString → ":"%char ∉ chars (GetName v) →
  GetState v ≠ kVmUnknown →
  GetGuestState meanwhile pid (GetName v) s = (Ret (state_code (GetState v)), s).
Proof.
  intros Hr Hnd Hin Hn Hc Hst. rewrite GetGuestState_run by done. by erewrite find_state_listed.
Qed.

(** A client that asks for the context id of a guest prints the id of
    the guest registered under that name, nothing when there is none, and the
    server is as before. *)
Theorem guest_cid_reported pid name s :
  reachable_server pid s →
  GetGuestCid meanwhile pid name s =
    (Ret (match (i ← find_vm name (vmis_ s); vmis_ s !! i) with
          | Some (_, v) => if bool_decide (GetState v = kVmUnknown) then None else Some (GetCid v)
          | None => None
          end), s).
Proof.
  intros Hr. unfold GetGuestCid.
  rewrite (bind_run _ _ _ _ _ (IsServerRunning_run meanwhile pid s Hr)). cbn [negb].
  destruct (GetCivVmInfo_run meanwhile pid name s) as [shm Hi].
  eapply with_client_run; [done|]. bstep Hi.
  by destruct (i ← find_vm name (vmis_ s); vmis_ s !! i) as [[p v]|].
Qed.
End properties.

(** ** Witnesses *)

Module CliDemo.
#[local] Existing Instance RefBoost.ref_boost.
#[local] Existing Instance SimOs.sim_os.

Definition guest : VmBuilderQemu :=
  set_cid 1002 (set_state kVmRunning (new_VmBuilderQemu "civ-1" empty_config)).
Definition server : Srv :=
  mkSrv false [(0%nat, guest)] 1 new_listener ∅
    (mkGlob _ new_pool EmptyString (Some EmptyString) (SimOs.boot [] [] [])).

Lemma guest_state_reported_witness :
  GetGuestState (λ _ _ s, s) 42 "civ-1" server = (Ret 3, server).
Proof.
  apply (guest_state_reported (V := qemu) (λ _ _ s, s) RefBoost.ref_laws 42 0%nat guest server).
  - split; reflexivity.
  - apply NoDup_singleton.
  - left.
  - discriminate.
  - apply (bool_decide_unpack _). vm_compute. exact I.
  - discriminate.
Defined.

Lemma guest_cid_reported_witness :
  GetGuestCid (λ _ _ s, s) 42 "civ-1" server = (Ret (Some 1002), server).
Proof. apply (guest_cid_reported (V := qemu) (λ _ _ s, s) 42 "civ-1" server). split; reflexivity. Defined.
End CliDemo.
