(* ===== verification/Message.v ===== *)
(** * The exchange of a message

    [Client::Notify] (services/client.cc) and the loop of [Server::Start]
    (services/server.cc) share [CivMsgSync] and one [CivMsg]
    (services/message.h).  The steps below are the accesses of any number of
    clients, each sending one request, and of the server, in the order of the
    source and in any interleaving; a condition variable wakes a waiter that
    was notified, and a client's timed wait may also end by its timeout. *)

From S2P Require Import Prelude.
From S2P Require Import Builder.
From S2P Require Import Listener.
From S2P Require Import Server.

Local Open Scope Z_scope.

Definition kMaxRetryCount : nat := 100.

(** Where [Client::Notify] stands. *)
Inductive ClientPc : Type :=
| CStart                       (** [scoped_lock lock_clients(sync.first->mutex)] *)
| CMake                        (** [construct<CivMsg>(kCivServerObjData)()] *)
| CType                        (** [data->type = t] *)
| CPayload                     (** [strncpy(data->payload, ...)] *)
| CLock                        (** [scoped_lock lock_cond(sync.first->mutex_cond)] *)
| CNotify                      (** [cond_s.notify_one(); msg_in = true] *)
| CLoop (retry_cnt : nat)      (** the loop's condition *)
| CWait (retry_cnt : nat)      (** inside [cond_c.wait_for] *)
| CExit (retry_cnt : nat)      (** after the loop *)
| CDone (ret : bool).

(** Where the loop of [Server::Start] stands. *)
Inductive ServerPc : Type :=
| SLock                        (** [scoped_lock lock(sync_->mutex_cond)] *)
| SCheck                       (** [if (!sync_->msg_in)] *)
| SWait                        (** inside [cond_s.wait(lock)] *)
| SFind                        (** [shm.find<CivMsg>] and the switch *)
| SExit.                       (** left the loop *)

Inductive Owner : Type := OwnServer | OwnClient (i : nat).

Record Msg : Type := mkMsg {
  mutex : option nat;                       (** the client that holds [mutex] *)
  mutex_cond : option Owner;
  msg_in : bool;
  cond_s : bool;                            (** the waiting server was notified *)
  cond_c : bool;                            (** the waiting client was notified *)
  data : option (CivMsgType * bool);        (** type, and whether the payload is there *)
  spc : ServerPc;
  cpc : nat → ClientPc;
  served : list (nat * CivMsgType * bool * CivMsgType); (** client, request, payload there, answer *)
  gave_up : bool;                           (** a client has run out of retries *)
}.

Definition set_pc (i : nat) (c : ClientPc) (f : nat → ClientPc) : nat → ClientPc :=
  λ j, if decide (j = i) then c else f j.

(** The answers a request can get from [dispatch]. *)
Definition answers (t r : CivMsgType) : Prop :=
  match t with
  | kCiVMsgStopServer => r = kCivMsgRespondSuccess
  | kCivMsgListVm | kCivMsgImportVm | kCivMsgStartVm | kCivMsgStopVm | kCivMsgGetVmInfo =>
      r = kCivMsgRespondSuccess ∨ r = kCivMsgRespondFail
  | _ => r = t
  end.

Section exchange.
(** The request each client sends. *)
Context (request : nat → CivMsgType).

Inductive client_step (i : nat) : Msg → Msg → Prop :=
| c_lock mc mi ks kc d sp cp sv gu : cp i = CStart →
    client_step i (mkMsg None mc mi ks kc d sp cp sv gu)
                  (mkMsg (Some i) mc mi ks kc d sp (set_pc i CMake cp) sv gu)
| c_make m mc mi ks kc d sp cp sv gu : cp i = CMake →
    client_step i (mkMsg m mc mi ks kc d sp cp sv gu)
                  (mkMsg m mc mi ks kc (Some (MsgOther 0, false)) sp (set_pc i CType cp) sv gu)
| c_type m mc mi ks kc t b sp cp sv gu : cp i = CType →
    client_step i (mkMsg m mc mi ks kc (Some (t, b)) sp cp sv gu)
                  (mkMsg m mc mi ks kc (Some (request i, b)) sp (set_pc i CPayload cp) sv gu)
| c_payload m mc mi ks kc t b sp cp sv gu : cp i = CPayload →
    client_step i (mkMsg m mc mi ks kc (Some (t, b)) sp cp sv gu)
                  (mkMsg m mc mi ks kc (Some (t, true)) sp (set_pc i CLock cp) sv gu)
| c_cond m mi ks kc d sp cp sv gu : cp i = CLock →
    client_step i (mkMsg m None mi ks kc d sp cp sv gu)
                  (mkMsg m (Some (OwnClient i)) mi ks kc d sp (set_pc i CNotify cp) sv gu)
| c_notify m mc mi ks kc d sp cp sv gu : cp i = CNotify →
    client_step i (mkMsg m mc mi ks kc d sp cp sv gu)
                  (mkMsg m mc true true kc d sp (set_pc i (CLoop 0) cp) sv gu)
| c_wait m mc ks kc d sp cp sv gu n : cp i = CLoop n → (n < kMaxRetryCount)%nat →
    client_step i (mkMsg m mc true ks kc d sp cp sv gu)
                  (mkMsg m None true ks false d sp (set_pc i (CWait n) cp) sv gu)
| c_leave m mc mi ks kc d sp cp sv gu n : cp i = CLoop n →
    mi = false ∨ (kMaxRetryCount <= n)%nat →
    client_step i (mkMsg m mc mi ks kc d sp cp sv gu)
                  (mkMsg m mc mi ks kc d sp (set_pc i (CExit n) cp) sv gu)
| c_wake m mi ks d sp cp sv gu n : cp i = CWait n →
    client_step i (mkMsg m None mi ks true d sp cp sv gu)
                  (mkMsg m (Some (OwnClient i)) mi ks false d sp (set_pc i (CExit n) cp) sv gu)
| c_timeout m mi ks kc d sp cp sv gu n : cp i = CWait n →
    client_step i (mkMsg m None mi ks kc d sp cp sv gu)
                  (mkMsg m (Some (OwnClient i)) mi ks kc d sp (set_pc i (CLoop (S n)) cp) sv gu)
| c_finish m mc mi ks kc t b sp cp sv gu n : cp i = CExit n →
    client_step i (mkMsg m mc mi ks kc (Some (t, b)) sp cp sv gu)
      (mkMsg None None mi ks kc None sp
         (set_pc i (CDone ((n <? kMaxRetryCount)%nat && bool_decide (t = kCivMsgRespondSuccess))) cp)
         sv (gu || (kMaxRetryCount <=? n)%nat)).

Inductive server_step : Msg → Msg → Prop :=
| s_lock m mi ks kc d cp sv gu :
    server_step (mkMsg m None mi ks kc d SLock cp sv gu)
                (mkMsg m (Some OwnServer) mi ks kc d SCheck cp sv gu)
| s_wait m mc ks kc d cp sv gu :
    server_step (mkMsg m mc false ks kc d SCheck cp sv gu)
                (mkMsg m None false false kc d SWait cp sv gu)
| s_msg m mc ks kc d cp sv gu :
    server_step (mkMsg m mc true ks kc d SCheck cp sv gu) (mkMsg m mc true ks kc d SFind cp sv gu)
| s_wake m mi kc d cp sv gu :
    server_step (mkMsg m None mi true kc d SWait cp sv gu)
                (mkMsg m (Some OwnServer) mi false kc d SFind cp sv gu)
| s_none m mc mi ks kc cp sv gu :
    server_step (mkMsg m mc mi ks kc None SFind cp sv gu) (mkMsg m None mi ks kc None SLock cp sv gu)
| s_handle i mc mi ks kc t b r cp sv gu : answers t r →
    server_step (mkMsg (Some i) mc mi ks kc (Some (t, b)) SFind cp sv gu)
      (mkMsg (Some i) None false ks true (Some (r, b))
         (if decide (t = kCiVMsgStopServer) then SExit else SLock) cp (sv ++ [(i, t, b, r)]) gu)
| s_throw m mc mi ks kc t b cp sv gu :
    server_step (mkMsg m mc mi ks kc (Some (t, b)) SFind cp sv gu)
                (mkMsg m None mi ks kc (Some (t, b)) SExit cp sv gu).

Definition mstep (s s' : Msg) : Prop := server_step s s' ∨ ∃ i, client_step i s s'.

Definition minit : Msg :=
  mkMsg None None false false false None SLock (λ _, CStart) [] false.

Definition mreachable : Msg → Prop := rtc mstep minit.

(** ** The invariant, as long as no client has given up *)

Definition entries (i : nat) (s : Msg) : list (nat * CivMsgType * bool * CivMsgType) :=
  filter (λ e, e.1.1.1 = i) (served s).

(** Client [j] has not begun, or is done and was answered exactly once. *)
Definition outside (s : Msg) (j : nat) : Prop :=
  (cpc s j = CStart ∧ entries j s = [])
  ∨ ∃ r, cpc s j = CDone (bool_decide (r = kCivMsgRespondSuccess))
      ∧ entries j s = [(j, request j, true, r)].

(** The request is there, unanswered; or it has its one answer. *)
Definition asked (s : Msg) (i : nat) : Prop :=
  msg_in s = true ∧ data s = Some (request i, true) ∧ entries i s = [].
Definition answered (s : Msg) (i : nat) : Prop :=
  msg_in s = false ∧ ∃ r, data s = Some (r, true) ∧ entries i s = [(i, request i, true, r)].
Definition making (s : Msg) (i : nat) (d : option (CivMsgType * bool)) : Prop :=
  msg_in s = false ∧ data s = d ∧ entries i s = [].

(** The client that holds [mutex], by where it stands. *)
Definition inside (s : Msg) (i : nat) : Prop :=
  match cpc s i with
  | CStart | CDone _ => False
  | CMake => making s i None
  | CType => making s i (Some (MsgOther 0, false))
  | CPayload => making s i (Some (request i, false))
  | CLock | CNotify => making s i (Some (request i, true))
  | CLoop _ => asked s i ∨ answered s i
  | CWait _ => (asked s i ∧ cond_c s = false) ∨ answered s i
  | CExit n => (asked s i ∧ (kMaxRetryCount <= n)%nat) ∨ answered s i
  end.

(** Who holds [mutex_cond]. *)
Definition owns (s : Msg) (i : nat) : bool :=
  match cpc s i with CNotify | CLoop _ | CExit _ => true | _ => false end.
Definition lock_ok (s : Msg) : Prop :=
  match mutex_cond s with
  | Some OwnServer => spc s = SCheck ∨ spc s = SFind
  | Some (OwnClient i) => mutex s = Some i ∧ owns s i = true ∧ spc s ≠ SCheck ∧ spc s ≠ SFind
  | None => spc s ≠ SCheck ∧ spc s ≠ SFind
  end ∧ ∀ i, owns s i = true → mutex_cond s = Some (OwnClient i).

Record minv (s : Msg) : Prop := {
  i_out : ∀ j, mutex s ≠ Some j → outside s j;
  i_in : ∀ i, mutex s = Some i → inside s i;
  i_none : mutex s = None → data s = None ∧ msg_in s = false;
  i_lock : lock_ok s;
  i_find : spc s = SFind → msg_in s = true;
  i_wait : spc s = SWait → cond_s s = true → msg_in s = true;
}.

Lemma holder s i : minv s → (∀ b, cpc s i ≠ CDone b) → cpc s i ≠ CStart → mutex s = Some i.
Proof.
  intros Hi Hd Hs. destruct (decide (mutex s = Some i)) as [|Hne]; [done|].
  destruct (i_out s Hi i Hne) as [[? _]|(r & ? & _)]; [done|by destruct (Hd (bool_decide (r = kCivMsgRespondSuccess)))].
Qed.

Lemma set_pc_eq i c f : set_pc i c f i = c.
Proof. unfold set_pc. by rewrite decide_True. Qed.
Lemma set_pc_ne i j c f : j ≠ i → set_pc i c f j = f j.
Proof. intros. unfold set_pc. by rewrite decide_False. Qed.

Lemma minv_init : minv minit.
Proof.
  split; try done; simpl. intros j _. by left.
Qed.

(** A step of the client that holds [mutex] and keeps it. *)
Lemma client_move s s' i :
  minv s → mutex s = Some i → mutex s' = Some i → served s' = served s → spc s' = spc s →
  (∀ j, j ≠ i → cpc s' j = cpc s j) → inside s' i → lock_ok s' →
  (spc s = SFind → msg_in s' = true) → (spc s = SWait → cond_s s' = true → msg_in s' = true) →
  minv s'.
Proof.
  intros Hi Hm Hm' Hsv Hsp Hne Hin Hl Hf Hw. split; rewrite ?Hsp; try done.
  - intros j Hj. rewrite Hm' in Hj. assert (j ≠ i) as Hji by congruence.
    unfold outside, entries. rewrite Hsv, (Hne j Hji). apply (i_out s Hi). congruence.
  - intros j [= <-]%(eq_trans (eq_sym Hm')). done.
  - intros Hn. congruence.
Qed.

(** The lock after a step of the holder that does not own it before or after. *)
Lemma lock_ok_quiet s s' i :
  lock_ok s → mutex s' = mutex s → mutex_cond s' = mutex_cond s → spc s' = spc s →
  (∀ j, j ≠ i → cpc s' j = cpc s j) → owns s i = owns s' i → lock_ok s'.
Proof.
  intros [Hc Ho] Hm Hmc Hsp Hne Hoi.
  assert (∀ j, owns s' j = owns s j) as Hall.
  { intros j. destruct (decide (j = i)) as [->|Hj]; [done|]. unfold owns. by rewrite Hne. }
  split.
  - rewrite Hm, Hmc, Hsp. destruct (mutex_cond s) as [[|j]|]; [done| |done]. by rewrite Hall.
  - intros j. rewrite Hall, Hmc. apply Ho.
Qed.

Lemma not_owner s i : lock_ok s → mutex_cond s ≠ Some (OwnClient i) → owns s i = false.
Proof. intros [_ Ho] Hn. destruct (owns s i) eqn:He; [|done]. by destruct Hn; apply Ho. Qed.

(** The lock taken by the holder [i] while it was free, and given back. *)
Lemma lock_ok_take s s' i :
  lock_ok s → mutex_cond s = None → mutex s' = Some i → mutex_cond s' = Some (OwnClient i) →
  spc s' = spc s → (∀ j, j ≠ i → cpc s' j = cpc s j) → owns s' i = true → lock_ok s'.
Proof.
  intros [Hc Ho] Hn Hm Hmc Hsp Hne Hoi. rewrite Hn in Hc. split.
  - rewrite Hmc, Hsp. destruct Hc. by split_and!.
  - intros j Hj. destruct (decide (j = i)) as [->|Hji]; [done|].
    assert (owns s j = true) as Hoj by (unfold owns in *; by rewrite <-Hne).
    apply Ho in Hoj. congruence.
Qed.
Lemma lock_ok_give s s' i :
  lock_ok s → owns s i = true → mutex_cond s' = None → spc s' = spc s →
  (∀ j, j ≠ i → cpc s' j = cpc s j) → owns s' i = false → lock_ok s'.
Proof.
  intros [Hc Ho] Hi Hmc Hsp Hne Hoi. apply Ho in Hi as Hown. rewrite Hown in Hc. split.
  - rewrite Hmc, Hsp. by split; apply Hc.
  - intros j Hj. destruct (decide (j = i)) as [->|Hji]; [congruence|].
    assert (owns s j = true) as Hoj by (unfold owns in *; by rewrite <-Hne).
    apply Ho in Hoj. congruence.
Qed.

(** A client enters, and a client is done. *)
Lemma enter_inv i mc mi ks kc d sp cp sv gu :
  minv (mkMsg None mc mi ks kc d sp cp sv gu) → cp i = CStart →
  minv (mkMsg (Some i) mc mi ks kc d sp (set_pc i CMake cp) sv gu).
Proof.
  intros Hi Hpc. destruct (i_none _ Hi eq_refl) as [Hd Hm]. cbn in Hd, Hm.
  split; cbn; try done; try apply (i_find _ Hi); try apply (i_wait _ Hi).
  - intros j Hj. assert (j ≠ i) as Hne by congruence. unfold outside, entries. cbn.
    rewrite set_pc_ne by done. by apply (i_out _ Hi).
  - intros j [= <-]. unfold inside. cbn. rewrite set_pc_eq.
    destruct (i_out _ Hi i) as [[_ He]|(r & He & _)]; [done| |cbn in He; congruence]. by split_and!.
  - destruct (i_lock _ Hi) as [Hc Ho]. split; cbn in *.
    + destruct mc as [[|j]|]; [done|by destruct Hc|done].
    + intros j Hj. apply Ho. revert Hj. unfold owns; cbn. unfold set_pc. by case_decide.
Qed.

Lemma finish_inv i mc mi ks kc t b sp cp sv n :
  minv (mkMsg (Some i) mc mi ks kc (Some (t, b)) sp cp sv false) → cp i = CExit n →
  (n < kMaxRetryCount)%nat →
  minv (mkMsg None None mi ks kc None sp
    (set_pc i (CDone ((n <? kMaxRetryCount)%nat && bool_decide (t = kCivMsgRespondSuccess))) cp) sv false).
Proof.
  intros Hi Hpc Hn. pose proof (i_in _ Hi i eq_refl) as Hin. unfold inside in Hin. cbn in Hin.
  rewrite Hpc in Hin. destruct Hin as [[_ ?]|[Hmi (r & [= -> ->] & He)]]; [lia|]. cbn in Hmi.
  rewrite (proj2 (Nat.ltb_lt _ _) Hn). cbn [andb].
  split; cbn; try done; try apply (i_find _ Hi); try apply (i_wait _ Hi).
  - intros j _. unfold outside, entries. cbn. destruct (decide (j = i)) as [->|Hne].
    + right. exists r. rewrite set_pc_eq. done.
    + rewrite set_pc_ne by done. apply (i_out _ Hi). cbn. congruence.
  - eapply (lock_ok_give _ _ i (i_lock _ Hi)); try done.
    + unfold owns; cbn. by rewrite Hpc.
    + intros j Hj. cbn. by rewrite set_pc_ne.
    + unfold owns; cbn. by rewrite set_pc_eq.
Qed.

Lemma client_inv i s s' :
  client_step i s s' → minv s → gave_up s' = false → minv s'.
Proof.
  intros Hst Hi Hg.
  assert (∀ f c j, j ≠ i → set_pc i c f j = f j) as Hne by (intros; by apply set_pc_ne).
  destruct Hst as [mc mi ks kc d sp cp sv gu Hpc|m mc mi ks kc d sp cp sv gu Hpc
    |m mc mi ks kc t b sp cp sv gu Hpc|m mc mi ks kc t b sp cp sv gu Hpc
    |m mi ks kc d sp cp sv gu Hpc|m mc mi ks kc d sp cp sv gu Hpc
    |m mc ks kc d sp cp sv gu n Hpc Hn|m mc mi ks kc d sp cp sv gu n Hpc Hn
    |m mi ks d sp cp sv gu n Hpc|m mi ks kc d sp cp sv gu n Hpc
    |m mc mi ks kc t b sp cp sv gu n Hpc].
  1: by apply enter_inv.
  all: (assert (m = Some i) as -> by
    (apply (holder _ i Hi); cbn; intros; rewrite Hpc; discriminate)).
  10: { apply orb_false_iff in Hg as [-> Hg]. rewrite Hg. cbn [orb].
        apply (finish_inv i mc mi ks kc t b sp cp sv n); try done. by apply Nat.leb_gt. }
  all: pose proof (i_in _ Hi i eq_refl) as Hin; unfold inside in Hin; cbn in Hin; rewrite Hpc in Hin.
  all: apply (client_move _ _ i Hi eq_refl); try reflexivity; try (intros; cbn; by apply Hne);
    try exact (i_find _ Hi); try exact (i_wait _ Hi);
    try (unfold inside; cbn; rewrite set_pc_eq; unfold making, asked, answered, entries in *;
         cbn in *; naive_solver lia);
    try (apply (lock_ok_quiet _ _ i (i_lock _ Hi)); try done; [intros; cbn; by apply Hne|];
         unfold owns; cbn; by rewrite set_pc_eq, Hpc).
  2: apply (lock_ok_give _ _ i (i_lock _ Hi)).
  1,7,8: apply (lock_ok_take _ _ i (i_lock _ Hi)).
  all: try done; try (intros; cbn; by apply Hne); unfold owns; cbn; by rewrite ?set_pc_eq, ?Hpc.
Qed.

(** The lock is given back by the server, or taken by it while free. *)
Lemma lock_ok_server s s' :
  lock_ok s → mutex_cond s = Some OwnServer ∨ mutex_cond s = None →
  cpc s' = cpc s →
  mutex_cond s' = Some OwnServer ∧ (spc s' = SCheck ∨ spc s' = SFind)
  ∨ mutex_cond s' = None ∧ spc s' ≠ SCheck ∧ spc s' ≠ SFind →
  lock_ok s'.
Proof.
  intros [Hc Ho] Hmc Hcp Hs'. split.
  - by destruct Hs' as [[-> ?]|[-> ?]].
  - intros j Hj. assert (owns s j = true) as Hoj by (unfold owns in *; by rewrite <-Hcp).
    apply Ho in Hoj. destruct Hmc; congruence.
Qed.

(** The server holds the lock where it says it does. *)
Lemma server_owner s : lock_ok s → spc s = SCheck ∨ spc s = SFind → mutex_cond s = Some OwnServer.
Proof. intros [Hc _] Hs. destruct (mutex_cond s) as [[|j]|]; [done|naive_solver..]. Qed.

(** The answer to the one request that is there. *)
Lemma handle_inv i mc mi ks kc t b r cp sv gu sp :
  minv (mkMsg (Some i) mc mi ks kc (Some (t, b)) SFind cp sv gu) → sp = SExit ∨ sp = SLock →
  minv (mkMsg (Some i) None false ks true (Some (r, b)) sp cp (sv ++ [(i, t, b, r)]) gu).
Proof.
  intros Hi Hsp. pose proof (i_find _ Hi eq_refl) as Hmi. cbn in Hmi. subst mi.
  pose proof (server_owner _ (i_lock _ Hi) (or_intror eq_refl)) as Hmc. cbn in Hmc. subst mc.
  pose proof (i_in _ Hi i eq_refl) as Hin. unfold inside, making, asked, answered in Hin. cbn in Hin.
  assert (owns (mkMsg (Some i) (Some OwnServer) true ks kc (Some (t, b)) SFind cp sv gu) i = false) as Hno
    by (by apply not_owner; [apply (i_lock _ Hi)|]).
  unfold owns in Hno. cbn in Hno.
  split; cbn; try done.
  - intros j Hj. unfold outside, entries. cbn. rewrite filter_app, filter_cons_False, filter_nil, app_nil_r.
    + by apply (i_out _ Hi).
    + cbn. congruence.
  - intros j [= <-]. unfold inside, answered, entries. cbn.
    assert (t = request i ∧ b = true ∧ filter (λ e, e.1.1.1 = i) sv = [] ∧ ∃ n, cp i = CWait n)
      as (-> & -> & He & n & Hn).
    { destruct (cp i); try done; naive_solver. }
    rewrite Hn. right. split; [done|]. exists r. split; [done|].
    by rewrite filter_app, He, filter_cons_True, filter_nil.
  - eapply lock_ok_server; [apply (i_lock _ Hi)|by left|done|].
    right. split; [done|]. by destruct Hsp as [-> | ->].
  - by destruct Hsp as [-> | ->].
  - by destruct Hsp as [-> | ->].
Qed.

(** The other steps of the server leave the exchange as it is. *)
Lemma server_move s s' :
  minv s → mutex s' = mutex s → served s' = served s → cpc s' = cpc s → data s' = data s →
  msg_in s' = msg_in s → cond_c s' = cond_c s → lock_ok s' →
  (spc s' = SFind → msg_in s' = true) → (spc s' = SWait → cond_s s' = true → msg_in s' = true) →
  minv s'.
Proof.
  intros Hi Hm Hsv Hcp Hd Hmi Hcc Hl Hf Hw. split; try done.
  - intros j. rewrite Hm. unfold outside, entries. rewrite Hsv, Hcp. apply (i_out s Hi).
  - intros j. rewrite Hm. unfold inside, making, asked, answered, entries.
    rewrite Hsv, Hcp, Hd, Hmi, Hcc. apply (i_in s Hi).
  - rewrite Hm, Hd, Hmi. apply (i_none s Hi).
Qed.

Lemma server_step_inv s s' : server_step s s' → minv s → minv s'.
Proof.
  intros Hst Hi. pose proof (i_lock _ Hi) as Hl. pose proof (server_owner _ Hl) as Hown.
  destruct Hst; cbn in Hown.
  6: { apply handle_inv with (mc := mc) (mi := mi) (kc := kc); [done|]. case_decide; auto. }
  all: apply (server_move _ _ Hi); try done;
    try (eapply lock_ok_server; [exact Hl|cbn; auto|done|]; cbn; naive_solver).
  - intros _. cbn. by apply (i_wait _ Hi).
Qed.

Lemma minv_reachable s : mreachable s → gave_up s = false → minv s.
Proof.
  intros Hr. enough (gave_up s = false → minv s) by auto.
  revert s Hr. apply (rtc_ind_r (λ s, gave_up s = false → minv s)).
  { intros _. apply minv_init. }
  intros y z _ Hst IH Hg. destruct Hst as [Hs|[i Hc]].
  - eapply server_step_inv; [exact Hs|]. apply IH. by destruct Hs.
  - eapply client_inv; [exact Hc| |done]. apply IH. destruct Hc; try done.
    cbn in Hg. by apply orb_false_iff in Hg as [? _].
Qed.

Lemma entries_form s i :
  minv s → entries i s = [] ∨ ∃ r, entries i s = [(i, request i, true, r)].
Proof.
  intros Hi. destruct (decide (mutex s = Some i)) as [Hm|Hm].
  - pose proof (i_in s Hi i Hm) as Hin. unfold inside, making, asked, answered in Hin.
    destruct (cpc s i); naive_solver.
  - destruct (i_out s Hi i Hm) as [[_ ?]|(r & _ & ?)]; eauto.
Qed.

(** C19: as long as no client has run out of its retries, in any interleaving
    of any number of clients and the server: the server has only ever seen
    whole messages, a client's request at most once and as the client sent it;
    and a client that is done was answered exactly once and returns true
    exactly when the answer to its own request was success. *)
Theorem exchange_answered s :
  mreachable s → gave_up s = false →
  (∀ i t b r, (i, t, b, r) ∈ served s → t = request i ∧ b = true ∧ entries i s = [(i, t, b, r)])
  ∧ ∀ i b, cpc s i = CDone b →
      ∃ r, entries i s = [(i, request i, true, r)] ∧ b = bool_decide (r = kCivMsgRespondSuccess).
Proof.
  intros Hr Hg. pose proof (minv_reachable s Hr Hg) as Hi. split.
  - intros i t b r Hin.
    assert ((i, t, b, r) ∈ entries i s) as He by (unfold entries; by apply list_elem_of_filter).
    destruct (entries_form s i Hi) as [Hn|[r' Hn]]; rewrite Hn in *; [by apply not_elem_of_nil in He|].
    apply list_elem_of_singleton in He. by simplify_eq.
  - intros i b Hd. assert (mutex s ≠ Some i) as Hm.
    { intros Hm. pose proof (i_in s Hi i Hm) as Hin. unfold inside in Hin. by rewrite Hd in Hin. }
    destruct (i_out s Hi i Hm) as [[? _]|(r & Hc & He)]; [congruence|]. exists r. split; congruence.
Qed.

(** *** After a client has given up *)

Definition waiting (k : nat) (cp : nat → ClientPc) : Msg :=
  mkMsg (Some 0%nat) (Some (OwnClient 0)) true true false (Some (request 0, true)) SLock
    (set_pc 0 (CLoop k) cp) [] false.

(** Client 0 waits [k] more times in vain. *)
Lemma wait_in_vain cp k n :
  (n + k <= kMaxRetryCount)%nat → ∃ cp', (∀ j, j ≠ 0%nat → cp' j = cp j) ∧
  rtc mstep (waiting n cp) (waiting (n + k) cp').
Proof.
  revert n cp. induction k as [|k IH]; intros n cp Hk.
  { exists cp. split; [done|]. rewrite Nat.add_0_r. apply rtc_refl. }
  destruct (IH (S n) (set_pc 0 (CWait n) (set_pc 0 (CLoop n) cp))) as (cp' & Hcp & Hr); [lia|].
  exists cp'. split; [intros j Hj; rewrite Hcp by done; by rewrite !set_pc_ne|].
  eapply rtc_l; [right; exists 0%nat; apply c_wait; [apply set_pc_eq|lia]|].
  eapply rtc_l; [right; exists 0%nat; eapply c_timeout; apply set_pc_eq|].
  replace (n + S k)%nat with (S n + k)%nat by lia. exact Hr.
Qed.
End exchange.

Ltac client i c := eapply rtc_l; [right; exists i; by eapply c|].
Ltac serve c := eapply rtc_l; [left; by eapply c|].

(** A client that gives up leaves [msg_in] set; a server that runs only then
    finds the next client's message while it is being made, and handles it
    without its payload. *)
Theorem half_made_message :
  ∃ s, mreachable (λ _, kCivMsgListVm) s ∧ gave_up s = true
    ∧ (1%nat, kCivMsgListVm, false, kCivMsgRespondFail) ∈ served s.
Proof.
  destruct (wait_in_vain (λ _, kCivMsgListVm)
    (set_pc 0 CNotify (set_pc 0 CLock (set_pc 0 CPayload (set_pc 0 CType (set_pc 0 CMake
      (λ _, CStart)))))) 100 0) as (cp & Hcp & Hr); [unfold kMaxRetryCount; lia|].
  eexists. split.
  - unfold mreachable, minit.
    client 0%nat c_lock. client 0%nat c_make. client 0%nat c_type. client 0%nat c_payload.
    client 0%nat c_cond. client 0%nat c_notify. etrans; [exact Hr|].
    eapply rtc_l; [right; exists 0%nat; eapply c_leave; [apply set_pc_eq|right; unfold kMaxRetryCount; lia]|].
    eapply rtc_l; [right; exists 0%nat; eapply c_finish; apply set_pc_eq|].
    eapply rtc_l; [right; exists 1%nat; eapply c_lock; rewrite !set_pc_ne by done; by rewrite Hcp|].
    client 1%nat c_make. client 1%nat c_type. serve s_lock. serve s_msg.
    eapply rtc_l; [left; eapply s_handle; by right|]. apply rtc_refl.
  - split; [reflexivity|]. apply list_elem_of_here.
Qed.

(** [Server::Stop] in the signal handler notifies [cond_s] without touching
    [msg_in]; [stop_server_] is looked at only when the loop comes round. *)
Inductive signal_step : Msg → Msg → Prop :=
| sig m mc mi ks kc d sp cp sv gu :
    signal_step (mkMsg m mc mi ks kc d sp cp sv gu) (mkMsg m mc mi true kc d sp cp sv gu).

(** A signal wakes a waiting server; it then handles the message a client is
    just making, although no client has given up. *)
Theorem signal_half_made :
  ∃ s0 s1 s, mreachable (λ _, kCivMsgListVm) s0 ∧ signal_step s0 s1
    ∧ rtc (mstep (λ _, kCivMsgListVm)) s1 s ∧ gave_up s = false ∧ cpc s 0 = CPayload
    ∧ (0%nat, kCivMsgListVm, false, kCivMsgRespondFail) ∈ served s.
Proof.
  do 3 eexists. split_and!.
  - unfold mreachable, minit. serve s_lock. serve s_wait.
    client 0%nat c_lock. client 0%nat c_make. client 0%nat c_type. apply rtc_refl.
  - apply sig.
  - serve s_wake. eapply rtc_l; [left; eapply s_handle; by right|]. apply rtc_refl.
  - reflexivity.
  - reflexivity.
  - apply list_elem_of_here.
Qed.

(** A client that lists the guests and is answered. *)
Definition listed : Msg → Prop := λ s,
  gave_up s = false ∧ cpc s 0 = CDone true
  ∧ served s = [(0%nat, kCivMsgListVm, true, kCivMsgRespondSuccess)].

Lemma listed_reachable : ∃ s, mreachable (λ _, kCivMsgListVm) s ∧ listed s.
Proof.
  eexists. split.
  - unfold mreachable, minit.
    client 0%nat c_lock. client 0%nat c_make. client 0%nat c_type. client 0%nat c_payload.
    client 0%nat c_cond. client 0%nat c_notify.
    eapply rtc_l; [right; exists 0%nat; eapply c_wait; [apply set_pc_eq|unfold kMaxRetryCount; lia]|].
    serve s_lock. serve s_msg. eapply rtc_l; [left; eapply s_handle; by left|].
    client 0%nat c_wake. client 0%nat c_finish. apply rtc_refl.
  - by split_and!.
Qed.

Lemma exchange_answered_witness :
  ∃ s, listed s ∧ ∃ r, entries 0 s = [(0%nat, kCivMsgListVm, true, r)]
    ∧ true = bool_decide (r = kCivMsgRespondSuccess).
Proof.
  destruct listed_reachable as (s & Hr & Hl). exists s. split; [exact Hl|].
  destruct Hl as (Hg & Hd & _).
  exact (proj2 (exchange_answered (λ _, kCivMsgListVm) s Hr Hg) 0%nat true Hd).
Defined.
