(* ===== verification/Exchange.v ===== *)
(** * Requests through the message block

    Message.v with the server of Server.v behind it: the steps of the exchange,
    where the step that handles a message runs [dispatch] on the server's
    state.  The theorem is that whatever the interleaving of the clients, the
    server's state and answers are those of the sequential loop [serve] on the
    requests in the order in which they were handled. *)

From S2P Require Import Prelude.
From S2P Require Import CStd.
From S2P Require Import Boost.
From S2P Require Import Os.
From S2P Require Import CidPool.
From S2P Require Import Config.
From S2P Require Import Builder.
From S2P Require Import Listener.
From S2P Require Import Server.
From S2P Require Import ServerProps.
From S2P Require Import Message.

Local Open Scope Z_scope.

Section exchange.
Context {B : Boost} {E : OsEnv} {V : VmBuilder}.
Context (meanwhile : nat → Z → Srv → Srv).
(** What each client sends, and what is in a payload nobody has written. *)
Context (request : nat → CivMsgType) (payload : nat → string) (junk : string).

Definition handled_payload (i : nat) (whole : bool) : string := if whole then payload i else junk.

Inductive live_step : Msg * Srv → Msg * Srv → Prop :=
| live_client i m m' x : client_step request i m m' → live_step (m, x) (m', x)
| live_quiet m m' x : server_step m m' → (spc m = SFind → data m = None) → live_step (m, x) (m', x)
| live_handle m m' x x' i t b r :
    spc m = SFind → mutex m = Some i → data m = Some (t, b) →
    dispatch meanwhile t (handled_payload i b) x = (Ret r, x') →
    server_step m m' → served m' = served m ++ [(i, t, b, r)] →
    spc m' = (if decide (t = kCiVMsgStopServer) then SExit else SLock) → live_step (m, x) (m', x')
| live_throw m m' x x' i t b e :
    spc m = SFind → mutex m = Some i → data m = Some (t, b) →
    dispatch meanwhile t (handled_payload i b) x = (Throw e, x') →
    server_step m m' → served m' = served m → spc m' = SExit → live_step (m, x) (m', x').

(** *** What [dispatch] answers *)

Lemma respond_answers (h : M Srv Z) s r s' :
  (a ← h; mret (if a =? 0 then kCivMsgRespondSuccess else kCivMsgRespondFail)) s = (Ret r, s') →
  r = kCivMsgRespondSuccess ∨ r = kCivMsgRespondFail.
Proof. intros (a & s1 & _ & [= <- _])%bind_ret_inv. destruct (a =? 0); auto. Qed.

(** The answers of Message.v are those of [dispatch], so that a message that is
    handled can always be stepped over. *)
Lemma dispatch_answers t p s r s' : dispatch meanwhile t p s = (Ret r, s') → answers t r.
Proof. destruct t; cbn [dispatch answers]; first [apply respond_answers | by intros [= <- _]]. Qed.

Lemma live_handle_enabled m x i t b r x' :
  spc m = SFind → mutex m = Some i → data m = Some (t, b) →
  dispatch meanwhile t (handled_payload i b) x = (Ret r, x') → ∃ m', live_step (m, x) (m', x').
Proof.
  intros Hs Hm Hd Hr. destruct m as [mu mc mi ks kc d sp cp sv gu]. cbn in *. subst.
  eexists. eapply live_handle; try done; [by eapply s_handle, dispatch_answers|done|done].
Qed.

(** *** Only a stop request stops the loop *)

Definition same_stop (s s' : Srv) : Prop := stop_server_ s' = stop_server_ s.
#[local] Instance same_stop_preorder : PreOrder same_stop.
Proof. split; [by intros s|intros s1 s2 s3 H1 H2; unfold same_stop in *; congruence]. Qed.

Lemma stop_os {A} (c : M OsSt A) : grows same_stop (srv_os c).
Proof. intros s. unfold srv_os, lift. by destruct (c _). Qed.
Lemma stop_read_cfg p : grows same_stop (read_cfg p).
Proof. intros s. unfold read_cfg. by destruct (ReadConfigFile _ _) as [[] []]. Qed.
Lemma stop_get_vm {A} i (f : vb → A) : grows same_stop (get_vm i f).
Proof. intros s. unfold get_vm. by destruct (vmis_ s !! i) as [[]|]. Qed.
Lemma stop_on_vm {A} i (c : M (vb * Glob) A) : grows same_stop (on_vm i c).
Proof.
  intros s. unfold on_vm. destruct (vmis_ s !! i) as [[p v]|]; [|done]. by destruct (c _) as [? []].
Qed.
Lemma stop_via {A} p (c : M (vb * Glob) A) : grows same_stop (via p c).
Proof. intros s. unfold via. destruct (index_of p (vmis_ s)); [apply stop_on_vm|done]. Qed.
Lemma stop_destroy v : grows same_stop (destroy v).
Proof. intros s. unfold destroy. by destruct (noexcept _ _) as [? []]. Qed.
Lemma stop_make name c : grows same_stop (make_vm name c).
Proof.
  intros s. unfold make_vm. destruct (BuildVmArgs _) as [[[]|e|] [v g]]; try done;
    [pose proof (stop_destroy v (set_glob g s)) as H..]; unfold mbind, M_bind;
    by destruct (destroy v _) as [[]?].
Qed.

Ltac stop_leaf :=
  match goal with
  | |- grows _ (srv_os _) => apply stop_os
  | |- grows _ (read_cfg _) => apply stop_read_cfg
  | |- grows _ (get_vm _ _) => apply stop_get_vm
  | |- grows _ (on_vm _ _) => apply stop_on_vm
  | |- grows _ (via _ _) => apply stop_via
  | |- grows _ (destroy _) => apply stop_destroy
  | |- grows _ (make_vm _ _) => apply stop_make
  | |- grows _ (modify _) => by apply grows_modify
  end.

Lemma dispatch_stop t p :
  (∀ q n s, stop_server_ (meanwhile q n s) = stop_server_ s) → t ≠ kCiVMsgStopServer →
  grows same_stop (dispatch meanwhile t p).
Proof.
  intros Hm Ht. destruct t; cbn [dispatch]; try done;
    unfold ListVm, ImportVm, Server_StartVm, StartVm_prepare, StartVm_finish, Server_StopVm, GetVmInfo,
      DeleteVmInstance, FindVmInstance, shm_open, find_first, shm_put;
    grows_go ltac:(idtac; stop_leaf).
  apply grows_modify. intros s. apply Hm.
Qed.

(** *** The sequential loop *)

Lemma serve_snoc l s rs x t p r x' :
  serve meanwhile l s = (Ret rs, x) → length rs = length l → stop_server_ x = false →
  dispatch meanwhile t p x = (Ret r, x') → serve meanwhile (l ++ [(t, p)]) s = (Ret (rs ++ [r]), x').
Proof.
  revert s rs. induction l as [|[t0 p0] l IH]; intros s rs; cbn [serve app].
  - intros [= <- <-] _ Hst Hd. unfold mbind, M_bind, gets. rewrite Hst, Hd. done.
  - unfold mbind, M_bind, gets. destruct (stop_server_ s); [by intros [= <- <-]|].
    destruct (dispatch meanwhile t0 p0 s) as [[r0|e|] s1]; [|done..].
    destruct (serve meanwhile l s1) as [[rs1|e|] s2] eqn:Hl; [|done..].
    intros [= <- <-] Hlen Hst Hd. cbn in Hlen. rewrite (IH s1 rs1) by auto. done.
Qed.

(** The requests that have been handled, and the answers. *)
Definition handled (m : Msg) : list (CivMsgType * string) :=
  (λ e, (e.1.1.2, payload e.1.1.1)) <$> served m.
Definition given (m : Msg) : list CivMsgType := (λ e, e.2) <$> served m.

Lemma gave_up_stays s s' : mstep request s s' → gave_up s' = false → gave_up s = false.
Proof. intros [Hs|[i Hs]]; destruct Hs; cbn; try done. by intros [-> _]%orb_false_iff. Qed.

(** A message that is handled is whole. *)
Lemma find_whole m i t b :
  minv request m → spc m = SFind → mutex m = Some i → data m = Some (t, b) → t = request i ∧ b = true.
Proof.
  intros Hi Hs Hm Hd. pose proof (i_find _ _ Hi Hs) as Hmsg. pose proof (i_in _ _ Hi i Hm) as Hin.
  unfold inside, making, asked, answered in Hin. clear Hi.
  destruct (cpc m i); try done; destruct_or?; destruct_and?; split; congruence.
Qed.

Lemma live_mstep m x m' x' : live_step (m, x) (m', x') → mstep request m m'.
Proof. inversion_clear 1; [right; eauto|by left..]. Qed.

(** A step that handles nothing leaves the record as it is. *)
Lemma client_frame i m m' : client_step request i m m' → served m' = served m ∧ spc m' = spc m.
Proof. by intros []. Qed.
Lemma quiet_frame m m' :
  server_step m m' → (spc m = SFind → data m = None) → served m' = served m ∧ spc m ≠ SExit.
Proof. intros [] Hq; cbn in *; try done; by discriminate (Hq eq_refl). Qed.

Context (Hmean : ∀ q n s, stop_server_ (meanwhile q n s) = stop_server_ s).

(** The record is followed by the sequential loop. *)
Definition follows (x0 : Srv) (m : Msg) (x : Srv) : Prop :=
  ∃ y, serve meanwhile (handled m) x0 = (Ret (given m), y)
    ∧ (spc m ≠ SExit → y = x ∧ stop_server_ x = false).

Lemma follows_same x0 m m' x :
  served m' = served m → (spc m' ≠ SExit → spc m ≠ SExit) → follows x0 m x → follows x0 m' x.
Proof. unfold follows, handled, given. intros -> Hs (y & Hy & Hx). eauto. Qed.

Lemma follows_handle x0 m m' x x' i r :
  follows x0 m x → spc m = SFind → dispatch meanwhile (request i) (payload i) x = (Ret r, x') →
  served m' = served m ++ [(i, request i, true, r)] →
  spc m' = (if decide (request i = kCiVMsgStopServer) then SExit else SLock) → follows x0 m' x'.
Proof.
  intros (y & Hy & Hx) Hs Hd Hsv Hs'. destruct Hx as [-> Hst]; [by rewrite Hs|]. exists x'. split.
  - unfold handled, given. rewrite Hsv, !fmap_app. cbn.
    apply (serve_snoc _ _ _ x); [exact Hy| |exact Hst|exact Hd]. unfold given, handled. by rewrite !length_fmap.
  - rewrite Hs'. case_decide as Ht; [done|]. intros _. split; [done|].
    pose proof (dispatch_stop _ (payload i) Hmean Ht x) as Hk. rewrite Hd in Hk. by rewrite <-Hst.
Qed.

Lemma live_follows x0 m x m' x' :
  live_step (m, x) (m', x') → mreachable request m → gave_up m' = false → follows x0 m x →
  follows x0 m' x'.
Proof.
  intros Hl Hr Hg Hf.
  pose proof (gave_up_stays _ _ (live_mstep _ _ _ _ Hl) Hg) as Hg0.
  pose proof (find_whole m) as Hw.
  inversion Hl as [i ? ? ? Hc|? ? ? Hs Hq|? ? ? ? i t b r Hs Hm Hd Hdis Hss Hsv Hs'
    |? ? ? ? i t b e Hs Hm Hd Hdis Hss Hsv Hs']; subst; clear Hl.
  - destruct (client_frame _ _ _ Hc) as [Hsv Hs]. apply (follows_same _ m); try done. by rewrite Hs.
  - destruct (quiet_frame _ _ Hs Hq) as [Hsv Hn]. by apply (follows_same _ m).
  - destruct (Hw i t b) as [-> ->]; [by apply minv_reachable|done..|]. by eapply follows_handle.
  - destruct Hf as (y & Hy & _). exists y. unfold handled, given. rewrite Hsv. split; [exact Hy|done].
Qed.

(** C9: the requests that go through the one message block are handled as if
    the clients had sent them one after another: in any interleaving of any
    number of clients with the server, as long as no client has run out of its
    retries, running the server's loop on the requests in the order in which
    they were handled, each with the type and payload its client wrote, gives
    the same answers, and while the loop has not been left the same state. *)
Theorem exchange_linear x0 m x :
  stop_server_ x0 = false → rtc live_step (minit, x0) (m, x) → gave_up m = false →
  ∃ y, serve meanwhile (handled m) x0 = (Ret (given m), y) ∧ (spc m ≠ SExit → y = x).
Proof.
  intros Hst Hr. change (gave_up m) with (gave_up (m, x).1).
  enough (mreachable request (m, x).1 ∧ (gave_up (m, x).1 = false → follows x0 (m, x).1 (m, x).2)) as [_ H].
  { intros Hg. destruct (H Hg) as (y & Hy & Hx). exists y. split; [exact Hy|]. intros Hs. by destruct (Hx Hs). }
  revert Hr. generalize (m, x). apply rtc_ind_r.
  - split; [apply rtc_refl|]. intros _. exists x0. done.
  - intros [m1 x1] [m2 x2] _ Hl [Hm Hf]. cbn in *. split; [eapply rtc_r; [exact Hm|by eapply live_mstep]|].
    intros Hg. eapply live_follows; [exact Hl|exact Hm|exact Hg|].
    apply Hf. by eapply gave_up_stays, Hg; eapply live_mstep.
Qed.
End exchange.

(** ** Witness: one client imports a guest, the next asks for its data *)

Module ExchangeDemo.
#[local] Existing Instance RefBoost.ref_boost.
#[local] Existing Instance SimOs.sim_os.

Definition meanwhile : nat → Z → Srv → Srv := λ _ _ s, s.
Definition request (i : nat) : CivMsgType := if decide (i = 0%nat) then kCivMsgImportVm else kCivMsgGetVmInfo.
Definition payload (i : nat) : string := if decide (i = 0%nat) then "import" else "info".
Definition x0 : Srv := SrvDemo.server [] 0.
Definition x1 : Srv := (dispatch meanwhile kCivMsgImportVm "import" x0).2.
Definition x2 : Srv := (dispatch meanwhile kCivMsgGetVmInfo "info" x1).2.

Notation live := (live_step meanwhile request payload EmptyString).

Ltac live_client i c := eapply rtc_l; [apply (live_client _ _ _ _ i); by eapply c|].
Ltac live_server c := eapply rtc_l; [apply live_quiet; [by eapply c|done]|].

Lemma first_answer :
  dispatch meanwhile kCivMsgImportVm "import" x0 = (Ret kCivMsgRespondSuccess, x1).
Proof. rewrite (surjective_pairing (dispatch _ _ _ _)). by apply (f_equal (λ r, (r, _))); vm_compute. Qed.
Lemma second_answer :
  dispatch meanwhile kCivMsgGetVmInfo "info" x1 = (Ret kCivMsgRespondSuccess, x2).
Proof. rewrite (surjective_pairing (dispatch _ _ _ _)). by apply (f_equal (λ r, (r, _))); vm_compute. Qed.

Lemma both_served :
  ∃ m, rtc live (minit, x0) (m, x2) ∧ gave_up m = false ∧ spc m = SLock
    ∧ cpc m 0 = CDone true ∧ cpc m 1 = CDone true
    ∧ handled payload m = [(kCivMsgImportVm, "import"); (kCivMsgGetVmInfo, "info")].
Proof.
  eexists. split.
  - unfold minit.
    live_client 0%nat c_lock. live_client 0%nat c_make. live_client 0%nat c_type.
    live_server s_lock. live_server s_wait.
    live_client 0%nat c_payload. live_client 0%nat c_cond. live_client 0%nat c_notify.
    eapply rtc_l; [apply (live_client _ _ _ _ 0%nat); eapply c_wait; [apply set_pc_eq|unfold kMaxRetryCount; lia]|].
    live_server s_wake.
    eapply rtc_l; [eapply (live_handle _ _ _ _ _ _ _ _ 0%nat); [done|done|done|exact first_answer|eapply s_handle; by left|done|done]|].
    live_client 0%nat c_wake. live_client 0%nat c_finish.
    live_client 1%nat c_lock. live_client 1%nat c_make. live_client 1%nat c_type.
    live_client 1%nat c_payload. live_client 1%nat c_cond. live_client 1%nat c_notify.
    eapply rtc_l; [apply (live_client _ _ _ _ 1%nat); eapply c_wait; [apply set_pc_eq|unfold kMaxRetryCount; lia]|].
    live_server s_lock. live_server s_msg.
    eapply rtc_l; [eapply (live_handle _ _ _ _ _ _ _ _ 1%nat); [done|done|done|exact second_answer|eapply s_handle; by left|done|done]|].
    live_client 1%nat c_wake. live_client 1%nat c_finish. apply rtc_refl.
  - by split_and!.
Qed.

Lemma exchange_linear_witness :
  ∃ rs, serve meanwhile [(kCivMsgImportVm, "import"); (kCivMsgGetVmInfo, "info")] x0 = (Ret rs, x2).
Proof.
  destruct both_served as (m & Hr & Hg & Hs & _ & _ & Hh).
  destruct (exchange_linear meanwhile request payload EmptyString (λ _ _ _, eq_refl) x0 m x2 eq_refl Hr Hg)
    as (y & Hy & Hx).
  exists (given m). rewrite Hh, Hx in Hy; [exact Hy|]. rewrite Hs. discriminate.
Defined.
End ExchangeDemo.
