(* ===== verification/Main.v ===== *)
(** * The program

    The rest of vm_manager.cc: the option table, [CivOptions::ParseOptions]
    with the start of a server when none runs, [StartServer] and [main].  A
    run is that of one process.  Boost's option parser is a parameter, as are
    what the user does in the form, what reaches a server this process
    becomes, and what other processes do while this one waits. *)

From S2P Require Import Prelude.
From S2P Require Import CStd.
From S2P Require Import Boost.
From S2P Require Import Os.
From S2P Require Import Utils.
From S2P Require Import CidPool.
From S2P Require Import Config.
From S2P Require Import Process.
From S2P Require Import Flash.
From S2P Require Import Tui.
From S2P Require Import Builder.
From S2P Require Import Listener.
From S2P Require Import Server.
From S2P Require Import ServerProps.
From S2P Require Import ServerRun.
From S2P Require Import Cli.
From Stdlib Require Import Ascii.

Local Open Scope Z_scope.

(** ** Options *)

(** A name of [add_options]: long, short, whether it takes a value. *)
Record option_desc : Type := mkOpt { o_long : string; o_short : option ascii; o_value : bool }.

(** [cmdline_options_] *)
Definition cmdline_options_ : list option_desc :=
  [ mkOpt "help" (Some "h"%char) false;
    mkOpt "create" (Some "c"%char) true;
    mkOpt "start" (Some "b"%char) true;
    mkOpt "stop" (Some "q"%char) true;
    mkOpt "flash" (Some "f"%char) true;
    mkOpt "get-cid" None true;
    mkOpt "list" (Some "l"%char) false;
    mkOpt "version" (Some "v"%char) false;
    mkOpt "start-server" None false;
    mkOpt "stop-server" None false;
    mkOpt "daemon" None false ].

(** [boost::program_options]: the values by long name; [None] when
    [run], [store] or [notify] throws. *)
Class ProgramOptions : Type := {
  po_parse : list option_desc → list string → option (gmap string string);
}.
(** Without [allow_unregistered] only described options are stored. *)
Class ProgramOptionsLaws (P : ProgramOptions) : Prop := {
  po_described : ∀ od args vm k v, po_parse od args = Some vm → vm !! k = Some v →
    k ∈ o_long <$> od;
}.

Section main.
Context {B : Boost} {P : ProgramOptions} {E : OsEnv} {V : VmBuilder}.
(** The kernel's rule for a change of ids; the process's id, environment and
    user; what reaches it as a server; what others do meanwhile. *)
Context (capable : Creds → bool) (pid : Z) (env : list string).
Context (user : list ui_event) (requests : list srv_event).
Context (meanwhile : nat → Z → Srv → Srv) (elapse : nat → Srv → Srv).

Record MainSt : Type := mkMain {
  m_path : option string;
  m_creds : Creds;
  m_env : ProcEnv;
  m_run : RunSt;
}.

Definition m_srv (s : MainSt) : Srv := rs_srv (m_run s).
Definition set_m_srv (x : Srv) (s : MainSt) : MainSt :=
  mkMain (m_path s) (m_creds s) (m_env s) (set_srv x (m_run s)).
Definition m_os (s : MainSt) : OsSt := g_os (glob (m_srv s)).
Definition set_m_os (o : OsSt) (s : MainSt) : MainSt :=
  set_m_srv (set_glob (set_os o (glob (m_srv s))) (m_srv s)) s.

Definition cli {A} (c : M Srv A) : M MainSt A := lift m_srv set_m_srv c.
Definition main_os {A} (c : M OsSt A) : M MainSt A := lift m_os set_m_os c.

Definition m_util (s : MainSt) : UtilSt := mkUtil (m_path s) (m_creds s) (m_os s).
Definition set_m_util (u : UtilSt) (s : MainSt) : MainSt :=
  set_m_os (u_os u) (mkMain (civ_config_path u) (creds u) (m_env s) (m_run s)).
Definition main_util {A} (c : M UtilSt A) : M MainSt A := lift m_util set_m_util c.

(** A new [Server] object in this process. *)
Definition new_server (s : MainSt) : MainSt :=
  mkMain (m_path s) (m_creds s) (m_env s)
    (mkRun (mkSrv false [] 0 new_listener (shms (m_srv s))
              (mkGlob _ new_pool EmptyString (m_path s) (m_os s)))
       false false false false false false).

(** [static bool StartServer(bool daemon)] *)
Definition StartServer (daemon : bool) : M MainSt (ended bool) :=
  run ← cli (IsServerRunning meanwhile pid);
  if (run : bool) then mret (Returned false) else
  ret ← (if daemon
         then lift (λ s, (m_env s, m_os s))
                (λ d s, set_m_os d.2 (mkMain (m_path s) (m_creds s) d.1 (m_run s))) Daemonize
         else mret (Returned 0));
  match ret with
  | Exited st => mret (Exited st)
  | Returned n =>
      if 0 <? n then mret (Returned true)
      else if n <? 0 then mret (Returned false) else
      modify new_server ;;
      lift m_run (λ r s, mkMain (m_path s) (m_creds s) (m_env s) r) (Server_Start meanwhile requests) ;;
      modify (λ s, set_m_srv (set_stop true (m_srv s)) s) ;;
      mret (Returned true)
  end.

(** [while (!IsServerRunning()) { if (wait_cnt++ > 100) return false; sleep }] *)
Fixpoint wait_server (turns : nat) : M MainSt bool :=
  run ← cli (IsServerRunning meanwhile pid);
  if (run : bool) then mret true else
  match turns with
  | O => mret false
  | S turns =>
      main_os (os (Usleep 1000)) ;;
      cli (modify (elapse turns)) ;;
      wait_server turns
  end.
Definition kWaitTurns : nat := 101.

(** The [else] branch of [ParseOptions]: a server is there or is started. *)
Definition ensure_server (args : list string) : M MainSt bool :=
  run ← cli (IsServerRunning meanwhile pid);
  if (run : bool) then mret true else
  match args with
  | [] => throw ExTerminate
  | arg0 :: _ =>
      ex ← main_os (os (FsExists arg0));
      cmd ← (if (ex : bool) then mret arg0 else main_os (os (ProcSearchPath arg0)));
      rc ← main_os (proc_system_args cmd ["--start-server"; "--daemon"]);
      cli (modify (elapse kWaitTurns)) ;;
      if negb (rc =? 0) then mret false else
      wait_server kWaitTurns
  end.

(** [f.FlashGuest(...)] on a new [VmFlasher] *)
Definition main_flash (path : string) : M MainSt bool := λ s,
  match FlashGuest capable path (mkFlashSt new_VmFlasher None None (m_util s)) with
  | (r, f) => (r, set_m_util (f_util f) s)
  end.

(** [ct.InitializeUi(...)] on a new [CivTui] *)
Definition main_create (name : string) : M MainSt unit := λ s,
  match InitializeUi capable name user (mkTuiSt new_CivTui (m_util s)) with
  | (r, t) => (r, set_m_util (t_util t) s)
  end.

(** [GetConfigPath()] where a null pointer ends the process *)
Definition config_dir_of : M MainSt string :=
  dir ← main_util (GetConfigPath capable);
  match dir with Some d => mret d | None => throw ExTerminate end.

(** The commands, in the order [ParseOptions] looks for them. *)
Definition run_command (vm : gmap string string) : M MainSt bool :=
  match vm !! "create" with
  | Some name => main_create name ;; mret true
  | None =>
  match vm !! "delete" with
  | Some _ => mret true
  | None =>
  match vm !! "start" with
  | Some path => dir ← config_dir_of; cli (StartGuest meanwhile pid env dir path)
  | None =>
  match vm !! "stop" with
  | Some name => cli (StopGuest meanwhile pid name)
  | None =>
  match vm !! "flash" with
  | Some path => main_flash path
  | None =>
  match vm !! "update" with
  | Some _ => mret false
  | None =>
  match vm !! "get-cid" with
  | Some name => cid ← cli (GetGuestCid meanwhile pid name); mret (bool_decide (is_Some cid))
  | None =>
  match vm !! "list" with
  | Some _ => l ← cli (ListGuest meanwhile pid); mret (bool_decide (is_Some l))
  | None => mret false
  end end end end end end end end.

(** [bool CivOptions::ParseOptions(const std::vector<std::string> args)] *)
Definition ParseOptions (args : list string) : M MainSt (ended bool) :=
  match po_parse cmdline_options_ args with
  | None => mret (Returned false)
  | Some vm =>
      if bool_decide (vm = ∅) then mret (Returned false) else
      if bool_decide (is_Some (vm !! "help")) then mret (Returned true) else
      if bool_decide (is_Some (vm !! "version")) then mret (Returned true) else
      if bool_decide (is_Some (vm !! "stop-server"))
      then Returned <$> cli (StopServer meanwhile pid) else
      if bool_decide (is_Some (vm !! "start-server"))
      then StartServer (bool_decide (is_Some (vm !! "daemon"))) else
      ok ← ensure_server args;
      if negb ok then mret (Returned false) else Returned <$> run_command vm
  end.

(** The arguments, taken from standard input when fuzzing. *)
Definition main_args (argv : list string) : M MainSt (list string) :=
  match argv with
  | [arg0; arg1] =>
      if bool_decide (arg1 = "--afl-fuzz") then
        str ← main_os (os ReadLine);
        mret (arg0 :: split_any " " false str)
      else mret argv
  | _ => mret argv
  end.

(** [int main(int argc, char *argv[])]: the status the process ends with *)
Definition main (argv : list string) : M MainSt Z :=
  try_catch
    (dir ← main_util (GetConfigPath capable);
     match dir with
     | None => mret (-1)
     | Some _ =>
         args ← main_args argv;
         r ← ParseOptions args;
         mret (match r with
               | Returned true => 0
               | Returned false => -1
               | Exited st => st
               end)
     end)
    (λ _, mret (-1)).
End main.

(** ** Properties *)

Section main_properties.
Context {B : Boost} {P : ProgramOptions} {E : OsEnv} {V : VmBuilder}.
Context (capable : Creds → bool) (pid : Z) (env : list string).
Context (user : list ui_event) (requests : list srv_event).
Context (meanwhile : nat → Z → Srv → Srv) (elapse : nat → Srv → Srv).

#[local] Instance reachable_dec s : Decision (reachable_server pid s).
Proof. unfold reachable_server. apply _. Defined.

(** The test for a server changes nothing and tells whether one is reachable
    from a process without a client. *)
Lemma IsServerRunning_spec s :
  IsServerRunning meanwhile pid s = (Ret (bool_decide (reachable_server pid s)), s).
Proof.
  case_bool_decide as Hr; [by apply IsServerRunning_run|].
  unfold IsServerRunning, try_catch, with_client, Client_new. sx_unfold.
  destruct (stop_server_ s) eqn:Hs; [done|].
  destruct (shms s !! client_shm_name pid) eqn:Hm; [done|]. by destruct Hr.
Qed.

(** A process that has a client already does not find a server, so that the
    last check of [StopServer] never fails. *)
Lemma second_client_fails s shm :
  shms s !! client_shm_name pid = Some shm → IsServerRunning meanwhile pid s = (Ret false, s).
Proof.
  intros Hm. rewrite IsServerRunning_spec, bool_decide_eq_false_2; [done|].
  intros [_ Hn]. congruence.
Qed.

(** One sleep of the wait for a server. *)
Definition tick (t : nat) (s : MainSt) : MainSt :=
  let s1 := (main_os (os (Usleep 1000)) s).2 in set_m_srv (elapse t (m_srv s1)) s1.
(** The state after [k] sleeps of a wait of at most [turns]. *)
Fixpoint slept (turns k : nat) (s : MainSt) : MainSt :=
  match k with
  | O => s
  | S j => tick (turns - k) (slept turns j s)
  end.

Lemma slept_first t k s : slept (S t) (S k) s = slept t k (tick t s).
Proof.
  induction k as [|k IH]; [cbn; by replace (t - 0)%nat with t by lia|].
  change (slept (S t) (S (S k)) s) with (tick (S t - S (S k)) (slept (S t) (S k) s)). rewrite IH.
  by replace (S t - S (S k))%nat with (t - S k)%nat by lia.
Qed.

Lemma cli_running s :
  cli (IsServerRunning meanwhile pid) s = (Ret (bool_decide (reachable_server pid (m_srv s))), s).
Proof. unfold cli, lift. rewrite IsServerRunning_spec. f_equal. by destruct s as [? ? ? []]. Qed.

(** How a wait ends: at the first of its looks at which the server can be
    reached, or after all of them. *)
Definition wait_ends (turns : nat) (s : MainSt) (r : outcome bool * MainSt) : Prop :=
  (∃ k, (k <= turns)%nat ∧ reachable_server pid (m_srv (slept turns k s))
     ∧ (∀ j, (j < k)%nat → ¬ reachable_server pid (m_srv (slept turns j s)))
     ∧ r = (Ret true, slept turns k s))
  ∨ ((∀ j, (j <= turns)%nat → ¬ reachable_server pid (m_srv (slept turns j s)))
     ∧ r = (Ret false, slept turns turns s)).

Lemma wait_server_ends turns s : wait_ends turns s (wait_server pid meanwhile elapse turns s).
Proof.
  revert s. induction turns as [|t IH]; intros s; cbn [wait_server]; bstep (cli_running s).
  - case_bool_decide as Hr.
    + left. exists 0%nat. split_and!; [lia|done|lia|done].
    + right. split; [|done]. intros j Hj. by replace j with 0%nat by lia.
  - case_bool_decide as Hr.
    + left. exists 0%nat. split_and!; [lia|done|lia|done].
    + assert (main_os (os (Usleep 1000)) s = (Ret tt, (main_os (os (Usleep 1000)) s).2)) as Hu.
      { unfold main_os, lift. by destruct (os_run (Usleep 1000) (m_os s)) as ([] & w & _ & ->). }
      bstep Hu. rewrite (bind_run (cli _) _ _ tt (tick t s)) by done.
      destruct (IH (tick t s)) as [(k & Hk & Hre & Hn & ->)|[Hn ->]].
      * left. exists (S k). rewrite slept_first. split_and!; [lia|done| |done].
        intros [|j] Hj; [done|]. rewrite slept_first. apply (Hn j). lia.
      * right. rewrite slept_first. split; [|done].
        intros [|j] Hj; [done|]. rewrite slept_first. apply (Hn j). lia.
Qed.

Lemma main_os_run {A} (c : oscall A) s :
  ∃ a o, main_os (os c) s = (Ret a, set_m_os o s) ∧ calls (m_os s) o [Asked c a].
Proof. unfold main_os, lift. destruct (os_run c (m_os s)) as (a & w & _ & ->). eexists _, _. by split. Qed.
Lemma set_m_os_twice o o' s : set_m_os o' (set_m_os o s) = set_m_os o' s.
Proof. done. Qed.
Lemma m_os_set o s : m_os (set_m_os o s) = o.
Proof. done. Qed.

(** C30: making sure of a server.  One that can be reached is used and nothing
    is done.  Otherwise the program itself, found as given or on the search
    path, is run once with [--start-server --daemon]; when that fails the
    command is given up.  When it ends with 0, the server is looked for at most
    102 times, with 101 sleeps of a millisecond in between: true is the answer
    at the first look at which it can be reached, false when it cannot be
    reached at any of them. *)
Theorem server_awaited args s :
  let '(r, s') := ensure_server pid meanwhile elapse args s in
  if bool_decide (reachable_server pid (m_srv s)) then r = Ret true ∧ s' = s else
  match args with
  | [] => r = Throw ExTerminate
  | arg0 :: _ =>
      ∃ t cmd rc o,
        (t = [Asked (FsExists arg0) true] ∧ cmd = arg0
         ∨ t = [Asked (FsExists arg0) false; Asked (ProcSearchPath arg0) cmd])
        ∧ calls (m_os s) o (t ++ [Asked (ProcSystemArgs cmd ["--start-server"; "--daemon"]) rc])
        ∧ match rc with
          | None => r = Throw ExProcess
          | Some rc =>
              let s1 := set_m_os o s in
              let s2 := set_m_srv (elapse 101 (m_srv s1)) s1 in
              if rc =? 0 then wait_ends 101 s2 (r, s') else r = Ret false ∧ s' = s2
          end
  end.
Proof.
  unfold ensure_server. bstep (cli_running s). case_bool_decide as Hr; [done|].
  destruct args as [|arg0 args]; [done|].
  destruct (main_os_run (FsExists arg0) s) as (ex & o1 & H1 & C1). bstep H1.
  assert (∃ cmd t o2, (if ex : bool then mret arg0 else main_os (os (ProcSearchPath arg0))) (set_m_os o1 s)
      = (Ret cmd, set_m_os o2 s) ∧ calls (m_os s) o2 t
      ∧ (t = [Asked (FsExists arg0) true] ∧ cmd = arg0
         ∨ t = [Asked (FsExists arg0) false; Asked (ProcSearchPath arg0) cmd])) as (cmd & t & o2 & H2 & C2 & Ht).
  { destruct ex; [by eexists arg0, _, o1; eauto|].
    destruct (main_os_run (ProcSearchPath arg0) (set_m_os o1 s)) as (cmd & o2 & H2 & C2). rewrite m_os_set in C2.
    exists cmd, ([Asked (FsExists arg0) false] ++ [Asked (ProcSearchPath arg0) cmd]), o2.
    split; [exact H2|]. split; [by eapply calls_trans|]. by right. }
  bstep H2.
  destruct (os_run (ProcSystemArgs cmd ["--start-server"; "--daemon"]) o2) as (rc & w & _ & H3).
  set (o3 := mkOsSt _ w _ _) in H3.
  assert (main_os (proc_system_args cmd ["--start-server"; "--daemon"]) (set_m_os o2 s)
    = (match rc with Some rc => Ret rc | None => Throw ExProcess end, set_m_os o3 s)) as H4.
  { unfold main_os, lift, proc_system_args. rewrite m_os_set. bstep H3. by destruct rc. }
  assert (calls (m_os s) o3 (t ++ [Asked (ProcSystemArgs cmd ["--start-server"; "--daemon"]) rc])) as C3
    by (eapply calls_trans; [exact C2|done]).
  destruct rc as [rc|]; [|rewrite (bind_run_throw _ _ _ _ _ H4); by exists t, cmd, None, o3].
  bstep H4.
  assert (kWaitTurns = 101%nat) as -> by reflexivity.
  rewrite (bind_run (cli _) _ _ tt (set_m_srv (elapse 101 (m_srv (set_m_os o3 s))) (set_m_os o3 s))) by done.
  destruct (rc =? 0) eqn:Hrc; cbn [negb].
  - pose proof (wait_server_ends 101
      (set_m_srv (elapse 101 (m_srv (set_m_os o3 s))) (set_m_os o3 s))) as Hw.
    destruct (wait_server _ _ _ 101 _) as [r s']. exists t, cmd, (Some rc), o3.
    split; [done|]. split; [exact C3|]. cbv zeta. rewrite Hrc. exact Hw.
  - exists t, cmd, (Some rc), o3. split; [done|]. split; [exact C3|]. cbv zeta. by rewrite Hrc.
Qed.

(** However a command ends, the status is one of two. *)
Definition two_status (r : outcome (ended bool)) : Prop :=
  match r with Ret (Exited st) => st = 0 ∨ st = -1 | _ => True end.

Lemma two_status_bind {A} (c : M MainSt A) (k : A → M MainSt (ended bool)) s :
  (∀ a s', two_status (k a s').1) → two_status ((c ≫= k) s).1.
Proof. intros Hk. unfold mbind, M_bind. by destruct (c s) as [[]?]. Qed.

Lemma StartServer_status daemon s :
  two_status (StartServer pid requests meanwhile daemon s).1.
Proof.
  unfold StartServer. apply two_status_bind. intros [|] s1; [done|].
  assert (∀ n s', two_status ((if 0 <? n then mret (Returned true)
      else if n <? 0 then mret (Returned false) else
      modify new_server ;;
      lift m_run (λ r s, mkMain (m_path s) (m_creds s) (m_env s) r) (Server_Start meanwhile requests) ;;
      modify (λ s, set_m_srv (set_stop true (m_srv s)) s) ;;
      mret (Returned true) : M MainSt (ended bool)) s').1) as Hn.
  { intros n s'. destruct (0 <? n); [done|]. destruct (n <? 0); [done|].
    do 3 (apply two_status_bind; intros ? ?). done. }
  destruct daemon; [|apply (Hn 0)]. unfold mbind at 1, M_bind, lift at 1.
  pose proof (Daemonize_status (m_env s1, m_os s1)) as Hd.
  destruct (Daemonize (m_env s1, m_os s1)) as [[[n|st]|e|] d]; [apply Hn|exact Hd|done..].
Qed.

Lemma ParseOptions_status args s :
  two_status (ParseOptions capable pid env user requests meanwhile elapse args s).1.
Proof.
  unfold ParseOptions. destruct (po_parse _ args) as [vm|]; [|done].
  do 3 (case_bool_decide; [done|]). case_bool_decide; [unfold fmap, M_fmap; by apply two_status_bind|].
  case_bool_decide; [apply StartServer_status|]. apply two_status_bind. intros [|] ?; [|done].
  unfold fmap, M_fmap. by apply two_status_bind.
Qed.

(** C28: a run of the program ends with the status 0 or -1, waits, or is gone
    with the process; no exception leaves it.  It first asks for the
    configuration directory; without one it ends with -1.  With one, a command
    line the parser refuses, or one without options, ends with -1, and a
    request for help or the version with 0, and nothing has happened but what
    the request for the directory did to the machine, the process's ids and
    the kept path: no server is looked for or started. *)
Theorem main_exit argv s :
  let run := main capable pid env user requests meanwhile elapse argv in
  match run s with
  | (Ret st, _) => st = 0 ∨ st = -1
  | (Throw e, _) => e = ExTerminate
  | (Blocked, _) => True
  end
  ∧ ∃ dir u, GetConfigPath capable (m_util s) = (Ret dir, u) ∧
    let s0 := set_m_util u s in
    match dir with
    | None => run s = (Ret (-1), s0)
    | Some _ => (∀ arg0, argv ≠ [arg0; "--afl-fuzz"]) →
        match po_parse cmdline_options_ argv with
        | None => run s = (Ret (-1), s0)
        | Some vm =>
            (vm = ∅ → run s = (Ret (-1), s0))
            ∧ (is_Some (vm !! "help") ∨ is_Some (vm !! "version") → run s = (Ret 0, s0))
        end
    end.
Proof.
  cbv zeta. split.
  - unfold main, try_catch. set (body := _ ≫= _).
    assert (match body s with (Ret st, _) => st = 0 ∨ st = -1 | _ => True end) as Hb.
    { subst body. unfold mbind at 1, M_bind. destruct (main_util _ s) as [[[dir|]|e|] s1]; try done; [|by right].
      unfold mbind at 1, M_bind. destruct (main_args argv s1) as [[args|e|] s2]; try done.
      unfold mbind, M_bind. pose proof (ParseOptions_status args s2) as Hp.
      destruct (ParseOptions _ _ _ _ _ _ _ args s2) as [[[[|]|st]|e|] s3]; try done; cbn in *; auto. }
    destruct (body s) as [[st|e|] s']; [done| |done]. case_decide; [done|]. by right.
  - destruct (GetConfigPath_back capable (m_util s)) as (dir & u & Hu & _). exists dir, u. split; [done|].
    assert (main_util (GetConfigPath capable) s = (Ret dir, set_m_util u s)) as Hdir
      by (unfold main_util, lift; by rewrite Hu).
    destruct dir as [dir|]; [|unfold main, try_catch; by bstep Hdir]. intros Hfuzz.
    set (s0 := set_m_util u s) in *.
    assert (main_args argv s0 = (Ret argv, s0)) as Hargs.
    { unfold main_args. destruct argv as [|a0 [|a1 [|]]]; try done.
      case_bool_decide as Ha; [|done]. subst a1. by destruct (Hfuzz a0). }
    assert (∀ r, ParseOptions capable pid env user requests meanwhile elapse argv s0 = (Ret (Returned r), s0) →
      main capable pid env user requests meanwhile elapse argv s = (Ret (if r : bool then 0 else -1), s0)) as Hm.
    { intros r Hp. unfold main, try_catch. bstep Hdir. bstep Hargs. bstep Hp. by destruct r. }
    unfold ParseOptions in Hm. destruct (po_parse cmdline_options_ argv) as [vm|]; [|by apply (Hm false)].
    split.
    + intros ->. by apply (Hm false).
    + intros Hvm. apply (Hm true). rewrite (bool_decide_eq_false_2 (vm = ∅)).
      2:{ intros ->. rewrite !lookup_empty in Hvm. by destruct Hvm as [[]|[]]. }
      destruct (decide (is_Some (vm !! "help"))) as [Hh|Hh].
      * by rewrite (bool_decide_eq_true_2 (is_Some (vm !! "help"))) by done.
      * rewrite (bool_decide_eq_false_2 (is_Some (vm !! "help"))) by done.
        by rewrite (bool_decide_eq_true_2 (is_Some (vm !! "version"))) by naive_solver.
Qed.

(** Options that are looked for but not described are never found. *)
Lemma dead_options (L : ProgramOptionsLaws P) args vm k :
  po_parse cmdline_options_ args = Some vm → k ∈ ["delete"; "update"] → vm !! k = None.
Proof.
  intros Hp Hk. destruct (vm !! k) as [v|] eqn:Hv; [|done]. exfalso.
  pose proof (po_described _ _ _ _ _ Hp Hv) as Hin. revert Hk Hin. cbn. set_solver.
Qed.

(** *** From the command line to the guest *)

Lemma index_of_elem p (l : list (nat * vb)) i : index_of p l = Some i → ∃ v, l !! i = Some (p, v).
Proof.
  unfold index_of. intros ([j [q v]] & (Hl & Hq & _)%list_find_Some & ->)%fmap_Some_1.
  cbn in *. subst. by exists v.
Qed.

(** A successful end of [Server::StartVm] has read the state running from a
    registered guest. *)
Lemma StartVm_finish_running p s s' :
  StartVm_finish p s = (Ret 0, s') → ∃ v, (p, v) ∈ vmis_ s' ∧ GetState v = kVmRunning.
Proof.
  unfold StartVm_finish, via, on_vm. sx_unfold.
  destruct (index_of p (vmis_ s)) as [i|] eqn:Hi; [|done].
  destruct (index_of_elem _ _ _ Hi) as [v Hv]. rewrite Hv. cbn.
  case_bool_decide as Hst; intros [= <-]. exists v. split; [|done]. cbn.
  rewrite list_insert_id by done. by eapply list_elem_of_lookup_2.
Qed.

Lemma Notify_start_running (L : VmBuilderLaws V) s s' :
  server_inv s → Notify meanwhile pid kCivMsgStartVm s = (Ret true, s') →
  ∃ v, (next_vb s, v) ∈ vmis_ s' ∧ GetState v = kVmRunning.
Proof.
  intros Hi. unfold Notify. cbn [dispatch]. unfold Server_StartVm. intros Hn.
  pose proof (StartVm_prepare_post L s (client_shm_name pid) Hi s ltac:(reflexivity)) as Hp.
  unfold mbind, M_bind in Hn.
  destruct (StartVm_prepare (client_shm_name pid) s) as [[[[p n]|]|e|] s1]; cbn in Hn;
    [|done|by case_decide|done].
  destruct Hp as [[-> _] _].
  destruct (StartVm_finish (next_vb s) (meanwhile (next_vb s) n s1)) as [[z|e|] s2] eqn:Hf; cbn in Hn;
    [|by case_decide|done].
  destruct (Z.eqb_spec z 0) as [->|]; cbn in Hn; [|done]. injection Hn as <-.
  by eapply StartVm_finish_running.
Qed.

(** The client's own steps leave the server's registry alone. *)
Lemma idle_guest_config dir path : grows idle (guest_config dir path).
Proof.
  assert (∀ A (c : M OsSt A), grows idle (srv_os c)) as Hos.
  { intros A c s. unfold srv_os, lift. by destruct (c (g_os (glob s))). }
  unfold guest_config. cbv zeta. grows_go ltac:(first [apply Hos]).
Qed.
Lemma idle_prepare path : grows idle (PrepareStartGuestClientShm pid env path).
Proof.
  unfold PrepareStartGuestClientShm, put_bstrings, client_shm.
  grows_go ltac:(apply idle_shm_put).
Qed.
Lemma idle_client_new : grows idle (Client_new pid).
Proof. unfold Client_new. grows_go ltac:(apply idle_shm_put). Qed.

End main_properties.

(** ** Examples *)

Module MainDemo.
#[local] Existing Instance RefBoost.ref_boost.
#[local] Existing Instance SimOs.sim_os.

(** A parser that knows two command lines. *)
#[local] Instance demo_po : ProgramOptions := {|
  po_parse od args :=
    if bool_decide (args = ["vm-manager"; "--help"]) then Some {["help" := EmptyString]}
    else if bool_decide (args = ["vm-manager"; "-b"; "/civ.ini"]) then Some {["start" := "/civ.ini"]}
    else None |}.

Definition start : MainSt :=
  mkMain (Some "/home/u/.intel/.civ") UtilsDemo.root (mkProcEnv ∅ false [] "/" None)
    (mkRun (SrvDemo.server [] 0) true true true true true true).

(** A process that has just been started: the path is not known yet, the home
    directory has no configuration directory. *)
Definition fresh_process : MainSt :=
  mkMain None UtilsDemo.root (mkProcEnv ∅ false [] "/" None)
    (mkRun (SrvDemo.server [] 0) true true true true true true).

Lemma main_exit_witness :
  (main UtilsDemo.root_only 42 [] [] [] (λ _ _ s, s) (λ _ s, s) ["vm-manager"; "--help"] fresh_process).1 = Ret 0
  ∧ ∃ u, GetConfigPath UtilsDemo.root_only (m_util fresh_process) = (Ret (Some "/home/civ/.intel/.civ"), u)
    ∧ os_log (u_os u) = [EvMkdir "/home/civ/.intel/.civ"]
    ∧ main UtilsDemo.root_only 42 [] [] [] (λ _ _ s, s) (λ _ s, s) ["vm-manager"; "--bogus"] fresh_process
      = (Ret (-1), set_m_util u fresh_process).
Proof.
  assert ((GetConfigPath UtilsDemo.root_only (m_util fresh_process)).1 = Ret (Some "/home/civ/.intel/.civ")) as Hd
    by (vm_compute; reflexivity).
  assert (os_log (u_os (GetConfigPath UtilsDemo.root_only (m_util fresh_process)).2) = [EvMkdir "/home/civ/.intel/.civ"]) as Hl
    by (vm_compute; reflexivity).
  split.
  - destruct (main_exit UtilsDemo.root_only 42 [] [] [] (λ _ _ s, s) (λ _ s, s)
      ["vm-manager"; "--help"] fresh_process) as [_ (dir & u & Hu & H)].
    rewrite Hu in Hd. injection Hd as ->. cbv zeta iota in H.
    assert (∀ arg0 : string, ["vm-manager"; "--help"] ≠ [arg0; "--afl-fuzz"]) as Hf by (intros ?; discriminate).
    specialize (H Hf). destruct H as [_ H].
    rewrite H; [reflexivity|]. left. eexists. reflexivity.
  - destruct (main_exit UtilsDemo.root_only 42 [] [] [] (λ _ _ s, s) (λ _ s, s)
      ["vm-manager"; "--bogus"] fresh_process) as [_ (dir & u & Hu & H)].
    exists u. rewrite Hu in Hd, Hl. injection Hd as ->. split; [exact Hu|]. split; [exact Hl|].
    apply H. intros ?; discriminate.
Defined.

(** A guest that is marked ready while the server waits. *)
Definition ready (p : nat) (n : Z) (s : Srv) : Srv :=
  (via p (SetVmReady (VmBuilder := qemu)) s).2.

End MainDemo.
